(* ===== verification/_CoqProject ===== *)
-Q . S2P
Prelude.v
Cache.v
CacheList.v
CacheRing.v
CacheListSpec.v
CacheListMove.v
CacheListGrow.v
NetBuffer.v
NetBufferSpec.v
NetBufferLost.v
NetBufferIO.v
BufferSep.v
NetBufferFind.v
Time.v
Util.v
Queue.v
NetError.v
System.v
Stamps.v
Doubles.v
Exceptions.v
LogFile.v
LogFileSpec.v
Log.v
LogSpec.v
AsyncLog.v
AsyncLogSpec.v
EventLoop.v
EventLoopSpec.v
EventLoopFacts.v
PollTable.v
LoopLife.v
Console.v
Sockets.v
Session.v
Texts.v
SessionSpec.v
Echo.v
SessionHeap.v
SessionHeapSpec.v
EchoServe.v
EchoServeSpec.v
EchoServeHeap.v
Server.v
PoolStart.v
EchoPool.v
Client.v
Listen.v
EchoMain.v
PropBuffer.v
PropBase.v
PropLoop.v
PropNet.v
PropEcho.v
PropHeap.v
PropServe.v
PropLog.v
