(* ===== verification/Prelude.v ===== *)
(** * hare: a verification of the C++ network library.

    hare (src/) is an event-driven network library: an event loop per thread ([Cycle]) on
    top of epoll or poll, TCP sessions with chained buffers, an acceptor, a server, a client
    and a pool of loops, and beside them calendar and time zones, queues and thread pools,
    a logger with rotating files and an asynchronous front, a console and small utilities.
    The development translates that code into Rocq functions and proves what it promises;
    where the code does not do what it means to, the theorem says what it does.

    ** How the code is translated

    - A C++ function becomes a function on the state it works on.  [outcome] (below) is what
      a run ends in: [Ok], [Abort] (a failed HARE_ASSERT), [Throw] (HARE_INTERNAL_FATAL and
      the exceptions of the standard library), [UB] (a null or deleted pointer, an index out
      of range, a signed overflow, an iterator that is gone), [NoFuel].  [ST] is the state
      monad over [outcome]; [EM] keeps the state when an exception is thrown, for code that
      catches.
    - Integers are [Z], with the wrap of their type written out ([u64], [i32], ...); signed
      arithmetic that may overflow is checked ([int32], [int64]).
    - Memory that is shared or freed is a heap: the nodes of a buffer (CacheList.v), the
      blocks of addresses (Sockets.v), event objects (EventLoop.v), files (LogFile.v).
    - System calls, user callbacks, the clock and the text formatting of fmt are parameters:
      every theorem holds for all of them, or states what it needs of them (a [writev] that
      does not claim to have taken more than it was offered, ...), and comes with a concrete
      instance.
    - Platform: Linux, 64 bit, little endian, as the build sets it up; HARE_DEBUG off.
      A mutex makes the operation it guards one step; threads are interleavings of steps.
    - Loops that are not structural take fuel.  Termination is proved by giving a bound that
      is enough: for the buffer the number of nodes of its ring, for timers the fuel of one
      turn; a theorem that says that an operation returns states the bound it needs.  The
      loop of [Exec] runs as long as it is given input.

    ** Files

    - Prelude.v: outcomes, monads, machine integers, lists and bytes, tactics and hints.
    - Cache.v: util::Buffer (include/hare/base/util/buffer.h) and net::detail::Cache
      (hare/net/buffer-inl.h), the growable array and one block of a buffer.
    - CacheList.v: the ring of blocks (CacheList of hare/net/buffer-inl.h and buffer.cc) on
      a heap of nodes.  CacheRing.v: the shape of the heap and pointer surgery on rings;
      CacheListSpec.v, CacheListMove.v, CacheListGrow.v: each operation against the sequence
      of blocks it stands for.
    - NetBuffer.v: net::Buffer (hare/net/buffer.cc); NetBufferSpec.v, NetBufferIO.v: it
      implements a byte queue; NetBufferLost.v: [Append] behind drained blocks; BufferSep.v:
      several buffers side by side in one heap; NetBufferFind.v: iterators (hare/net/buffer_iterator.cc) and [Find].
    - Time.v: Julian days, dates, time zones (hare/base/time/).  Util.v: timestamps, [Any]
      (util/any.h) and [AtomicHook] (util/atomic_hook.h).  Stamps.v: the calendar's own count
      of days, and the texts of dates and timestamps ([ToFmt]) in order.  Doubles.v: the code
      on floating-point numbers ([Timestamp::Difference], [CpuUsage], [DefaultMsgHandle]), on
      the binary64 of the standard library's SpecFloat.
    - Queue.v: CircularQueue and BlockingQueue (util/queue.h), the thread pool
      (util/thread_pool.h) with both policies, the latch (util/count_down_latch.cc), and an
      abstract bounded FIFO queue, which all operations of BlockingQueue refine but the one
      that takes everything.
    - Exceptions.v: the exception object (hare/base/exception.cc).
    - LogFile.v, Log.v, AsyncLog.v: files (hare/base/io/file.cc, file.h), the file backend
      with its rotation (log/backends/), messages, loggers, registry (include/hare/log/,
      hare/log/), the asynchronous logger as a step relation over logging threads and
      workers; proofs in LogFileSpec.v, LogSpec.v, AsyncLogSpec.v.
    - EventLoop.v: events, timers, both reactors and the cycle (hare/base/io/).  The reactor
      is a class [ReactorOps] of which epoll and poll are instances; EventLoopSpec.v proves the
      invariant of the loop against the laws of that interface ([BackendLaws]), EventLoopFacts.v
      single operations; PollTable.v: the array and the index of the poll reactor as a finite
      map from descriptors to events.  LoopLife.v: construction and destruction.  Console.v:
      hare/base/io/console.cc.
    - NetError.v, Sockets.v: errors, byte order, addresses, sockets (hare/net/error.cc,
      host_address.cc, socket.cc, socket_op.cc, hare/base/io/operation.cc).  System.v:
      hare/base/util/system.cc.
    - Session.v: TCP sessions (hare/net/tcp/session.cc) on the cycle of EventLoop.v and on a
      class [BufferOps] of what they need of a buffer.  SessionSpec.v: what any sequence of
      operations preserves, closing, writing, on byte sequences; SessionHeap.v: the instance
      with the buffers of NetBuffer.v in one heap; SessionHeapSpec.v: it refines the byte
      sequences.  Texts.v: names of flags and states.
    - Echo.v: the callbacks of samples/echo/echo_serve.cc and what a session with them does.
      EchoServe.v: an item of the pool with its map of sessions, their tasks and lifetimes;
      EchoServeSpec.v and EchoServeHeap.v: its invariants, on byte sequences and in the heap.
    - Server.v: acceptor, pool of cycles, server and client (hare/net/tcp/, hare/net/io_pool.h);
      PoolStart.v: the threads of the pool, from start to stop, over a class [ItemOps] of what
      a thread's item does (instance: sessions by their state); EchoPool.v: the instance whose
      items are those of EchoServe.v, the echo server on all its threads; Client.v: the client
      on the event loop; Listen.v: the acceptor in the event loop; EchoMain.v: [main] of the
      echo server.
    - PropBuffer.v, PropBase.v, PropLoop.v, PropNet.v, PropEcho.v, PropHeap.v, PropServe.v,
      PropLog.v: the main theorems, each with an instance; the most important ones are
      numbered C1 to C40.

    ** What the theorems show

    - Buffers (PropBuffer.v): adding, appending, reading, writing and skipping act on the byte
      sequence as they should and keep the ring of blocks well-formed, each under conditions
      that its comment states; the destructor frees all of it.  Two defects are theorems too: [Add] that has to realign a block is
      undefined, and a buffer that is appended to behind drained blocks can no longer be
      destroyed; others are lemmas (Buffer_Read_spins, remove_overwrites, Buffer_Find_UB).
    - Event loop (PropLoop.v): from construction through any interleaving of turns and calls
      the two maps of the reactor and the event objects agree, so that reported events are
      found; queued tasks run once, in order; registering and removing an event are inverse;
      a timer of [RunAfter] leaves the reactor without having run.  The poll reactor keeps
      exactly the interest of the active events as events enter, change and leave; a change by
      another thread that is still queued makes a removal abort (PollTable.v, poll_race).
    - Sessions (PropNet.v, PropEcho.v): no byte that was accepted is lost, repeated or
      reordered on its way; the state only moves forward; the end of the stream closes once,
      however epoll reports it; and for the echo server: what has been received is sent back,
      exactly.  New
      connections are routed and removed, retries are bounded, byte order is an involution;
      unsent bytes are dropped by a shutdown, a second connection in one wake-up aborts.
    - Sessions in memory (PropHeap.v): an echo session on its real buffers does what it does
      on byte sequences, as long as no task meets an out-buffer with drained blocks and no
      more than 64 KiB are waiting; under these conditions what an idle session reads gets
      out, all of it, and every handler on the way returns.  The two ways out are shown too:
      a slow reader corrupts the memory after four messages ([echo_corrupts], a run), and more
      than 64 KiB waiting make the read handler run for ever.
    - The server (PropServe.v): with any number of clients every session answers its own
      client; sessions live exactly as long as the map or a task refers to them, and no step
      of any kind fails but where the code of a session does; all buffers of all sessions stay
      apart in the heap and give their blocks back, under the conditions of one session.  The
      threads of the pool: a connection before they are up ends in an exception and stopping
      uses a null pointer, afterwards no interleaving fails and stopping ends them all, unless
      a session is open.  The same pool with the
      sessions themselves: connections are dealt out in turn, every session on every thread
      echoes exactly its own bytes, and a step fails only where the code of a session does.
      A client gets back a prefix of what it sent, all of it in the end; a refused client
      never tries again.  [main] starts, and after [quit] stops its pool: it ends when no
      session is left and never otherwise.
    - Queues, pools, calendar (PropBase.v): refinement of a FIFO queue, but taking all of
      several elements garbles them; workers handle items in order and at most once, and only
      [DISCARD] gives items up, which the queue counts; [JulianDayNumber] is the count of the Gregorian calendar; dates,
      seconds and local times survive the round trip, with the year 2038 as the limit; texts
      of timestamps are ordered as the times are.
    - Logs and the rest (PropLog.v): rotation loses nothing but whole files beyond the limit;
      a message reaches exactly the backends that want it; exceptions of user code are
      contained, but one of the library's own is undefined when it is destroyed; one worker
      makes the asynchronous logger equal to the synchronous one below the flush level; a full
      queue whose workers all flush is dead; [AnyCast] reads an object only as what it is, if
      the tags of types are distinct; addresses fit their buffer; no descriptor of a socket
      pair leaks, on a ledger of the open ones; console lines reach their handler.

    ** Not modelled

    - Reference counts of event objects: they stay in the state, and what depends on the last
      reference is an argument.  (Those of sessions are modelled in EchoServe.v.)
    - Windows branches, debug output, the code of fmt (its texts are parameters), memory
      orders, and templates without run-time content (type_traits.h).  [Pid], [PageSize],
      [NProcs] and [ErrnoStr] only hand on what the system says.
    - The error of floating-point rounding: Doubles.v evaluates the code on concrete numbers
      and proves symmetry, not distances from the real quotient.

    ** Limits of the theorems

    The pool with sessions (EchoPool.v) has byte sequences for buffers; the heap of blocks is
    proved for one item (EchoServeHeap.v), and items share no buffers.  That the code of a
    session does not fail is proved for the cases PropEcho.v, PropHeap.v and PropNet.v name,
    not in general, since it can fail (see the errors above). *)

From stdpp Require Export base gmap list strings fin_maps sorting.
From Stdlib Require Export ZArith Lia.

#[export] Set Default Proof Using "Type".
(* set_solver clears hypotheses it may already have cleared. *)
#[export] Set Warnings "-clear-no-such-hyp".

Declare Scope hare_scope.
Delimit Scope hare_scope with hare.
#[global] Open Scope Z_scope.

(** ** Outcomes of C++ code *)

(** The exceptions the code can raise: [Exception] is what [HARE_INTERNAL_FATAL]
    throws, [BadFunctionCall] is what calling an empty [std::function] throws,
    [OutOfRange] is what a checked [at] throws, [InvalidArgument] what [std::stoull] throws
    when there is no number, [OtherException] what code of the user may throw. *)
Inductive exn := Exception | BadFunctionCall | OutOfRange | LengthError | InvalidArgument | OtherException.

(** An execution either returns, aborts the process (a failed [HARE_ASSERT]),
    throws, runs into undefined behaviour, or has used up the fuel of the model
    without having returned. *)
Inductive outcome (A : Type) : Type :=
  | Ok (a : A)
  | Abort
  | Throw (e : exn)
  | UB
  | NoFuel.
Arguments Ok {A} a.
Arguments Abort {A}.
Arguments Throw {A} e.
Arguments UB {A}.
Arguments NoFuel {A}.

#[export] Instance outcome_ret : MRet outcome := fun A a => Ok a.
#[export] Instance outcome_bind : MBind outcome := fun A B f m =>
  match m with
  | Ok a => f a
  | Abort => Abort
  | Throw e => Throw e
  | UB => UB
  | NoFuel => NoFuel
  end.

(** [HARE_ASSERT(x)] of hare/base/fwd-inl.h. *)
Definition hare_assert (b : bool) : outcome unit :=
  if b then Ok tt else Abort.

(** [CheckNotNull], of the same file: the pointer, or an exception. *)
Definition CheckNotNull {A} (ptr : option A) : outcome A :=
  match ptr with Some p => Ok p | None => Throw Exception end.

(** A dereference of a pointer that may be null or dangling. *)
Definition deref {A} (o : option A) : outcome A :=
  match o with Some a => Ok a | None => UB end.

(** A state monad over outcomes, for the code that works on a heap. *)
Definition ST (S A : Type) : Type := S -> outcome (A * S).

#[export] Instance ST_ret {S} : MRet (ST S) := fun A a s => Ok (a, s).
#[export] Instance ST_bind {S} : MBind (ST S) := fun A B f m s =>
  match m s with
  | Ok (a, s') => f a s'
  | Abort => Abort
  | Throw e => Throw e
  | UB => UB
  | NoFuel => NoFuel
  end.

Definition lift {S A} (m : outcome A) : ST S A := fun s =>
  match m with
  | Ok a => Ok (a, s)
  | Abort => Abort
  | Throw e => Throw e
  | UB => UB
  | NoFuel => NoFuel
  end.

(** A state monad in which an exception leaves the state it was thrown in, for the code
    that catches exceptions. *)
Definition EM (S A : Type) : Type := S -> outcome A * S.

Definition outcome_cast {A B} (m : outcome A) : outcome B :=
  match m with
  | Ok _ => UB
  | Abort => Abort
  | Throw e => Throw e
  | UB => UB
  | NoFuel => NoFuel
  end.

#[export] Instance EM_ret {S} : MRet (EM S) := fun A a s => (Ok a, s).
#[export] Instance EM_bind {S} : MBind (EM S) := fun A B f m s =>
  match m s with
  | (Ok a, s') => f a s'
  | (r, s') => (outcome_cast r, s')
  end.

Definition elift {S A} (m : outcome A) : EM S A := fun s => (m, s).
Definition eget {S A} (f : S -> A) : EM S A := fun s => (Ok (f s), s).
Definition emod {S} (f : S -> S) : EM S unit := fun s => (Ok tt, f s).

(** [try m catch (...)]: aborting and undefined behaviour are not caught. *)
Definition etry {S A} (m : EM S A) (handler : exn -> EM S A) : EM S A := fun s =>
  match m s with
  | (Throw e, s') => handler e s'
  | r => r
  end.

(** A computation on a part of the state. *)
Definition zoom {S P A} (get : S -> P) (put : P -> S -> S) (m : EM P A) : EM S A := fun s =>
  let r := m (get s) in (fst r, put (snd r) s).

(** ** Machine integers *)

Definition u8 (z : Z) : Z := z mod 2 ^ 8.
Definition u16 (z : Z) : Z := z mod 2 ^ 16.
Definition u32 (z : Z) : Z := z mod 2 ^ 32.
Definition u64 (z : Z) : Z := z mod 2 ^ 64.

(** Conversion to a signed type: two's complement. *)
Definition i32 (z : Z) : Z := (z + 2 ^ 31) mod 2 ^ 32 - 2 ^ 31.

(** Signed arithmetic that overflows is undefined. *)
Definition int32 (z : Z) : outcome Z :=
  if decide (- 2 ^ 31 <= z < 2 ^ 31) then Ok z else UB.
Definition int64 (z : Z) : outcome Z :=
  if decide (- 2 ^ 63 <= z < 2 ^ 63) then Ok z else UB.

(** ** Raw memory *)

(** A byte of memory; [None] is an indeterminate (never written) byte. *)
Abbreviation cell := (option Z).

(** [Zlen l] is the length of a list as a machine size. *)
Definition Zlen {A} (l : list A) : Z := Z.of_nat (length l).

(** [memcpy]/[memmove]/[uninitialized_copy_n] into an array: an access outside
    the allocation is undefined. *)
Definition mem_write (data : list cell) (off : Z) (bs : list cell) : outcome (list cell) :=
  if decide (0 <= off /\ off + Zlen bs <= Zlen data) then
    Ok (take (Z.to_nat off) data ++ bs ++ drop (Z.to_nat (off + Zlen bs)) data)
  else UB.

Definition mem_read (data : list cell) (off n : Z) : outcome (list cell) :=
  if decide (0 <= off /\ 0 <= n /\ off + n <= Zlen data) then
    Ok (take (Z.to_nat n) (drop (Z.to_nat off) data))
  else UB.

(** A C string: the bytes before the first 0. *)
Fixpoint c_str (bytes : list Z) : list Z :=
  match bytes with
  | [] => []
  | b :: bytes => if b =? 0 then [] else b :: c_str bytes
  end.

Arguments u8 : simpl never.
Arguments u16 : simpl never.
Arguments u32 : simpl never.
Arguments u64 : simpl never.
Arguments i32 : simpl never.
Arguments int32 : simpl never.
Arguments int64 : simpl never.
Arguments Zlen : simpl never.
Arguments mem_write : simpl never.
Arguments mem_read : simpl never.

(** ** Automation *)

(** Case analysis on the boolean comparisons of [Z] that guard the code. *)
Ltac zbool :=
  repeat match goal with
  | |- context [Z.eqb ?a ?b] => destruct (Z.eqb_spec a b)
  | |- context [Z.ltb ?a ?b] => destruct (Z.ltb_spec a b)
  | |- context [Z.leb ?a ?b] => destruct (Z.leb_spec a b)
  | |- context [Z.gtb ?a ?b] => rewrite (Z.gtb_ltb a b)
  | |- context [Z.geb ?a ?b] => rewrite (Z.geb_leb a b)
  | H : context [Z.eqb ?a ?b] |- _ => destruct (Z.eqb_spec a b)
  | H : context [Z.ltb ?a ?b] |- _ => destruct (Z.ltb_spec a b)
  | H : context [Z.leb ?a ?b] |- _ => destruct (Z.leb_spec a b)
  | H : context [Z.gtb ?a ?b] |- _ => rewrite (Z.gtb_ltb a b) in H
  | H : context [Z.geb ?a ?b] |- _ => rewrite (Z.geb_leb a b) in H
  end; simpl in *.

(** Reduce binds whose first computation has a known outcome. *)
Ltac ored := cbn [mbind mret outcome_bind outcome_ret ST_bind ST_ret lift
                  hare_assert deref fst snd] in *.

(** Inversion of a successful bind. *)
Lemma bind_Ok {A B} (m : outcome A) (f : A -> outcome B) b :
  (m ≫= f) = Ok b -> exists a, m = Ok a /\ f a = Ok b.
Proof. destruct m; simpl; intros; try discriminate. eauto. Qed.

Lemma ST_bind_Ok {S A B} (m : ST S A) (f : A -> ST S B) s r :
  (m ≫= f) s = Ok r -> exists a s', m s = Ok (a, s') /\ f a s' = Ok r.
Proof.
  unfold mbind, ST_bind. destruct (m s) as [[a s']| | | |]; intros; try discriminate. eauto.
Qed.

Lemma ST_bind_run {S A B} (m : ST S A) (f : A -> ST S B) s a s' :
  m s = Ok (a, s') -> (m ≫= f) s = f a s'.
Proof. unfold mbind, ST_bind. by intros ->. Qed.

Lemma EM_bind_run {S A B} (m : EM S A) (f : A -> EM S B) s a s' :
  m s = (Ok a, s') -> (m ≫= f) s = f a s'.
Proof. unfold mbind, EM_bind. by intros ->. Qed.

(** A sequence either gets past its first part or ends with it. *)
Lemma EM_bind_inv {S A B} (m : EM S A) (f : A -> EM S B) s r s' :
  (m ≫= f) s = (r, s') ->
  (exists a s1, m s = (Ok a, s1) /\ f a s1 = (r, s')) \/
  (exists r0, m s = (r0, s') /\ (forall a, r0 <> Ok a) /\ r = outcome_cast r0).
Proof.
  unfold mbind, EM_bind. destruct (m s) as [[a| |e| |] s1]; intros H; [by left; exists a, s1|..];
    right; injection H as <- <-; eexists; split_and!; done.
Qed.

Lemma lift_run {S A} (m : outcome A) (s : S) a : m = Ok a -> lift m s = Ok (a, s).
Proof. by intros ->. Qed.

Lemma if_same {A} (b : bool) (x : A) : (if b then x else x) = x.
Proof. by destruct b. Qed.

Create HintDb hare.

(** ** Arithmetic of machine integers *)

Lemma u64_small z : 0 <= z < 2 ^ 64 -> u64 z = z.
Proof. apply Z.mod_small. Qed.

Lemma u64_bound z : 0 <= u64 z < 2 ^ 64.
Proof. apply Z.mod_pos_bound. lia. Qed.

Lemma u64_neg z : - 2 ^ 64 <= z < 0 -> u64 z = z + 2 ^ 64.
Proof.
  intros. unfold u64.
  rewrite <- (Z.mod_add z 1 (2 ^ 64)) by lia. rewrite Z.mul_1_l. apply Z.mod_small. lia.
Qed.

Lemma u64_add_l a b : u64 (u64 a + b) = u64 (a + b).
Proof. unfold u64. apply Zplus_mod_idemp_l. Qed.

Lemma u64_sub_l a b : u64 (u64 a - b) = u64 (a - b).
Proof. unfold u64. apply Zminus_mod_idemp_l. Qed.

Lemma int32_ok z : - 2 ^ 31 <= z < 2 ^ 31 -> int32 z = Ok z.
Proof. intros. unfold int32. rewrite decide_True; done. Qed.

Lemma int64_ok z : - 2 ^ 63 <= z < 2 ^ 63 -> int64 z = Ok z.
Proof. intros. unfold int64. rewrite decide_True; done. Qed.

Lemma i32_small z : - 2 ^ 31 <= z < 2 ^ 31 -> i32 z = z.
Proof. intros. unfold i32. rewrite Z.mod_small; lia. Qed.

#[export] Hint Resolve u64_small int32_ok int64_ok i32_small : hare.

(** ** Lists *)

Lemma Zlen_nonneg {A} (l : list A) : 0 <= Zlen l.
Proof. unfold Zlen. lia. Qed.

Lemma Zlen_app {A} (l k : list A) : Zlen (l ++ k) = Zlen l + Zlen k.
Proof. unfold Zlen. rewrite length_app. lia. Qed.

Lemma Zlen_nil {A} : Zlen (@nil A) = 0.
Proof. done. Qed.

Lemma Zlen_cons {A} (x : A) l : Zlen (x :: l) = Zlen l + 1.
Proof. unfold Zlen. simpl. lia. Qed.

Lemma Zlen_0_nil {A} (l : list A) : Zlen l = 0 -> l = [].
Proof. destruct l; [done|]. unfold Zlen. simpl. lia. Qed.

Lemma Zlen_replicate {A} n (x : A) : Zlen (replicate n x) = Z.of_nat n.
Proof. unfold Zlen. by rewrite length_replicate. Qed.

Lemma Zlen_take {A} n (l : list A) :
  0 <= n <= Zlen l -> Zlen (take (Z.to_nat n) l) = n.
Proof. unfold Zlen. intros. rewrite length_take. lia. Qed.

Lemma Zlen_drop {A} n (l : list A) :
  0 <= n <= Zlen l -> Zlen (drop (Z.to_nat n) l) = Zlen l - n.
Proof. unfold Zlen. intros. rewrite length_drop. lia. Qed.

Create Rewrite HintDb zlen.
#[export] Hint Rewrite @Zlen_app @Zlen_nil @Zlen_cons @Zlen_replicate : zlen.

Lemma mem_write_ok data off bs :
  0 <= off -> off + Zlen bs <= Zlen data ->
  mem_write data off bs =
    Ok (take (Z.to_nat off) data ++ bs ++ drop (Z.to_nat (off + Zlen bs)) data).
Proof. intros. unfold mem_write. by rewrite decide_True. Qed.

Lemma mem_write_oob data off bs :
  Zlen data < off + Zlen bs -> mem_write data off bs = UB.
Proof. intros. unfold mem_write. rewrite decide_False; [done|lia]. Qed.

Lemma mem_write_Ok_inv data off bs data' :
  mem_write data off bs = Ok data' ->
  0 <= off /\ off + Zlen bs <= Zlen data /\
  data' = take (Z.to_nat off) data ++ bs ++ drop (Z.to_nat (off + Zlen bs)) data.
Proof. unfold mem_write. case_decide; naive_solver. Qed.

Lemma mem_read_ok data off n :
  0 <= off -> 0 <= n -> off + n <= Zlen data ->
  mem_read data off n = Ok (take (Z.to_nat n) (drop (Z.to_nat off) data)).
Proof. intros. unfold mem_read. by rewrite decide_True. Qed.

Lemma mem_write_length data off bs data' :
  mem_write data off bs = Ok data' -> Zlen data' = Zlen data.
Proof.
  intros (? & ? & ->)%mem_write_Ok_inv. pose proof (Zlen_nonneg bs).
  rewrite !Zlen_app, Zlen_take, Zlen_drop; lia.
Qed.
