(* ===== verification/Cache.v ===== *)
(** * The contiguous buffers: [util::Buffer<char>] and [net::detail::Cache].

    Sources: include/hare/base/util/buffer.h (the growable array base class) and the
    class [Cache] of hare/net/buffer-inl.h with [Cache::Realign] and [round_up] of
    hare/net/buffer.cc.  The array [ptr_] points to is modelled by the list of its
    cells, whose length is the size of the allocation: an access outside it is
    undefined behaviour, whatever the field [capacity_] says. *)

From S2P Require Import Prelude.

(** MAX_TO_REALIGN, MIN_TO_ALLOC, MAX_SIZE of buffer-inl.h; MAX_TO_ALLOC of buffer.cc. *)
Definition MAX_TO_REALIGN : Z := 2048.
Definition MIN_TO_ALLOC : Z := 4096.
Definition MAX_SIZE : Z := 4294967295.
Definition MAX_TO_ALLOC : Z := 4096 * 16.

(** [Max] and [Min] of include/hare/base/fwd.h. *)
Definition hare_Max (x y : Z) : Z := if x >? y then x else y.
Definition hare_Min (x y : Z) : Z := if x <? y then x else y.

(** ** [util::Buffer<T>] at [T = char] *)

Record UBuffer := mkUBuffer {
  ptr_ : list cell;
  size_ : Z;
  capacity_ : Z
}.

(** Protected constructor [Buffer(T* p, size_t sz, size_t cap)]. *)
Definition UBuffer_ctor (p : list cell) (sz cap : Z) : UBuffer := mkUBuffer p sz cap.

(** [Set]: the data and the capacity, not the size. *)
Definition UBuffer_Set (b : UBuffer) (buf_data : list cell) (buf_capacity : Z) : UBuffer :=
  mkUBuffer buf_data (size_ b) buf_capacity.

Definition UBuffer_Clear (b : UBuffer) : UBuffer := mkUBuffer (ptr_ b) 0 (capacity_ b).

(** The operations that may call the virtual [Grow]. *)
Section virtual_grow.
Variable Grow : UBuffer -> Z -> UBuffer.

Definition UBuffer_TryReserve (b : UBuffer) (new_capacity : Z) : UBuffer :=
  if new_capacity >? capacity_ b then Grow b new_capacity else b.

Definition UBuffer_TryResize (b : UBuffer) (count : Z) : UBuffer :=
  let b := UBuffer_TryReserve b count in
  mkUBuffer (ptr_ b) (if count <=? capacity_ b then count else capacity_ b) (capacity_ b).

Definition UBuffer_PushBack (b : UBuffer) (value : Z) : outcome UBuffer :=
  let b := UBuffer_TryReserve b (u64 (size_ b + 1)) in
  data ← mem_write (ptr_ b) (size_ b) [Some value];
  Ok (mkUBuffer data (u64 (size_ b + 1)) (capacity_ b)).

(** [Append(begin, end)]: the loop runs while [begin != end]; [src] is what is
    left of the range. *)
Fixpoint UBuffer_Append (fuel : nat) (b : UBuffer) (src : list cell) : outcome UBuffer :=
  match fuel with
  | O => NoFuel
  | S fuel =>
    if decide (src = []) then Ok b
    else
      let count := Zlen src in
      let b := UBuffer_TryReserve b (u64 (size_ b + count)) in
      let free_cap := u64 (capacity_ b - size_ b) in
      let count := if free_cap <? count then free_cap else count in
      data ← mem_write (ptr_ b) (size_ b) (take (Z.to_nat count) src);
      UBuffer_Append fuel (mkUBuffer data (u64 (size_ b + count)) (capacity_ b))
        (drop (Z.to_nat count) src)
  end.
End virtual_grow.

(** ** [net::detail::Cache] *)

Record Cache := mkCache { base : UBuffer; misalign_ : Z }.

(** [Cache::Grow] ignores its argument. *)
Definition Cache_Grow (b : UBuffer) (_ : Z) : UBuffer := b.

(** [Cache(std::size_t _max_size)]: [new char[_max_size]] leaves the bytes indeterminate. *)
Definition Cache_new (max_size : Z) : Cache :=
  mkCache (UBuffer_ctor (replicate (Z.to_nat max_size) None) 0 max_size) 0.

(** [Cache(char* _data, std::size_t _max_size)]: takes over a full array. *)
Definition Cache_adopt (data : list cell) (max_size : Z) : Cache :=
  mkCache (UBuffer_ctor data max_size max_size) 0.

Definition Cache_size (c : Cache) : Z := size_ (base c).
Definition Cache_capacity (c : Cache) : Z := capacity_ (base c).
Definition Cache_Data (c : Cache) : list cell := ptr_ (base c).

Definition Cache_WriteableSize (c : Cache) : Z := u64 (Cache_capacity c - Cache_size c).
Definition Cache_ReadableSize (c : Cache) : Z := u64 (Cache_size c - misalign_ c).
Definition Cache_Full (c : Cache) : bool := Cache_size c =? Cache_capacity c.
Definition Cache_Empty (c : Cache) : bool := Cache_ReadableSize c =? 0.
Definition Cache_Clear (c : Cache) : Cache := mkCache (UBuffer_Clear (base c)) 0.
Definition Cache_Drain (c : Cache) (n : Z) : Cache := mkCache (base c) (u64 (misalign_ c + n)).
Definition Cache_Add (c : Cache) (n : Z) : Cache :=
  mkCache (mkUBuffer (Cache_Data c) (u64 (Cache_size c + n)) (Cache_capacity c)) (misalign_ c).

Definition Cache_Bzero (c : Cache) : outcome Cache :=
  data ← mem_write (Cache_Data c) 0 (replicate (Z.to_nat (Cache_capacity c)) (Some 0));
  Ok (mkCache (mkUBuffer data (Cache_size c) (Cache_capacity c)) (misalign_ c)).

(** [util::Buffer::Append] on a [Cache]. *)
Definition Cache_Append (fuel : nat) (c : Cache) (src : list cell) : outcome Cache :=
  b ← UBuffer_Append Cache_Grow fuel (base c) src;
  Ok (mkCache b (misalign_ c)).

(** [Cache::Realign]. *)
Definition Cache_Realign (c : Cache) (n : Z) : outcome (bool * Cache) :=
  let offset := Cache_ReadableSize c in
  if Cache_WriteableSize c >=? n then Ok (true, c)
  else if (u64 (Cache_WriteableSize c + misalign_ c) >? n) && (offset <=? MAX_TO_REALIGN) then
    bytes ← mem_read (Cache_Data c) (misalign_ c) offset;
    data ← mem_write (Cache_Data c) 0 bytes;
    Ok (true, mkCache (UBuffer_Set (base c) data offset) 0)
  else Ok (false, c).

(** [round_up]: the loop doubles from [MIN_TO_ALLOC]. *)
Fixpoint round_up_loop (fuel : nat) (size n : Z) : outcome Z :=
  match fuel with
  | O => NoFuel
  | S fuel => if size <? n then round_up_loop fuel (u64 (Z.shiftl size 1)) n else Ok size
  end.

Definition round_up (n : Z) : outcome Z :=
  if n <? MAX_SIZE / 2 then round_up_loop 32 MIN_TO_ALLOC n else Ok n.

(** ** The invariant of a cache and the bytes it holds *)

(** The misaligned, readable and writeable parts split an allocation whose size
    is the recorded capacity. *)
Definition Cache_ok (c : Cache) : Prop :=
  0 <= misalign_ c <= Cache_size c /\
  Cache_size c <= Cache_capacity c /\
  Cache_capacity c = Zlen (Cache_Data c) /\
  Cache_capacity c < 2 ^ 63.

(** CONTENT of the picture in buffer-inl.h. *)
Definition Cache_content (c : Cache) : list cell :=
  take (Z.to_nat (Cache_size c - misalign_ c)) (drop (Z.to_nat (misalign_ c)) (Cache_Data c)).

(** The condition under which [Realign] moves the bytes to the front. *)
Definition Cache_realigns (c : Cache) (n : Z) : bool :=
  (Cache_WriteableSize c <? n) &&
  (u64 (Cache_WriteableSize c + misalign_ c) >? n) &&
  (Cache_ReadableSize c <=? MAX_TO_REALIGN).

Ltac cunfold :=
  unfold Cache_ok, Cache_Clear, Cache_Drain, Cache_Add, Cache_new, Cache_adopt,
    Cache_Empty, Cache_WriteableSize, Cache_ReadableSize, Cache_Full,
    Cache_size, Cache_capacity, Cache_Data,
    UBuffer_Clear, UBuffer_Set, UBuffer_ctor in *;
  simpl in *.

Section cache_lemmas.
Implicit Types (c : Cache) (n : Z).

Lemma Cache_WriteableSize_ok c :
  Cache_ok c -> Cache_WriteableSize c = Cache_capacity c - Cache_size c.
Proof. intros. apply u64_small. cunfold. lia. Qed.

Lemma Cache_ReadableSize_ok c :
  Cache_ok c -> Cache_ReadableSize c = Cache_size c - misalign_ c.
Proof. intros. apply u64_small. cunfold. lia. Qed.

Lemma Cache_content_length c : Cache_ok c -> Zlen (Cache_content c) = Cache_ReadableSize c.
Proof.
  intros H. rewrite Cache_ReadableSize_ok by done. unfold Cache_content. cunfold.
  rewrite Zlen_take; [done|]. rewrite Zlen_drop; lia.
Qed.

Lemma Cache_Empty_content c : Cache_ok c -> (Cache_Empty c = true <-> Cache_content c = []).
Proof.
  intros H. unfold Cache_Empty. rewrite Z.eqb_eq, <- Cache_content_length by done.
  split; [apply Zlen_0_nil | by intros ->].
Qed.

Lemma Cache_new_ok n : 0 <= n < 2 ^ 63 -> Cache_ok (Cache_new n).
Proof. intros. cunfold. rewrite Zlen_replicate. lia. Qed.

Lemma Cache_new_content n : Cache_content (Cache_new n) = [].
Proof. done. Qed.

Lemma Cache_Clear_ok c : Cache_ok c -> Cache_ok (Cache_Clear c).
Proof. cunfold. lia. Qed.

Lemma Cache_Clear_content c : Cache_content (Cache_Clear c) = [].
Proof. done. Qed.

Lemma Cache_Drain_ok c n :
  Cache_ok c -> 0 <= n <= Cache_ReadableSize c ->
  Cache_ok (Cache_Drain c n) /\ Cache_content (Cache_Drain c n) = drop (Z.to_nat n) (Cache_content c).
Proof.
  intros H Hn. rewrite Cache_ReadableSize_ok in Hn by done.
  assert (Hm : u64 (misalign_ c + n) = misalign_ c + n) by (apply u64_small; cunfold; lia).
  unfold Cache_content. cunfold. rewrite Hm. split; [lia|].
  rewrite skipn_firstn_comm, skipn_skipn. f_equal; [lia|]. f_equal. lia.
Qed.

Lemma Cache_Add_ok c n :
  Cache_ok c -> 0 <= n <= Cache_WriteableSize c ->
  Cache_ok (Cache_Add c n) /\
  Cache_content (Cache_Add c n) =
    Cache_content c ++ take (Z.to_nat n) (drop (Z.to_nat (Cache_size c)) (Cache_Data c)).
Proof.
  intros H Hn. rewrite Cache_WriteableSize_ok in Hn by done.
  assert (Hm : u64 (Cache_size c + n) = Cache_size c + n) by (apply u64_small; cunfold; lia).
  unfold Cache_content. cunfold. rewrite Hm. split; [lia|].
  destruct H as (? & ? & Hcap & ?).
  replace (Z.to_nat (size_ (base c) + n - misalign_ c))
    with (Z.to_nat (size_ (base c) - misalign_ c) + Z.to_nat n)%nat by lia.
  rewrite <- take_take_drop. f_equal. f_equal. rewrite drop_drop. f_equal. lia.
Qed.
End cache_lemmas.

(** ** [util::Buffer::Append] on a cache *)

Section append_lemmas.
Implicit Types (c : Cache) (src : list cell).

Lemma Cache_Append_fits c src fuel :
  Cache_ok c -> Zlen src <= Cache_WriteableSize c ->
  exists c', Cache_Append (S (S fuel)) c src = Ok c' /\ Cache_ok c' /\
    Cache_content c' = Cache_content c ++ src /\
    Cache_capacity c' = Cache_capacity c /\ Cache_size c' = Cache_size c + Zlen src /\
    misalign_ c' = misalign_ c.
Proof.
  intros H Hw. rewrite Cache_WriteableSize_ok in Hw by done.
  pose proof H as (Hm & Hs & Hc & Hb). pose proof (Zlen_nonneg src) as Hl.
  unfold Cache_Append. simpl.
  destruct (decide (src = [])) as [->|Hne]; ored.
  { exists c. rewrite app_nil_r, Zlen_nil. destruct c; simpl. repeat split; auto; lia. }
  unfold UBuffer_TryReserve, Cache_Grow.
  assert (Hf : u64 (capacity_ (base c) - size_ (base c)) = capacity_ (base c) - size_ (base c))
    by (apply u64_small; cunfold; lia).
  rewrite !if_same. rewrite Hf.
  rewrite (proj2 (Z.ltb_ge _ _)) by (cunfold; lia).
  replace (Z.to_nat (Zlen src)) with (length src) by (unfold Zlen; lia).
  rewrite firstn_all, drop_all.
  rewrite mem_write_ok by (cunfold; lia). ored. rewrite decide_True by done. ored.
  eexists; split; [done|]. cunfold.
  rewrite u64_small by lia. repeat split; try lia.
  - rewrite !Zlen_app, Zlen_take, Zlen_drop; lia.
  - unfold Cache_content. cunfold. set (d := ptr_ (base c)) in *.
    rewrite drop_app_le by (rewrite length_take; unfold Zlen in *; lia).
    rewrite skipn_firstn_comm.
    rewrite firstn_app, length_take, length_drop.
    rewrite (firstn_all2 (n := Z.to_nat (size_ (base c) + Zlen src - misalign_ c)))
      by (rewrite length_take, length_drop; unfold Zlen in *; lia).
    rewrite take_app_le by (unfold Zlen in *; lia).
    rewrite (firstn_all2 src) by (unfold Zlen in *; lia).
    f_equal. f_equal. lia.
Qed.

(** With [free_cap = 0] every further iteration copies nothing. *)
Lemma UBuffer_Append_stuck fuel b src :
  src <> [] -> capacity_ b = size_ b -> 0 <= size_ b <= Zlen (ptr_ b) -> Zlen (ptr_ b) < 2 ^ 63 ->
  UBuffer_Append Cache_Grow fuel b src = NoFuel.
Proof.
  intros Hne Hcs Hsz Hb. pose proof (Zlen_nonneg src).
  revert b Hcs Hsz Hb. induction fuel as [|fuel IH]; intros b Hcs Hsz Hb; [done|]. simpl.
  rewrite decide_False by done. unfold UBuffer_TryReserve, Cache_Grow. rewrite !if_same.
  rewrite Hcs, Z.sub_diag. change (u64 0) with 0.
  destruct (Z.ltb_spec 0 (Zlen src)).
  2: { assert (src = []) by (apply Zlen_0_nil; lia). done. }
  change (take (Z.to_nat 0) src) with (@nil cell). change (drop (Z.to_nat 0) src) with src.
  rewrite mem_write_ok by (rewrite ?Zlen_nil; lia). ored. rewrite Zlen_nil, Z.add_0_r, u64_small by lia.
  apply IH; simpl; rewrite ?take_drop; lia.
Qed.

(** A range that does not fit makes the loop spin: [Cache::Grow] is empty, so
    once the free room is used up no iteration makes progress. *)
Lemma Cache_Append_spins c src fuel :
  Cache_ok c -> Cache_WriteableSize c < Zlen src -> Cache_Append fuel c src = NoFuel.
Proof.
  intros H Hw. rewrite Cache_WriteableSize_ok in Hw by done.
  pose proof H as (Hm & Hs & Hc & Hb). cunfold.
  unfold Cache_Append. destruct fuel as [|fuel]; [done|]. simpl.
  rewrite decide_False by (intros ->; rewrite Zlen_nil in Hw; lia).
  unfold UBuffer_TryReserve, Cache_Grow. rewrite !if_same.
  rewrite (u64_small (capacity_ (base c) - size_ (base c))) by lia. rewrite (proj2 (Z.ltb_lt _ _)) by lia.
  set (k := capacity_ (base c) - size_ (base c)) in *.
  assert (Hk : Zlen (take (Z.to_nat k) src) = k) by (apply Zlen_take; lia).
  rewrite mem_write_ok by lia. ored.
  rewrite UBuffer_Append_stuck; [done|..]; simpl.
  - intros He%(f_equal Zlen). rewrite Zlen_drop, Zlen_nil in He; lia.
  - rewrite u64_small; lia.
  - rewrite !Zlen_app, Hk, Zlen_take, Zlen_drop, u64_small; lia.
  - rewrite !Zlen_app, Hk, Zlen_take, Zlen_drop; lia.
Qed.
End append_lemmas.

(** ** [round_up] *)

Lemma round_up_loop_spec k n :
  forall j fuel, n <= 4096 * 2 ^ k -> 0 <= j <= k -> k <= 40 ->
    (j = 0 \/ 4096 * 2 ^ (j - 1) < n) -> (Z.to_nat (k - j) < fuel)%nat ->
    exists i, j <= i <= k /\ round_up_loop fuel (4096 * 2 ^ j) n = Ok (4096 * 2 ^ i) /\
      n <= 4096 * 2 ^ i /\ (i = 0 \/ 4096 * 2 ^ (i - 1) < n).
Proof.
  intros j fuel Hk. revert j. induction fuel as [|fuel IH]; intros j Hj H40 Hlow Hf; [lia|]. simpl.
  destruct (Z.ltb_spec (4096 * 2 ^ j) n).
  - assert (j <> k) by (intros ->; lia).
    rewrite Z.shiftl_mul_pow2 by lia.
    assert (Hs : 4096 * 2 ^ j * 2 ^ 1 = 4096 * 2 ^ (j + 1)) by (rewrite Z.pow_add_r; lia).
    rewrite Hs, u64_small.
    2: { assert (2 ^ (j + 1) <= 2 ^ 40) by (apply Z.pow_le_mono_r; lia).
         assert (0 < 2 ^ (j + 1)) by (apply Z.pow_pos_nonneg; lia). lia. }
    destruct (IH (j + 1)) as (i & ? & ? & ?); try lia.
    + right. by replace (j + 1 - 1) with j by lia.
    + exists i. intuition lia.
  - exists j. intuition lia.
Qed.

(** [round_up] always returns (its loop ends within the fuel), with a size that is
    enough; below 2 GB it is the least [4096 * 2^i] that is. *)
Lemma round_up_spec n :
  0 <= n ->
  exists m, round_up n = Ok m /\ n <= m /\
    (n < MAX_SIZE / 2 -> exists i, 0 <= i <= 19 /\ m = 4096 * 2 ^ i /\
                                   (i = 0 \/ 4096 * 2 ^ (i - 1) < n)) /\
    (MAX_SIZE / 2 <= n -> m = n).
Proof.
  intros Hn. unfold round_up. change (MAX_SIZE / 2) with 2147483647.
  destruct (Z.ltb_spec n 2147483647).
  - destruct (round_up_loop_spec 19 n 0 32) as (i & ? & Hl & ? & ?); try lia.
    exists (4096 * 2 ^ i). change MIN_TO_ALLOC with (4096 * 2 ^ 0).
    repeat split; [done|lia| |lia]. intros _. exists i. intuition lia.
  - exists n. repeat split; lia.
Qed.

Lemma round_up_bounds n :
  0 <= n <= MAX_SIZE -> exists m, round_up n = Ok m /\ n <= m /\ 0 < m < 2 ^ 63.
Proof.
  intros Hn. destruct (round_up_spec n) as (m & Hr & Hle & H1 & H2); [lia|].
  exists m. split; [done|]. split; [lia|]. unfold MAX_SIZE in *.
  destruct (Z.lt_ge_cases n (4294967295 / 2)) as [Hlt|Hge].
  - destruct (H1 Hlt) as (i & ? & -> & _).
    assert (2 ^ i <= 2 ^ 19) by (apply Z.pow_le_mono_r; lia).
    assert (0 < 2 ^ i) by (apply Z.pow_pos_nonneg; lia). lia.
  - rewrite H2 by done. change (4294967295 / 2) with 2147483647 in Hge. lia.
Qed.

(** ** [Cache::Realign] *)

Section realign_lemmas.
Implicit Types (c : Cache) (n : Z).

(** When the bytes are not moved, [Realign] leaves the cache alone and tells
    whether [n] bytes fit. *)
Lemma Cache_Realign_stays c n :
  Cache_realigns c n = false ->
  Cache_Realign c n = Ok (Cache_WriteableSize c >=? n, c).
Proof.
  unfold Cache_realigns, Cache_Realign. intros Hr.
  rewrite Z.geb_leb. destruct (Z.leb_spec n (Cache_WriteableSize c)); [done|].
  rewrite (proj2 (Z.ltb_lt _ _)) in Hr by lia. simpl in Hr. by rewrite Hr.
Qed.

(** When they are moved, the content ends up at the front, but the recorded
    size is the old one and the recorded capacity is the content's length. *)
Lemma Cache_Realign_moves c n :
  Cache_ok c -> Cache_realigns c n = true ->
  exists data, Cache_Realign c n =
      Ok (true, mkCache (mkUBuffer data (Cache_size c) (Cache_ReadableSize c)) 0) /\
    Zlen data = Zlen (Cache_Data c) /\
    take (Z.to_nat (Cache_ReadableSize c)) data = Cache_content c.
Proof.
  intros H Hr. unfold Cache_realigns in Hr. unfold Cache_Realign.
  apply andb_prop in Hr as [Hr Hmax]. apply andb_prop in Hr as [Hlt Hgt].
  rewrite Z.geb_leb, (proj2 (Z.leb_gt _ _)) by (apply Z.ltb_lt; done).
  rewrite Hgt, Hmax. simpl. pose proof (Cache_content_length _ H) as Hlen.
  rewrite Cache_ReadableSize_ok in * by done.
  assert (Hsz : Cache_size c - misalign_ c <= Zlen (Cache_Data c)) by (cunfold; lia).
  rewrite mem_read_ok by (cunfold; lia). ored.
  fold (Cache_content c).
  rewrite mem_write_ok by lia. ored.
  eexists. split; [done|]. split.
  - rewrite !Zlen_app. change (take (Z.to_nat 0) _) with (@nil cell).
    pose proof (Zlen_nonneg (Cache_content c)). rewrite Zlen_nil, Zlen_drop; lia.
  - change (take (Z.to_nat 0) (Cache_Data c)) with (@nil cell). rewrite app_nil_l.
    rewrite take_app_le by (unfold Zlen in *; lia). apply firstn_all2. unfold Zlen in *. lia.
Qed.

(** Appending the [n] bytes that made [Realign] move the content writes past the
    end of the allocation. *)
Lemma Cache_Realign_Append_overflow c src fuel :
  Cache_ok c -> Cache_realigns c (Zlen src) = true ->
  (r ← Cache_Realign c (Zlen src); Cache_Append (S fuel) (snd r) src) = UB.
Proof.
  intros H Hr. destruct (Cache_Realign_moves c (Zlen src) H Hr) as (data & -> & Hd & _).
  unfold Cache_realigns in Hr. apply andb_prop in Hr as [Hr _]. apply andb_prop in Hr as [Hlt Hgt].
  rewrite Cache_WriteableSize_ok in * by done. rewrite Cache_ReadableSize_ok in * by done.
  apply Z.ltb_lt in Hlt. rewrite Z.gtb_ltb in Hgt. apply Z.ltb_lt in Hgt.
  pose proof H as (? & ? & ? & ?). pose proof (Zlen_nonneg src).
  rewrite u64_small in Hgt by (cunfold; lia).
  ored. unfold Cache_Append. simpl.
  rewrite decide_False by (intros ->; rewrite Zlen_nil in *; cunfold; lia).
  unfold UBuffer_TryReserve, Cache_Grow. rewrite !if_same. simpl.
  rewrite (u64_neg (Cache_size c - misalign_ c - Cache_size c)) by (cunfold; lia). cunfold.
  rewrite (proj2 (Z.ltb_ge _ _)) by lia.
  rewrite firstn_all2 by (unfold Zlen; lia).
  by rewrite mem_write_oob by lia.
Qed.
End realign_lemmas.
