(* ===== verification/CacheList.v ===== *)
(** * The ring of caches: [net::detail::CacheList].

    Sources: [struct CacheList] of hare/net/buffer-inl.h and its members in
    hare/net/buffer.cc.  The list is a circular doubly linked list of heap-allocated
    nodes shared by address; the model keeps the heap ([Heap]: the live nodes by
    address) and the four fields of the object ([CacheList]), so that a node that was
    deleted, unlinked or never reached behaves as it does in the program: a
    dereference of a dead node or of a null [cache] is undefined behaviour. *)

From S2P Require Import Prelude Cache.

(** ** The heap of nodes *)

Abbreviation ptr := positive.

Record Node := mkNode { cache : option Cache; next : ptr; prev : ptr }.

(** [brk] is the next address [new] hands out; addresses are not reused. *)
Record Heap := mkHeap { nodes : gmap ptr Node; brk : ptr }.

Definition empty_heap : Heap := mkHeap ∅ 2%positive.

(** The null pointer: never allocated ([brk] starts above it). *)
Definition nullptr : ptr := 1%positive.

Abbreviation M := (ST Heap).

Definition load (p : ptr) : M Node := fun h =>
  match nodes h !! p with Some n => Ok (n, h) | None => UB end.

Definition store (p : ptr) (f : Node -> Node) : M unit := fun h =>
  match nodes h !! p with
  | Some n => Ok (tt, mkHeap (<[p := f n]> (nodes h)) (brk h))
  | None => UB
  end.

Definition n_cache (c : option Cache) (n : Node) : Node := mkNode c (next n) (prev n).
Definition n_next (q : ptr) (n : Node) : Node := mkNode (cache n) q (prev n).
Definition n_prev (q : ptr) (n : Node) : Node := mkNode (cache n) (next n) q.

(** [p->cache = ...], [p->next = q], [p->prev = q] *)
Definition set_cache (p : ptr) (c : option Cache) : M unit := store p (n_cache c).
Definition set_next (p q : ptr) : M unit := store p (n_next q).
Definition set_prev (p q : ptr) : M unit := store p (n_prev q).

Definition new_Node : M ptr := fun h =>
  Ok (brk h, mkHeap (<[brk h := mkNode None nullptr nullptr]> (nodes h)) (Pos.succ (brk h))).

Definition delete_Node (p : ptr) : M unit := fun h =>
  match nodes h !! p with
  | Some _ => Ok (tt, mkHeap (delete p (nodes h)) (brk h))
  | None => UB
  end.

(** [( *p)->...]: the cache of a node, which must not be null. *)
Definition cache_of (p : ptr) : M Cache :=
  n ← load p; lift (deref (cache n)).

(** ** The object *)

Record CacheList := mkCacheList { head : ptr; read : ptr; write : ptr; node_size_ : Z }.

Definition with_read (cl : CacheList) (p : ptr) := mkCacheList (head cl) p (write cl) (node_size_ cl).
Definition with_write (cl : CacheList) (p : ptr) := mkCacheList (head cl) (read cl) p (node_size_ cl).
Definition with_node_size (cl : CacheList) (n : Z) := mkCacheList (head cl) (read cl) (write cl) n.

(** Constructor: a single node linked to itself. *)
Definition CacheList_ctor : M CacheList :=
  h ← new_Node;
  _ ← set_next h h;
  _ ← set_prev h h;
  mret (mkCacheList h h h 1).

Definition CacheList_Begin (cl : CacheList) : ptr := read cl.
Definition CacheList_End (cl : CacheList) : ptr := write cl.
Definition CacheList_Size (cl : CacheList) : Z := node_size_ cl.

Definition CacheList_Empty (cl : CacheList) : M bool :=
  if decide (read cl = write cl) then
    w ← load (write cl);
    mret (match cache w with None => true | Some c => Cache_Empty c end)
  else mret false.

Definition CacheList_Full (cl : CacheList) : M bool :=
  w ← load (write cl);
  mret (match cache w with
        | None => false
        | Some c => Cache_Full c && bool_decide (next w = read cl)
        end).

Definition CacheList_Swap (cl other : CacheList) : CacheList * CacheList := (other, cl).

(** [write = write->next; HARE_ASSERT(write != read);] *)
Definition advance_write (cl : CacheList) : M CacheList :=
  w ← load (write cl);
  let cl := with_write cl (next w) in
  _ ← lift (hare_assert (bool_decide (write cl <> read cl)));
  mret cl.

(** [GetNextWrite]: the result is the object, whose [End()] is the node returned. *)
Definition GetNextWrite (cl : CacheList) : M CacheList :=
  w ← load (write cl);
  match cache w with
  | None => mret cl
  | Some c =>
    if Cache_Empty c then
      _ ← set_cache (write cl) (Some (Cache_Clear c));
      mret cl
    else if decide (next w = read cl) then
      tmp ← new_Node;
      _ ← set_next tmp (next w);
      _ ← set_prev tmp (write cl);
      _ ← set_prev (next w) tmp;
      _ ← set_next (write cl) tmp;
      advance_write (with_node_size cl (u64 (node_size_ cl + 1)))
    else advance_write cl
  end.

(** [p->cache.reset(new Cache(round_up(n)))] *)
Definition reset_cache (p : ptr) (n : Z) : M unit :=
  m ← lift (round_up n);
  set_cache p (Some (Cache_new m)).

Definition CheckSize (cl : CacheList) (n : Z) : M CacheList :=
  w ← load (write cl);
  match cache w with
  | None => _ ← reset_cache (write cl) n; mret cl
  | Some c =>
    r ← lift (Cache_Realign c n);
    _ ← set_cache (write cl) (Some (snd r));
    if fst r : bool then mret cl
    else
      cl ← GetNextWrite cl;
      w ← load (write cl);
      match cache w with
      | None => _ ← reset_cache (write cl) n; mret cl
      | Some c =>
        if Cache_size c <? n then _ ← reset_cache (write cl) n; mret cl
        else mret cl
      end
  end.

(** The counting loop of [Append]. *)
Fixpoint count_chain (fuel : nat) (p q : ptr) (chain_size : Z) : M Z :=
  match fuel with
  | O => lift NoFuel
  | S fuel =>
    if decide (p = q) then mret chain_size
    else n ← load p; count_chain fuel (next n) q (chain_size + 1)
  end.

Definition CacheList_Append (fuel : nat) (cl other : CacheList) : M (CacheList * CacheList) :=
  let other_begin := read other in
  let other_end := write other in
  chain_size ← count_chain fuel other_begin other_end 1;
  b ← load other_begin;
  if decide (prev b = other_end) then
    _ ← set_next (write cl) other_begin;
    _ ← set_prev other_begin (write cl);
    _ ← set_prev (read cl) other_end;
    _ ← set_next other_end (read cl);
    let cl := with_write cl other_end in
    hd ← new_Node;
    _ ← set_next hd hd;
    _ ← set_prev hd hd;
    mret (with_node_size cl (u64 (node_size_ cl + chain_size)), mkCacheList hd hd hd 1)
  else
    let before_begin := prev b in
    e ← load other_end;
    let after_end := next e in
    _ ← set_next (write cl) other_begin;
    _ ← set_prev other_begin (write cl);
    _ ← set_prev (read cl) other_end;
    _ ← set_next other_end (read cl);
    let cl := with_write cl other_end in
    _ ← set_next before_begin after_end;
    _ ← set_prev after_end before_begin;
    mret (with_node_size cl (u64 (node_size_ cl + chain_size)),
          mkCacheList after_end after_end after_end (u64 (node_size_ other - chain_size))).

(** The first loop of [FastExpand]: what room the nodes up to [read] have. *)
Fixpoint expand_scan (fuel : nat) (rd index : ptr) (n cnt : Z) : M (ptr * Z * Z) :=
  match fuel with
  | O => lift NoFuel
  | S fuel =>
    c ← cache_of index;
    let n := u64 (n - hare_Min (Cache_WriteableSize c) n) in
    i ← load index;
    if decide (next i = rd) then mret (index, n, cnt + 1)
    else expand_scan fuel rd (next i) n (cnt + 1)
  end.

(** The second loop of [FastExpand]: new nodes while [n > 0]; [n] is not changed. *)
Fixpoint expand_alloc (fuel : nat) (index : ptr) (n cnt node_size : Z) : M (Z * Z) :=
  match fuel with
  | O => lift NoFuel
  | S fuel =>
    if n >? 0 then
      m ← lift (round_up n);
      let alloc_size := hare_Min m MAX_TO_ALLOC in
      tmp ← new_Node;
      _ ← set_cache tmp (Some (Cache_new alloc_size));
      i ← load index;
      _ ← set_prev tmp index;
      _ ← set_next tmp (next i);
      _ ← set_prev (next i) tmp;
      _ ← set_next index tmp;
      expand_alloc fuel tmp n (cnt + 1) (u64 (node_size + 1))
    else mret (cnt, node_size)
  end.

Definition FastExpand (fuel : nat) (cl : CacheList) (n : Z) : M (Z * CacheList) :=
  cl ← GetNextWrite cl;
  let index := write cl in
  w ← load index;
  _ ← match cache w with
      | None => m ← lift (round_up n); set_cache index (Some (Cache_new (hare_Min m MAX_TO_ALLOC)))
      | Some _ => mret tt
      end;
  s ← expand_scan fuel (read cl) index n 0;
  r ← expand_alloc fuel (fst (fst s)) (snd (fst s)) (snd s) (node_size_ cl);
  mret (fst r, with_node_size cl (snd r)).

(** [Add]: gives [n] bytes that were written behind the writeable ends to the caches. *)
Fixpoint add_loop (fuel : nat) (rd index : ptr) (n : Z) : M ptr :=
  match fuel with
  | O => lift NoFuel
  | S fuel =>
    if n >? 0 then
      c ← cache_of index;
      let write_size := hare_Min n (Cache_WriteableSize c) in
      let c := Cache_Add c write_size in
      _ ← set_cache index (Some c);
      let n := u64 (n - write_size) in
      i ← load index;
      if Cache_Full c && bool_decide (next i <> rd) then add_loop fuel rd (next i) n
      else
        _ ← lift (hare_assert (n =? 0));
        add_loop fuel rd index n
    else mret index
  end.

Definition CacheList_Add (fuel : nat) (cl : CacheList) (n : Z) : M CacheList :=
  index ← add_loop fuel (read cl) (write cl) n;
  mret (with_write cl index).

(** [if (( *index)->Empty()) { ... }] of [Drain]: a drained node is cleared and left. *)
Definition drain_clear (wr index : ptr) (c : Cache) (need_drain : bool) : M (ptr * bool) :=
  if Cache_Empty c then
    _ ← set_cache index (Some (Cache_Clear c));
    if decide (index <> wr) then i ← load index; mret (next i, true)
    else mret (index, need_drain)
  else mret (index, need_drain).

(** The do-while loop of [Drain]: (index, what is left to drain, need_drain). *)
Fixpoint drain_loop (fuel : nat) (wr index : ptr) (n : Z) (need_drain : bool) : M (ptr * Z * bool) :=
  match fuel with
  | O => lift NoFuel
  | S fuel =>
    c ← cache_of index;
    let drain_size := hare_Min n (Cache_ReadableSize c) in
    let n := u64 (n - drain_size) in
    let c := Cache_Drain c drain_size in
    _ ← set_cache index (Some c);
    r ← drain_clear wr index c need_drain;
    if negb (n =? 0) && bool_decide (fst r <> wr) then drain_loop fuel wr (fst r) n (snd r)
    else mret (fst r, n, snd r)
  end.

(** The cleaning loop of [Drain]: deletes the nodes between [rd] and [index]. *)
Fixpoint clean_loop (fuel : nat) (rd index : ptr) (node_size : Z) : M Z :=
  match fuel with
  | O => lift NoFuel
  | S fuel =>
    r ← load rd;
    if decide (next r = index) then mret node_size
    else
      let tmp := next r in
      t ← load tmp;
      _ ← set_prev (next t) rd;
      _ ← set_next rd (next t);
      _ ← delete_Node tmp;
      clean_loop fuel rd index (u64 (node_size - 1))
  end.

Definition MAX_CHINA_SIZE : Z := 16.

Definition CacheList_Drain (fuel : nat) (cl : CacheList) (n : Z) : M CacheList :=
  r ← drain_loop fuel (write cl) (read cl) n false;
  let index := fst (fst r) in
  let n := snd (fst r) in
  let need_drain := snd r in
  _ ← (if n >? 0 then
         c ← cache_of index;
         _ ← lift (hare_assert (n <=? Cache_ReadableSize c));
         set_cache index (Some (Cache_Drain c n))
       else mret tt);
  size ← (if need_drain && (node_size_ cl >? MAX_CHINA_SIZE) then
            clean_loop fuel (read cl) index (node_size_ cl)
          else mret (node_size_ cl));
  mret (with_read (with_node_size cl size) index).

(** The loop of [Reset]: deletes every node but [hd]. *)
Fixpoint reset_loop (fuel : nat) (hd : ptr) : M unit :=
  match fuel with
  | O => lift NoFuel
  | S fuel =>
    h ← load hd;
    if decide (next h = hd) then mret tt
    else
      let tmp := next h in
      t ← load tmp;
      _ ← set_prev (next t) hd;
      _ ← set_next hd (next t);
      _ ← delete_Node tmp;
      reset_loop fuel hd
  end.

Definition CacheList_Reset (fuel : nat) (cl : CacheList) : M CacheList :=
  _ ← reset_loop fuel (head cl);
  h ← load (head cl);
  _ ← match cache h with
      | Some c => set_cache (head cl) (Some (Cache_Clear c))
      | None => mret tt
      end;
  mret (mkCacheList (head cl) (head cl) (head cl) 1).

(** Destructor. *)
Definition CacheList_dtor (fuel : nat) (cl : CacheList) : M unit :=
  cl ← CacheList_Reset fuel cl;
  delete_Node (head cl).
