(* ===== verification/CacheRing.v ===== *)
(** * Rings of nodes: the shape the heap has under a [CacheList].

    The abstract view of a list object is the sequence of its nodes in ring order,
    each with its cache.  [ring] relates the heap to that sequence; the lemmas say
    what the pointer surgery of CacheList.v does to it. *)

From S2P Require Import Prelude Cache CacheList.

(** A node of the abstract view: its address and its cache. *)
Abbreviation entry := (ptr * option Cache)%type.

(** First and last address of a sequence, with a default. *)
Definition fstp (l : list entry) (d : ptr) : ptr :=
  match l with [] => d | (x, _) :: _ => x end.

Fixpoint lstp (l : list entry) (d : ptr) : ptr :=
  match l with [] => d | (x, _) :: l => lstp l x end.

(** Every node of the sequence is alive, holds the cache the view gives it, and is
    linked to its neighbours, the last one to the first. *)
Definition ring (m : gmap ptr Node) (l : list entry) : Prop :=
  NoDup l.*1 /\
  forall l1 x c l2, l = l1 ++ (x, c) :: l2 ->
    m !! x = Some (mkNode c (fstp l2 (fstp l1 x)) (lstp l1 (lstp l2 x))).

(** Every live address is below the allocation mark. *)
Definition heap_ok (h : Heap) : Prop :=
  (nullptr < brk h)%positive /\
  forall p n, nodes h !! p = Some n -> (p < brk h)%positive.

Section sequences.
Implicit Types (l : list entry).

Lemma fstp_app l1 l2 d : fstp (l1 ++ l2) d = fstp l1 (fstp l2 d).
Proof. by destruct l1 as [|[]]. Qed.

Lemma lstp_app l1 l2 d : lstp (l1 ++ l2) d = lstp l2 (lstp l1 d).
Proof. revert d. induction l1 as [|[x c] l1 IH]; intros d; simpl; auto. Qed.

Lemma fstp_nonempty l d d' : l <> [] -> fstp l d = fstp l d'.
Proof. by destruct l as [|[]]. Qed.

Lemma lstp_nonempty l d d' : l <> [] -> lstp l d = lstp l d'.
Proof. by destruct l as [|[]]. Qed.

Lemma fstp_in l d : l <> [] -> fstp l d ∈ l.*1.
Proof. destruct l as [|[]]; [done|]. intros _. simpl. left. Qed.

Lemma lstp_in l d : l <> [] -> lstp l d ∈ l.*1.
Proof.
  revert d. induction l as [|[x c] l IH]; intros d Hne; [done|]. simpl.
  destruct l; [left|]. right. by apply IH.
Qed.

Lemma in_fst_split x l : x ∈ l.*1 -> exists c l1 l2, l = l1 ++ (x, c) :: l2.
Proof.
  intros ([y c] & -> & Hin)%list_elem_of_fmap.
  apply list_elem_of_split in Hin as (l1 & l2 & ->). eauto.
Qed.

(** A sequence without repeated addresses splits in one way at an address. *)
Lemma split_unique l1 l2 k1 k2 x c d :
  NoDup (l1 ++ (x, c) :: l2).*1 ->
  l1 ++ (x, c) :: l2 = k1 ++ (x, d) :: k2 -> l1 = k1 /\ c = d /\ l2 = k2.
Proof.
  revert k1. induction l1 as [|[y e] l1 IH]; intros [|[z f] k1] Hnd Heq; simpl in *; simplify_eq.
  - done.
  - apply NoDup_cons in Hnd as [Hx _]. contradict Hx. rewrite fmap_app. set_solver.
  - apply NoDup_cons in Hnd as [Hx _]. contradict Hx. rewrite fmap_app. set_solver.
  - apply NoDup_cons in Hnd as [_ Hnd]. destruct (IH k1) as (-> & -> & ->); auto.
Qed.
End sequences.

Section ring_lemmas.
Implicit Types (m : gmap ptr Node) (l : list entry).

Lemma ring_NoDup m l : ring m l -> NoDup l.*1.
Proof. by intros [? _]. Qed.

Lemma ring_at m l1 x c l2 :
  ring m (l1 ++ (x, c) :: l2) ->
  m !! x = Some (mkNode c (fstp l2 (fstp l1 x)) (lstp l1 (lstp l2 x))).
Proof. intros [_ H]. by apply H. Qed.

Lemma ring_alive m l x : ring m l -> x ∈ l.*1 -> is_Some (m !! x).
Proof. intros H (c & l1 & l2 & ->)%in_fst_split. rewrite (ring_at _ _ _ _ _ H). eauto. Qed.

(** The view may start at any node. *)
Lemma ring_rotate m l1 l2 : ring m (l1 ++ l2) -> ring m (l2 ++ l1).
Proof.
  intros [Hnd H]. split.
  { rewrite fmap_app in *. by rewrite (Permutation_app_comm l2.*1). }
  intros k1 x c k2 Heq.
  destruct (app_eq_app _ _ _ _ Heq) as (k & [[-> Hk]|[-> Hk]]).
  - destruct k as [|e k]; simplify_list_eq.
    + rewrite (H [] x c (k2 ++ k1)) by (by simplify_list_eq).
      by rewrite fstp_app, lstp_app.
    + rewrite (H (l1 ++ k1) x c k) by (by simplify_list_eq).
      rewrite !fstp_app, !lstp_app. done.
  - rewrite (H k x c (k2 ++ l2)) by (by simplify_list_eq).
    rewrite !fstp_app, !lstp_app. done.
Qed.
End ring_lemmas.

(** ** Running the heap operations *)

Section run.
Implicit Types (h : Heap) (p : ptr).

Lemma load_run h p n : nodes h !! p = Some n -> load p h = Ok (n, h).
Proof. unfold load. by intros ->. Qed.

Lemma store_run h p f :
  is_Some (nodes h !! p) -> store p f h = Ok (tt, mkHeap (alter f p (nodes h)) (brk h)).
Proof.
  intros [n Hn]. unfold store. rewrite Hn. do 3 f_equal.
  apply map_eq. intros i. rewrite lookup_insert, lookup_alter. case_decide; [|done].
  subst. by rewrite Hn.
Qed.

Lemma cache_of_run h p n c :
  nodes h !! p = Some n -> cache n = Some c -> cache_of p h = Ok (c, h).
Proof. intros Hn Hc. unfold cache_of. rewrite (ST_bind_run _ _ _ _ _ (load_run _ _ _ Hn)). by rewrite Hc. Qed.

Lemma delete_run h p :
  is_Some (nodes h !! p) -> delete_Node p h = Ok (tt, mkHeap (delete p (nodes h)) (brk h)).
Proof. intros [n Hn]. unfold delete_Node. by rewrite Hn. Qed.

Lemma new_run h :
  new_Node h = Ok (brk h, mkHeap (<[brk h := mkNode None nullptr nullptr]> (nodes h)) (Pos.succ (brk h))).
Proof. done. Qed.
End run.

(** Aliveness through the updates. *)
Ltac alive :=
  simpl; repeat match goal with
  | |- is_Some (alter _ _ _ !! _) => rewrite lookup_alter_is_Some
  | |- is_Some (<[_:=_]> _ !! _) => rewrite lookup_insert; case_decide; [by eauto|try done]
  | |- is_Some (delete _ _ !! _) => rewrite lookup_delete_ne by congruence
  end; eauto.

(** One step of a monadic program whose first action has a known outcome. *)
Ltac hrun L := rewrite (ST_bind_run _ _ _ _ _ L); cbv beta.

(** [set_*]: one heap update. *)
Ltac hset :=
  match goal with
  | |- context [(@mbind _ _ _ _ _ (set_next ?p ?q)) ?h] =>
      rewrite (ST_bind_run _ _ h _ _ (store_run h p (n_next q) ltac:(alive)))
  | |- context [(@mbind _ _ _ _ _ (set_prev ?p ?q)) ?h] =>
      rewrite (ST_bind_run _ _ h _ _ (store_run h p (n_prev q) ltac:(alive)))
  | |- context [(@mbind _ _ _ _ _ (set_cache ?p ?q)) ?h] =>
      rewrite (ST_bind_run _ _ h _ _ (store_run h p (n_cache q) ltac:(alive)))
  end; cbv beta; simpl nodes; simpl brk.

(** ** Surgery on a ring *)

Section surgery.
Implicit Types (m : gmap ptr Node) (l : list entry).

(** What an update at [p] leaves of the rest of the heap. *)
Definition upd (p : ptr) (f : Node -> Node) (x : ptr) (n : Node) : Node :=
  if decide (p = x) then f n else n.

Lemma lookup_alter_upd f p m x : alter f p m !! x = upd p f x <$> m !! x.
Proof.
  rewrite lookup_alter. unfold upd. destruct (decide (p = x)) as [->|]; by destruct (m !! x).
Qed.

Lemma upd_ne p f x (o : option Node) : p <> x -> upd p f x <$> o = o.
Proof. intros. unfold upd. destruct o; [|done]. simpl. by rewrite decide_False. Qed.

(** In a sequence without repetitions only the last (first) position has the
    last (first) address. *)
Lemma last_is k1 x (d : option Cache) k2 p :
  NoDup (k1 ++ (x, d) :: k2).*1 -> lstp (k1 ++ (x, d) :: k2) p = x -> k2 = [].
Proof.
  rewrite lstp_app. simpl. intros Hnd Hl. destruct k2 as [|e k2]; [done|]. exfalso.
  rewrite fmap_app in Hnd. apply NoDup_app in Hnd as (_ & _ & Hnd).
  simpl in Hnd. apply NoDup_cons in Hnd as [Hx _]. apply Hx.
  rewrite <- Hl at 1. by apply (lstp_in (e :: k2)).
Qed.

Lemma first_is k1 x (d : option Cache) k2 p :
  NoDup (k1 ++ (x, d) :: k2).*1 -> fstp (k1 ++ (x, d) :: k2) p = x -> k1 = [].
Proof.
  intros Hnd Hf. destruct k1 as [|[y e] k1]; [done|]. exfalso. simpl in *. subst y.
  apply NoDup_cons in Hnd as [Hx _]. apply Hx. rewrite fmap_app. set_solver.
Qed.

(** A new cache in one node. *)
Lemma ring_set_cache m l1 x c c' l2 :
  ring m (l1 ++ (x, c) :: l2) -> ring (alter (n_cache c') x m) (l1 ++ (x, c') :: l2).
Proof.
  intros [Hnd H].
  assert (Hnd' : NoDup (l1 ++ (x, c') :: l2).*1) by (by rewrite fmap_app in *).
  split; [done|].
  intros k1 y d k2 Heq. rewrite lookup_alter_upd. unfold upd. case_decide as Hy.
  - subst y. destruct (split_unique _ _ _ _ _ _ _ Hnd' Heq) as (<- & <- & <-).
    by rewrite (H l1 x c l2).
  - destruct (app_eq_app _ _ _ _ Heq) as (k & [[-> Hk]|[-> Hk]]);
      (destruct k as [|e k]; simplify_list_eq; [done..|]).
    + rewrite (H k1 y d (k ++ (x, c) :: l2)) by (by simplify_list_eq).
      by rewrite !fstp_app, !lstp_app.
    + rewrite (H (l1 ++ (x, c) :: k) y d k2) by (by simplify_list_eq).
      by rewrite !fstp_app, !lstp_app.
Qed.

(** [links m' L q p m]: [m'] is [m] on the segment [L], except that its last node
    points to [q] and its first node back to [p]. *)
Definition links (m' : gmap ptr Node) (L : list entry) (q p : ptr) (m : gmap ptr Node) : Prop :=
  forall x, x ∈ L.*1 ->
    m' !! x = upd (lstp L q) (n_next q) x ∘ upd (fstp L p) (n_prev p) x <$> m !! x.

Lemma links_at m m' L S q p k1 x c k2 :
  ring m (L ++ S) -> links m' L q p m -> L = k1 ++ (x, c) :: k2 ->
  m' !! x = Some (mkNode c (fstp k2 q) (lstp k1 p)).
Proof.
  intros [Hnd H] HL ->. rewrite HL by (rewrite fmap_app; set_solver).
  rewrite (H k1 x c (k2 ++ S)) by (by simplify_list_eq).
  rewrite fmap_app in Hnd. apply NoDup_app in Hnd as (Hnd & _ & _).
  simpl. unfold compose, upd. f_equal.
  destruct (decide (lstp (k1 ++ (x, c) :: k2) q = x)) as [El|El].
  - apply last_is in El as ->; [|done].
    destruct (decide (fstp _ p = x)) as [Ef|Ef].
    + by apply first_is in Ef as ->.
    + by destruct k1 as [|[]].
  - destruct k2 as [|[y e] k2]; [by rewrite lstp_app in El|].
    destruct (decide (fstp _ p = x)) as [Ef|Ef].
    + by apply first_is in Ef as ->.
    + by destruct k1 as [|[]].
Qed.

(** A segment closed on itself is a ring. *)
Lemma ring_close m m' L S :
  L <> [] -> ring m (L ++ S) -> links m' L (fstp L nullptr) (lstp L nullptr) m -> ring m' L.
Proof.
  intros Hne Hr HL. split.
  { apply ring_NoDup in Hr. rewrite fmap_app in Hr. by apply NoDup_app in Hr as (? & _). }
  intros k1 x c k2 Heq. rewrite (links_at _ _ _ _ _ _ _ _ _ _ Hr HL Heq), Heq.
  by rewrite fstp_app, lstp_app.
Qed.

(** Two segments of disjoint rings linked to each other are a ring. *)
Lemma ring_join m m' A S B T :
  A <> [] -> B <> [] -> A.*1 ## B.*1 -> ring m (A ++ S) -> ring m (B ++ T) ->
  links m' A (fstp B nullptr) (lstp B nullptr) m ->
  links m' B (fstp A nullptr) (lstp A nullptr) m ->
  ring m' (A ++ B).
Proof.
  intros HA HB Hd HrA HrB LA LB. split.
  { apply ring_NoDup in HrA, HrB. rewrite fmap_app in *.
    apply NoDup_app in HrA as (? & _). apply NoDup_app in HrB as (? & _).
    apply NoDup_app. split_and!; [done| |done]. intros x ??. by apply (Hd x). }
  intros k1 x c k2 Heq. destruct (app_eq_app _ _ _ _ Heq) as (k & [[-> Hk]|[-> Hk]]).
  - destruct k as [|e k]; simplify_list_eq.
    + rewrite (links_at m m' ((x, c) :: k2) T _ _ [] x c k2 HrB LB eq_refl). simpl. f_equal. f_equal.
      * f_equal. by apply fstp_nonempty.
      * by apply lstp_nonempty.
    + rewrite (links_at m m' (k1 ++ (x, c) :: k) S _ _ k1 x c k ltac:(by simplify_list_eq) LA eq_refl). f_equal. rewrite fstp_app, lstp_app. f_equal.
      * f_equal. by apply fstp_nonempty.
      * f_equal. by apply lstp_nonempty.
  - rewrite (links_at _ _ _ _ _ _ _ _ _ _ HrB LB Hk), fstp_app, lstp_app. f_equal. f_equal.
    + f_equal. by apply fstp_nonempty.
    + f_equal. by apply lstp_nonempty.
Qed.

(** A new node between the last and the first node. *)
Lemma ring_insert_end m m' l p c :
  ring m l -> l <> [] -> p ∉ l.*1 ->
  m' !! p = Some (mkNode c (fstp l p) (lstp l p)) -> links m' l p p m ->
  ring m' (l ++ [(p, c)]).
Proof.
  intros Hr Hne Hp Hnew HL. split.
  { apply ring_NoDup in Hr. rewrite fmap_app. apply NoDup_app. simpl. split; [done|].
    split; [set_solver|apply NoDup_singleton]. }
  rewrite <- (app_nil_r l) in Hr.
  intros k1 x d k2 Heq. destruct (app_eq_app _ _ _ _ Heq) as (k & [[-> Hk]|[-> Hk]]).
  - destruct k as [|e k]; simplify_list_eq; [by rewrite Hnew|].
    rewrite <- (app_nil_r (_ ++ _)) in Hr. simplify_list_eq.
    rewrite (links_at m m' (k1 ++ (x, d) :: k) [] p p k1 x d k); [|by simplify_list_eq|done|done].
    by rewrite fstp_app, lstp_app.
  - destruct k as [|e k]; simplify_list_eq; [by rewrite Hnew|]. by destruct k.
Qed.

(** The second node taken out. *)
Lemma ring_remove_second m m' a ca t ct l :
  ring m ((a, ca) :: (t, ct) :: l) ->
  (forall x, x <> t ->
     m' !! x = upd a (n_next (fstp l a)) x ∘ upd (fstp l a) (n_prev a) x <$> m !! x) ->
  ring m' ((a, ca) :: l).
Proof.
  intros Hr Hm. apply (ring_rotate _ l [(a, ca)]).
  assert (Hr' : ring m ((l ++ [(a, ca)]) ++ [(t, ct)])).
  { apply (ring_rotate m [(t, ct)]). by apply (ring_rotate m [(a, ca)] ((t, ct) :: l)). }
  apply (ring_close m m' _ [(t, ct)]); [by destruct l|done|].
  intros x Hx. rewrite Hm.
  - rewrite !lstp_app, !fstp_app. simpl. done.
  - intros ->. apply ring_NoDup in Hr'. rewrite fmap_app in Hr'.
    apply NoDup_app in Hr' as (_ & Hd & _). apply (Hd t); [done|]. set_solver.
Qed.
End surgery.
