(* ===== verification/CacheListSpec.v ===== *)
(** * What the operations of [CacheList] do to the ring.

    The invariant [wf] of a list object: the heap has a ring of live nodes; the nodes
    from [read] up to [write] are the active ones and hold the bytes, the nodes behind
    [write] are spare (an allocated, cleared cache); [node_size_] counts the ring and
    [head] is one of its nodes.  Each operation is shown to return, to preserve [wf]
    and to change the bytes as its name says, where the code does. *)

From S2P Require Import Prelude Cache CacheList CacheRing.

(** ** The invariant *)

Definition active_cache (e : entry) : Prop := exists c, snd e = Some c /\ Cache_ok c.

Definition cleared (c : Cache) : Prop := Cache_ok c /\ Cache_size c = 0 /\ misalign_ c = 0.

Definition spare_cache (e : entry) : Prop := exists c, snd e = Some c /\ cleared c.

(** The node [write] may not have a cache yet. *)
Definition write_cache (oc : option Cache) : Prop :=
  match oc with Some c => Cache_ok c | None => True end.

Definition entry_content (e : entry) : list cell :=
  match snd e with Some c => Cache_content c | None => [] end.

(** The bytes of a run of nodes, in order. *)
Definition contents (l : list entry) : list cell := concat (entry_content <$> l).

Record shape (h : Heap) (cl : CacheList) (front : list entry) (w : ptr)
    (wc : option Cache) (spare : list entry) : Prop := {
  sh_heap : heap_ok h;
  sh_ring : ring (nodes h) (front ++ (w, wc) :: spare);
  sh_read : read cl = fstp front w;
  sh_write : write cl = w;
  sh_front : Forall active_cache front;
  sh_wc : write_cache wc;
  sh_spare : Forall spare_cache spare
}.

(** The bookkeeping fields. *)
Record counted (cl : CacheList) (l : list entry) : Prop := {
  ct_size : node_size_ cl = u64 (Zlen l);
  ct_head : head cl ∈ l.*1
}.

Definition wf (h : Heap) (cl : CacheList) (front : list entry) (w : ptr)
    (wc : option Cache) (spare : list entry) : Prop :=
  shape h cl front w wc spare /\ counted cl (front ++ (w, wc) :: spare).

(** [frames L L' h h']: the operation took the nodes [L] to the nodes [L'], touched no other
    node that existed and left none behind. *)
Record frames (L L' : list ptr) (h h' : Heap) : Prop := {
  fr_brk : (brk h <= brk h')%positive;
  fr_new : forall p, p ∈ L' -> p ∈ L \/ (brk h <= p)%positive;
  fr_old : forall p, (p < brk h)%positive -> p ∉ L -> nodes h' !! p = nodes h !! p;
  fr_gone : forall p, is_Some (nodes h' !! p) -> (p ∈ L') \/ (p ∉ L) /\ is_Some (nodes h !! p)
}.

Lemma frames_refl L h : frames L L h h.
Proof. split; [lia|by left|done|]. intros p Hp. destruct (decide (p ∈ L)); auto. Qed.

Lemma frames_trans L1 L2 L3 h1 h2 h3 :
  frames L1 L2 h1 h2 -> frames L2 L3 h2 h3 -> frames L1 L3 h1 h3.
Proof.
  intros [B1 N1 O1 G1] [B2 N2 O2 G2]. split; [lia| | |].
  - intros p [?%N1|?]%N2; [done|right; lia].
  - intros p Hp Hn. rewrite O2, O1; [done|done|done|lia|].
    intros [?|?]%N1; [done|lia].
  - intros p [Hp|[Hn [Hp|Hp]%G1]]%G2; auto. done.
Qed.

(** Only the elements of the two sequences matter. *)
Lemma frames_iff L1 L1' L2 L2' h h' :
  (forall p, p ∈ L1 <-> p ∈ L1') -> (forall p, p ∈ L2 <-> p ∈ L2') -> frames L1 L2 h h' -> frames L1' L2' h h'.
Proof.
  intros H1 H2 [B N O G]. split; [done| | |].
  - intros p Hp%H2. apply N in Hp. by rewrite <- H1.
  - intros p Hp Hn. apply O; [done|]. by rewrite H1.
  - intros p Hp%G. by rewrite <- H1, <- H2.
Qed.

#[export] Hint Resolve frames_refl : hare.

Section contents.
Implicit Types l : list entry.

Lemma contents_app l1 l2 : contents (l1 ++ l2) = contents l1 ++ contents l2.
Proof. unfold contents. by rewrite fmap_app, concat_app. Qed.

Lemma contents_cons e l : contents (e :: l) = entry_content e ++ contents l.
Proof. done. Qed.

Lemma contents_nil : contents [] = [].
Proof. done. Qed.

Lemma contents_snoc_nil l e : entry_content e = [] -> contents (l ++ [e]) = contents l.
Proof. intros He. by rewrite contents_app, contents_cons, He, app_nil_r. Qed.

Lemma spare_content e : spare_cache e -> entry_content e = [].
Proof.
  intros (c & He & _ & Hs & Hm). unfold entry_content. rewrite He.
  unfold Cache_content. by rewrite Hs, Hm.
Qed.

Lemma contents_spare l : Forall spare_cache l -> contents l = [].
Proof.
  induction 1 as [|e l He _ IH]; [done|]. rewrite contents_cons, IH, app_nil_r.
  by apply spare_content.
Qed.

Lemma spare_active e : spare_cache e -> active_cache e.
Proof. intros (c & ? & ? & _). by exists c. Qed.
End contents.

Create Rewrite HintDb contents.
#[export] Hint Rewrite contents_app contents_cons contents_nil app_nil_r : contents.

(** ** Heap facts of a well-formed list *)

Section heap_facts.
Implicit Types (h : Heap) (l : list entry).

Lemma heap_fresh h l : heap_ok h -> ring (nodes h) l -> brk h ∉ l.*1.
Proof.
  intros [_ Hb] Hr Hin. destruct (ring_alive _ _ _ Hr Hin) as [n Hn].
  apply Hb in Hn. lia.
Qed.

Lemma heap_ok_alter h f p :
  heap_ok h -> heap_ok (mkHeap (alter f p (nodes h)) (brk h)).
Proof.
  intros [H0 Hb]. split; [done|]. simpl. intros q n. rewrite lookup_alter.
  case_decide; [|by apply Hb]. subst. destruct (nodes h !! q) eqn:E; [|done]. eauto.
Qed.

Lemma heap_ok_new h n :
  heap_ok h -> heap_ok (mkHeap (<[brk h := n]> (nodes h)) (Pos.succ (brk h))).
Proof.
  intros [H0 Hb]. split; simpl; [lia|]. intros q n'. rewrite lookup_insert.
  case_decide; [subst; lia|]. intros ?%Hb. lia.
Qed.

Lemma heap_ok_delete h p : heap_ok h -> heap_ok (mkHeap (delete p (nodes h)) (brk h)).
Proof.
  intros [H0 Hb]. split; [done|]. simpl. intros q n [_ ?]%lookup_delete_Some. eauto.
Qed.

Lemma frames_alter L h f p :
  p ∈ L -> frames L L h (mkHeap (alter f p (nodes h)) (brk h)).
Proof.
  intros Hp. split; simpl; [lia|by left| |].
  - intros q _ Hq. rewrite lookup_alter_ne; [done|]. by intros ->.
  - intros q. rewrite lookup_alter_is_Some. destruct (decide (q ∈ L)); auto.
Qed.
End heap_facts.

#[export] Hint Resolve heap_ok_alter heap_ok_new heap_ok_delete : hare.

(** ** [GetNextWrite] *)

(** What [GetNextWrite] arranges: the bytes are all before [write], and [write] has
    either no cache or a cleared one. *)
Definition fresh_write (oc : option Cache) : Prop :=
  match oc with Some c => cleared c | None => True end.

Section next_write.
Implicit Types (h : Heap) (cl : CacheList) (front spare : list entry) (wc : option Cache).

Lemma write_node h cl front w wc spare :
  shape h cl front w wc spare ->
  nodes h !! w = Some (mkNode wc (fstp spare (fstp front w)) (lstp front (lstp spare w))).
Proof. intros H. apply (ring_at _ _ _ _ _ (sh_ring _ _ _ _ _ _ H)). Qed.

Lemma write_node' h cl front w wc spare :
  shape h cl front w wc spare ->
  nodes h !! write cl = Some (mkNode wc (fstp spare (fstp front w)) (lstp front (lstp spare w))).
Proof. intros H. rewrite (sh_write _ _ _ _ _ _ H). by eapply write_node. Qed.

(** [advance_write] when there is a spare node. *)
Lemma advance_write_spare h cl front w wc spare s sc spare' :
  spare = (s, sc) :: spare' -> shape h cl front w wc spare ->
  advance_write cl h = Ok (with_write cl s, h).
Proof.
  intros -> H. unfold advance_write. rewrite (sh_write _ _ _ _ _ _ H).
  hrun (load_run _ _ _ (write_node _ _ _ _ _ _ H)). simpl.
  rewrite bool_decide_eq_true_2; [done|].
  rewrite (sh_read _ _ _ _ _ _ H).
  pose proof (ring_NoDup _ _ (sh_ring _ _ _ _ _ _ H)) as Hnd.
  rewrite fmap_app in Hnd. simpl in Hnd.
  apply NoDup_app in Hnd as (_ & Hd & Hnd).
  intros Hs. destruct front as [|[x c] front']; simpl in *; subst.
  - apply NoDup_cons in Hnd as [Hw _]. set_solver.
  - apply (Hd x); set_solver.
Qed.

(** [write->next == read]: exactly when there is no spare node. *)
Lemma write_next_read h cl front w wc spare :
  shape h cl front w wc spare ->
  (fstp spare (fstp front w) = read cl <-> spare = []).
Proof.
  intros H. rewrite (sh_read _ _ _ _ _ _ H). split; [|by intros ->].
  destruct spare as [|[s sc] spare']; [done|]. simpl. intros Hs. exfalso.
  pose proof (ring_NoDup _ _ (sh_ring _ _ _ _ _ _ H)) as Hnd.
  rewrite fmap_app in Hnd. simpl in Hnd. apply NoDup_app in Hnd as (_ & Hd & Hnd).
  destruct front as [|[x c] front']; simpl in *; subst.
  - apply NoDup_cons in Hnd as [Hw _]. set_solver.
  - apply (Hd x); set_solver.
Qed.
End next_write.

(** Linking a new node behind [write] when there is no spare one. *)
Definition link_new (h : Heap) (rd w : ptr) : Heap :=
  let tmp := brk h in
  mkHeap (alter (n_next tmp) w (alter (n_prev tmp) rd (alter (n_prev w) tmp
           (alter (n_next rd) tmp (<[tmp := mkNode None nullptr nullptr]> (nodes h))))))
    (Pos.succ tmp).

Arguments link_new : simpl never.

Lemma link_new_ring h l w :
  heap_ok h -> ring (nodes h) l -> l <> [] -> lstp l w = w ->
  ring (nodes (link_new h (fstp l w) w)) (l ++ [(brk h, None)]) /\
  heap_ok (link_new h (fstp l w) w) /\
  frames l.*1 (l ++ [(brk h, None)]).*1 h (link_new h (fstp l w) w).
Proof.
  intros Hok Hr Hne Hw. pose proof (heap_fresh _ _ Hok Hr) as Hf.
  assert (Hwin : w ∈ l.*1) by (rewrite <- Hw; by apply lstp_in).
  assert (Hrin : fstp l w ∈ l.*1) by (by apply fstp_in).
  assert (Hw' : w <> brk h) by (by intros ->).
  assert (Hr' : fstp l w <> brk h) by (intros He; by rewrite He in Hrin).
  split_and!.
  - apply (ring_insert_end (nodes h)); [done|done|done| |]; unfold link_new; simpl.
    + rewrite !lookup_alter_upd. unfold upd.
      rewrite lookup_insert_eq. simpl.
      rewrite (decide_False (P := w = brk h)), (decide_False (P := fstp l w = brk h)) by done.
      rewrite !(decide_True (P := brk h = brk h)) by done. unfold n_prev, n_next. simpl. do 2 f_equal.
      * by apply fstp_nonempty.
      * rewrite <- Hw. by apply lstp_nonempty.
    + intros x Hx. rewrite !lookup_alter_upd.
      assert (x <> brk h) by (by intros ->).
      rewrite lookup_insert_ne by done. rewrite <- !option_fmap_compose.
      apply option_fmap_ext. intros n. unfold compose, upd.
      rewrite !(decide_False (P := brk h = x)) by done.
      rewrite (lstp_nonempty l (brk h) w), Hw, (fstp_nonempty l (brk h) w) by done. done.
  - unfold link_new. split; simpl; [destruct Hok; lia|]. intros q n. rewrite !lookup_alter_upd.
    destruct (<[brk h:=_]> (nodes h) !! q) as [n'|] eqn:Hl; [|done]. intros _.
    rewrite lookup_insert in Hl. case_decide; [lia|]. apply Hok in Hl. lia.
  - unfold link_new. split; simpl; [lia| | |].
    + intros p. rewrite fmap_app. simpl. intros [?|?]%elem_of_app; [by left|]. right.
      assert (p = brk h) by set_solver. lia.
    + intros p Hp Hn. rewrite !lookup_alter_upd, lookup_insert_ne by lia.
      rewrite !upd_ne by (intros <-; done || lia). done.
    + intros p. rewrite !lookup_alter_is_Some, fmap_app. intros [n [[<- _]|[_ Hn]]%lookup_insert_Some]; [set_solver|].
      destruct (decide (p ∈ l.*1)); [set_solver|]. by eauto.
Qed.

Lemma link_new_run {A} h rd w (k : ptr -> M A) :
  is_Some (nodes h !! rd) -> is_Some (nodes h !! w) ->
  (tmp ← new_Node;
   _ ← set_next tmp rd;
   _ ← set_prev tmp w;
   _ ← set_prev rd tmp;
   _ ← set_next w tmp;
   k tmp) h = k (brk h) (link_new h rd w).
Proof. intros Hrd Hw. hrun (new_run h). by repeat hset. Qed.

Lemma last_snoc front w (wc : option Cache) d : lstp (front ++ [(w, wc)]) d = w.
Proof. by rewrite lstp_app. Qed.

Section get_next_write.
Implicit Types (h : Heap) (cl : CacheList) (front spare : list entry) (wc : option Cache).

(** A write of a cache into the node [write]. *)
Lemma shape_set_write h cl front w wc spare c :
  shape h cl front w wc spare -> write_cache (Some c) ->
  set_cache (write cl) (Some c) h = Ok (tt, mkHeap (alter (n_cache (Some c)) w (nodes h)) (brk h)) /\
  shape (mkHeap (alter (n_cache (Some c)) w (nodes h)) (brk h)) cl front w (Some c) spare /\
  frames (front ++ (w, wc) :: spare).*1 (front ++ (w, Some c) :: spare).*1 h
    (mkHeap (alter (n_cache (Some c)) w (nodes h)) (brk h)).
Proof.
  intros [Hh Hr Hrd Hw Hf Hwc Hs] Hc. split_and!.
  - rewrite Hw. apply store_run. rewrite (ring_at _ _ _ _ _ Hr). eauto.
  - split; try done; [by apply heap_ok_alter|]. simpl. by eapply ring_set_cache.
  - rewrite !fmap_app. simpl. apply frames_alter. set_solver.
Qed.

Lemma counted_cache cl front w wc wc' spare :
  counted cl (front ++ (w, wc) :: spare) -> counted cl (front ++ (w, wc') :: spare).
Proof.
  intros [Hs Hh]. split; [|by rewrite fmap_app in *].
  rewrite Hs. by autorewrite with zlen.
Qed.

(** The cache of the next write node and the spare nodes behind it. *)
Definition next_state (wc : option Cache) (spare : list entry) : option Cache * list entry :=
  match wc with
  | None => (None, spare)
  | Some c =>
    if Cache_Empty c then (Some (Cache_Clear c), spare)
    else match spare with [] => (None, []) | (_, sc) :: spare => (sc, spare) end
  end.

(** The write node is empty: it is cleared and stays. *)
Lemma GetNextWrite_empty h cl front w c spare :
  wf h cl front w (Some c) spare -> Cache_Empty c = true ->
  exists h', GetNextWrite cl h = Ok (cl, h') /\ wf h' cl front w (Some (Cache_Clear c)) spare /\
    contents front = contents (front ++ [(w, Some c)]) /\
    frames (front ++ (w, Some c) :: spare).*1 (front ++ (w, Some (Cache_Clear c)) :: spare).*1 h h'.
Proof.
  intros [Hsh Hct] He. pose proof Hsh as [Hh Hr Hrd Hw Hf Hwc Hs].
  destruct (shape_set_write _ _ _ _ _ _ (Cache_Clear c) Hsh) as (Hrun & Hsh' & Hfr); [by apply Cache_Clear_ok|].
  unfold GetNextWrite. rewrite Hw in *. hrun (load_run _ _ _ (write_node _ _ _ _ _ _ Hsh)). simpl. rewrite He. hrun Hrun.
  eexists. split_and!; [done|split; [done|by eapply counted_cache]| |done].
  symmetry. apply contents_snoc_nil. by apply Cache_Empty_content.
Qed.

(** There is no spare node: a new node is linked behind [write]. *)
Lemma GetNextWrite_new h cl front w c :
  wf h cl front w (Some c) [] -> Cache_Empty c = false ->
  exists cl' h', GetNextWrite cl h = Ok (cl', h') /\ wf h' cl' (front ++ [(w, Some c)]) (brk h) None [] /\
    frames (front ++ [(w, Some c)]).*1 ((front ++ [(w, Some c)]) ++ [(brk h, None)]).*1 h h'.
Proof.
  intros [Hsh Hct] He. pose proof Hsh as [Hh Hr Hrd Hw Hf Hwc Hs].
  assert (Hl : fstp front w = fstp (front ++ [(w, Some c)]) w) by (by rewrite fstp_app).
  assert (Hne : front ++ [(w, Some c)] <> []) by (by destruct front).
  unfold GetNextWrite. rewrite Hw. hrun (load_run _ _ _ (write_node _ _ _ _ _ _ Hsh)). simpl.
  rewrite He, decide_True by done.
  rewrite link_new_run; [|rewrite Hl; by eapply ring_alive, fstp_in|eapply ring_alive; [done|rewrite fmap_app; set_solver]].
  destruct (link_new_ring h (front ++ [(w, Some c)]) w) as (Hr' & Hok' & Hfr); [done..|by rewrite last_snoc|].
  rewrite <- Hl in Hr', Hok', Hfr. rewrite <- (assoc_L (++)) in Hr'. cbn [app] in Hr'.
  unfold advance_write. simpl write. rewrite Hw. hrun (load_run _ _ _ (ring_at _ _ _ _ _ Hr')). simpl.
  rewrite bool_decide_eq_true_2.
  2: { rewrite Hrd. intros Hb. apply (heap_fresh h _ Hh Hr). rewrite Hb, Hl. by apply fstp_in. }
  eexists _, _. split_and!; [done|split; split; simpl; try done| ].
  - by rewrite <- (assoc_L (++)).
  - by rewrite Hrd, fstp_app.
  - apply Forall_app. split; [done|]. constructor; [|done]. by exists c.
  - rewrite (ct_size _ _ Hct), u64_add_l. f_equal. autorewrite with zlen. lia.
  - pose proof (ct_head _ _ Hct) as Hhd. rewrite !fmap_app in *. simpl in *. set_solver.
  - done.
Qed.

(** The next spare node. *)
Lemma GetNextWrite_spare h cl front w c s d spare :
  wf h cl front w (Some c) ((s, Some d) :: spare) -> Cache_Empty c = false ->
  exists cl', GetNextWrite cl h = Ok (cl', h) /\ wf h cl' (front ++ [(w, Some c)]) s (Some d) spare.
Proof.
  intros [Hsh Hct] He. pose proof Hsh as [Hh Hr Hrd Hw Hf Hwc Hs].
  inversion Hs as [|? ? (d' & Hsc & Hcl) Hs']; subst. simpl in Hsc. injection Hsc as <-.
  unfold GetNextWrite. hrun (load_run _ _ _ (write_node _ _ _ _ _ _ Hsh)). cbn [cache next]. rewrite He, decide_False.
  2: { intros E. rewrite (write_next_read _ _ _ _ _ _ Hsh) in E. done. }
  rewrite (advance_write_spare _ _ _ _ _ _ _ _ _ eq_refl Hsh).
  eexists. split; [done|]. split.
  - split; simpl; try done; try (by destruct Hcl).
    + by rewrite <- (assoc_L (++)).
    + by rewrite fstp_app.
    + apply Forall_app. split; [done|]. constructor; [|done]. by exists c.
  - destruct Hct as [H1 H2]. split; simpl; [|by rewrite <- (assoc_L (++))].
    rewrite H1. f_equal. autorewrite with zlen. lia.
Qed.

Lemma GetNextWrite_spec h cl front w wc spare :
  wf h cl front w wc spare ->
  exists cl' h' front' w' wc' spare',
    GetNextWrite cl h = Ok (cl', h') /\
    wf h' cl' front' w' wc' spare' /\ fresh_write wc' /\
    contents front' = contents (front ++ [(w, wc)]) /\
    frames (front ++ (w, wc) :: spare).*1 (front' ++ (w', wc') :: spare').*1 h h' /\
    next_state wc spare = (wc', spare') /\ (wc = None -> front' = front).
Proof.
  intros Hwf. pose proof Hwf as [Hsh Hct]. pose proof Hsh as [Hh Hr Hrd Hw Hf Hwc Hs].
  destruct wc as [c|].
  2: { exists cl, h, front, w, None, spare. unfold GetNextWrite. rewrite Hw.
       hrun (load_run _ _ _ (write_node _ _ _ _ _ _ Hsh)). split_and!; try done; [|by auto with hare].
       by rewrite contents_snoc_nil. }
  unfold next_state. destruct (Cache_Empty c) eqn:He; [|destruct spare as [|[s sc] spare]].
  - destruct (GetNextWrite_empty _ _ _ _ _ _ Hwf He) as (h' & ? & ? & ? & ?).
    exists cl, h', front, w, (Some (Cache_Clear c)), spare. split_and!; try done. split; [by apply Cache_Clear_ok|done].
  - destruct (GetNextWrite_new _ _ _ _ _ Hwf He) as (cl' & h' & ? & ? & ?).
    by exists cl', h', (front ++ [(w, Some c)]), (brk h), None, [].
  - inversion Hs as [|? ? (d & Hsc & Hcl) Hs']; subst. simpl in Hsc. subst sc.
    destruct (GetNextWrite_spare _ _ _ _ _ _ _ _ Hwf He) as (cl' & ? & ?).
    exists cl', h, (front ++ [(write cl, Some c)]), s, (Some d), spare. split_and!; try done.
    rewrite <- (assoc_L (++)). apply frames_refl.
Qed.
End get_next_write.

(** ** [CheckSize] *)

Section check_size.
Implicit Types (h : Heap) (cl : CacheList) (front spare : list entry) (wc : option Cache).

(** A write into the node [write], with the bookkeeping. *)
Lemma wf_set_write h cl front w wc spare c :
  wf h cl front w wc spare -> Cache_ok c ->
  exists h', set_cache (write cl) (Some c) h = Ok (tt, h') /\ wf h' cl front w (Some c) spare /\
    frames (front ++ (w, wc) :: spare).*1 (front ++ (w, Some c) :: spare).*1 h h'.
Proof.
  intros [Hsh Hct] Hc. destruct (shape_set_write _ _ _ _ _ _ c Hsh Hc) as (Hrun & Hsh' & Hfr).
  eexists. split; [done|]. split; [|done]. split; [done|]. by eapply counted_cache.
Qed.

Lemma reset_cache_spec h cl front w wc spare n :
  wf h cl front w wc spare -> 0 <= n <= MAX_SIZE ->
  exists h' c', reset_cache (write cl) n h = Ok (tt, h') /\
    wf h' cl front w (Some c') spare /\ Cache_content c' = [] /\ n <= Cache_WriteableSize c' /\
    frames (front ++ (w, wc) :: spare).*1 (front ++ (w, Some c') :: spare).*1 h h'.
Proof.
  intros Hwf Hn. destruct (round_up_bounds n Hn) as (m & Hm & Hle & Hb).
  assert (Hok : Cache_ok (Cache_new m)) by (apply Cache_new_ok; lia).
  destruct (wf_set_write _ _ _ _ _ _ _ Hwf Hok) as (h' & Hrun & Hwf' & Hfr).
  exists h', (Cache_new m). split_and!; [|done|done| |done].
  - unfold reset_cache. by hrun (lift_run _ h _ Hm).
  - rewrite Cache_WriteableSize_ok by done. cunfold. lia.
Qed.

Lemma fresh_write_content wc : fresh_write wc -> entry_content (nullptr, wc) = [].
Proof.
  destruct wc as [c|]; [|done]. intros Hc. apply spare_content. by exists c.
Qed.

Lemma CheckSize_spec h cl front w wc spare n :
  wf h cl front w wc spare -> 0 <= n <= MAX_SIZE ->
  (forall c, wc = Some c -> Cache_realigns c n = false) ->
  exists cl' h' front' w' c' spare',
    CheckSize cl n h = Ok (cl', h') /\
    wf h' cl' front' w' (Some c') spare' /\ n <= Cache_WriteableSize c' /\
    contents (front' ++ [(w', Some c')]) = contents (front ++ [(w, wc)]) /\
    frames (front ++ (w, wc) :: spare).*1 (front' ++ (w', Some c') :: spare').*1 h h'.
Proof.
  intros Hwf Hn Hre. pose proof Hwf as [Hsh Hct].
  unfold CheckSize. hrun (load_run _ _ _ (write_node' _ _ _ _ _ _ Hsh)). cbn [cache].
  destruct wc as [c|].
  2: { destruct (reset_cache_spec _ _ _ _ _ _ n Hwf Hn) as (h' & c' & Hrun & Hwf' & Hc & Hle & Hfr).
       hrun Hrun. exists cl, h', front, w, c', spare. split_and!; try done.
       by rewrite !contents_snoc_nil. }
  hrun (lift_run _ h _ (Cache_Realign_stays c n (Hre c eq_refl))). cbn [snd fst].
  destruct (wf_set_write _ _ _ _ _ _ c Hwf (sh_wc _ _ _ _ _ _ Hsh)) as (h1 & Hrun1 & Hwf1 & Hfr1).
  hrun Hrun1. rewrite Z.geb_leb. destruct (Z.leb_spec n (Cache_WriteableSize c)) as [Hfit|Hnofit].
  { exists cl, h1, front, w, c, spare. done. }
  destruct (GetNextWrite_spec _ _ _ _ _ _ Hwf1)
    as (cl2 & h2 & fr2 & w2 & wc2 & sp2 & Hrun2 & Hwf2 & Hfresh & Hcont & Hfr2 & _).
  hrun Hrun2. pose proof Hwf2 as [Hsh2 Hct2].
  hrun (load_run _ _ _ (write_node' _ _ _ _ _ _ Hsh2)). cbn [cache].
  destruct (reset_cache_spec _ _ _ _ _ _ n Hwf2 Hn) as (h3 & c3 & Hrun3 & Hwf3 & Hc3 & Hle & Hfr3).
  assert (Hlast : contents (fr2 ++ [(w2, Some c3)]) = contents (front ++ [(w, Some c)])).
  { rewrite <- Hcont. by apply contents_snoc_nil. }
  pose proof (frames_trans _ _ _ _ _ _ Hfr1 (frames_trans _ _ _ _ _ _ Hfr2 Hfr3)) as Hfr.
  destruct wc2 as [c2|].
  - destruct Hfresh as (Hok2 & Hs2 & Hm2).
    rewrite (proj2 (Z.ltb_lt _ _)).
    + hrun Hrun3. by exists cl2, h3, fr2, w2, c3, sp2.
    + (* a cleared cache is always replaced, as its [size()] is 0 *)
      rewrite Hs2. pose proof (u64_bound (Cache_capacity c - Cache_size c)). unfold Cache_WriteableSize in *. lia.
  - hrun Hrun3. by exists cl2, h3, fr2, w2, c3, sp2.
Qed.
End check_size.

(** ** [Drain] *)

Lemma hare_Min_spec x y : hare_Min x y = Z.min x y.
Proof. unfold hare_Min. destruct (Z.ltb_spec x y); lia. Qed.

Section drain.
Implicit Types (h : Heap) (fr pre spare : list entry).

(** Writing the cache of a node in the middle of a ring. *)
Lemma set_cache_run h l1 x oc c l2 :
  heap_ok h -> ring (nodes h) (l1 ++ (x, oc) :: l2) ->
  exists h', set_cache x (Some c) h = Ok (tt, h') /\ heap_ok h' /\
    ring (nodes h') (l1 ++ (x, Some c) :: l2) /\
    frames (l1 ++ (x, oc) :: l2).*1 (l1 ++ (x, Some c) :: l2).*1 h h'.
Proof.
  intros Hok Hr. eexists. split; [|split_and!].
  - apply store_run. rewrite (ring_at _ _ _ _ _ Hr). eauto.
  - by apply heap_ok_alter.
  - simpl. by eapply ring_set_cache.
  - rewrite !fmap_app. simpl. apply frames_alter. set_solver.
Qed.

Lemma cache_of_ring h l1 x c l2 :
  ring (nodes h) (l1 ++ (x, Some c) :: l2) -> cache_of x h = Ok (c, h).
Proof. intros Hr. by eapply cache_of_run; [apply (ring_at _ _ _ _ _ Hr)|]. Qed.

(** In a ring, the segment [fr] before [w] is empty exactly when its first
    address is [w]. *)
Lemma fstp_seg m pre fr w oc spare :
  ring m (pre ++ fr ++ (w, oc) :: spare) -> (fstp fr w = w <-> fr = []).
Proof.
  intros Hr. split; [|by intros ->]. destruct fr as [|[x c] fr]; [done|]. simpl. intros ->.
  apply ring_NoDup in Hr. rewrite !fmap_app in Hr. simpl in Hr.
  apply NoDup_app in Hr as (_ & _ & Hr). apply NoDup_cons in Hr as [Hx _]. set_solver.
Qed.

(** One iteration on a node: its first [min n readable] bytes go. *)
Lemma Cache_Drain_min c n :
  Cache_ok c -> 0 <= n ->
  let k := hare_Min n (Cache_ReadableSize c) in
  Cache_ok (Cache_Drain c k) /\
  Cache_content (Cache_Drain c k) = drop (Z.to_nat n) (Cache_content c) /\
  u64 (n - k) = Z.max 0 (n - Zlen (Cache_content c)) \/ 2 ^ 64 <= n.
Proof.
  intros Hok Hn k. destruct (Z.lt_ge_cases n (2 ^ 64)) as [Hb|]; [|by right]. left.
  subst k. rewrite hare_Min_spec. pose proof (Cache_content_length c Hok) as Hl.
  pose proof (Zlen_nonneg (Cache_content c)).
  destruct (Cache_Drain_ok c (Z.min n (Cache_ReadableSize c)) Hok) as [H1 H2]; [lia|].
  split; [done|]. split.
  - rewrite H2. destruct (Z.le_ge_cases n (Cache_ReadableSize c)).
    + by rewrite Z.min_l.
    + rewrite Z.min_r, !drop_ge; [done|unfold Zlen in *; lia..].
  - rewrite u64_small; lia.
Qed.

(** [drain_clear] on the write node. *)
Lemma drain_clear_write h pre w c spare need :
  heap_ok h -> Cache_ok c -> ring (nodes h) (pre ++ (w, Some c) :: spare) ->
  exists h' c', drain_clear w w c need h = Ok ((w, need), h') /\ heap_ok h' /\ Cache_ok c' /\
    ring (nodes h') (pre ++ (w, Some c') :: spare) /\ Cache_content c' = Cache_content c /\
    frames (pre ++ (w, Some c) :: spare).*1 (pre ++ (w, Some c') :: spare).*1 h h'.
Proof.
  intros Hok Hc Hr. unfold drain_clear. destruct (Cache_Empty c) eqn:He.
  - destruct (set_cache_run h pre w _ (Cache_Clear c) spare Hok Hr) as (h2 & Hs2 & Hok2 & Hr2 & Hf2).
    hrun Hs2. rewrite decide_False by naive_solver.
    eexists h2, (Cache_Clear c). split_and!; [done|done|by apply Cache_Clear_ok|done| |done].
    rewrite Cache_Clear_content. symmetry. by apply Cache_Empty_content.
  - exists h, c. split_and!; auto with hare.
Qed.

(** [drain_clear] on a node before the write node. *)
Lemma drain_clear_front h pre x c fr w oc spare need :
  heap_ok h -> Cache_ok c -> ring (nodes h) (pre ++ (x, Some c) :: fr ++ (w, oc) :: spare) ->
  exists h' c', drain_clear w x c need h =
      Ok ((if Cache_Empty c then fstp fr w else x, need || Cache_Empty c), h') /\ heap_ok h' /\
    ring (nodes h') (pre ++ (x, Some c') :: fr ++ (w, oc) :: spare) /\
    (if Cache_Empty c then cleared c' else c' = c) /\
    frames (pre ++ (x, Some c) :: fr ++ (w, oc) :: spare).*1
           (pre ++ (x, Some c') :: fr ++ (w, oc) :: spare).*1 h h'.
Proof.
  intros Hok Hc Hr. unfold drain_clear. destruct (Cache_Empty c) eqn:He.
  - destruct (set_cache_run h pre x _ (Cache_Clear c) _ Hok Hr) as (h2 & Hs2 & Hok2 & Hr2 & Hf2).
    hrun Hs2. rewrite decide_True.
    2: { intros ->. apply ring_NoDup in Hr. rewrite !fmap_app in Hr. simpl in Hr.
         apply NoDup_app in Hr as (_ & _ & Hr). apply NoDup_cons in Hr as [Hx _].
         rewrite fmap_app in Hx. set_solver. }
    hrun (load_run _ _ _ (ring_at _ _ _ _ _ Hr2)).
    eexists h2, _. split_and!; [|done|done| |done].
    + rewrite orb_true_r. simpl. rewrite fstp_app. done.
    + split; [by apply Cache_Clear_ok|done].
  - exists h, c. rewrite orb_false_r. split_and!; auto with hare.
Qed.

(** What the loop of [Drain] leaves of the chain [pre ++ fr ++ write :: spare]: the nodes [d] are
    emptied, [k] and the write node hold the rest, and [n'] bytes of the write node are still to go. *)
Definition drain_post h pre fr w c spare n need (r : outcome (ptr * Z * bool * Heap)) : Prop :=
  exists h' d k c' n',
    r = Ok (fstp k w, n', need || negb (bool_decide (d = [])), h') /\
    heap_ok h' /\ ring (nodes h') (pre ++ d ++ k ++ (w, Some c') :: spare) /\
    frames (pre ++ fr ++ (w, Some c) :: spare).*1 (pre ++ d ++ k ++ (w, Some c') :: spare).*1 h h' /\
    Forall spare_cache d /\ Forall active_cache k /\ Cache_ok c' /\
    fr.*1 = d.*1 ++ k.*1 /\ 0 <= n' <= Zlen (Cache_content c') /\ (n' <> 0 -> k = []) /\
    drop (Z.to_nat n') (contents (k ++ [(w, Some c')])) =
      drop (Z.to_nat n) (contents (fr ++ [(w, Some c)])).

(** The iteration on the write node is the last one. *)
Lemma drain_loop_write h pre w c spare n need fuel :
  heap_ok h -> ring (nodes h) (pre ++ (w, Some c) :: spare) -> Cache_ok c ->
  0 <= n <= Zlen (Cache_content c) -> n < 2 ^ 64 ->
  drain_post h pre [] w c spare n need (drain_loop (S fuel) w w n need h).
Proof.
  intros Hok Hr Hc Hn H64. simpl drain_loop. hrun (cache_of_ring _ _ _ _ _ Hr).
  destruct (Cache_Drain_min c n Hc) as [(Hok1 & Hco1 & Hn1)|?]; [lia| |lia].
  set (c1 := Cache_Drain c (hare_Min n (Cache_ReadableSize c))) in *.
  rewrite Z.max_l in Hn1 by lia. rewrite Hn1.
  destruct (set_cache_run h pre w (Some c) c1 spare Hok Hr) as (h1 & Hs1 & Hok1' & Hr1 & Hf1).
  hrun Hs1.
  destruct (drain_clear_write h1 pre w c1 spare need Hok1' Hok1 Hr1)
    as (h2 & c2 & Hs2 & Hok2 & Hc2 & Hr2 & Hco2 & Hf2).
  hrun Hs2. simpl. exists h2, [], [], c2, 0. rewrite orb_false_r. simpl.
  split_and!; try done; [by eapply frames_trans|by apply Zlen_nonneg|].
  autorewrite with contents. unfold entry_content. simpl. by rewrite Hco2, Hco1.
Qed.

(** The iteration on a node before the write node either empties it and moves on, or drains part
    of it and ends the loop. *)
Lemma drain_loop_front h pre x cx fr w oc spare n need fuel :
  heap_ok h -> ring (nodes h) (pre ++ (x, Some cx) :: fr ++ (w, oc) :: spare) -> Cache_ok cx ->
  0 <= n < 2 ^ 64 ->
  exists h' c',
    heap_ok h' /\ ring (nodes h') (pre ++ (x, Some c') :: fr ++ (w, oc) :: spare) /\
    frames (pre ++ (x, Some cx) :: fr ++ (w, oc) :: spare).*1
           (pre ++ (x, Some c') :: fr ++ (w, oc) :: spare).*1 h h' /\
    if n <? Zlen (Cache_content cx) then
      Cache_ok c' /\ Cache_content c' = drop (Z.to_nat n) (Cache_content cx) /\
      drain_loop (S fuel) w x n need h = Ok (x, 0, need, h')
    else
      let n' := n - Zlen (Cache_content cx) in
      cleared c' /\
      drain_loop (S fuel) w x n need h =
        (if negb (n' =? 0) && bool_decide (fstp fr w <> w) then drain_loop fuel w (fstp fr w) n' true
         else mret (fstp fr w, n', true)) h'.
Proof.
  intros Hok Hr Hc Hn. simpl drain_loop. hrun (cache_of_ring _ _ _ _ _ Hr).
  destruct (Cache_Drain_min cx n Hc) as [(Hok1 & Hco1 & Hn1)|?]; [lia| |lia].
  set (c1 := Cache_Drain cx (hare_Min n (Cache_ReadableSize cx))) in *. rewrite Hn1.
  destruct (set_cache_run h pre x _ c1 _ Hok Hr) as (h1 & Hs1 & Hok1' & Hr1 & Hf1).
  hrun Hs1.
  destruct (drain_clear_front h1 pre x c1 fr w _ spare need Hok1' Hok1 Hr1)
    as (h2 & c2 & Hs2 & Hok2 & Hr2 & Hc2 & Hf2).
  hrun Hs2. cbn [fst snd]. exists h2, c2.
  split_and!; [done|done|by eapply frames_trans|].
  assert (He : Cache_Empty c1 = negb (n <? Zlen (Cache_content cx))).
  { apply eq_bool_prop_intro. rewrite !Is_true_true, negb_true_iff, Z.ltb_ge.
    rewrite (Cache_Empty_content c1 Hok1), Hco1. unfold Zlen.
    rewrite <- length_zero_iff_nil, length_drop. lia. }
  rewrite He in *. destruct (Z.ltb_spec n (Zlen (Cache_content cx))); simpl in *.
  - subst c2. by rewrite Z.max_l, orb_false_r by lia.
  - rewrite Z.max_r, orb_true_r by lia. done.
Qed.

Lemma drain_loop_spec fr :
  forall h pre w c spare n need fuel,
  heap_ok h -> ring (nodes h) (pre ++ fr ++ (w, Some c) :: spare) ->
  Forall active_cache fr -> Cache_ok c -> (length fr < fuel)%nat ->
  0 <= n <= Zlen (contents (fr ++ [(w, Some c)])) -> n < 2 ^ 64 ->
  drain_post h pre fr w c spare n need (drain_loop fuel w (fstp fr w) n need h).
Proof.
  induction fr as [|[x ox] fr IH]; intros h pre w c spare n need fuel Hok Hr Hact Hc Hfuel Hn H64;
    (destruct fuel as [|fuel]; [simpl in Hfuel; lia|]).
  { apply drain_loop_write; try done. autorewrite with contents in Hn. exact Hn. }
  inversion Hact as [|? ? (cx & Hcx & Hokx) Hact']; subst. simpl in Hcx. subst ox.
  destruct (drain_loop_front h pre x cx fr w (Some c) spare n need fuel Hok Hr Hokx ltac:(lia))
    as (h2 & c2 & Hok2 & Hr2 & Hf & Hrun).
  simpl fstp. change (contents (((x, Some cx) :: fr) ++ [(w, Some c)]))
    with (Cache_content cx ++ contents (fr ++ [(w, Some c)])) in Hn.
  rewrite Zlen_app in Hn. pose proof (Zlen_nonneg (Cache_content cx)) as Hpos. simpl in Hfuel.
  assert (Hassoc : forall c' l, pre ++ (x, Some c') :: l = (pre ++ [(x, Some c')]) ++ l)
    by (intros; by rewrite <- (assoc_L (++))).
  destruct (Z.ltb_spec n (Zlen (Cache_content cx))) as [Hlt|Hge].
  - (* part of the node is left *)
    destruct Hrun as (Hc2 & Hco2 & ->). exists h2, [], ((x, Some c2) :: fr), c, 0.
    rewrite orb_false_r. assert (active_cache (x, Some c2)) by (by exists c2).
    split_and!; first [done | by constructor | apply Zlen_nonneg | idtac].
    change (drop 0 (Cache_content c2 ++ contents (fr ++ [(w, Some c)])) =
            drop (Z.to_nat n) (Cache_content cx ++ contents (fr ++ [(w, Some c)]))).
    rewrite Hco2, (drop_app_le _ _ (Z.to_nat n)) by (unfold Zlen in *; lia). done.
  - (* the node is emptied *)
    destruct Hrun as [Hcl ->]. remember (n - Zlen (Cache_content cx)) as n1 eqn:Hn1e.
    assert (Hdrop : drop (Z.to_nat n) (contents (((x, Some cx) :: fr) ++ [(w, Some c)])) =
                    drop (Z.to_nat n1) (contents (fr ++ [(w, Some c)]))).
    { change (contents (((x, Some cx) :: fr) ++ [(w, Some c)]))
        with (Cache_content cx ++ contents (fr ++ [(w, Some c)])).
      rewrite drop_app_ge by (unfold Zlen in *; lia). f_equal. unfold Zlen in *. lia. }
    assert (Hsp : spare_cache (x, Some c2)) by (by exists c2).
    destruct (negb (n1 =? 0) && bool_decide (fstp fr w <> w)) eqn:Hgo.
    + rewrite Hassoc in Hr2.
      destruct (IH h2 (pre ++ [(x, Some c2)]) w c spare n1 true fuel) as
        (h' & d & k & c' & n' & Hrun & Hok' & Hr' & Hf' & Hd & Hk & Hc' & Hfst & Hn' & Hk0 & Hcon);
        try done; try lia.
      exists h', ((x, Some c2) :: d), k, c', n'. rewrite Hrun, orb_true_r.
      do 2 rewrite <- Hassoc in Hf'. rewrite <- Hassoc in Hr'.
      split_and!; try done; [exact (frames_trans _ _ _ _ _ _ Hf Hf')|by constructor|by f_equal/=|lia..|by rewrite Hdrop].
    + assert (Hstop : n1 <> 0 -> fr = []).
      { intros Hn0. apply (fstp_seg (nodes h2) (pre ++ [(x, Some c2)]) fr w (Some c) spare).
        - by rewrite <- Hassoc.
        - rewrite (proj2 (Z.eqb_neq _ _)) in Hgo by done. simpl in Hgo.
          apply bool_decide_eq_false in Hgo. by apply dec_stable. }
      exists h2, [(x, Some c2)], fr, c, n1. rewrite orb_true_r.
      split_and!; first [done | lia | by constructor | by rewrite Hdrop | idtac].
      destruct (decide (n1 = 0)) as [->|Hne]; [apply Zlen_nonneg|].
      rewrite (Hstop Hne) in Hn. autorewrite with contents in Hn.
      unfold entry_content in Hn. simpl in Hn. lia.
Qed.
End drain.

(** ** Deleting nodes: [Drain], [Reset] and the destructor *)

Section unlink.
Implicit Types (h : Heap) (l : list entry).

(** One node behind [a] is unlinked and deleted. *)
Lemma unlink_run {A} h a ca t ct l (k : M A) :
  heap_ok h -> ring (nodes h) ((a, ca) :: (t, ct) :: l) ->
  exists h',
    (tn ← load t;
     _ ← set_prev (next tn) a;
     _ ← set_next a (next tn);
     _ ← delete_Node t;
     k) h = k h' /\
    heap_ok h' /\ ring (nodes h') ((a, ca) :: l) /\ nodes h' !! t = None /\
    frames (a :: t :: l.*1) (a :: l.*1) h h'.
Proof.
  intros Hok Hr. pose proof (ring_NoDup _ _ Hr) as Hnd. simpl in Hnd.
  apply NoDup_cons in Hnd as [Ha Hnd]. apply NoDup_cons in Hnd as [Ht _].
  hrun (load_run _ _ _ (ring_at _ [(a, ca)] t ct l Hr)). simpl next.
  assert (Haa : is_Some (nodes h !! a)) by (apply (ring_alive _ _ _ Hr); left).
  assert (Hta : is_Some (nodes h !! t)) by (apply (ring_alive _ _ _ Hr); right; left).
  assert (Hfa : is_Some (nodes h !! fstp l a)).
  { destruct l as [|[y cy] l]; [done|]. apply (ring_alive _ _ _ Hr). simpl. set_solver. }
  assert (Hfin : fstp l a ∈ a :: l.*1) by (destruct l as [|[]]; simpl; set_solver).
  do 2 hset. match goal with |- context [mbind _ (delete_Node t) ?g] => hrun (delete_run g t ltac:(alive)) end.
  eexists. split; [done|]. split_and!.
  - refine (heap_ok_delete (mkHeap _ _) t _). refine (heap_ok_alter (mkHeap _ _) _ a _).
    by apply heap_ok_alter.
  - eapply ring_remove_second; [exact Hr|]. intros x Hx. simpl.
    rewrite lookup_delete_ne by done. rewrite !lookup_alter_upd. by rewrite <- option_fmap_compose.
  - apply lookup_delete_eq.
  - split; simpl; [lia|set_solver| |].
    + intros p _ Hp. rewrite lookup_delete_ne by set_solver. rewrite !lookup_alter_upd, !upd_ne by set_solver. done.
    + intros p [n [Hne Hp]%lookup_delete_Some]. assert (Hs : is_Some (nodes h !! p)).
      { rewrite <- (lookup_alter_is_Some (n_prev a) (nodes h) (fstp l a) p), <- (lookup_alter_is_Some (n_next (fstp l a)) _ a p). by exists n. }
      destruct (decide (p ∈ a :: l.*1)); [by left|]. right. split; [set_solver|done].
Qed.

Lemma clean_loop_spec mid :
  forall h a ca i ic rest size fuel,
  heap_ok h -> ring (nodes h) ((a, ca) :: mid ++ (i, ic) :: rest) -> (length mid < fuel)%nat ->
  exists h' size', clean_loop fuel a i size h = Ok (size', h') /\ heap_ok h' /\
    ring (nodes h') ((a, ca) :: (i, ic) :: rest) /\ u64 size' = u64 (size - Zlen mid) /\
    (mid <> [] -> u64 size' = size') /\ (mid = [] -> size' = size) /\
    frames ((a, ca) :: mid ++ (i, ic) :: rest).*1 ((a, ca) :: (i, ic) :: rest).*1 h h'.
Proof.
  induction mid as [|[t ct] mid IH]; intros h a ca i ic rest size fuel Hok Hr Hfuel;
    (destruct fuel as [|fuel]; [simpl in Hfuel; lia|]); simpl clean_loop;
    hrun (load_run _ _ _ (ring_at _ [] a ca _ Hr)); simpl next.
  - rewrite decide_True by done. exists h, size. autorewrite with zlen. rewrite Z.sub_0_r.
    split_and!; auto with hare. done.
  - rewrite decide_False.
    2: { simpl. intros ->. apply ring_NoDup in Hr. simpl in Hr. rewrite fmap_app in Hr. simpl in Hr.
         apply NoDup_cons in Hr as [_ Hr]. apply NoDup_cons in Hr as [Ht _]. set_solver. }
    destruct (unlink_run h a ca t ct (mid ++ (i, ic) :: rest)
                (clean_loop fuel a i (u64 (size - 1))) Hok Hr) as (h1 & Hrun & Hok1 & Hr1 & _ & Hf1).
    cbn [fstp app next].
    rewrite Hrun. simpl in Hfuel.
    destruct (IH h1 a ca i ic rest (u64 (size - 1)) fuel Hok1 Hr1 ltac:(lia))
      as (h2 & s2 & Hrun2 & Hok2 & Hr2 & Hs2 & Hs2' & Hs2'' & Hf2).
    exists h2, s2. autorewrite with zlen.
    split_and!; try done.
    + rewrite Hs2, u64_sub_l. f_equal. lia.
    + intros _. destruct mid; [|by apply Hs2']. rewrite Hs2'' by done. apply u64_small, u64_bound.
    + by eapply frames_trans.
Qed.

Lemma reset_loop_spec l :
  forall h a ca fuel,
  heap_ok h -> ring (nodes h) ((a, ca) :: l) -> (length l < fuel)%nat ->
  exists h', reset_loop fuel a h = Ok (tt, h') /\ heap_ok h' /\
    ring (nodes h') [(a, ca)] /\ (forall p, p ∈ l.*1 -> nodes h' !! p = None) /\
    frames ((a, ca) :: l).*1 [a] h h'.
Proof.
  induction l as [|[t ct] l IH]; intros h a ca fuel Hok Hr Hfuel;
    (destruct fuel as [|fuel]; [simpl in Hfuel; lia|]); simpl reset_loop;
    hrun (load_run _ _ _ (ring_at _ [] a ca _ Hr)); simpl next.
  - rewrite decide_True by done. exists h. split_and!; auto with hare. set_solver.
  - pose proof (ring_NoDup _ _ Hr) as Hnd. simpl in Hnd.
    apply NoDup_cons in Hnd as [Ha Hnd]. apply NoDup_cons in Hnd as [Ht _].
    rewrite decide_False by (simpl; set_solver).
    destruct (unlink_run h a ca t ct l (reset_loop fuel a) Hok Hr)
      as (h1 & Hrun & Hok1 & Hr1 & Hdel & Hf1).
    cbn [fstp app next]. rewrite Hrun. simpl in Hfuel.
    destruct (IH h1 a ca fuel Hok1 Hr1 ltac:(lia)) as (h2 & Hrun2 & Hok2 & Hr2 & Hdel2 & Hf2).
    exists h2. split_and!; try done; [|by eapply frames_trans].
    intros p [->|Hp]%elem_of_cons; [|by apply Hdel2]. rewrite (fr_old _ _ _ _ Hf2); [done| |].
    + pose proof (ring_alive _ _ t Hr ltac:(right; left)) as [n Hn].
      apply Hok in Hn. pose proof (fr_brk _ _ _ _ Hf1). simpl. lia.
    + simpl. set_solver.
Qed.
End unlink.

Section drain_reset.
Implicit Types (h : Heap) (cl : CacheList) (front spare : list entry).

(** The rest of [Drain] after its loop, in the order of the code: what is left is
    taken from the last node, then the drained nodes are deleted if there are too many. *)
Lemma drain_rest h d k w c n :
  forall spare, heap_ok h -> ring (nodes h) (d ++ k ++ (w, Some c) :: spare) ->
  Cache_ok c -> 0 <= n <= Zlen (Cache_content c) -> (n <> 0 -> k = []) ->
  exists h' c', 
    (if n >? 0 then
       c ← cache_of (fstp k w);
       _ ← lift (hare_assert (n <=? Cache_ReadableSize c));
       set_cache (fstp k w) (Some (Cache_Drain c n))
     else mret tt) h = Ok (tt, h') /\ heap_ok h' /\ Cache_ok c' /\
    ring (nodes h') (d ++ k ++ (w, Some c') :: spare) /\
    contents (k ++ [(w, Some c')]) = drop (Z.to_nat n) (contents (k ++ [(w, Some c)])) /\
    frames (d ++ k ++ (w, Some c) :: spare).*1 (d ++ k ++ (w, Some c') :: spare).*1 h h'.
Proof.
  intros spare Hok Hr Hc Hn Hk. pose proof (Cache_content_length c Hc) as Hl.
  destruct (Z.gtb_spec n 0) as [Hgt|Hle].
  - rewrite Hk in * by lia. simpl app in *. simpl fstp.
    hrun (cache_of_ring _ _ _ _ _ Hr). rewrite (proj2 (Z.leb_le _ _)) by lia.
    destruct (set_cache_run h d w _ (Cache_Drain c n) spare Hok Hr) as (h1 & Hs & Hok1 & Hr1 & Hf1).
    destruct (Cache_Drain_ok c n Hc ltac:(lia)) as [Hc1 Hco].
    exists h1, (Cache_Drain c n). split_and!; try done.
    autorewrite with contents. unfold entry_content. simpl. done.
  - assert (n = 0) as -> by lia. exists h, c. split_and!; auto with hare.
Qed.

Lemma counted_perm cl l l' : counted cl l -> Permutation l l' -> counted cl l'.
Proof.
  intros [Hs Hh] Hp. split.
  - rewrite Hs. unfold Zlen. by rewrite Hp.
  - by rewrite <- Hp.
Qed.

(** The drained nodes [d] become spare ones, or all but the first are deleted. *)
Lemma drain_clean h cl d k w c spare b fuel :
  heap_ok h -> ring (nodes h) (d ++ k ++ (w, Some c) :: spare) ->
  counted cl (d ++ k ++ (w, Some c) :: spare) -> Forall spare_cache d ->
  read cl = fstp d (fstp k w) -> (b = true -> d <> []) -> (length d < fuel)%nat ->
  (b = true -> head cl ∉ (tail d).*1) ->
  exists h' size d',
    (if b then clean_loop fuel (read cl) (fstp k w) (node_size_ cl)
     else mret (node_size_ cl)) h = Ok (size, h') /\ heap_ok h' /\
    ring (nodes h') (k ++ (w, Some c) :: spare ++ d') /\ Forall spare_cache d' /\ fstp d' w = fstp d w /\ (d' = [] -> d = []) /\
    counted (with_node_size cl size) (k ++ (w, Some c) :: spare ++ d') /\
    frames (d ++ k ++ (w, Some c) :: spare).*1 (k ++ (w, Some c) :: spare ++ d').*1 h h'.
Proof.
  intros Hok Hr Hct Hd Hrd Hne Hfuel Hh. destruct b; simpl.
  - destruct d as [|[a ca] d]; [by destruct Hne|]. simpl in Hrd, Hh, Hfuel. rewrite Hrd.
    assert (exists ic rest, k ++ (w, Some c) :: spare = (fstp k w, ic) :: rest) as (ic & rest & Hrest).
    { destruct k as [|[y cy] k]; simpl; eauto. }
    simpl app in Hr. rewrite Hrest in *.
    destruct (clean_loop_spec d h a ca (fstp k w) ic rest (node_size_ cl) fuel Hok Hr ltac:(lia))
      as (h1 & size & Hrun & Hok1 & Hr1 & Hs & Hs1 & Hs2 & Hf).
    exists h1, size, [(a, ca)]. destruct Hct as [Hsz Hhd].
    assert (Heq : k ++ (w, Some c) :: spare ++ [(a, ca)] = ((fstp k w, ic) :: rest) ++ [(a, ca)]).
    { rewrite <- Hrest. by simplify_list_eq. }
    rewrite Heq. split_and!; try done.
    + by apply (ring_rotate _ [(a, ca)]).
    + constructor; [|done]. by inversion Hd.
    + apply (counted_perm _ ((a, ca) :: (fstp k w, ic) :: rest)).
      2: by rewrite (Permutation_app_comm _ [(a, ca)]).
      split; simpl.
      * transitivity (u64 size).
        { destruct d; [|symmetry; by apply Hs1]. rewrite Hs2, Hsz by done.
          symmetry. apply u64_small, u64_bound. }
        rewrite Hs, Hsz, u64_sub_l. autorewrite with zlen. f_equal. lia.
      * rewrite fmap_app in Hhd. specialize (Hh eq_refl). simpl in Hhd. set_solver.
    + revert Hf. apply frames_iff; [done|]. intros p. rewrite (fmap_app _ _ [(a, ca)]). simpl. set_solver.
  - assert (Hp : (d ++ k ++ (w, Some c) :: spare) ≡ₚ (k ++ (w, Some c) :: spare ++ d)).
    { rewrite (Permutation_app_comm d). by simplify_list_eq. }
    exists h, (node_size_ cl), d. split_and!; try done.
    + apply ring_rotate in Hr. by simplify_list_eq.
    + by destruct (counted_perm cl _ _ Hct Hp).
    + generalize (frames_refl (d ++ k ++ (w, Some c) :: spare).*1 h). apply frames_iff; [done|]. intros p. by rewrite Hp.
Qed.

(** Where [head] is: it is the first active node, or one of the spare ones. *)
Definition placed (cl : CacheList) (front : list entry) (w : ptr) (spare : list entry) : Prop :=
  head cl = fstp front w \/ head cl ∈ spare.*1.

(** [Drain n] takes the first [n] bytes away.  [head] must not be among the nodes the
    cleaning deletes. *)
Lemma CacheList_Drain_spec h cl front w c spare n fuel :
  wf h cl front w (Some c) spare ->
  0 <= n <= Zlen (contents (front ++ [(w, Some c)])) -> n < 2 ^ 64 ->
  (length front < fuel)%nat ->
  node_size_ cl <= MAX_CHINA_SIZE \/ head cl ∉ (tail front).*1 ->
  exists cl' h' front' c' spare',
    CacheList_Drain fuel cl n h = Ok (cl', h') /\ wf h' cl' front' w (Some c') spare' /\
    contents (front' ++ [(w, Some c')]) = drop (Z.to_nat n) (contents (front ++ [(w, Some c)])) /\
    frames (front ++ (w, Some c) :: spare).*1 (front' ++ (w, Some c') :: spare').*1 h h' /\
    (length front' <= length front)%nat /\ (placed cl front w spare -> placed cl' front' w spare').
Proof.
  intros [[Hok Hr Hrd Hw Hfr Hwc Hsp] Hct] Hn H64 Hfuel Hhd.
  destruct (drain_loop_spec front h [] w c spare n false fuel Hok Hr Hfr Hwc Hfuel Hn H64)
    as (h1 & d & k & c1 & n1 & Hrun & Hok1 & Hr1 & Hf1 & Hd & Hk & Hc1 & Hfst & Hn1 & Hk0 & Hcon).
  simpl app in Hr1, Hf1. unfold CacheList_Drain. rewrite Hw, Hrd. hrun Hrun. cbn [fst snd orb].
  destruct (drain_rest h1 d k w c1 n1 spare Hok1 Hr1 Hc1 Hn1 Hk0)
    as (h2 & c2 & Hrun2 & Hok2 & Hc2 & Hr2 & Hcon2 & Hf2).
  hrun Hrun2.
  assert (Haddr : (front ++ (w, Some c) :: spare).*1 = (d ++ k ++ (w, Some c2) :: spare).*1).
  { rewrite !fmap_app. simpl. by rewrite Hfst, <- (assoc_L (++)). }
  assert (Hlen : length front = (length d + length k)%nat).
  { apply (f_equal length) in Hfst. rewrite length_app, !length_fmap in Hfst. done. }
  assert (Htl : (tail d).*1 ⊆ (tail front).*1).
  { destruct d as [|[x cx] d], front as [|[y cy] front]; simpl in *; [set_solver..|].
    injection Hfst as _ Hfst. change (d.*1 ⊆ front.*1). change (front.*1 = d.*1 ++ k.*1) in Hfst.
    rewrite Hfst. set_solver. }
  set (b := _ && (node_size_ cl >? MAX_CHINA_SIZE)).
  destruct (drain_clean h2 cl d k w c2 spare b fuel Hok2 Hr2) as
    (h3 & size & d' & Hrun3 & Hok3 & Hr3 & Hd' & Hfd & Hd0 & Hct3 & Hf3); [| done | | | lia | |].
  { destruct Hct as [Hs Hh]. split; [|by rewrite <- Haddr]. rewrite Hs. autorewrite with zlen.
    unfold Zlen. f_equal. lia. }
  { rewrite Hrd. destruct front as [|[y cy] front], d as [|[x cx] d], k as [|[z cz] k];
      simpl in *; congruence. }
  { subst b. by destruct d. }
  { intros Hb. destruct Hhd as [Hh|Hh]; [|set_solver]. subst b.
    apply andb_true_iff in Hb as [_ Hb]. lia. }
  rewrite Hrd in Hrun3. hrun Hrun3.
  eexists _, h3, k, c2, (spare ++ d'). split_and!; [done| | | |lia|].
  - split; [split; try done; by apply Forall_app|].
    by destruct Hct3.
  - by rewrite Hcon2, Hcon.
  - exact (frames_trans _ _ _ _ _ _ Hf1 (frames_trans _ _ _ _ _ _ Hf2 Hf3)).
  - unfold placed. simpl. rewrite fmap_app. intros [Hh|Hh]; [|right; set_solver].
    destruct d as [|[x cx] d].
    + left. destruct front as [|[] front], k as [|[] k]; simpl in *; congruence.
    + right. apply elem_of_app. right. destruct d' as [|[y cy] d']; [by specialize (Hd0 eq_refl)|].
      simpl in *. destruct front as [|[z cz] front]; simpl in *; [done|]. simplify_eq. rewrite Hh. left.
Qed.

(** [Reset] keeps the node [head] only, with a cleared cache. *)
Lemma CacheList_Reset_spec h cl front w wc spare fuel :
  wf h cl front w wc spare -> (length (front ++ spare) < fuel)%nat ->
  exists h' oc,
    CacheList_Reset fuel cl h = Ok (mkCacheList (head cl) (head cl) (head cl) 1, h') /\
    wf h' (mkCacheList (head cl) (head cl) (head cl) 1) [] (head cl) oc [] /\ fresh_write oc /\
    (forall p, p ∈ (front ++ (w, wc) :: spare).*1 -> p <> head cl -> nodes h' !! p = None) /\
    frames (front ++ (w, wc) :: spare).*1 [head cl] h h'.
Proof.
  intros [[Hok Hr Hrd Hw Hfr Hwc Hsp] [Hs Hh]] Hfuel.
  pose proof Hh as (ch & l1 & l2 & Heq)%in_fst_split.
  assert (Hlen : length (l2 ++ l1) = length (front ++ spare)).
  { apply (f_equal length) in Heq. rewrite !length_app in *. simpl in Heq. lia. }
  rewrite Heq in *. apply ring_rotate in Hr. simpl in Hr.
  destruct (reset_loop_spec (l2 ++ l1) h (head cl) ch fuel Hok Hr ltac:(lia))
    as (h1 & Hrun & Hok1 & Hr1 & Hdel & Hf1).
  assert (Hch : write_cache ch).
  { assert (He : (head cl, ch) ∈ front ++ (w, wc) :: spare) by (rewrite Heq; set_solver).
    apply elem_of_app in He as [He|[He|He]%elem_of_cons].
    - rewrite Forall_forall in Hfr. destruct (Hfr _ He) as (c' & Hc' & ?). simpl in Hc'. by subst ch.
    - by injection He as _ ->.
    - rewrite Forall_forall in Hsp. destruct (Hsp _ He) as (c' & Hc' & ? & _). simpl in Hc'. by subst ch. }
  unfold CacheList_Reset. hrun Hrun. hrun (load_run _ _ _ (ring_at _ [] _ _ [] Hr1)). simpl cache.
  assert (Hfr' : frames (l1 ++ (head cl, ch) :: l2).*1 [head cl] h h1).
  { revert Hf1. apply frames_iff; [|done]. intros p. simpl. rewrite !fmap_app. simpl. set_solver. }
  assert (Hdel' : forall p, p ∈ (l1 ++ (head cl, ch) :: l2).*1 -> p <> head cl -> nodes h1 !! p = None).
  { intros p Hp Hne. apply Hdel. rewrite fmap_app in *. simpl in Hp. set_solver. }
  destruct ch as [c|].
  - destruct (set_cache_run h1 [] (head cl) _ (Cache_Clear c) [] Hok1 Hr1) as (h2 & Hs2 & Hok2 & Hr2 & Hf2).
    hrun Hs2. exists h2, (Some (Cache_Clear c)). split_and!; [done| | | |].
    + split; split; try done; [by apply Cache_Clear_ok|]. simpl. set_solver.
    + split; [by apply Cache_Clear_ok|done].
    + intros p Hp Hne. assert (Hin : p ∈ ((head cl, Some c) :: l2 ++ l1).*1).
      { rewrite fmap_app in Hp. simpl in *. rewrite fmap_app. set_solver. }
      destruct (ring_alive _ _ p Hr Hin) as [n Hn]. apply Hok in Hn.
      rewrite (fr_old _ _ _ _ Hf2); [by apply Hdel'| |simpl; set_solver].
      pose proof (fr_brk _ _ _ _ Hf1). lia.
    + by eapply frames_trans.
  - exists h1, None. split_and!; try done. split; split; try done. simpl. set_solver.
Qed.
End drain_reset.
