(* ===== verification/CacheListMove.v ===== *)
(** * Moving chains between lists, growing a chain, and the end of a list.

    [CacheList::Append] splices the chain of another list behind [write];
    [CacheList::FastExpand] and [CacheList::Add] make room and hand it over;
    the destructor frees the ring. *)

From S2P Require Import Prelude Cache CacheList CacheRing CacheListSpec.

(** ** [Append] *)

(** The four stores that link the chain [rdB .. wB] between [wA] and [rdA]. *)
Definition splice (h : Heap) (rdA wA rdB wB : ptr) : Heap :=
  mkHeap (alter (n_next rdA) wB (alter (n_prev wB) rdA (alter (n_prev wA) rdB
            (alter (n_next rdB) wA (nodes h))))) (brk h).

Arguments splice : simpl never.

Section splice.
Implicit Types (h : Heap) (A B S T : list entry).

Lemma splice_run {X} h rdA wA rdB wB (k : M X) :
  is_Some (nodes h !! rdA) -> is_Some (nodes h !! wA) ->
  is_Some (nodes h !! rdB) -> is_Some (nodes h !! wB) ->
  (_ ← set_next wA rdB; _ ← set_prev rdB wA; _ ← set_prev rdA wB; _ ← set_next wB rdA; k) h
  = k (splice h rdA wA rdB wB).
Proof. intros. by repeat hset. Qed.

Lemma splice_heap_ok h rdA wA rdB wB : heap_ok h -> heap_ok (splice h rdA wA rdB wB).
Proof. intros. unfold splice. by do 4 refine (heap_ok_alter (mkHeap _ _) _ _ _). Qed.

(** The nodes that are not an end of one of the chains keep everything. *)
Lemma splice_other h rdA wA rdB wB x :
  x ∉ [rdA; wA; rdB; wB] -> nodes (splice h rdA wA rdB wB) !! x = nodes h !! x.
Proof.
  intros Hx. unfold splice. simpl. rewrite !lookup_alter_upd.
  rewrite !upd_ne by set_solver. done.
Qed.

Lemma splice_links h A B :
  A <> [] -> B <> [] -> A.*1 ## B.*1 ->
  let h' := splice h (fstp A nullptr) (lstp A nullptr) (fstp B nullptr) (lstp B nullptr) in
  links (nodes h') A (fstp B nullptr) (lstp B nullptr) (nodes h) /\
  links (nodes h') B (fstp A nullptr) (lstp A nullptr) (nodes h).
Proof.
  intros HA HB Hd h'. pose proof (fstp_in A nullptr HA). pose proof (lstp_in A nullptr HA).
  pose proof (fstp_in B nullptr HB). pose proof (lstp_in B nullptr HB).
  assert (forall y, y ∈ A.*1 -> y ∈ B.*1 -> False) by (intros y ??; by apply (Hd y)).
  subst h'. unfold splice, links. simpl.
  split; intros x Hx; rewrite !lookup_alter_upd.
  - rewrite (lstp_nonempty A (fstp B nullptr) nullptr), (fstp_nonempty A (lstp B nullptr) nullptr) by done.
    rewrite (upd_ne (lstp B nullptr)), (upd_ne (fstp B nullptr)) by (intros He; subst x; eauto).
    destruct (nodes h !! x) as [n|]; [|done]. simpl. unfold upd. by repeat case_decide.
  - rewrite (lstp_nonempty B (fstp A nullptr) nullptr), (fstp_nonempty B (lstp A nullptr) nullptr) by done.
    rewrite (upd_ne (lstp A nullptr)), (upd_ne (fstp A nullptr)) by (intros He; subst x; eauto).
    destruct (nodes h !! x) as [n|]; [|done]. simpl. unfold upd. by repeat case_decide.
Qed.

Lemma splice_ring h A S B T :
  A <> [] -> B <> [] -> A.*1 ## B.*1 -> ring (nodes h) (A ++ S) -> ring (nodes h) (B ++ T) ->
  ring (nodes (splice h (fstp A nullptr) (lstp A nullptr) (fstp B nullptr) (lstp B nullptr))) (A ++ B).
Proof.
  intros HA HB Hd HrA HrB. destruct (splice_links h A B HA HB Hd).
  by eapply ring_join.
Qed.

Lemma count_chain_spec l :
  forall h pre w oc rest n fuel,
  ring (nodes h) (pre ++ l ++ (w, oc) :: rest) -> (length l < fuel)%nat ->
  count_chain fuel (fstp l w) w n h = Ok (n + Zlen l, h).
Proof.
  induction l as [|[x c] l IH]; intros h pre w oc rest n fuel Hr Hfuel;
    (destruct fuel as [|fuel]; [simpl in Hfuel; lia|]); simpl.
  - rewrite decide_True by done. autorewrite with zlen. by rewrite Z.add_0_r.
  - assert (x <> w).
    { intros ->. apply ring_NoDup in Hr. rewrite fmap_app in Hr. simpl in Hr.
      apply NoDup_app in Hr as (_ & _ & Hr). apply NoDup_cons in Hr as [Hx _].
      rewrite fmap_app in Hx. set_solver. }
    rewrite decide_False by done.
    hrun (load_run _ _ _ (ring_at _ pre x c (l ++ (w, oc) :: rest) Hr)). simpl next.
    rewrite fstp_app. simpl fstp. simpl in Hfuel.
    rewrite (IH h (pre ++ [(x, c)]) w oc rest) by (rewrite <- ?(assoc_L (++)); done || lia).
    autorewrite with zlen. do 2 f_equal. lia.
Qed.

(** What is left of the other list: its spare nodes, closed into a ring. *)
Lemma close_rest h h1 B T :
  T <> [] -> ring (nodes h) (T ++ B) -> heap_ok h1 ->
  (forall x, x ∈ T.*1 -> nodes h1 !! x = nodes h !! x) ->
  let a := fstp T nullptr in let b := lstp T nullptr in
  exists h2, (forall X (k : M X), (_ ← set_next b a; _ ← set_prev a b; k) h1 = k h2) /\ heap_ok h2 /\
    ring (nodes h2) T /\ brk h2 = brk h1 /\
    (forall x, x ∉ T.*1 -> nodes h2 !! x = nodes h1 !! x).
Proof.
  intros HT Hr Hok Hold a b. pose proof (fstp_in T nullptr HT) as Ha. pose proof (lstp_in T nullptr HT) as Hb.
  assert (forall x, x ∈ T.*1 -> is_Some (nodes h1 !! x)) as Hal.
  { intros x Hx. rewrite Hold by done. apply (ring_alive _ _ _ Hr). rewrite fmap_app. set_solver. }
  eexists. split; [intros X k; by do 2 hset|]. simpl.
  split_and!; [by do 2 refine (heap_ok_alter (mkHeap _ _) _ _ _)| |done|].
  - apply (ring_close (nodes h) _ T B HT Hr). intros x Hx.
    rewrite !lookup_alter_upd, Hold by done. subst a b.
    rewrite (lstp_nonempty T (fstp T nullptr) nullptr HT), (fstp_nonempty T (lstp T nullptr) nullptr HT).
    destruct (nodes h !! x) as [n|]; [|done]. simpl. unfold upd. by repeat case_decide.
  - intros x Hx. rewrite !lookup_alter_upd, !upd_ne by (intros He; subst x; done). done.
Qed.
End splice.

(** ** A list of one new node: the constructor *)

Lemma ring_ext m m' (l : list entry) :
  (forall x, x ∈ l.*1 -> m' !! x = m !! x) -> ring m l -> ring m' l.
Proof.
  intros He [Hnd H]. split; [done|]. intros l1 x c l2 ->. rewrite He by (rewrite fmap_app; set_solver).
  by apply H.
Qed.

Lemma new_ring h :
  heap_ok h ->
  exists h', (forall X (k : ptr -> M X),
      (hd ← new_Node; _ ← set_next hd hd; _ ← set_prev hd hd; k hd) h = k (brk h) h') /\
    heap_ok h' /\ ring (nodes h') [(brk h, None)] /\ (brk h <= brk h')%positive /\
    (forall x, x <> brk h -> nodes h' !! x = nodes h !! x).
Proof.
  intros Hok. eexists. split; [intros X k; hrun (new_run h); by do 2 hset|]. simpl. split_and!.
  - do 2 refine (heap_ok_alter (mkHeap _ _) _ _ _). by apply heap_ok_new.
  - split; [apply NoDup_singleton|]. intros l1 x c l2 Heq. destruct l1 as [|? []]; simplify_eq/=.
    by rewrite !lookup_alter_eq, lookup_insert_eq.
  - lia.
  - intros x Hx. by rewrite !lookup_alter_ne, lookup_insert_ne.
Qed.

(** The constructor gives an empty, well-formed list. *)
Lemma CacheList_ctor_spec h :
  heap_ok h ->
  exists cl h', CacheList_ctor h = Ok (cl, h') /\ wf h' cl [] (brk h) None [] /\
    frames [] [brk h] h h'.
Proof.
  intros Hok. unfold CacheList_ctor.
  destruct (new_ring h Hok) as (h' & Hrun & Hok' & Hr & Hb & Hold).
  rewrite Hrun. eexists _, h'. split; [done|]. split.
  - split; split; try done. simpl. set_solver.
  - split; [done|set_solver by lia|intros p Hp _; apply Hold; lia|].
    intros p Hp. destruct (decide (p = brk h)) as [->|Hne]; [by left; left|]. right. rewrite Hold in Hp by done. set_solver.
Qed.

Section append.
#[local] Set Default Proof Using "All".

Context (h : Heap) (cl other : CacheList) (fA sA fB sB : list entry) (wA wB : ptr)
  (cA : Cache) (wcB : option Cache).
Context (HshA : shape h cl fA wA (Some cA) sA) (HwfB : wf h other fB wB wcB sB).
Context (Hdj : (fA ++ (wA, Some cA) :: sA).*1 ## (fB ++ (wB, wcB) :: sB).*1).

#[local] Abbreviation A := (fA ++ [(wA, Some cA)]).
#[local] Abbreviation B := (fB ++ [(wB, wcB)]).
#[local] Abbreviation h1 := (splice h (read cl) wA (read other) wB).

Lemma append_ends :
  fstp A nullptr = read cl /\ lstp A nullptr = wA /\
  fstp B nullptr = read other /\ lstp B nullptr = wB /\ A <> [] /\ B <> [].
Proof.
  destruct HshA as [_ _ -> _ _ _ _], HwfB as [[_ _ -> _ _ _ _] _].
  rewrite !fstp_app, !lstp_app. split_and!; try done; [by destruct fA|by destruct fB].
Qed.

Lemma append_rings : ring (nodes h) (A ++ sA) /\ ring (nodes h) (B ++ sB) /\ A.*1 ## B.*1.
Proof.
  destruct HshA as [_ HrA _ _ _ _ _], HwfB as [[_ HrB _ _ _ _ _] _].
  rewrite <- !(assoc_L (++)). split_and!; try done.
  intros x Hx Hy. apply (Hdj x); rewrite !fmap_app in *; set_solver.
Qed.

Lemma append_in : (read cl ∈ A.*1 /\ wA ∈ A.*1) /\ (read other ∈ B.*1 /\ wB ∈ B.*1).
Proof.
  destruct append_ends as (E1 & E2 & E3 & E4 & HA & HB).
  pose proof (fstp_in A nullptr HA). pose proof (lstp_in A nullptr HA).
  pose proof (fstp_in B nullptr HB). pose proof (lstp_in B nullptr HB). by rewrite E1, E2, E3, E4 in *.
Qed.

Lemma append_alive x : x ∈ [read cl; wA; read other; wB] -> is_Some (nodes h !! x).
Proof.
  destruct append_in as [[I1 I2] [I3 I4]], append_rings as (HrA & HrB & _). intros Hx.
  assert (x ∈ A.*1 \/ x ∈ B.*1) as [Hi|Hi] by (rewrite !elem_of_cons, elem_of_nil in Hx; destruct Hx as [->|[->|[->|[->|[]]]]]; auto).
  - apply (ring_alive _ _ _ HrA). rewrite fmap_app. apply elem_of_app. by left.
  - apply (ring_alive _ _ _ HrB). rewrite fmap_app. apply elem_of_app. by left.
Qed.

Lemma append_ring : ring (nodes h1) (fA ++ (wA, Some cA) :: fB ++ [(wB, wcB)]) /\ heap_ok h1.
Proof.
  destruct append_ends as (E1 & E2 & E3 & E4 & HA & HB), append_rings as (HrA & HrB & Hd).
  pose proof (splice_ring h A sA B sB HA HB Hd HrA HrB) as Hr.
  rewrite E1, E2, E3, E4, <- (assoc_L (++)) in Hr.
  split; [done|]. apply splice_heap_ok, HshA.
Qed.

(** The node [other_begin] and what precedes it. *)
Lemma append_begin : exists b, nodes h !! read other = Some b /\ prev b = lstp sB wB.
Proof.
  destruct HwfB as [[_ HrB -> _ _ _ _] _].
  destruct fB as [|[y cy] fB']; (eexists; split; [apply (ring_at _ [] _ _ _ HrB)|]); simpl; [done|].
  by rewrite lstp_app.
Qed.

(** The spare nodes of [other] are not touched by the splice. *)
Lemma append_rest x : x ∈ sB.*1 -> nodes h1 !! x = nodes h !! x.
Proof.
  intros Hx. apply splice_other.
  destruct append_in as [[I1 I2] [I3 I4]], append_rings as (HrA & HrB & _).
  apply ring_NoDup in HrB. rewrite fmap_app in HrB. apply NoDup_app in HrB as (_ & HdB & _).
  assert (HdA : x ∉ A.*1).
  { intros Hy. apply (Hdj x); rewrite !fmap_app in *; simpl in *; set_solver. }
  assert (HnB : x ∉ B.*1) by (intros Hy; by apply (HdB x)).
  rewrite !elem_of_cons. intros [->|[->|[->|[->|[]%not_elem_of_nil]]]]; done.
Qed.

(** Neither are the spare nodes of [cl]. *)
Lemma append_lost x : x ∈ sA.*1 -> (x ∉ sB.*1) /\ nodes h1 !! x = nodes h !! x /\ is_Some (nodes h !! x).
Proof.
  intros Hx. destruct append_in as [[I1 I2] [I3 I4]], append_rings as (HrA & HrB & _).
  pose proof (ring_NoDup _ _ HrA) as Hnd. rewrite fmap_app in Hnd. apply NoDup_app in Hnd as (_ & HdA & _).
  assert (HnA : x ∉ A.*1) by (intros Hy; by apply (HdA x)).
  assert (HnB : x ∉ (fB ++ (wB, wcB) :: sB).*1).
  { intros Hy. apply (Hdj x); [|done]. rewrite fmap_app. simpl. set_solver. }
  split_and!.
  - intros Hy. apply HnB. rewrite fmap_app. simpl. set_solver.
  - apply splice_other. assert (HnB' : x ∉ B.*1).
    { intros Hy. apply HnB. rewrite fmap_app in *. simpl in *. set_solver. }
    rewrite !elem_of_cons. intros [->|[->|[->|[->|[]%not_elem_of_nil]]]]; done.
  - apply (ring_alive _ _ _ HrA). rewrite fmap_app. set_solver.
Qed.

(** Nor is any node of neither list. *)
Lemma append_outside x :
  x ∉ (fA ++ (wA, Some cA) :: sA).*1 -> x ∉ (fB ++ (wB, wcB) :: sB).*1 ->
  (x ∉ sB.*1) /\ nodes h1 !! x = nodes h !! x.
Proof.
  destruct append_in as [[I1 I2] [I3 I4]]. rewrite !fmap_app in *. simpl in *. intros HA HB.
  split; [set_solver|]. apply splice_other. set_solver.
Qed.

(** [Append]: the chain of [other] follows the chain of [cl]; the spare nodes of [cl]
    are linked to nothing any more; [other] keeps its own spare nodes, or gets a new one. *)
Lemma CacheList_Append_spec fuel :
  (length fB < fuel)%nat ->
  exists h' p oc rest,
    let size := u64 (node_size_ cl + (1 + Zlen fB)) in
    let cl' := mkCacheList (head cl) (read cl) wB size in
    let other' := mkCacheList p p p (u64 (Zlen ((p, oc) :: rest))) in
    CacheList_Append fuel cl other h = Ok ((cl', other'), h') /\
    shape h' cl' (fA ++ (wA, Some cA) :: fB) wB wcB [] /\
    wf h' other' [] p oc rest /\ fresh_write oc /\
    (sB <> [] -> (p, oc) :: rest = sB) /\ (sB = [] -> p = brk h /\ rest = []) /\
    (forall x, x ∈ sA.*1 -> nodes h' !! x = nodes h !! x) /\
    (brk h <= brk h')%positive /\
    (forall x, x <> p -> x ∉ (fA ++ (wA, Some cA) :: sA).*1 -> x ∉ (fB ++ (wB, wcB) :: sB).*1 ->
       nodes h' !! x = nodes h !! x).
Proof.
  intros Hfuel. destruct append_begin as (b & Hb & Hpb). destruct append_ring as [Hr1 Hok1].
  pose proof HshA as [Hok HrA HrdA HwA HfA HcA HsA].
  pose proof HwfB as [[_ HrB HrdB HwB HfB HcB HsB] [HszB _]].
  assert (Hcnt : count_chain fuel (read other) wB 1 h = Ok (1 + Zlen fB, h)).
  { rewrite HrdB. by eapply (count_chain_spec fB h []). }
  assert (Hfr : Forall active_cache (fA ++ (wA, Some cA) :: fB)).
  { apply Forall_app. split; [done|]. constructor; [|done]. by exists cA. }
  assert (Hrd : read cl = fstp (fA ++ (wA, Some cA) :: fB) wB) by (by rewrite HrdA, fstp_app).
  unfold CacheList_Append. rewrite HwA, HwB. hrun Hcnt. hrun (load_run _ _ _ Hb). rewrite Hpb.
  pose proof append_alive as Hal. pose proof append_rest as Hrest. pose proof append_lost as Hlost. pose proof append_outside as Hout.
  pose proof (proj1 (proj2 append_rings)) as HrB'. apply ring_rotate in HrB'.
  assert (Hcl' : forall h2, heap_ok h2 ->
    (forall x, x ∈ (fA ++ (wA, Some cA) :: fB ++ [(wB, wcB)]).*1 -> nodes h2 !! x = nodes h1 !! x) ->
    shape h2 (mkCacheList (head cl) (read cl) wB (u64 (node_size_ cl + (1 + Zlen fB))))
      (fA ++ (wA, Some cA) :: fB) wB wcB []).
  { intros h2 Hok2 Hsame. split; try done. rewrite <- (assoc_L (++)). simpl.
    by eapply ring_ext. }
  destruct (decide (lstp sB wB = wB)) as [Hlast|Hlast].
  - assert (sB = []) as ->.
    { destruct sB as [|e T]; [done|]. exfalso. pose proof (ring_NoDup _ _ HrB) as Hnd.
      by apply (last_is fB wB wcB (e :: T) wB) in Hnd; [|rewrite lstp_app]. }
    rewrite splice_run by (apply Hal; rewrite !elem_of_cons; tauto).
    destruct (new_ring h1 Hok1) as (h2 & Hrun & Hok2 & Hr2 & Hb2 & Hold).
    rewrite Hrun. exists h2, (brk h1), None, [].
    split_and!; try done.
    + apply Hcl'; [done|]. intros x Hx. apply Hold. intros ->.
      by apply (heap_fresh _ _ Hok1 Hr1).
    + split; split; try done. simpl. set_solver.
    + intros x Hx. destruct (Hlost x Hx) as (_ & <- & [n Hn]). apply Hold. intros ->.
      pose proof (proj2 Hok1 _ _ Hn). lia.
    + intros x Hx HA HB. destruct (Hout x HA HB) as [_ <-]. by apply Hold.
  - assert (HneB : sB <> []) by (by intros ->).
    assert (Hnot : forall x, x ∈ (fA ++ (wA, Some cA) :: fB ++ [(wB, wcB)]).*1 -> x ∈ sB.*1 -> False).
    { intros x Hx Hs. apply ring_NoDup in HrB'. rewrite fmap_app in HrB'.
      apply NoDup_app in HrB' as (_ & HdB & _). specialize (HdB x Hs). specialize (Hdj x).
      rewrite !fmap_app in *. simpl in *. rewrite fmap_app in *. set_solver. }
    hrun (load_run _ _ _ (ring_at _ _ _ _ _ HrB)). simpl next.
    rewrite splice_run by (apply Hal; rewrite !elem_of_cons; tauto).
    rewrite (lstp_nonempty sB wB nullptr), (fstp_nonempty sB _ nullptr) by done.
    destruct (close_rest h h1 B sB HneB HrB' Hok1 Hrest) as (h2 & Hrun & Hok2 & Hr2 & Hb2 & Hold).
    rewrite Hrun. destruct sB as [|[s sc] T] eqn:EsB; [done|].
    inversion HsB as [|? ? (c & Hc & Hcl) HT]; simplify_eq/=.
    exists h2, s, (Some c), T. split_and!; try done.
    + rewrite HszB, u64_sub_l. autorewrite with zlen.
      by replace (Zlen fB + (Zlen T + 1 + 1) - (1 + Zlen fB)) with (Zlen T + 1) by lia.
    + apply Hcl'; [done|]. intros x Hx. apply Hold. intros Hx'. by apply (Hnot x).
    + split; [split; try done; by destruct Hcl|split; [done|]]. simpl. left.
    + intros x Hx. destruct (Hlost x Hx) as (HnB & <- & _). by apply Hold.
    + rewrite Hb2. simpl. lia.
    + intros x Hx HA HB. destruct (Hout x HA HB) as [HnB <-]. by apply Hold.
Qed.
End append.

(** The bookkeeping of [Append] is right when [cl] had no spare nodes. *)
Lemma Append_counted cl fA wA (cA : Cache) fB wB wcB :
  counted cl (fA ++ [(wA, Some cA)]) ->
  counted (mkCacheList (head cl) (read cl) wB (u64 (node_size_ cl + (1 + Zlen fB))))
    ((fA ++ (wA, Some cA) :: fB) ++ [(wB, wcB)]).
Proof.
  intros [Hs Hh]. split; simpl.
  - rewrite Hs, u64_add_l. autorewrite with zlen. f_equal. lia.
  - rewrite !fmap_app in *. simpl in *. set_solver.
Qed.

(** ** The destructor *)

(** Every node of the ring is freed, and no other one. *)
Lemma CacheList_dtor_spec h cl front w wc spare fuel :
  wf h cl front w wc spare -> (length (front ++ spare) < fuel)%nat ->
  exists h', CacheList_dtor fuel cl h = Ok (tt, h') /\ heap_ok h' /\
    (forall p, p ∈ (front ++ (w, wc) :: spare).*1 -> nodes h' !! p = None) /\
    frames (front ++ (w, wc) :: spare).*1 [] h h'.
Proof.
  intros Hwf Hfuel.
  destruct (CacheList_Reset_spec _ _ _ _ _ _ _ Hwf Hfuel) as (h1 & oc & Hrun & [Hsh _] & _ & Hdel & Hf).
  unfold CacheList_dtor. hrun Hrun. cbn [head].
  pose proof (ring_alive _ _ (head cl) (sh_ring _ _ _ _ _ _ Hsh) ltac:(simpl; set_solver)) as Hal.
  rewrite (delete_run _ _ Hal). eexists. split; [done|]. split_and!.
  - apply heap_ok_delete, Hsh.
  - intros p Hp. simpl. destruct (decide (p = head cl)) as [->|Hne]; [apply lookup_delete_eq|].
    rewrite lookup_delete_ne by done. by apply Hdel.
  - destruct Hf as [B N O G]. split; simpl; [done|set_solver| |].
    + intros p Hp Hn. rewrite lookup_delete_ne; [by apply O|]. intros <-. by destruct Hwf as [_ [_ ?]].
    + intros p [n [Hne Hn]%lookup_delete_Some]. destruct (G p ltac:(by exists n)) as [Hp|Hp]; [set_solver|by right].
Qed.
