(* ===== verification/CacheListGrow.v ===== *)
(** * Making room in a list and handing it over: [FastExpand] and [Add].

    [FastExpand] is called before a scattered read into the nodes from [write] on,
    [Add] after it with the number of bytes that arrived. *)

From S2P Require Import Prelude Cache CacheList CacheRing CacheListSpec.

(** The cells behind the readable part of a cache, and of a run of nodes. *)
Definition Cache_tail (c : Cache) : list cell := drop (Z.to_nat (Cache_size c)) (Cache_Data c).

Definition entry_tail (e : entry) : list cell :=
  match snd e with Some c => Cache_tail c | None => [] end.

Definition tails (l : list entry) : list cell := concat (entry_tail <$> l).

(** The room of a run of nodes. *)
Definition room (l : list entry) : Z := Zlen (tails l).

Section tails.
Implicit Types l : list entry.

Lemma tails_cons e l : tails (e :: l) = entry_tail e ++ tails l.
Proof. done. Qed.

Lemma Cache_tail_length c : Cache_ok c -> Zlen (Cache_tail c) = Cache_WriteableSize c.
Proof.
  intros H. rewrite Cache_WriteableSize_ok by done. unfold Cache_tail. cunfold.
  rewrite Zlen_drop; lia.
Qed.

Lemma room_cons x c l :
  Cache_ok c -> room ((x, Some c) :: l) = Cache_WriteableSize c + room l.
Proof. intros H. unfold room. rewrite tails_cons, Zlen_app. by rewrite <- Cache_tail_length. Qed.

Lemma room_nonneg l : 0 <= room l.
Proof. apply Zlen_nonneg. Qed.
End tails.

Section expand.
Implicit Types (h : Heap) (l pre : list entry).

(** [index->next == read] on the nodes from [write] on: only at the last one. *)
Lemma next_is_read m pre x oc l :
  ring m (pre ++ (x, oc) :: l) -> (fstp l (fstp pre x) = fstp pre x <-> l = []).
Proof.
  intros Hr. split; [|by intros ->]. destruct l as [|[y oy] l]; [done|]. simpl. intros Hy. exfalso.
  apply ring_NoDup in Hr. rewrite fmap_app in Hr. simpl in Hr.
  apply NoDup_app in Hr as (_ & Hd & Hr).
  destruct pre as [|[z oz] pre]; simpl in *; subst.
  - apply NoDup_cons in Hr as [Hx _]. set_solver.
  - apply (Hd z); set_solver.
Qed.

Lemma expand_scan_spec l :
  forall h pre x c n cnt fuel,
  ring (nodes h) (pre ++ (x, Some c) :: l) -> Cache_ok c -> Forall active_cache l ->
  0 <= n < 2 ^ 64 -> (length l < fuel)%nat ->
  expand_scan fuel (fstp pre x) x n cnt h =
    Ok ((lstp l x, Z.max 0 (n - room ((x, Some c) :: l)), cnt + 1 + Zlen l), h).
Proof.
  induction l as [|[y oy] l IH]; intros h pre x c n cnt fuel Hr Hc Hl Hn Hfuel;
    (destruct fuel as [|fuel]; [simpl in Hfuel; lia|]); simpl expand_scan;
    hrun (cache_of_ring _ _ _ _ _ Hr); hrun (load_run _ _ _ (ring_at _ _ _ _ _ Hr)); cbn [next];
    rewrite hare_Min_spec, room_cons by done;
    pose proof (Cache_tail_length c Hc) as Hlen; pose proof (Zlen_nonneg (Cache_tail c));
    rewrite (u64_small (n - _)) by lia.
  - rewrite decide_True by done. unfold room, tails. simpl. autorewrite with zlen. unfold mret, ST_ret.
    repeat first [done | lia | f_equal].
  - rewrite decide_False.
    2: { intros E. by apply (next_is_read (nodes h) pre x (Some c) ((y, oy) :: l) Hr) in E. }
    inversion Hl as [|? ? (cy & Hcy & Hok) Hl']; subst. simpl in Hcy. subst oy.
    simpl fstp at 2. simpl in Hfuel.
    pose proof (IH h (pre ++ [(x, Some c)]) y cy (n - Cache_WriteableSize c `min` n) (cnt + 1) fuel) as IHs.
    rewrite fstp_app, <- (assoc_L (++)) in IHs. simpl fstp in IHs. rewrite IHs by (done || lia).
    pose proof (room_nonneg ((y, Some cy) :: l)). autorewrite with zlen. simpl lstp.
    repeat first [done | lia | f_equal].
Qed.

Lemma expand_scan_NoFuel l :
  forall h pre x c n cnt fuel,
  ring (nodes h) (pre ++ (x, Some c) :: l) -> Forall active_cache l ->
  (fuel <= length l)%nat -> expand_scan fuel (fstp pre x) x n cnt h = NoFuel.
Proof.
  induction l as [|[y oy] l IH]; intros h pre x c n cnt [|fuel] Hr Hl Hfuel; simpl in Hfuel; try lia;
    [done..|]. simpl expand_scan.
  hrun (cache_of_ring _ _ _ _ _ Hr). hrun (load_run _ _ _ (ring_at _ _ _ _ _ Hr)). cbn [next].
  rewrite decide_False.
  2: { intros E. by apply (next_is_read (nodes h) pre x (Some c) ((y, oy) :: l) Hr) in E. }
  inversion Hl as [|? ? (cy & Hcy & Hok) Hl']; subst. simpl in Hcy. subst oy.
  pose proof (fun n c' => IH h (pre ++ [(x, Some c)]) y cy n c' fuel) as IHs.
  rewrite fstp_app, <- (assoc_L (++)) in IHs. simpl fstp in *. apply IHs; [done..|lia].
Qed.

(** The allocation loop does nothing when there is room, and never ends when there
    is not: [_size] is not reduced by the node it has just linked. *)
Lemma expand_alloc_done fuel index cnt size h :
  (0 < fuel)%nat -> expand_alloc fuel index 0 cnt size h = Ok ((cnt, size), h).
Proof. by destruct fuel; [lia|]. Qed.

Lemma expand_alloc_spins fuel :
  forall h index n cnt size,
  heap_ok h -> 0 < n <= MAX_SIZE ->
  (exists nd, nodes h !! index = Some nd /\ is_Some (nodes h !! next nd)) ->
  expand_alloc fuel index n cnt size h = NoFuel.
Proof.
  induction fuel as [|fuel IH]; intros h index n cnt size Hok Hn (nd & Hi & Hnx); [done|].
  simpl. rewrite (proj2 (Z.gtb_lt _ _)) by lia.
  destruct (round_up_bounds n ltac:(lia)) as (m & Hm & _ & Hb). hrun (lift_run _ h _ Hm).
  hrun (new_run h).
  assert (Hfi : index <> brk h) by (intros ->; apply Hok in Hi; lia).
  assert (Hfn : next nd <> brk h).
  { intros E. destruct Hnx as [nd' Hnx]. rewrite E in Hnx. apply Hok in Hnx. lia. }
  hset.
  match goal with |- context [(@mbind _ _ _ _ _ (load index)) ?g] =>
    hrun (load_run g index nd ltac:(simpl; by rewrite lookup_alter_ne, lookup_insert_ne)) end.
  hset. hset. hset. hset. apply IH; [|done|].
  - do 5 refine (heap_ok_alter (mkHeap _ _) _ _ _). by apply heap_ok_new.
  - eexists. simpl. rewrite !lookup_alter_upd, lookup_insert_eq. simpl. split; [done|].
    unfold upd, n_cache, n_next, n_prev. rewrite !(decide_True (P := brk h = brk h)) by done.
    rewrite !(decide_False (P := _ = brk h)) by done. simpl.
    rewrite !fmap_is_Some. alive.
Qed.
End expand.

Section fast_expand.
Implicit Types (h : Heap) (cl : CacheList) (front spare : list entry).

(** The two loops from a state whose write node has a cache. *)
Definition expand_from (fuel : nat) (cl : CacheList) (n : Z) : M (Z * CacheList) :=
  s ← expand_scan fuel (read cl) (write cl) n 0;
  r ← expand_alloc fuel (fst (fst s)) (snd (fst s)) (snd s) (node_size_ cl);
  mret (fst r, with_node_size cl (snd r)).

Lemma expand_from_spec h cl front w c spare n fuel :
  wf h cl front w (Some c) spare -> 0 <= n <= MAX_SIZE ->
  (n <= room ((w, Some c) :: spare) -> (length spare < fuel)%nat ->
     expand_from fuel cl n h = Ok ((1 + Zlen spare, cl), h)) /\
  (room ((w, Some c) :: spare) < n -> expand_from fuel cl n h = NoFuel).
Proof.
  intros [[Hok Hr Hrd Hw Hf Hc Hs] _] Hn. unfold MAX_SIZE in *.
  assert (Hsa : Forall active_cache spare) by (eapply Forall_impl; [exact Hs|apply spare_active]).
  unfold expand_from. rewrite Hrd, Hw.
  pose proof (expand_scan_spec spare h front w c n 0 fuel Hr Hc Hsa ltac:(lia)) as Hscan.
  split.
  - intros Hroom Hfuel. hrun (Hscan Hfuel). cbn [fst snd]. rewrite Z.max_l by lia.
    hrun (expand_alloc_done fuel (lstp spare w) (0 + 1 + Zlen spare) (node_size_ cl) h ltac:(lia)).
    simpl. by destruct cl.
  - intros Hroom. destruct (decide (length spare < fuel)%nat) as [Hfuel|Hfuel].
    + hrun (Hscan Hfuel). cbn [fst snd]. unfold mbind, ST_bind. pose proof (room_nonneg ((w, Some c) :: spare)).
      rewrite expand_alloc_spins; [done|done|unfold MAX_SIZE; lia|].
      assert (Hin : lstp spare w ∈ ((w, Some c) :: spare).*1) by (by apply (lstp_in ((w, Some c) :: spare) nullptr)).
      destruct (in_fst_split _ _ Hin) as (oc & l1 & l2 & Heq).
      rewrite Heq in Hr. rewrite (assoc_L (++)) in Hr. eexists. split; [apply (ring_at _ _ _ _ _ Hr)|].
      simpl next. eapply ring_alive; [exact Hr|].
      assert (Hx : lstp spare w ∈ ((front ++ l1) ++ (lstp spare w, oc) :: l2).*1)
        by (rewrite fmap_app; set_solver).
      destruct l2 as [|[y oy] l2]; simpl; [|rewrite fmap_app; set_solver].
      destruct (front ++ l1) as [|[y oy] l]; simpl; [set_solver|left].
    + unfold mbind at 1, ST_bind. rewrite (expand_scan_NoFuel spare h front w c) by (done || lia). done.
Qed.

Lemma FastExpand_from fuel cl cl1 n h h1 w1 c :
  GetNextWrite cl h = Ok (cl1, h1) -> nodes h1 !! write cl1 = Some w1 -> cache w1 = Some c ->
  FastExpand fuel cl n h = expand_from fuel cl1 n h1.
Proof.
  intros Hg Hw Hc. unfold FastExpand. hrun Hg. hrun (load_run _ _ _ Hw). by rewrite Hc.
Qed.

(** From a write node without a cache: one is allocated, of at most [MAX_TO_ALLOC] bytes. *)
Lemma FastExpand_none cl n h cl1 h1 front w spare :
  GetNextWrite cl h = Ok (cl1, h1) -> wf h1 cl1 front w None spare -> 0 <= n <= MAX_SIZE ->
  exists h2 c, (forall fuel, FastExpand fuel cl n h = expand_from fuel cl1 n h2) /\
    wf h2 cl1 front w (Some c) spare /\ cleared c /\
    (forall m, round_up n = Ok m -> Cache_WriteableSize c = Z.min m MAX_TO_ALLOC) /\
    frames (front ++ (w, None) :: spare).*1 (front ++ (w, Some c) :: spare).*1 h1 h2.
Proof.
  intros Hg Hwf Hn. destruct (round_up_bounds n Hn) as (m & Hm & Hle & Hb).
  set (c := Cache_new (hare_Min m MAX_TO_ALLOC)).
  assert (Hc : Cache_ok c) by (apply Cache_new_ok; rewrite hare_Min_spec; unfold MAX_TO_ALLOC; lia).
  assert (Hroom : Cache_WriteableSize c = Z.min m MAX_TO_ALLOC).
  { rewrite Cache_WriteableSize_ok by done. rewrite <- hare_Min_spec. subst c. cunfold. lia. }
  destruct (wf_set_write _ _ _ _ _ _ c Hwf Hc) as (h2 & Hrun & Hwf2 & Hfr).
  exists h2, c. split_and!; [|done|done|congruence|done].
  intros fuel. unfold FastExpand. hrun Hg. hrun (load_run _ _ _ (write_node' _ _ _ _ _ _ (proj1 Hwf))).
  cbn [cache]. unfold mbind at 1, ST_bind at 1. unfold mbind at 1, ST_bind at 1.
  rewrite (lift_run _ h1 _ Hm). fold c. by rewrite Hrun.
Qed.

(** The room the nodes from the next write node on will have. *)
Definition expand_room (wc : option Cache) (spare : list entry) (n : Z) : Z :=
  match next_state wc spare with
  | (Some c, spare) => Cache_WriteableSize c + room spare
  | (None, spare) =>
    match round_up n with Ok m => Z.min m MAX_TO_ALLOC + room spare | _ => 0 end
  end.

(** [FastExpand n] arranges a write node with an empty cache, keeping the bytes.  It
    returns when the nodes from [write] on have room for [n] bytes, and never
    returns when they do not. *)
Lemma FastExpand_spec h cl front w wc spare n :
  wf h cl front w wc spare -> 0 <= n <= MAX_SIZE ->
  exists cl1 h1 front1 w1 c1 spare1,
    wf h1 cl1 front1 w1 (Some c1) spare1 /\ cleared c1 /\
    contents front1 = contents (front ++ [(w, wc)]) /\
    frames (front ++ (w, wc) :: spare).*1 (front1 ++ (w1, Some c1) :: spare1).*1 h h1 /\
    room ((w1, Some c1) :: spare1) = expand_room wc spare n /\ (length spare1 <= length spare)%nat /\
    (wc = None -> front1 = front) /\
    (n <= expand_room wc spare n -> forall fuel, (length spare1 < fuel)%nat ->
       FastExpand fuel cl n h = Ok ((1 + Zlen spare1, cl1), h1)) /\
    (expand_room wc spare n < n -> forall fuel, FastExpand fuel cl n h = NoFuel).
Proof.
  intros Hwf Hn. destruct (GetNextWrite_spec _ _ _ _ _ _ Hwf)
    as (cl1 & h1 & fr1 & w1 & wc1 & sp1 & Hg & Hwf1 & Hfresh & Hcon & Hfr & Hnext & Hnone).
  assert (Hsp : (length sp1 <= length spare)%nat).
  { unfold next_state in Hnext. destruct wc as [c|]; [destruct (Cache_Empty c)|]; [|destruct spare as [|[]]|];
      injection Hnext as _ <-; simpl; lia. }
  destruct wc1 as [c1|].
  - assert (Hroom : room ((w1, Some c1) :: sp1) = expand_room wc spare n).
    { unfold expand_room. rewrite Hnext. apply room_cons, Hfresh. }
    exists cl1, h1, fr1, w1, c1, sp1. rewrite <- Hroom. do 7 (split; [done|]). split; intros Hle fuel.
    all: rewrite (FastExpand_from _ _ _ _ _ _ _ c1 Hg (write_node' _ _ _ _ _ _ (proj1 Hwf1)) eq_refl).
    all: by apply (expand_from_spec _ _ _ _ _ _ _ fuel Hwf1 Hn).
  - destruct (FastExpand_none cl n h cl1 h1 fr1 w1 sp1 Hg Hwf1 Hn)
      as (h2 & c & Hrun & Hwf2 & Hc & Hsz & Hfr2).
    assert (Hroom : room ((w1, Some c) :: sp1) = expand_room wc spare n).
    { unfold expand_room. rewrite Hnext, room_cons by apply Hc.
      destruct (round_up_bounds n Hn) as (m & Hm & _). by rewrite Hm, (Hsz m Hm). }
    exists cl1, h2, fr1, w1, c, sp1. rewrite <- Hroom.
    do 3 (split; [done|]). split; [by eapply frames_trans|]. do 3 (split; [done|]). split; intros Hle fuel.
    all: rewrite Hrun; by apply (expand_from_spec _ _ _ _ _ _ _ fuel Hwf2 Hn).
Qed.

(** On a list without spare nodes whose write node cannot be reused: up to
    [MAX_TO_ALLOC] bytes, not more. *)
Lemma expand_room_new wc n :
  0 <= n <= MAX_SIZE -> (forall c, wc = Some c -> Cache_Empty c = false) ->
  (n <= expand_room wc [] n <-> n <= MAX_TO_ALLOC).
Proof.
  intros Hn Hwc. destruct (round_up_bounds n Hn) as (m & Hm & Hle & _).
  assert (expand_room wc [] n = Z.min m MAX_TO_ALLOC) as ->; [|lia].
  unfold expand_room, next_state. destruct wc as [c|]; [rewrite (Hwc c eq_refl)|];
    rewrite Hm; unfold room, tails; simpl; rewrite Zlen_nil; lia.
Qed.
End fast_expand.

(** ** [Add] *)

Section add.
Implicit Types (h : Heap) (l pre : list entry).

(** One node takes what fits. *)
Lemma Cache_Add_min c n :
  Cache_ok c -> 0 <= n < 2 ^ 64 ->
  let k := hare_Min n (Cache_WriteableSize c) in
  Cache_ok (Cache_Add c k) /\
  Cache_content (Cache_Add c k) = Cache_content c ++ take (Z.to_nat n) (Cache_tail c) /\
  u64 (n - k) = Z.max 0 (n - Cache_WriteableSize c) /\
  (Cache_Full (Cache_Add c k) = true <-> Cache_WriteableSize c <= n).
Proof.
  intros Hok Hn k. subst k. rewrite hare_Min_spec.
  pose proof (Cache_tail_length c Hok) as Hl. pose proof (Zlen_nonneg (Cache_tail c)).
  destruct (Cache_Add_ok c (Z.min n (Cache_WriteableSize c)) Hok ltac:(lia)) as [H1 H2].
  rewrite Cache_WriteableSize_ok in * by done. split_and!; [done| |rewrite u64_small; lia|].
  - rewrite H2. fold (Cache_tail c). f_equal. destruct (Z.le_ge_cases n (Cache_capacity c - Cache_size c)).
    + by rewrite Z.min_l.
    + rewrite Z.min_r, !take_ge by (unfold Zlen in *; lia). done.
  - unfold Cache_Full. rewrite Z.eqb_eq. unfold Cache_Add. cunfold. rewrite u64_small by lia. lia.
Qed.

Lemma add_loop_spec l :
  forall h pre x c n fuel,
  heap_ok h -> ring (nodes h) (pre ++ (x, Some c) :: l) -> Cache_ok c -> Forall spare_cache l ->
  0 <= n <= room ((x, Some c) :: l) -> n < 2 ^ 64 -> (1 + length l < fuel)%nat ->
  exists h' k y c' l',
    add_loop fuel (fstp pre x) x n h = Ok (y, h') /\ heap_ok h' /\
    ring (nodes h') (pre ++ k ++ (y, Some c') :: l') /\ Forall active_cache k /\ Cache_ok c' /\
    Forall spare_cache l' /\ (k ++ (y, Some c') :: l').*1 = x :: l.*1 /\
    contents (k ++ [(y, Some c')]) = Cache_content c ++ take (Z.to_nat n) (tails ((x, Some c) :: l)) /\
    frames (pre ++ (x, Some c) :: l).*1 (pre ++ k ++ (y, Some c') :: l').*1 h h'.
Proof.
  induction l as [|[y oy] l IH]; intros h pre x c n fuel Hok Hr Hc Hl Hn H64 Hfuel;
    (destruct fuel as [|fuel]; [lia|]); simpl add_loop;
    (destruct (Z.gtb_spec n 0) as [Hpos|Hzero];
     [|assert (n = 0) as -> by lia; exists h, [], x, c; eexists;
       split_and!; first [done | apply frames_refl | by autorewrite with contents; rewrite take_0, app_nil_r]]);
    hrun (cache_of_ring _ _ _ _ _ Hr);
    destruct (Cache_Add_min c n Hc ltac:(lia)) as (Hc1 & Hco1 & Hn1 & Hfull);
    set (c1 := Cache_Add c (hare_Min n (Cache_WriteableSize c))) in *;
    rewrite room_cons in Hn by done; rewrite tails_cons; unfold entry_tail; simpl snd;
    destruct (set_cache_run h pre x _ c1 _ Hok Hr) as (h1 & Hs1 & Hok1 & Hr1 & Hf1);
    hrun Hs1; hrun (load_run _ _ _ (ring_at _ _ _ _ _ Hr1)); cbn [next]; rewrite Hn1.
  - rewrite bool_decide_eq_false_2 by (by intros []). rewrite andb_false_r.
    unfold room, tails in Hn. simpl in Hn. autorewrite with zlen in Hn.
    rewrite Z.max_l by lia. simpl. destruct fuel as [|fuel]; [simpl in Hfuel; lia|]. simpl.
    exists h1, [], x, c1, []. split_and!; try done.
    autorewrite with contents. unfold entry_content. simpl. by rewrite Hco1.
  - inversion Hl as [|? ? (cy & Hcy & Hcl) Hl']; subst. simpl in Hcy. subst oy.
    rewrite bool_decide_eq_true_2.
    2: { intros E. by apply (next_is_read (nodes h) pre x (Some c) ((y, Some cy) :: l) Hr) in E. }
    rewrite andb_true_r. destruct (Cache_Full c1) eqn:Efull.
    + pose proof (proj1 Hfull eq_refl) as Hge. rewrite Z.max_r by lia. simpl fstp at 2. simpl in Hfuel.
      assert (Hr2 : ring (nodes h1) ((pre ++ [(x, Some c1)]) ++ (y, Some cy) :: l))
        by (by rewrite <- (assoc_L (++))).
      pose proof (Zlen_nonneg (Cache_tail c)) as Ht. rewrite (Cache_tail_length c Hc) in Ht.
      destruct (IH h1 (pre ++ [(x, Some c1)]) y cy (n - Cache_WriteableSize c) fuel Hok1 Hr2
                  (proj1 Hcl) Hl' ltac:(lia) ltac:(lia) ltac:(lia))
        as (h2 & k & z & c2 & l2 & Hrun & Hok2 & Hrg & Hk & Hc2 & Hl2 & Haddr & Hcon & Hf2).
      rewrite fstp_app in Hrun. simpl fstp in Hrun. rewrite Hrun.
      exists h2, ((x, Some c1) :: k), z, c2, l2. rewrite <- !(assoc_L (++)) in *.
      split_and!; try done.
      * constructor; [by exists c1|done].
      * simpl. f_equal. done.
      * simpl app. rewrite contents_cons, Hcon. unfold entry_content. simpl snd. cbn [snd].
        rewrite Hco1.
        pose proof (Cache_tail_length c Hc) as Hlt. unfold Zlen in Hlt.
        rewrite (take_ge (Cache_tail c)) by lia. rewrite <- (assoc_L (++)). f_equal.
        assert (Hcc : Cache_content cy = []) by (apply (spare_content (y, Some cy)); by exists cy).
        rewrite Hcc. simpl app. rewrite take_app_ge by lia. f_equal. f_equal. lia.
      * by eapply frames_trans.
    + assert (Hlt : n < Cache_WriteableSize c).
      { destruct (Z.lt_ge_cases n (Cache_WriteableSize c)); [done|].
        assert (false = true) by (apply Hfull; lia). done. }
      rewrite Z.max_l by lia. simpl. destruct fuel as [|fuel]; [simpl in Hfuel; lia|]. simpl.
      exists h1, [], x, c1, ((y, Some cy) :: l). split_and!; try done.
      pose proof (Cache_tail_length c Hc) as Hlt'. unfold Zlen in Hlt'.
      rewrite take_app_le by lia. autorewrite with contents. unfold entry_content. simpl. by rewrite Hco1.
Qed.

(** [Add n]: the next [n] cells behind the bytes become bytes of the list. *)
Lemma CacheList_Add_spec h cl front w c spare n fuel :
  wf h cl front w (Some c) spare -> 0 <= n <= room ((w, Some c) :: spare) -> n < 2 ^ 64 ->
  (1 + length spare < fuel)%nat ->
  exists cl' h' front' w' c' spare',
    CacheList_Add fuel cl n h = Ok (cl', h') /\ wf h' cl' front' w' (Some c') spare' /\
    contents (front' ++ [(w', Some c')]) =
      contents (front ++ [(w, Some c)]) ++ take (Z.to_nat n) (tails ((w, Some c) :: spare)) /\
    frames (front ++ (w, Some c) :: spare).*1 (front' ++ (w', Some c') :: spare').*1 h h' /\
    (spare = [] -> front' = front /\ w' = w /\ spare' = []).
Proof.
  intros [[Hok Hr Hrd Hw Hf Hc Hs] [Hsz Hhd]] Hn H64 Hfuel.
  destruct (add_loop_spec spare h front w c n fuel Hok Hr Hc Hs Hn H64 Hfuel)
    as (h' & k & y & c' & l' & Hrun & Hok' & Hr' & Hk & Hc' & Hl' & Haddr & Hcon & Hfr).
  unfold CacheList_Add. rewrite Hrd, Hw. hrun Hrun.
  assert (Hall : (front ++ (w, Some c) :: spare).*1 = ((front ++ k) ++ (y, Some c') :: l').*1).
  { by rewrite <- (assoc_L (++)), (fmap_app fst front (k ++ _)), Haddr, fmap_app. }
  eexists _, h', (front ++ k), y, c', l'. split_and!; [done| | |by rewrite <- !(assoc_L (++))|].
  - split; split; try done.
    + by rewrite <- (assoc_L (++)).
    + simpl. rewrite Hrd, fstp_app. destruct front as [|[] front]; [|done]. simpl.
      destruct k as [|[]]; simpl in *; congruence.
    + by apply Forall_app.
    + simpl. rewrite Hsz. f_equal. apply (f_equal length) in Hall. rewrite !length_fmap in Hall.
      unfold Zlen. lia.
    + simpl. by rewrite <- Hall.
  - rewrite <- (assoc_L (++)), !contents_app in *. rewrite <- (assoc_L (++)). f_equal.
    rewrite Hcon. autorewrite with contents. done.
  - intros ->. destruct k as [|? k]; simpl in Haddr.
    + injection Haddr as -> Hl0. rewrite app_nil_r. by destruct l'.
    + injection Haddr as _ Hk0. by destruct k.
Qed.
End add.
