(* ===== verification/NetBuffer.v ===== *)
(** * [net::Buffer]: the byte queue of a connection.

    Sources: class [Buffer] of hare/net/buffer.cc and hare/net/buffer_iterator.cc.
    The object is a record; the nodes of its chain live in the heap of CacheList.v.
    What the operating system does is a parameter: the number [FIONREAD] tells, the
    result of [readv] and [writev].  The operations take the fuel of the loops on the
    chain as their first argument. *)

From S2P Require Import Prelude Cache CacheList CacheRing CacheListSpec CacheListMove CacheListGrow.

(** ** The object *)

Record BufferImpl := mkBuffer { cache_chain : CacheList; total_len : Z; max_read : Z }.

Definition HARE_MAX_READ_DEFAULT : Z := 4096.

Definition Buffer_ctor (max_read : Z) : M BufferImpl :=
  chain ← CacheList_ctor;
  mret (mkBuffer chain 0 max_read).

Definition Buffer_dtor (fuel : nat) (b : BufferImpl) : M unit := CacheList_dtor fuel (cache_chain b).

Definition Buffer_Size (b : BufferImpl) : Z := total_len b.

Definition Buffer_SetMaxRead (b : BufferImpl) (max_read : Z) : BufferImpl :=
  mkBuffer (cache_chain b) (total_len b) max_read.

Definition Buffer_ChainSize (b : BufferImpl) : Z := CacheList_Size (cache_chain b).

Definition Buffer_ClearAll (fuel : nat) (b : BufferImpl) : M BufferImpl :=
  chain ← CacheList_Reset fuel (cache_chain b);
  mret (mkBuffer chain 0 (max_read b)).

Definition Buffer_Skip (fuel : nat) (b : BufferImpl) (n : Z) : M BufferImpl :=
  if n >=? total_len b then Buffer_ClearAll fuel b
  else
    chain ← CacheList_Drain fuel (cache_chain b) n;
    mret (mkBuffer chain (u64 (total_len b - n)) (max_read b)).

(** [same]: whether [&_other == this]. *)
Definition Buffer_Append (fuel : nat) (same : bool) (b other : BufferImpl) : M (BufferImpl * BufferImpl) :=
  if (total_len other =? 0) || same then mret (b, other)
  else
    chains ← (if total_len b =? 0 then mret (CacheList_Swap (cache_chain b) (cache_chain other))
              else CacheList_Append fuel (cache_chain b) (cache_chain other));
    mret (mkBuffer (fst chains) (u64 (total_len b + total_len other)) (max_read b),
          mkBuffer (snd chains) 0 (max_read other)).

(** [bytes] are the [_size] bytes at [_bytes]. *)
Definition Buffer_Add (fuel : nat) (b : BufferImpl) (bytes : list cell) : M (bool * BufferImpl) :=
  let size := Zlen bytes in
  if u64 (total_len b + size) >? MAX_SIZE then mret (false, b)
  else
    chain ← CheckSize (cache_chain b) size;
    c ← cache_of (CacheList_End chain);
    c ← lift (Cache_Append fuel c bytes);
    _ ← set_cache (CacheList_End chain) (Some c);
    mret (true, mkBuffer chain (u64 (total_len b + size)) (max_read b)).

(** The copy loop of [Remove].  [std::uninitialized_copy_n(first, count, result)] reads
    at [dest + total] and writes at [Readable()]. *)
Fixpoint remove_loop (fuel : nat) (dest : list cell) (curr : ptr) (total length : Z) : M unit :=
  match fuel with
  | O => lift NoFuel
  | S fuel =>
    if total <? length then
      c ← cache_of curr;
      let copy_len := hare_Min (u64 (length - total)) (Cache_ReadableSize c) in
      src ← lift (mem_read dest total copy_len);
      data ← lift (mem_write (Cache_Data c) (misalign_ c) src);
      _ ← set_cache curr (Some (mkCache (UBuffer_ctor data (size_ (base c)) (capacity_ (base c))) (misalign_ c)));
      n ← load curr;
      remove_loop fuel dest (next n) (u64 (total + copy_len)) length
    else mret tt
  end.

(** [dest]: the caller's array. *)
Definition Buffer_Remove (fuel : nat) (b : BufferImpl) (dest : list cell) (length : Z) : M (Z * BufferImpl) :=
  if (length =? 0) || (total_len b =? 0) then mret (0, b)
  else
    let length := if length >? total_len b then total_len b else length in
    _ ← remove_loop fuel dest (CacheList_Begin (cache_chain b)) 0 length;
    chain ← CacheList_Drain fuel (cache_chain b) length;
    mret (length, mkBuffer chain (u64 (total_len b - length)) (max_read b)).

(** ** Scattered reads and gathered writes *)

(** An element of the [iovec] array: the node, the offset in its cache, the length. *)
Abbreviation iovec := (ptr * Z * Z)%type.

Definition iov_len (v : iovec) : Z := snd v.

(** The loop that fills [vecs] in [Read]. *)
Fixpoint read_vecs (block_size : nat) (block : ptr) : M (list iovec) :=
  match block_size with
  | O => mret []
  | S k =>
    c ← cache_of block;
    b ← load block;
    r ← read_vecs k (next b);
    mret ((block, Cache_size c, Cache_WriteableSize c) :: r)
  end.

(** What [readv] does with the bytes that arrive: it fills the vectors in order. *)
Fixpoint scatter (vecs : list iovec) (bytes : list cell) : M unit :=
  match vecs with
  | [] => mret tt
  | (p, off, len) :: vecs =>
    c ← cache_of p;
    data ← lift (mem_write (Cache_Data c) off (take (Z.to_nat len) bytes));
    _ ← set_cache p (Some (mkCache (UBuffer_ctor data (size_ (base c)) (capacity_ (base c))) (misalign_ c)));
    scatter vecs (drop (Z.to_nat len) bytes)
  end.

(** What [writev] sees: the bytes of each vector. *)
Fixpoint gather (vecs : list iovec) : M (list (list cell)) :=
  match vecs with
  | [] => mret []
  | (p, off, len) :: vecs =>
    c ← cache_of p;
    bytes ← lift (mem_read (Cache_Data c) off len);
    r ← gather vecs;
    mret (bytes :: r)
  end.

Section socket.
(** [socket_op::GetBytesReadableOnSocket(_fd)] at the call. *)
Variable bytes_readable : Z.
(** [readv] on vectors of these lengths: its result and the bytes that arrived;
    [writev] on these vectors: its result. *)
Variable readv : list Z -> Z * list cell.
Variable writev : list (list cell) -> Z.

Definition read_amount (b : BufferImpl) (howmuch : Z) : Z :=
  let readable := if bytes_readable =? 0 then max_read b else bytes_readable in
  if (howmuch =? 0) || (howmuch >? readable) then readable else howmuch.

Definition Buffer_Read (fuel : nat) (b : BufferImpl) (howmuch : Z) : M (Z * BufferImpl) :=
  e ← FastExpand fuel (cache_chain b) (read_amount b howmuch);
  let chain := snd e in
  vecs ← read_vecs (Z.to_nat (fst e)) (CacheList_End chain);
  let actual := fst (readv (iov_len <$> vecs)) in
  _ ← scatter vecs (snd (readv (iov_len <$> vecs)));
  if actual <=? 0 then mret (0, mkBuffer chain (total_len b) (max_read b))
  else
    chain ← CacheList_Add fuel chain actual;
    mret (actual, mkBuffer chain (u64 (total_len b + actual)) (max_read b)).

Definition NUM_WRITE_IOVEC : nat := 128.

(** The loop that fills [iov] in [Write]; [k]: how many elements are left. *)
Fixpoint write_vecs (k : nat) (curr : ptr) (total : Z) : M (list iovec) :=
  match k with
  | O => mret []
  | S k =>
    if total >? 0 then
      c ← cache_of curr;
      if total >? Cache_ReadableSize c then
        n ← load curr;
        r ← write_vecs k (next n) (u64 (total - Cache_ReadableSize c));
        mret ((curr, misalign_ c, Cache_ReadableSize c) :: r)
      else
        mret [(curr, misalign_ c, total)]
    else mret []
  end.

Definition write_amount (b : BufferImpl) (howmuch : Z) : Z :=
  let total := if howmuch =? 0 then total_len b else howmuch in
  if total >? total_len b then total_len b else total.

Definition Buffer_Write (fuel : nat) (b : BufferImpl) (howmuch : Z) : M (Z * BufferImpl) :=
  iov ← write_vecs NUM_WRITE_IOVEC (CacheList_Begin (cache_chain b)) (write_amount b howmuch);
  if decide (iov = []) then mret (0, b)
  else
    bytes ← gather iov;
    let actual := writev bytes in
    let write_n := if actual >? 0 then actual else 0 in
    if actual <=? 0 then mret (0, b)
    else
      chain ← CacheList_Drain fuel (cache_chain b) write_n;
      mret (write_n, mkBuffer chain (u64 (total_len b - write_n)) (max_read b)).
End socket.

Definition Buffer_Move (b other : BufferImpl) : BufferImpl * BufferImpl :=
  let chains := CacheList_Swap (cache_chain b) (cache_chain other) in
  (mkBuffer (fst chains) (total_len other) (max_read other),
   mkBuffer (snd chains) (total_len b) (max_read b)).
