(* ===== verification/NetBufferSpec.v ===== *)
(** * [net::Buffer] implements a byte queue.

    [Buffer_ok] is the invariant of the object; [bytes_of] its abstract value, the
    sequence of bytes it holds.  Every operation is related to the operation on byte
    sequences it stands for; where the code has a case that breaks the object, the
    case is a hypothesis and what happens there is a lemma of its own. *)

From S2P Require Import Prelude Cache CacheList CacheRing CacheListSpec CacheListMove CacheListGrow.
From S2P Require Import NetBuffer.

(** ** The invariant and the abstract value *)

Record layout := mkLayout {
  front : list entry; wnode : ptr; wcache : option Cache; spare : list entry
}.

Definition all (L : layout) : list entry := front L ++ (wnode L, wcache L) :: spare L.
Definition bytes_of (L : layout) : list cell := contents (front L ++ [(wnode L, wcache L)]).

Record Buffer_ok (h : Heap) (b : BufferImpl) (L : layout) : Prop := {
  bo_wf : wf h (cache_chain b) (front L) (wnode L) (wcache L) (spare L);
  bo_len : total_len b = Zlen (bytes_of L);
  bo_max : total_len b <= MAX_SIZE;
  bo_none : wcache L = None -> front L = []
}.

(** The nodes of the object changed from [L] to [L'] and nothing else did. *)
Definition owns (L L' : layout) (h h' : Heap) : Prop := frames (all L).*1 (all L').*1 h h'.

(** [Read] finds its room in a new block: there is no spare one, and the write node has no
    block yet or one that is in use. *)
Definition roomy (L : layout) : Prop :=
  spare L = [] /\ forall c, wcache L = Some c -> Cache_Empty c = false.

(** The chain is one node. *)
Definition single (L : layout) : Prop := front L = [] /\ spare L = [].

Definition head_placed (b : BufferImpl) (L : layout) : Prop :=
  placed (cache_chain b) (front L) (wnode L) (spare L).

(** The cleaning of [Drain] must not delete the node [head] (see [Skip_frees_head]). *)
Definition drain_safe (b : BufferImpl) (L : layout) : Prop :=
  node_size_ (cache_chain b) <= MAX_CHINA_SIZE \/ head (cache_chain b) ∉ (tail (front L)).*1.

(** [Cache::Realign] must not move the bytes of the write node. *)
Definition add_safe (L : layout) (n : Z) : Prop :=
  forall c, wcache L = Some c -> Cache_realigns c n = false.

Lemma owns_refl L h : owns L L h h.
Proof. apply frames_refl. Qed.

#[export] Hint Resolve owns_refl : hare.

Section basic.
Implicit Types (h : Heap) (b : BufferImpl) (L : layout).

Lemma bytes_of_none L : wcache L = None -> front L = [] -> bytes_of L = [].
Proof. intros H1 H2. unfold bytes_of. by rewrite H1, H2. Qed.

(** A buffer that holds bytes has a cache in its write node. *)
Lemma nonempty_cache h b L :
  Buffer_ok h b L -> total_len b <> 0 -> exists c, wcache L = Some c.
Proof.
  intros [_ Hl _ Hn] Hne. destruct (wcache L) eqn:E; [eauto|].
  rewrite Hl, bytes_of_none in Hne by auto. done.
Qed.

Lemma Buffer_ctor_spec h max :
  heap_ok h ->
  exists b h' L, Buffer_ctor max h = Ok (b, h') /\ Buffer_ok h' b L /\ bytes_of L = [] /\
    max_read b = max /\ frames [] (all L).*1 h h' /\ single L /\ wcache L = None.
Proof.
  intros Hok. destruct (CacheList_ctor_spec h Hok) as (cl & h' & Hrun & Hwf & Hfr).
  unfold Buffer_ctor. hrun Hrun.
  exists (mkBuffer cl 0 max), h', (mkLayout [] (brk h) None []). split_and!; try done.
Qed.

Lemma Buffer_ClearAll_spec h b L fuel :
  Buffer_ok h b L -> (length (all L) < fuel)%nat ->
  exists b' h' L', Buffer_ClearAll fuel b h = Ok (b', h') /\ Buffer_ok h' b' L' /\
    bytes_of L' = [] /\ max_read b' = max_read b /\ owns L L' h h'.
Proof.
  intros [Hwf Hl Hm Hn] Hfuel. unfold all in Hfuel. rewrite length_app in Hfuel. simpl in Hfuel.
  destruct (CacheList_Reset_spec _ _ _ _ _ _ fuel Hwf) as (h' & oc & Hrun & Hwf' & Hf & _ & Hfr).
  { rewrite length_app. lia. }
  unfold Buffer_ClearAll. hrun Hrun. eexists _, h', (mkLayout [] _ oc []).
  assert (Hb : bytes_of (mkLayout [] (head (cache_chain b)) oc []) = []).
  { unfold bytes_of. simpl. rewrite contents_cons, contents_nil, app_nil_r. by apply fresh_write_content. }
  split_and!; try done. split; try done. by rewrite Hb.
Qed.

(** [Skip n]: the first [n] bytes go, or all of them. *)
Lemma Buffer_Skip_spec h b L n fuel :
  Buffer_ok h b L -> 0 <= n < 2 ^ 64 -> drain_safe b L -> (length (all L) < fuel)%nat ->
  exists b' h' L', Buffer_Skip fuel b n h = Ok (b', h') /\ Buffer_ok h' b' L' /\
    bytes_of L' = drop (Z.to_nat n) (bytes_of L) /\ max_read b' = max_read b /\ owns L L' h h'.
Proof.
  intros Hb Hn Hsafe Hfuel. pose proof Hb as [Hwf Hl Hm Hnone]. unfold Buffer_Skip.
  rewrite Z.geb_leb. destruct (Z.leb_spec (total_len b) n) as [Hall|Hpart].
  - destruct (Buffer_ClearAll_spec h b L fuel Hb Hfuel) as (b' & h' & L' & Hrun & Hb' & He & ? & ?).
    exists b', h', L'. split_and!; try done. rewrite He, drop_ge; [done|]. unfold Zlen in Hl. lia.
  - destruct (nonempty_cache h b L Hb ltac:(lia)) as [c Hc]. unfold bytes_of in *. rewrite Hc in *.
    unfold all in Hfuel. rewrite length_app in Hfuel.
    destruct (CacheList_Drain_spec h _ (front L) (wnode L) c (spare L) n fuel Hwf ltac:(lia) ltac:(lia) ltac:(lia) Hsafe)
      as (cl' & h' & fr' & c' & sp' & Hrun & Hwf' & Hcon & Hfr & _).
    hrun Hrun. eexists _, h', (mkLayout fr' (wnode L) (Some c') sp').
    split_and!; try done.
    + split; simpl; try done; [|unfold MAX_SIZE in *; rewrite u64_small; lia].
      unfold bytes_of. simpl. rewrite Hcon, Zlen_drop by lia. unfold MAX_SIZE in *. rewrite u64_small; lia.
    + unfold owns, all. simpl. by rewrite Hc.
Qed.
End basic.

Section add.
Implicit Types (h : Heap) (b : BufferImpl) (L : layout).

(** [Add] past [MAX_SIZE] is refused and changes nothing. *)
Lemma Buffer_Add_full h b bytes fuel :
  0 <= total_len b -> MAX_SIZE < total_len b + Zlen bytes < 2 ^ 64 ->
  Buffer_Add fuel b bytes h = Ok ((false, b), h).
Proof.
  intros Hl Hmax. unfold Buffer_Add. pose proof (Zlen_nonneg bytes).
  rewrite u64_small by lia. rewrite (proj2 (Z.gtb_lt _ _)) by lia. done.
Qed.

Lemma Buffer_Add_spec h b L bytes fuel :
  Buffer_ok h b L -> total_len b + Zlen bytes <= MAX_SIZE -> add_safe L (Zlen bytes) ->
  exists b' h' L', Buffer_Add (S (S fuel)) b bytes h = Ok ((true, b'), h') /\ Buffer_ok h' b' L' /\
    bytes_of L' = bytes_of L ++ bytes /\ max_read b' = max_read b /\ owns L L' h h'.
Proof.
  intros [Hwf Hl Hm Hnone] Hmax Hsafe. pose proof (Zlen_nonneg bytes). pose proof (Zlen_nonneg (bytes_of L)).
  destruct (CheckSize_spec h _ (front L) (wnode L) (wcache L) (spare L) (Zlen bytes) Hwf ltac:(lia) Hsafe)
    as (cl1 & h1 & fr1 & w1 & c1 & sp1 & Hrun & Hwf1 & Hroom & Hcon & Hfr).
  pose proof Hwf1 as [Hsh1 Hct1]. pose proof (sh_wc _ _ _ _ _ _ Hsh1) as Hc1. simpl in Hc1.
  destruct (Cache_Append_fits c1 bytes fuel Hc1 Hroom) as (c2 & Happ & Hc2 & Hco & _).
  destruct (wf_set_write _ _ _ _ _ _ c2 Hwf1 Hc2) as (h2 & Hrun2 & Hwf2 & Hfr2).
  unfold Buffer_Add. unfold MAX_SIZE in *. rewrite u64_small by lia.
  rewrite Z.gtb_ltb, (proj2 (Z.ltb_ge _ _)) by lia.
  hrun Hrun. unfold CacheList_End in *.
  hrun (cache_of_run _ _ _ c1 (write_node' _ _ _ _ _ _ Hsh1) eq_refl).
  hrun (lift_run _ h1 _ Happ). hrun Hrun2.
  assert (Hbs : contents (fr1 ++ [(w1, Some c2)]) = bytes_of L ++ bytes).
  { unfold bytes_of. rewrite <- Hcon, !contents_app, <- (assoc_L (++)). f_equal.
    rewrite !contents_cons, contents_nil, !app_nil_r. exact Hco. }
  eexists _, h2, (mkLayout fr1 w1 (Some c2) sp1). split_and!; try done.
  - split; simpl; try done.
    unfold bytes_of at 1. simpl. rewrite Hbs, Zlen_app. lia.
  - by eapply frames_trans.
Qed.

(** When the write node's bytes are moved, the copy that follows runs past the end
    of the allocation. *)
Lemma Buffer_Add_overflow h b L bytes fuel c :
  Buffer_ok h b L -> total_len b + Zlen bytes <= MAX_SIZE ->
  wcache L = Some c -> Cache_realigns c (Zlen bytes) = true ->
  Buffer_Add (S fuel) b bytes h = UB.
Proof.
  intros [Hwf Hl Hm Hnone] Hmax Hc Hre. pose proof (Zlen_nonneg bytes). pose proof (Zlen_nonneg (bytes_of L)).
  rewrite Hc in *. pose proof Hwf as [Hsh Hct]. pose proof (sh_wc _ _ _ _ _ _ Hsh) as Hok. simpl in Hok.
  unfold Buffer_Add. unfold MAX_SIZE in *. rewrite u64_small by lia.
  rewrite Z.gtb_ltb, (proj2 (Z.ltb_ge _ _)) by lia.
  destruct (Cache_Realign_moves c (Zlen bytes) Hok Hre) as (data & Hmv & _).
  pose proof (Cache_Realign_Append_overflow c bytes fuel Hok Hre) as Hub. rewrite Hmv in Hub. ored.
  unfold CheckSize, CacheList_End.
  unfold mbind at 1, ST_bind at 1. hrun (load_run _ _ _ (write_node' _ _ _ _ _ _ Hsh)). cbn [cache].
  hrun (lift_run _ h _ Hmv). cbn [fst snd].
  set (c' := mkCache _ 0) in *. pose proof (write_node' _ _ _ _ _ _ Hsh) as Hw.
  hset. unfold mret, ST_ret.
  erewrite (ST_bind_run (cache_of _)); [|eapply cache_of_run; [simpl; by rewrite lookup_alter_eq, Hw|done]].
  unfold mbind, ST_bind. by rewrite Hub.
Qed.
End add.

(** ** [Append] *)

Section append.
Implicit Types (h : Heap) (b other : BufferImpl) (L K : layout).

(** How [Append] gets there: it has nothing to do, it exchanges the chains, or it splices the
    other chain behind the own one. *)
Definition Buffer_Append_shape b other L K (r : BufferImpl * BufferImpl) L' K' : Prop :=
  (total_len other = 0 /\ L' = L /\ K' = K /\ r = (b, other)) \/
  (total_len b = 0 /\ total_len other <> 0 /\ L' = K /\ K' = L /\
   cache_chain (fst r) = cache_chain other /\ cache_chain (snd r) = cache_chain b) \/
  (total_len b <> 0 /\ front L' = front L ++ (wnode L, wcache L) :: front K /\ spare L' = [] /\
   head (cache_chain (fst r)) = head (cache_chain b)).

Definition Buffer_Append_result h b other L K r h' : Prop :=
  exists L' K', Buffer_ok h' (fst r) L' /\ Buffer_ok h' (snd r) K' /\
    bytes_of L' = bytes_of L ++ bytes_of K /\ bytes_of K' = [] /\
    max_read (fst r) = max_read b /\ max_read (snd r) = max_read other /\
    (all L').*1 ## (all K').*1 /\ frames ((all L).*1 ++ (all K).*1) ((all L').*1 ++ (all K').*1) h h' /\
    Buffer_Append_shape b other L K r L' K'.

(** The nodes after a splice: those of the first chain, then of the second; what is left
    [q] of the second list are its spare nodes, or the node [new]. *)
Lemma splice_addresses (fA fB sB : list ptr) (wA wB : ptr) (q : list ptr) (new : ptr) :
  NoDup (fB ++ wB :: sB) -> (fA ++ [wA]) ## (fB ++ wB :: sB) ->
  new ∉ fA ++ [wA] -> new ∉ fB ++ wB :: sB -> (forall x, x ∈ q -> x ∈ sB \/ x = new) ->
  ((fA ++ wA :: fB) ++ [wB]) ## q /\
  forall x, x ∈ ((fA ++ wA :: fB) ++ [wB]) ++ q -> x ∈ (fA ++ [wA]) ++ fB ++ wB :: sB \/ x = new.
Proof.
  intros Hnd Hdj HnA HnB Hq. apply NoDup_app in Hnd as (_ & HdB & Hnd). apply NoDup_cons in Hnd as [HwB _].
  split.
  - intros x Hx [Hs | ->]%Hq; [|set_solver]. specialize (HdB x). specialize (Hdj x). set_solver.
  - intros x Hx. apply elem_of_app in Hx as [Hx|[Hs | ->]%Hq]; [|left|by right]; set_solver.
Qed.

(** [Append] moves all bytes of the other buffer behind the own ones.  The spare
    nodes of a non-empty target are lost, which the hypothesis excludes. *)
Lemma Buffer_Append_spec h b other L K fuel :
  Buffer_ok h b L -> Buffer_ok h other K -> (all L).*1 ## (all K).*1 ->
  total_len b + total_len other <= MAX_SIZE -> total_len b = 0 \/ spare L = [] ->
  (length (front K) < fuel)%nat ->
  exists r h', Buffer_Append fuel false b other h = Ok (r, h') /\ Buffer_Append_result h b other L K r h'.
Proof.
  intros Hb Ho Hdj Hmax Hsp Hfuel. unfold Buffer_Append, MAX_SIZE in *. rewrite orb_false_r.
  pose proof Hb as [HwfL HlL HmL HnL]. pose proof Ho as [HwfK HlK HmK HnK].
  pose proof (Zlen_nonneg (bytes_of L)). pose proof (Zlen_nonneg (bytes_of K)).
  destruct (Z.eqb_spec (total_len other) 0) as [Ho0|Ho0].
  { eexists _, h. split; [done|]. exists L, K. rewrite Ho0 in HlK. symmetry in HlK.
    apply Zlen_0_nil in HlK. rewrite HlK, app_nil_r. split_and!; auto with hare. by left. }
  destruct (Z.eqb_spec (total_len b) 0) as [Hb0|Hb0].
  { eexists _, h. split; [done|]. exists K, L. rewrite Hb0 in *.
    assert (HL : bytes_of L = []) by (by apply Zlen_0_nil). rewrite HL. simpl.
    split_and!; try done.
    - split; simpl; try done; [rewrite u64_small; lia|unfold MAX_SIZE; rewrite u64_small; lia].
    - intros p ? ?. by apply (Hdj p).
    - generalize (frames_refl ((all L).*1 ++ (all K).*1) h). apply frames_iff; [done|]. intros p. rewrite !elem_of_app. tauto.
    - right. left. by split_and!. }
  destruct Hsp as [?|Hsp]; [done|].
  destruct (nonempty_cache h b L Hb Hb0) as [cA HcA]. destruct (nonempty_cache h other K Ho Ho0) as [cB HcB].
  unfold all in Hdj. rewrite HcA, HcB, Hsp in *.
  destruct (CacheList_Append_spec h _ _ _ _ _ _ _ _ _ _ (proj1 HwfL) HwfK Hdj fuel Hfuel)
    as (h' & p & oc & rest & Hrun & Hsh & Hwf' & Hfresh & Hrest1 & Hrest2 & _ & Hbrk & Hold).
  hrun Hrun. eexists _, h'. split; [done|].
  exists (mkLayout (front L ++ (wnode L, Some cA) :: front K) (wnode K) (Some cB) []), (mkLayout [] p oc rest).
  assert (Hbs : bytes_of (mkLayout (front L ++ (wnode L, Some cA) :: front K) (wnode K) (Some cB) [])
                = bytes_of L ++ bytes_of K).
  { unfold bytes_of. rewrite HcA, HcB. simpl. rewrite <- (assoc_L (++)). simpl.
    rewrite !contents_app, !contents_cons, !contents_app, !contents_nil, app_nil_r. by rewrite <- !(assoc_L (++)). }
  assert (Hrest : bytes_of (mkLayout [] p oc rest) = []).
  { unfold bytes_of. simpl. rewrite contents_cons, contents_nil, app_nil_r. by apply (fresh_write_content oc). }
  pose proof (heap_fresh _ _ (sh_heap _ _ _ _ _ _ (proj1 HwfL)) (sh_ring _ _ _ _ _ _ (proj1 HwfL))) as HfL.
  pose proof (heap_fresh _ _ (sh_heap _ _ _ _ _ _ (proj1 HwfK)) (sh_ring _ _ _ _ _ _ (proj1 HwfK))) as HfK.
  pose proof (ring_NoDup _ _ (sh_ring _ _ _ _ _ _ (proj1 HwfK))) as HndK. pose proof Hdj as HdjK.
  rewrite fmap_app in HfL, HfK, HndK. rewrite !fmap_app in HdjK.
  assert (Hp : forall x, x ∈ ((p, oc) :: rest).*1 -> x ∈ (spare K).*1 \/ x = brk h).
  { intros x Hx. destruct (decide (spare K = [])) as [E|E].
    - destruct (Hrest2 E) as [-> ->]. right. simpl in Hx. set_solver.
    - left. by rewrite <- (Hrest1 E). }
  assert (Hsep : _) by (apply (splice_addresses (front L).*1 (front K).*1 (spare K).*1 (wnode L) (wnode K)
    ((p, oc) :: rest).*1 (brk h) HndK HdjK HfL HfK Hp)).
  split_and!; try done.
  - split; simpl; try done.
    + split; [done|]. simpl. by apply Append_counted, HwfL.
    + rewrite Hbs, Zlen_app, u64_small; lia.
    + unfold MAX_SIZE. rewrite u64_small; lia.
  - split; simpl; try done. by rewrite Hrest.
  - unfold all. rewrite !fmap_app. simpl. rewrite fmap_app. apply Hsep.
  - unfold all. rewrite HcA, HcB, Hsp. split; [done| | |].
    + intros x Hx. destruct (proj2 Hsep x) as [Hin | ->]; [|left|right; lia].
      * revert Hx. simpl. rewrite !fmap_app. exact (fun H => H).
      * rewrite !fmap_app. exact Hin.
    + intros x Hx Hn. apply Hold; [|intros Hin; apply Hn, elem_of_app; by left|intros Hin; apply Hn, elem_of_app; by right].
      intros ->. destruct (Hp p ltac:(by left)) as [Hin | ->]; [|lia]. apply Hn, elem_of_app. right. rewrite fmap_app. set_solver.
    + intros x Hx. destruct (decide (x ∈ ((all L).*1 ++ (all K).*1))) as [Hin|Hin].
      * left. unfold all in Hin. rewrite HcA, HcB, Hsp in Hin. rewrite !fmap_app in *. simpl in *. rewrite fmap_app. simpl.
        destruct (decide (spare K = [])) as [E|E]; [rewrite E in Hin; set_solver|]. rewrite <- (Hrest1 E) in Hin. simpl in Hin. set_solver.
      * destruct (decide (x = p)) as [->|Hne]; [left; apply elem_of_app; right; by left|]. right.
        unfold all in Hin. rewrite HcA, HcB, Hsp in Hin. split; [done|]. rewrite elem_of_app in Hin. rewrite <- Hold; tauto.
  - right. right. by rewrite HcA.
Qed.
End append.

(** ** [Remove] *)

Section remove.
Implicit Types (h : Heap) (b : BufferImpl) (L : layout).

(** Bytes stored over the first readable ones of a cache. *)
Lemma Cache_overwrite c src :
  Cache_ok c -> Zlen src <= Cache_ReadableSize c ->
  exists data, mem_write (Cache_Data c) (misalign_ c) src = Ok data /\
    let c' := mkCache (UBuffer_ctor data (size_ (base c)) (capacity_ (base c))) (misalign_ c) in
    Cache_ok c' /\ Cache_content c' = src ++ drop (length src) (Cache_content c).
Proof.
  intros Hok Hs. rewrite Cache_ReadableSize_ok in Hs by done. pose proof (Zlen_nonneg src).
  eexists. rewrite mem_write_ok by (cunfold; lia). split; [done|]. cbv zeta.
  assert (Hm : length (take (Z.to_nat (misalign_ c)) (Cache_Data c)) = Z.to_nat (misalign_ c)).
  { rewrite length_take. cunfold. unfold Zlen in *. lia. }
  split.
  - cunfold. simpl. rewrite !Zlen_app, Zlen_take, Zlen_drop by lia. lia.
  - unfold Cache_content. simpl. unfold Cache_Data, Cache_size. simpl. unfold Cache_Data, Cache_size in *.
    rewrite drop_app_ge by lia. rewrite Hm, Nat.sub_diag, drop_0.
    rewrite take_app_ge by (unfold Zlen in *; lia).
    rewrite skipn_firstn_comm, drop_drop.
    destruct Hok as (? & _). repeat first [done | (unfold Zlen in *; lia) | f_equal].
Qed.

Lemma contents_Zlen_cons x c l :
  Cache_ok c -> Zlen (contents ((x, Some c) :: l)) = Cache_ReadableSize c + Zlen (contents l).
Proof. intros H. rewrite contents_cons, Zlen_app. unfold entry_content. simpl. by rewrite Cache_content_length. Qed.

(** The copy loop writes the caller's bytes over the first [length] bytes of the list. *)
Lemma remove_loop_spec dest l :
  forall h pre rest d total len fuel,
  heap_ok h -> ring (nodes h) (pre ++ l ++ rest) -> Forall active_cache l ->
  0 <= total <= len -> len - total <= Zlen (contents l) -> len <= Zlen dest -> len < 2 ^ 64 ->
  (length l < fuel)%nat ->
  exists h' l', remove_loop fuel dest (fstp l d) total len h = Ok (tt, h') /\ heap_ok h' /\
    ring (nodes h') (pre ++ l' ++ rest) /\ Forall active_cache l' /\ l'.*1 = l.*1 /\
    contents l' = take (Z.to_nat (len - total)) (drop (Z.to_nat total) dest) ++
                  drop (Z.to_nat (len - total)) (contents l) /\
    frames (pre ++ l ++ rest).*1 (pre ++ l' ++ rest).*1 h h'.
Proof.
  induction l as [|[x ox] l IH]; intros h pre rest d total len fuel Hok Hr Hl Ht Hlen Hd H64 Hfuel;
    (destruct fuel as [|fuel]; [simpl in Hfuel; lia|]); simpl remove_loop.
  - rewrite contents_nil, Zlen_nil in Hlen. rewrite (proj2 (Z.ltb_ge _ _)) by lia.
    exists h, []. replace (len - total) with 0 by lia. by split_and!; auto with hare.
  - destruct (Z.ltb_spec total len) as [Hlt|Hge].
    2: { exists h, ((x, ox) :: l). replace (len - total) with 0 by lia. by split_and!; auto with hare. }
    inversion Hl as [|? ? (c & Hc & Hcok) Hl']; subst. simpl in Hc. subst ox.
    simpl app in Hr. hrun (cache_of_ring _ _ _ _ _ Hr).
    rewrite contents_Zlen_cons in Hlen by done. rewrite (u64_small (len - total)), hare_Min_spec by lia.
    pose proof (Cache_content_length c Hcok) as Hrs. pose proof (Zlen_nonneg (Cache_content c)).
    pose proof (Zlen_nonneg (contents l)).
    remember ((len - total) `min` Cache_ReadableSize c) as k eqn:Hk.
    hrun (lift_run _ h _ (mem_read_ok dest total k ltac:(lia) ltac:(lia) ltac:(lia))).
    set (src := take (Z.to_nat k) (drop (Z.to_nat total) dest)).
    assert (Hsrc : Zlen src = k) by (apply Zlen_take; rewrite Zlen_drop; lia).
    destruct (Cache_overwrite c src Hcok ltac:(lia)) as (data & Hw & Hc' & Hcon). cbv zeta in Hc', Hcon.
    hrun (lift_run _ h _ Hw). set (c' := mkCache _ _) in *.
    destruct (set_cache_run h pre x _ c' _ Hok Hr) as (h1 & Hs1 & Hok1 & Hr1 & Hf1).
    hrun Hs1. hrun (load_run _ _ _ (ring_at _ _ _ _ _ Hr1)). cbn [next].
    rewrite fstp_app, u64_small by lia. simpl in Hfuel.
    assert (Hr2 : ring (nodes h1) ((pre ++ [(x, Some c')]) ++ l ++ rest)) by (by rewrite <- (assoc_L (++))).
    destruct (IH h1 (pre ++ [(x, Some c')]) rest (fstp rest (fstp pre x)) (total + k) len fuel
                Hok1 Hr2 Hl' ltac:(lia) ltac:(lia) Hd H64 ltac:(lia))
      as (h2 & l2 & Hrun & Hok2 & Hr3 & Hl2 & Haddr & Hcon2 & Hf2).
    rewrite Hrun. exists h2, ((x, Some c') :: l2). rewrite <- !(assoc_L (++)) in *.
    split_and!; try done.
    + constructor; [by exists c'|done].
    + rewrite fmap_cons, Haddr. done.
    + rewrite contents_cons, Hcon2. unfold entry_content. simpl snd. cbn [snd]. rewrite Hcon.
      rewrite <- !(assoc_L (++)). unfold Zlen in *.
      destruct (Z.le_gt_cases (len - total) (Cache_ReadableSize c)).
      * assert (k = len - total) by lia. replace (len - (total + k)) with 0 by lia.
        change (take (Z.to_nat 0) _) with (@nil cell). rewrite contents_cons. unfold entry_content. simpl.
        rewrite drop_app_le by lia. subst src. repeat f_equal; lia.
      * assert (k = Cache_ReadableSize c) by lia.
        rewrite (drop_ge (Cache_content c)) by lia. simpl. rewrite contents_cons. unfold entry_content. simpl.
        rewrite drop_app_ge by lia. rewrite (assoc_L (++)). f_equal; [|f_equal; lia].
        subst src. replace (Z.to_nat (total + k)) with (Z.to_nat total + Z.to_nat k)%nat by lia.
        rewrite <- drop_drop, take_take_drop. f_equal. lia.
    + by eapply frames_trans.
Qed.

(** [Drain] on a buffer that holds the bytes. *)
Lemma drain_buffer h b L n fuel :
  Buffer_ok h b L -> 0 <= n <= total_len b -> total_len b <> 0 -> drain_safe b L ->
  (length (all L) < fuel)%nat ->
  exists cl' h' L', CacheList_Drain fuel (cache_chain b) n h = Ok (cl', h') /\
    Buffer_ok h' (mkBuffer cl' (u64 (total_len b - n)) (max_read b)) L' /\
    bytes_of L' = drop (Z.to_nat n) (bytes_of L) /\ owns L L' h h' /\
    (length (front L') <= length (front L))%nat /\
    (head_placed b L -> head_placed (mkBuffer cl' (u64 (total_len b - n)) (max_read b)) L').
Proof.
  intros Hb Hn Hne Hsafe Hfuel. pose proof Hb as [Hwf Hl Hm Hnone].
  destruct (nonempty_cache h b L Hb Hne) as [c Hc]. unfold owns, all, bytes_of, MAX_SIZE in *. rewrite Hc in *.
  rewrite length_app in Hfuel.
  destruct (CacheList_Drain_spec h _ (front L) (wnode L) c (spare L) n fuel Hwf ltac:(lia) ltac:(lia) ltac:(lia) Hsafe)
    as (cl' & h' & fr' & c' & sp' & Hrun & Hwf' & Hcon & Hfr & Hlen & Hhd).
  exists cl', h', (mkLayout fr' (wnode L) (Some c') sp'). split_and!; try done.
  split; simpl; try done.
  - unfold bytes_of. simpl. rewrite Hcon, Zlen_drop by lia. rewrite u64_small; lia.
  - unfold MAX_SIZE. rewrite u64_small; lia.
Qed.

(** The last node of a run of nodes with known addresses. *)
Lemma snoc_layout l fr (w : ptr) :
  l.*1 = fr ++ [w] -> Forall active_cache l ->
  exists l1 c, l = l1 ++ [(w, Some c)] /\ l1.*1 = fr /\ Forall active_cache l1 /\ Cache_ok c.
Proof.
  destruct l as [|[w' oc] l _] using rev_ind; intros Haddr Hact; [by destruct fr|].
  rewrite fmap_app in Haddr. apply app_inj_2 in Haddr as [Haddr He]; [|done]. injection He as ->.
  apply Forall_app in Hact as [Hact Hlast]. inversion Hlast as [|? ? (c & Hc & Hcok) _]; subst.
  simpl in Hc. subst oc. eauto 10.
Qed.

(** What the copy loop of [Remove] does to the buffer: the bytes to be handed out are
    overwritten with those of the caller's array. *)
Lemma remove_overwrites h b L dest n fuel :
  Buffer_ok h b L -> total_len b <> 0 -> 0 <= n <= total_len b -> n <= Zlen dest ->
  (length (all L) < fuel)%nat ->
  exists h1 L1, remove_loop fuel dest (CacheList_Begin (cache_chain b)) 0 n h = Ok (tt, h1) /\
    Buffer_ok h1 b L1 /\ bytes_of L1 = take (Z.to_nat n) dest ++ drop (Z.to_nat n) (bytes_of L) /\
    (front L1).*1 = (front L).*1 /\ length (all L1) = length (all L) /\ owns L L1 h h1.
Proof.
  intros Hb Hne Hn Hdest Hfuel. pose proof Hb as [Hwf Hl Hm Hnone].
  destruct (nonempty_cache h b L Hb Hne) as [c Hc]. pose proof Hwf as [[Hok Hr Hrd Hw Hf Hwc Hsp] [Hs Hh]].
  destruct L as [fr w wc sp]. unfold owns, all, bytes_of, MAX_SIZE in *. simpl in *. subst wc.
  rewrite length_app in Hfuel. simpl in Hfuel.
  assert (Hact : Forall active_cache (fr ++ [(w, Some c)])).
  { apply Forall_app. split; [done|]. repeat constructor. by exists c. }
  destruct (remove_loop_spec dest (fr ++ [(w, Some c)]) h [] sp nullptr 0 n fuel)
    as (h1 & l1 & Hrun & Hok1 & Hr1 & Hact1 & Haddr & Hcon & Hfr); try done; try lia.
  { simpl. by rewrite <- (assoc_L (++)). }
  { rewrite length_app. simpl. lia. }
  rewrite fmap_app in Haddr. simpl in Haddr. destruct (snoc_layout _ _ w Haddr Hact1) as (l & c1 & -> & Hla & Hl1 & Hc1).
  rewrite <- (assoc_L (++)) in Hr1, Hfr. rewrite <- (assoc_L (++)) in Hfr. simpl in Hr1, Hfr.
  rewrite Z.sub_0_r in Hcon. change (drop (Z.to_nat 0) dest) with dest in Hcon.
  assert (Hlen : length l = length fr) by (rewrite <- (length_fmap fst l), Hla; apply length_fmap).
  exists h1, (mkLayout l w (Some c1) sp). simpl. rewrite fstp_app in Hrun. simpl in Hrun.
  unfold CacheList_Begin. rewrite Hrd. split_and!; try done; [|by rewrite !length_app, Hlen].
  split; simpl; try done.
  - split; split; simpl; try done.
    + rewrite Hrd. destruct fr as [|[]], l as [|[]]; simpl in *; congruence.
    + rewrite Hs. unfold Zlen. by rewrite !length_app, Hlen.
    + rewrite fmap_app in *. by rewrite Hla.
  - unfold bytes_of. simpl. rewrite Hcon, Zlen_app, Zlen_take, Zlen_drop; lia.
Qed.

(** [Remove]: the result and what remains are right.  The caller's array is only
    read: it is an argument of the definition and no part of its result. *)
Lemma Buffer_Remove_spec h b L dest len fuel :
  Buffer_ok h b L -> 0 <= len -> len <= Zlen dest -> drain_safe b L -> (length (all L) < fuel)%nat ->
  exists b' h' L', Buffer_Remove fuel b dest len h = Ok ((Z.min len (total_len b), b'), h') /\
    Buffer_ok h' b' L' /\ bytes_of L' = drop (Z.to_nat len) (bytes_of L) /\ owns L L' h h'.
Proof.
  intros Hb Hlen Hdest Hsafe Hfuel. pose proof Hb as [Hwf Hl Hm Hnone]. unfold Buffer_Remove.
  pose proof (Zlen_nonneg (bytes_of L)).
  destruct (Z.eqb_spec len 0) as [->|Hl0].
  { exists b, h, L. rewrite Z.min_l by lia. by split_and!; auto with hare. }
  destruct (Z.eqb_spec (total_len b) 0) as [Hb0|Hb0]; simpl.
  { exists b, h, L. rewrite Z.min_r, Hb0 by lia. split_and!; auto with hare.
    rewrite Hb0 in Hl. symmetry in Hl. apply Zlen_0_nil in Hl. rewrite Hl. by rewrite drop_nil. }
  replace (if len >? total_len b then total_len b else len) with (Z.min len (total_len b)).
  2: { rewrite Z.gtb_ltb. destruct (Z.ltb_spec (total_len b) len); lia. }
  set (n := Z.min len (total_len b)).
  destruct (remove_overwrites h b L dest n fuel Hb Hb0 ltac:(lia) ltac:(lia) Hfuel)
    as (h1 & L1 & Hrun & Hb1 & Hcon & Hfr & Hall & Hown).
  assert (Hsafe1 : drain_safe b L1).
  { destruct Hsafe as [?|Hh]; [by left|right].
    assert (E : (tail (front L1)).*1 = (tail (front L)).*1) by (by rewrite !fmap_tail, Hfr).
    by rewrite E. }
  destruct (drain_buffer h1 b L1 n fuel Hb1 ltac:(lia) Hb0 Hsafe1 ltac:(lia))
    as (cl' & h' & L' & Hrun2 & Hb' & Hbs & Hown2 & _).
  hrun Hrun. hrun Hrun2. eexists _, h', L'. split_and!; try done; [|by eapply frames_trans].
  rewrite Hbs, Hcon.
  assert (Hdl : length (take (Z.to_nat n) dest) = Z.to_nat n) by (rewrite length_take; unfold Zlen in *; lia).
  rewrite drop_app_ge by lia. rewrite Hdl, Nat.sub_diag, drop_0.
  destruct (Z.le_ge_cases len (total_len b)); [by unfold n; rewrite Z.min_l|].
  rewrite !drop_ge; [done|unfold Zlen in *; lia..].
Qed.
End remove.
