(* ===== verification/NetBufferLost.v ===== *)
(** * [Append] to a buffer with drained blocks: the ring loses its head.

    [CacheList::Append] links the chain of the other list between [write] and [read] and so
    cuts the drained (spare) nodes out of the ring.  When the node [head] is among them, as
    it is once its bytes have been taken out, the nodes that are reachable from [head] lead
    into the ring and never back: [Reset], and with it the destructor and [ClearAll], deletes
    the nodes of the ring one by one until it writes to one it has already deleted. *)

From S2P Require Import Prelude Cache CacheList CacheRing CacheListSpec CacheListMove CacheListGrow.
From S2P Require Import NetBuffer NetBufferSpec.

(** ** Chains of nodes *)

Definition nxt (m : gmap ptr Node) (x : ptr) : option ptr := next <$> m !! x.

(** From [x] the [next] pointers lead through [l] to [z]. *)
Fixpoint chain (m : gmap ptr Node) (x : ptr) (l : list ptr) (z : ptr) : Prop :=
  match l with
  | [] => nxt m x = Some z
  | y :: l => nxt m x = Some y /\ chain m y l z
  end.

Section chains.
Implicit Types (m : gmap ptr Node) (l : list ptr).

Lemma chain_ext m m' l : forall x z,
  (forall y, y ∈ x :: l -> nxt m' y = nxt m y) -> chain m x l z -> chain m' x l z.
Proof.
  induction l as [|y l IH]; intros x z He; simpl.
  - intros <-. apply He. left.
  - intros [<- H]. split; [apply He; left|]. apply IH; [|done]. intros w Hw. apply He. by right.
Qed.

Lemma chain_app m l1 : forall x y l2 z, chain m x l1 y -> chain m y l2 z -> chain m x (l1 ++ y :: l2) z.
Proof. induction l1 as [|w l1 IH]; intros x y l2 z; simpl; [done|]. intros [??] ?. eauto. Qed.

Lemma chain_alive m l x z y : chain m x l z -> y ∈ x :: l -> is_Some (m !! y).
Proof.
  revert x. induction l as [|w l IH]; intros x; simpl.
  - intros H ->%list_elem_of_singleton. unfold nxt in H. destruct (m !! x); naive_solver.
  - intros [H Hc] [->|Hy]%elem_of_cons; [|by eapply IH]. unfold nxt in H. destruct (m !! x); naive_solver.
Qed.

(** The chain in a ring, from one of its nodes to the first. *)
Lemma ring_chain m (l2 : list entry) : forall (l1 : list entry) x c,
  ring m (l1 ++ (x, c) :: l2) -> chain m x l2.*1 (fstp l1 x).
Proof.
  induction l2 as [|[y d] l2 IH]; intros l1 x c Hr; simpl.
  - unfold nxt. by rewrite (ring_at _ _ _ _ _ Hr).
  - split; [unfold nxt; by rewrite (ring_at _ _ _ _ _ Hr)|].
    pose proof (IH (l1 ++ [(x, c)]) y d) as Hc. rewrite fstp_app in Hc. apply Hc. by rewrite <- (assoc_L (++)).
Qed.

(** [Reset] on nodes that lead to a dead node, or back to one of themselves that is not the
    last. *)
Lemma reset_loop_lost l : forall fuel h hd z,
  chain (nodes h) hd l z -> NoDup (hd :: l) -> l <> [] ->
  nodes h !! z = None \/ z ∈ removelast l -> (length l <= fuel)%nat -> reset_loop fuel hd h = UB.
Proof.
  induction l as [|y l IH]; intros fuel h hd z Hc Hnd Hne Hz Hf; [done|].
  destruct fuel as [|fuel]; [simpl in Hf; lia|].
  pose proof (chain_alive _ _ _ _ hd Hc ltac:(left)) as [nh Hh].
  pose proof (chain_alive _ _ _ _ y Hc ltac:(right; left)) as [ny Hy].
  destruct Hc as [Hhy Hc]. unfold nxt in Hhy. rewrite Hh in Hhy. simpl in Hhy. injection Hhy as Hhy.
  assert (Hyh : y <> hd) by (intros ->; apply NoDup_cons in Hnd as [Hx _]; apply Hx; left).
  simpl. hrun (load_run _ _ _ Hh). rewrite Hhy, decide_False by done. hrun (load_run _ _ _ Hy).
  destruct l as [|y2 l].
  - simpl in Hc. unfold nxt in Hc. rewrite Hy in Hc. injection Hc as ->.
    destruct Hz as [Hz|Hz]; [|by apply elem_of_nil in Hz].
    unfold mbind at 1, ST_bind at 1, set_prev, store. by rewrite Hz.
  - pose proof Hc as [Hny _]. unfold nxt in Hny. rewrite Hy in Hny. injection Hny as Hny. rewrite Hny.
    pose proof (chain_alive _ _ _ _ y2 Hc ltac:(right; left)) as Hy2.
    do 2 hset.
    match goal with |- (delete_Node _ ≫= _) ?h1 = _ => hrun (delete_run h1 y ltac:(alive)) end.
    apply (IH _ _ _ z); [| |done| |simpl in *; lia].
    + simpl nodes. split.
      * unfold nxt. rewrite lookup_delete_ne, lookup_alter_eq by done. rewrite lookup_alter_upd, Hh. done.
      * destruct Hc as [_ Hc]. revert Hc. apply chain_ext. intros w Hw.
        apply NoDup_cons in Hnd as [Hhl Hnd]. apply NoDup_cons in Hnd as [Hyl _].
        unfold nxt. rewrite lookup_delete_ne by (intros ->; done). rewrite lookup_alter_ne by (intros ->; apply Hhl; by right).
        rewrite lookup_alter_upd. unfold upd. destruct (nodes h !! w); [|done]. simpl. by case_decide.
    + apply NoDup_cons in Hnd as [Hhl Hnd]. apply NoDup_cons in Hnd as [_ Hnd]. apply NoDup_cons. split; [|done].
      intros Hx. apply Hhl. by right.
    + simpl nodes. destruct Hz as [Hz|Hz].
      * left. rewrite lookup_delete. case_decide; [done|]. rewrite !lookup_alter_upd, Hz. done.
      * change (removelast (y :: y2 :: l)) with (y :: removelast (y2 :: l)) in Hz.
        apply elem_of_cons in Hz as [->|Hz]; [left; apply lookup_delete_eq|by right].
Qed.
End chains.

(** ** The list *)

Lemma elem_of_removelast {A} (l1 l2 : list A) x : l2 <> [] -> x ∈ l1 -> x ∈ removelast (l1 ++ l2).
Proof. intros Hne Hx. rewrite removelast_app by done. apply elem_of_app. by left. Qed.

Lemma Append_lost h cl other fA wA cA sA fB wB wcB sB fuel :
  shape h cl fA wA (Some cA) sA -> wf h other fB wB wcB sB ->
  (fA ++ (wA, Some cA) :: sA).*1 ## (fB ++ (wB, wcB) :: sB).*1 -> head cl ∈ sA.*1 -> (length fB < fuel)%nat ->
  exists cl' other' h', CacheList_Append fuel cl other h = Ok ((cl', other'), h') /\
    forall fuel', (length (fA ++ sA ++ fB) + 1 < fuel')%nat -> CacheList_Reset fuel' cl' h' = UB.
Proof.
  intros HA HB Hdj Hhd Hf.
  destruct (CacheList_Append_spec h cl other fA sA fB sB wA wB cA wcB HA HB Hdj fuel Hf)
    as (h' & p & oc & rest & Hrun & Hsh & _ & _ & _ & _ & Hold & _).
  eexists _, _, h'. split; [exact Hrun|]. intros fuel' Hfuel.
  unfold CacheList_Reset. cbn [head].
  destruct (in_fst_split _ _ Hhd) as (hc & s1 & s2 & ->).
  pose proof (sh_ring _ _ _ _ _ _ HA) as HrA. pose proof (sh_ring _ _ _ _ _ _ Hsh) as HrB.
  assert (Hc1 : chain (nodes h') (head cl) s2.*1 (fstp fA wA)).
  { apply (chain_ext (nodes h)).
    - intros y Hy. unfold nxt. rewrite Hold; [done|]. rewrite fmap_app. simpl. set_solver.
    - pose proof (ring_chain (nodes h) s2 (fA ++ (wA, Some cA) :: s1) (head cl) hc) as Hc.
      rewrite fstp_app in Hc. simpl in Hc. apply Hc. by rewrite <- (assoc_L (++)). }
  destruct (fA ++ (wA, Some cA) :: fB) as [|[a ca] R] eqn:ER; [by destruct fA|].
  assert (Ha : fstp fA wA = a).
  { destruct fA as [|[a' ca'] fA']; simpl in ER; by injection ER. }
  assert (Hc2 : chain (nodes h') a ((R ++ [(wB, wcB)]).*1) a) by (apply (ring_chain _ _ [] a ca); exact HrB).
  rewrite Ha in Hc1.
  assert (Hlost : reset_loop fuel' (head cl) h' = UB).
  { apply (reset_loop_lost (s2.*1 ++ a :: (R ++ [(wB, wcB)]).*1) _ _ _ a).
    - by apply chain_app.
    - assert (Hperm : (head cl :: s2.*1 ++ a :: (R ++ [(wB, wcB)]).*1) ≡ₚ
        ((head cl :: s2.*1) ++ (fA ++ (wA, Some cA) :: fB ++ [(wB, wcB)]).*1)).
      { change (fA ++ (wA, Some cA) :: fB ++ [(wB, wcB)]) with (fA ++ ((wA, Some cA) :: fB) ++ [(wB, wcB)]).
        rewrite (assoc_L (++)), ER. simpl. done. }
      rewrite Hperm. apply NoDup_app. split_and!.
      + apply ring_NoDup in HrA. rewrite !fmap_app in HrA. simpl in HrA.
        apply NoDup_app in HrA as (_ & _ & HrA). apply NoDup_cons in HrA as [_ HrA]. rewrite fmap_app in HrA.
        apply NoDup_app in HrA as (_ & _ & HrA). exact HrA.
      + intros y Hy. apply ring_NoDup in HrA. rewrite !fmap_app in HrA. simpl in HrA. rewrite fmap_app in HrA. simpl in HrA.
        specialize (Hdj y). rewrite !fmap_app in *. simpl in *. rewrite !fmap_app in *. simpl in *.
        rewrite NoDup_app in HrA. destruct HrA as (_ & H1 & H2). apply NoDup_cons in H2 as [H2 _].
        specialize (H1 y). set_solver.
      + apply ring_NoDup in HrB. rewrite <- ER in HrB. by rewrite <- (assoc_L (++)) in HrB.
    - by destruct s2.*1.
    - right. change (s2.*1 ++ a :: (R ++ [(wB, wcB)]).*1) with (s2.*1 ++ [a] ++ (R ++ [(wB, wcB)]).*1).
      rewrite (assoc_L (++)). apply elem_of_removelast; [rewrite fmap_app; by destruct R.*1|set_solver].
    - apply (f_equal length) in ER. rewrite !length_app in *. simpl in *. rewrite !length_fmap, !length_app in *. simpl in *. lia. }
  unfold mbind at 1, ST_bind at 1. by rewrite Hlost.
Qed.

(** ** The buffer *)

(** Once the first block of a buffer that is not empty has been drained, appending another
    buffer leaves an object whose bytes are right and which cannot be cleared or destroyed. *)
Lemma Buffer_Append_lost h b other L K fuel :
  Buffer_ok h b L -> Buffer_ok h other K -> (all L).*1 ## (all K).*1 ->
  total_len b <> 0 -> total_len other <> 0 -> head (cache_chain b) ∈ (spare L).*1 -> (length (front K) < fuel)%nat ->
  exists r h', Buffer_Append fuel false b other h = Ok (r, h') /\
    forall fuel', (length (all L) + length (all K) < fuel')%nat ->
      Buffer_dtor fuel' (fst r) h' = UB /\ Buffer_ClearAll fuel' (fst r) h' = UB.
Proof.
  intros Hb Ho Hdj Hb0 Ho0 Hhd Hf. pose proof Hb as [HwfL _ _ _]. pose proof Ho as [HwfK _ _ _].
  destruct (nonempty_cache h b L Hb Hb0) as [cA HcA]. unfold all in Hdj. rewrite HcA in *.
  destruct (Append_lost h _ _ _ _ _ _ _ _ _ _ fuel (proj1 HwfL) HwfK Hdj Hhd Hf) as (cl' & other' & h' & Hrun & Hreset).
  unfold Buffer_Append. rewrite orb_false_r, !(proj2 (Z.eqb_neq _ _)) by done. hrun Hrun.
  eexists _, h'. split; [done|]. intros fuel' Hfuel. cbn [fst].
  assert (Hr : CacheList_Reset fuel' cl' h' = UB).
  { apply Hreset. unfold all in Hfuel. rewrite !length_app in *. simpl in *. lia. }
  unfold Buffer_dtor, CacheList_dtor, Buffer_ClearAll. cbn [cache_chain].
  split; unfold mbind at 1, ST_bind at 1; by rewrite Hr.
Qed.
