(* ===== verification/NetBufferIO.v ===== *)
(** * [net::Buffer] on a socket: [Write] and [Read].

    The results of the system calls are arbitrary functions; what is assumed of them is
    what their documentation says: [writev] does not take more bytes than it was given,
    [readv] does not bring more bytes than the vectors hold, and brings as many bytes as
    it reports. *)

From S2P Require Import Prelude Cache CacheList CacheRing CacheListSpec CacheListMove CacheListGrow.
From S2P Require Import NetBuffer NetBufferSpec.

(** ** [Write] *)

Section write.
Implicit Types (h : Heap) (b : BufferImpl) (L : layout).

(** The vectors hold a prefix of the bytes: all that is asked for if 128 are enough. *)
Lemma write_vecs_spec l :
  forall k h pre rest d total,
  ring (nodes h) (pre ++ l ++ rest) -> Forall active_cache l ->
  0 <= total <= Zlen (contents l) -> total < 2 ^ 64 ->
  exists vecs bss m, write_vecs k (fstp l d) total h = Ok (vecs, h) /\
    gather vecs h = Ok (bss, h) /\ concat bss = take (Z.to_nat m) (contents l) /\
    0 <= m <= total /\ ((length l <= k)%nat -> m = total) /\
    (vecs = [] -> total = 0 \/ k = O).
Proof.
  induction l as [|[x ox] l IH]; intros k h pre rest d total Hr Hl Ht H64.
  - unfold Zlen in Ht; simpl in Ht. assert (total = 0) as -> by lia.
    exists [], [], 0. by destruct k; split_and!; auto.
  - destruct k as [|k]; [exists [], [], 0; split_and!; simpl; auto with lia|]. simpl write_vecs.
    destruct (Z.gtb_spec total 0) as [Hpos|Hz].
    2: { exists [], [], 0. split_and!; auto; lia. }
    inversion Hl as [|? ? (c & Hc & Hok) Hl']; subst. simpl in Hc. subst ox. simpl app in Hr.
    hrun (cache_of_ring _ _ _ _ _ Hr). rewrite contents_Zlen_cons in Ht by done.
    pose proof (Cache_content_length c Hok) as Hrs. pose proof (Zlen_nonneg (Cache_content c)).
    assert (Hrd : forall n, 0 <= n <= Cache_ReadableSize c ->
      mem_read (Cache_Data c) (misalign_ c) n = Ok (take (Z.to_nat n) (Cache_content c))).
    { intros n Hn. rewrite Cache_ReadableSize_ok in Hn by done.
      rewrite mem_read_ok by (cunfold; lia). f_equal. unfold Cache_content.
      rewrite firstn_firstn. f_equal. lia. }
    rewrite Z.gtb_ltb. destruct (Z.ltb_spec (Cache_ReadableSize c) total) as [Hmore|Hless].
    + hrun (load_run _ _ _ (ring_at _ _ _ _ _ Hr)). cbn [next]. rewrite fstp_app, u64_small by lia.
      destruct (IH k h (pre ++ [(x, Some c)]) rest (fstp rest (fstp pre x)) (total - Cache_ReadableSize c))
        as (vecs & bss & m & Hrun & Hg & Hcon & Hm & Hk & _); try done; try lia.
      { by rewrite <- (assoc_L (++)). }
      hrun Hrun. eexists _, (Cache_content c :: bss), (Cache_ReadableSize c + m).
      split_and!; [done| | |lia|lia| |done].
      * simpl. hrun (cache_of_ring _ _ _ _ _ Hr). hrun (lift_run _ h _ (Hrd (Cache_ReadableSize c) ltac:(lia))).
        hrun Hg. rewrite take_ge by (unfold Zlen in *; lia). done.
      * simpl. rewrite Hcon, contents_cons. unfold entry_content. simpl.
        rewrite take_app_ge by (unfold Zlen in *; lia). f_equal. f_equal. unfold Zlen in *. lia.
      * simpl. intros Hlen. rewrite Hk by lia. lia.
    + eexists _, [take (Z.to_nat total) (Cache_content c)], total. split_and!; [done| | |lia|lia|done|done].
      * simpl. hrun (cache_of_ring _ _ _ _ _ Hr). by hrun (lift_run _ h _ (Hrd total ltac:(lia))).
      * simpl. rewrite app_nil_r, contents_cons. unfold entry_content. simpl.
        by rewrite take_app_le by (unfold Zlen in *; lia).
Qed.

Lemma write_amount_bounds b howmuch :
  0 <= howmuch -> 0 <= total_len b -> 0 <= write_amount b howmuch <= total_len b.
Proof.
  intros. unfold write_amount. rewrite Z.gtb_ltb. destruct (Z.eqb_spec howmuch 0); zbool; lia.
Qed.

(** [Write] hands a prefix of the bytes to [writev] and drops what it took. *)
Lemma Buffer_Write_spec h b L (writev : list (list cell) -> Z) howmuch fuel :
  Buffer_ok h b L -> 0 <= howmuch -> drain_safe b L -> (length (all L) < fuel)%nat ->
  (forall bss, writev bss <= Zlen (concat bss)) ->
  exists bss m n b' h' L',
    concat bss = take (Z.to_nat m) (bytes_of L) /\ 0 <= m <= write_amount b howmuch /\
    ((length (front L) < NUM_WRITE_IOVEC)%nat -> m = write_amount b howmuch) /\
    n = (if write_amount b howmuch =? 0 then 0 else Z.max 0 (writev bss)) /\
    Buffer_Write writev fuel b howmuch h = Ok ((n, b'), h') /\
    Buffer_ok h' b' L' /\ bytes_of L' = drop (Z.to_nat n) (bytes_of L) /\ owns L L' h h' /\
    (length (front L') <= length (front L))%nat /\ (head_placed b L -> head_placed b' L').
Proof.
  intros Hb Hh Hsafe Hfuel Hw. pose proof Hb as [Hwf Hl Hm Hnone].
  pose proof (Zlen_nonneg (bytes_of L)) as Hnn.
  pose proof (write_amount_bounds b howmuch Hh ltac:(lia)) as Ht.
  set (total := write_amount b howmuch) in *. unfold Buffer_Write. fold total.
  destruct (Z.eqb_spec total 0) as [Hz|Hz].
  { exists [], 0, 0, b, h, L. rewrite Hz. split_and!; auto with hare; lia. }
  destruct (nonempty_cache h b L Hb ltac:(lia)) as [c Hc]. pose proof Hwf as [[Hok Hr Hrd _ Hf Hwc _] _].
  rewrite Hc in Hr, Hwc. unfold CacheList_Begin. unfold MAX_SIZE in *.
  assert (Hact : Forall active_cache (front L ++ [(wnode L, Some c)])).
  { apply Forall_app. split; [done|]. repeat constructor. by exists c. }
  assert (Hbo : bytes_of L = contents (front L ++ [(wnode L, Some c)])) by (unfold bytes_of; by rewrite Hc).
  destruct (write_vecs_spec (front L ++ [(wnode L, Some c)]) NUM_WRITE_IOVEC h [] (spare L) nullptr total)
    as (vecs & bss & m & Hrun & Hg & Hcon & Hmt & Hfull & Hnil); try done; try lia.
  { simpl. by rewrite <- (assoc_L (++)). }
  { rewrite <- Hbo. lia. }
  rewrite fstp_app in Hrun. simpl fstp in Hrun. rewrite <- Hrd in Hrun. rewrite <- Hbo in Hcon. hrun Hrun.
  rewrite decide_False by (intros E; by destruct (Hnil E)). hrun Hg.
  assert (Hlen : (length (front L) < NUM_WRITE_IOVEC)%nat -> m = total).
  { intros. apply Hfull. rewrite length_app. simpl. lia. }
  pose proof (Hw bss) as Hwb. rewrite Hcon, Zlen_take in Hwb by lia.
  destruct (Z.leb_spec (writev bss) 0) as [Hneg|Hpos].
  { exists bss, m, 0, b, h, L. rewrite Z.max_l by lia. split_and!; auto with hare; lia. }
  rewrite (proj2 (Z.gtb_lt _ _)) by lia.
  destruct (drain_buffer h b L (writev bss) fuel Hb ltac:(lia) ltac:(lia) Hsafe Hfuel)
    as (cl' & h' & L' & Hrun2 & Hb' & Hbs & Hown & Hfl & Hhp).
  hrun Hrun2. eexists bss, m, (writev bss), _, h', L'. split_and!; try done; lia.
Qed.
End write.

(** ** [Read] *)

Section read.
Implicit Types (h : Heap) (b : BufferImpl) (L : layout).

(** Bytes stored behind the readable ones of a cache: only its tail changes. *)
Lemma Cache_store_tail c bs :
  Cache_ok c -> Zlen bs <= Cache_WriteableSize c ->
  exists data, mem_write (Cache_Data c) (Cache_size c) bs = Ok data /\
    let c' := mkCache (UBuffer_ctor data (size_ (base c)) (capacity_ (base c))) (misalign_ c) in
    Cache_ok c' /\ Cache_content c' = Cache_content c /\
    Cache_tail c' = bs ++ drop (length bs) (Cache_tail c) /\ Cache_size c' = Cache_size c.
Proof.
  intros Hok Hs. rewrite Cache_WriteableSize_ok in Hs by done. pose proof (Zlen_nonneg bs).
  pose proof Hok as (? & ? & Hcap & ?).
  eexists. rewrite mem_write_ok by (cunfold; lia). split; [done|]. cbv zeta.
  assert (Hm : length (take (Z.to_nat (Cache_size c)) (Cache_Data c)) = Z.to_nat (Cache_size c)).
  { rewrite length_take. unfold Zlen in *. lia. }
  split_and!.
  - cunfold. simpl. rewrite !Zlen_app, Zlen_take, Zlen_drop by lia. lia.
  - unfold Cache_content. cunfold. simpl. rewrite drop_app_le by lia.
    rewrite take_app_le by (rewrite length_drop; lia).
    rewrite skipn_firstn_comm, firstn_firstn. f_equal. lia.
  - unfold Cache_tail. cunfold. simpl. rewrite drop_app_ge by lia. rewrite Hm, Nat.sub_diag, drop_0.
    f_equal. rewrite drop_drop. f_equal. unfold Zlen. lia.
  - done.
Qed.

(** The vectors of [Read] are the tails of the nodes from [write] on. *)
Definition vec_of (e : entry) : iovec :=
  match snd e with Some c => (fst e, Cache_size c, Cache_WriteableSize c) | None => (fst e, 0, 0) end.

Lemma read_vecs_spec l :
  forall h pre d, ring (nodes h) (pre ++ l) -> Forall active_cache l ->
  read_vecs (length l) (fstp l d) h = Ok (vec_of <$> l, h).
Proof.
  induction l as [|[x ox] l IH]; intros h pre d Hr Hl; [done|].
  inversion Hl as [|? ? (c & Hc & Hok) Hl']; subst. simpl in Hc. subst ox. simpl.
  hrun (cache_of_ring _ _ _ _ _ Hr). hrun (load_run _ _ _ (ring_at _ _ _ _ _ Hr)). cbn [next].
  erewrite (ST_bind_run (read_vecs _ _)); [done|]. apply (IH h (pre ++ [(x, Some c)])); [|done].
  by rewrite <- (assoc_L (++)).
Qed.

(** The lengths of the vectors [readv] gets add up to the room of the nodes. *)
Lemma vecs_room l :
  Forall active_cache l -> foldr Z.add 0 (iov_len <$> (vec_of <$> l)) = room l.
Proof.
  induction 1 as [|[x ox] l (c & Hc & Hok) _ IH]; [done|]. simpl in Hc. subst ox.
  rewrite room_cons, <- IH by done. done.
Qed.

(** The bytes that arrive end up in the tails, in order. *)
Definition stored (e e' : entry) : Prop :=
  fst e' = fst e /\ entry_content e' = entry_content e /\ active_cache e' /\
  (spare_cache e -> spare_cache e').

Lemma scatter_spec l :
  forall h pre bytes, heap_ok h -> ring (nodes h) (pre ++ l) -> Forall active_cache l ->
  Zlen bytes <= room l ->
  exists h' l', scatter (vec_of <$> l) bytes h = Ok (tt, h') /\ heap_ok h' /\
    ring (nodes h') (pre ++ l') /\ Forall2 stored l l' /\
    tails l' = bytes ++ drop (length bytes) (tails l) /\
    frames (pre ++ l).*1 (pre ++ l').*1 h h'.
Proof.
  induction l as [|[x ox] l IH]; intros h pre bytes Hheap Hr Hl Hb.
  - unfold room, tails in Hb. simpl in Hb. assert (bytes = []) as ->.
    { apply Zlen_0_nil. pose proof (Zlen_nonneg bytes). rewrite Zlen_nil in Hb. lia. }
    exists h, []. split_and!; auto with hare.
  - inversion Hl as [|? ? (c & Hc & Hok) Hl']; subst. simpl in Hc. subst ox.
    rewrite room_cons in Hb by done. rewrite fmap_cons. unfold vec_of at 1. simpl.
    hrun (cache_of_ring _ _ _ _ _ Hr).
    pose proof (Cache_tail_length c Hok) as Hlt. pose proof (Zlen_nonneg (Cache_tail c)).
    set (W := Z.to_nat (Cache_WriteableSize c)).
    destruct (Cache_store_tail c (take W bytes) Hok) as (data & Hw & Hc' & Hcon & Htl & Hsz).
    { unfold Zlen. rewrite length_take. lia. }
    cbv zeta in Hc', Hcon, Htl, Hsz. hrun (lift_run _ h _ Hw). set (c' := mkCache _ _) in *.
    destruct (set_cache_run h pre x _ c' _ Hheap Hr) as (h1 & Hs1 & Hok1 & Hr1 & Hf1). hrun Hs1.
    destruct (IH h1 (pre ++ [(x, Some c')]) (drop W bytes) Hok1) as (h2 & l2 & Hrun & Hok2 & Hr2 & Hst & Htls & Hf2).
    { by rewrite <- (assoc_L (++)). }
    { done. }
    { pose proof (room_nonneg l). unfold Zlen in *. rewrite length_drop. lia. }
    rewrite Hrun. exists h2, ((x, Some c') :: l2). rewrite <- !(assoc_L (++)) in *.
    split_and!; try done.
    + constructor; [|done]. split_and!; try done; [by exists c'|].
      intros (c0 & Hc0 & _ & Hs0 & Hm0). simpl in Hc0. injection Hc0 as <-. exists c'. by rewrite <- Hsz in Hs0.
    + rewrite !tails_cons, Htls. unfold entry_tail. cbn [snd]. rewrite Htl. unfold Zlen in *.
      rewrite length_take, length_drop. destruct (Nat.le_gt_cases (length bytes) W).
      * rewrite (take_ge bytes), (drop_ge bytes) by lia. simpl. rewrite Nat.min_r by lia.
        replace (length bytes - W)%nat with O by lia. rewrite drop_0, drop_app_le by lia.
        by rewrite (assoc_L (++)).
      * rewrite Nat.min_l, (drop_ge (Cache_tail c)) by lia. rewrite app_nil_r, (assoc_L (++)), take_drop.
        rewrite drop_app_ge by lia. f_equal. f_equal. lia.
    + by eapply frames_trans.
Qed.

Lemma stored_spare l l' : Forall2 stored l l' -> Forall spare_cache l -> Forall spare_cache l'.
Proof.
  induction 1 as [|e e' l l' (_ & _ & _ & Hs) _ IH]; [done|].
  intros Hf. inversion Hf; subst. constructor; auto.
Qed.

Lemma stored_addr l l' : Forall2 stored l l' -> l'.*1 = l.*1.
Proof. induction 1 as [|e e' l l' (Ha & _) _ IH]; [done|]. rewrite !fmap_cons. by f_equal. Qed.

(** A scattered read into the nodes from [write] on keeps the list and its bytes. *)
Lemma scatter_wf h cl front w c spare bytes :
  wf h cl front w (Some c) spare -> Zlen bytes <= room ((w, Some c) :: spare) ->
  exists h' c' spare', scatter (vec_of <$> (w, Some c) :: spare) bytes h = Ok (tt, h') /\
    wf h' cl front w (Some c') spare' /\
    contents (front ++ [(w, Some c')]) = contents (front ++ [(w, Some c)]) /\
    length spare' = length spare /\
    tails ((w, Some c') :: spare') = bytes ++ drop (length bytes) (tails ((w, Some c) :: spare)) /\
    frames (front ++ (w, Some c) :: spare).*1 (front ++ (w, Some c') :: spare').*1 h h'.
Proof.
  intros [[Hok Hr Hrd Hw Hf Hc Hs] [Hsz Hhd]] Hb.
  assert (Hact : Forall active_cache ((w, Some c) :: spare)).
  { constructor; [by exists c|]. eapply Forall_impl; [exact Hs|apply spare_active]. }
  destruct (scatter_spec _ h front bytes Hok Hr Hact Hb) as (h' & l' & Hrun & Hok' & Hr' & Hst & Htl & Hfr).
  pose proof (stored_addr _ _ Hst) as Haddr.
  inversion Hst as [|? [w' oc'] ? sp' (Hx & Hcon & (c' & Hc' & Hcok) & _) Hst' ]; subst.
  simpl in Hx, Hc'. subst w' oc'.
  exists h', c', sp'. pose proof (Forall2_length _ _ _ Hst') as Hlen.
  split_and!; try done.
  - split; split; try done; [by eapply stored_spare|rewrite Hsz; unfold Zlen; rewrite !length_app; simpl; by rewrite Hlen|].
    rewrite fmap_app in *. by rewrite Haddr.
  - rewrite !contents_app, !contents_cons, !contents_nil. by rewrite Hcon.
Qed.

(** What is documented of [readv]. *)
Definition readv_ok (readv : list Z -> Z * list cell) : Prop :=
  forall lens, fst (readv lens) <= foldr Z.add 0 lens /\ Zlen (snd (readv lens)) = Z.max 0 (fst (readv lens)).

(** [Read] appends what [readv] brings, when the chain has room for what it asks for. *)
Lemma Buffer_Read_spec h b L readable readv howmuch fuel :
  Buffer_ok h b L -> readv_ok readv ->
  let n := read_amount readable b howmuch in
  0 <= n <= MAX_SIZE -> n <= expand_room (wcache L) (spare L) n ->
  (forall lens, total_len b + fst (readv lens) <= MAX_SIZE) -> (1 + length (all L) < fuel)%nat ->
  exists lens r b' h' L',
    Buffer_Read readable readv fuel b howmuch h = Ok ((r, b'), h') /\ Buffer_ok h' b' L' /\
    r = Z.max 0 (fst (readv lens)) /\ foldr Z.add 0 lens = expand_room (wcache L) (spare L) n /\
    bytes_of L' = bytes_of L ++ snd (readv lens) /\ owns L L' h h' /\
    max_read b' = max_read b /\
    (roomy L -> 0 < r -> roomy L') /\ (single L -> wcache L = None -> single L').
Proof.
  intros Hb Hreadv n Hn Hroom Hmax Hfuel. pose proof Hb as [Hwf Hl Hm Hnone].
  unfold all in Hfuel. rewrite length_app in Hfuel. simpl in Hfuel. unfold MAX_SIZE in *.
  destruct (FastExpand_spec h _ _ _ _ _ n Hwf Hn)
    as (cl1 & h1 & fr1 & w1 & c1 & sp1 & Hwf1 & Hc1 & Hcon1 & Hfr1 & Hr1 & Hsp1 & Hnone1 & Hrun & _).
  specialize (Hrun Hroom fuel ltac:(lia)). unfold Buffer_Read. fold n. hrun Hrun. cbn [fst snd].
  pose proof Hwf1 as [[Hok1 Hring1 Hrd1 Hw1 Hf1 _ Hs1] _].
  assert (Hact : Forall active_cache ((w1, Some c1) :: sp1)).
  { constructor; [exists c1; by destruct Hc1|]. eapply Forall_impl; [exact Hs1|apply spare_active]. }
  assert (Hvec : read_vecs (Z.to_nat (1 + Zlen sp1)) (CacheList_End cl1) h1 = Ok (vec_of <$> (w1, Some c1) :: sp1, h1)).
  { unfold CacheList_End. rewrite Hw1.
    replace (Z.to_nat (1 + Zlen sp1)) with (length ((w1, Some c1) :: sp1)) by (unfold Zlen; simpl; lia).
    by apply (read_vecs_spec ((w1, Some c1) :: sp1) h1 fr1 nullptr). }
  hrun Hvec. set (lens := iov_len <$> _). destruct (Hreadv lens) as [Hle Hbytes].
  assert (Hsum : foldr Z.add 0 lens = room ((w1, Some c1) :: sp1)) by (by apply vecs_room).
  destruct (readv lens) as [actual bytes] eqn:Erd. cbn [fst snd] in *.
  pose proof (room_nonneg ((w1, Some c1) :: sp1)).
  destruct (scatter_wf h1 cl1 fr1 w1 c1 sp1 bytes Hwf1 ltac:(lia))
    as (h2 & c2 & sp2 & Hrun2 & Hwf2 & Hcon2 & Hlen2 & Htl2 & Hfr2). hrun Hrun2.
  assert (Hbs : contents (fr1 ++ [(w1, Some c2)]) = bytes_of L).
  { rewrite Hcon2, contents_snoc_nil, Hcon1; [done|]. apply (fresh_write_content (Some c1) Hc1). }
  exists lens. rewrite Erd. cbn [fst snd]. specialize (Hmax lens). rewrite Erd in Hmax. cbn [fst] in Hmax.
  destruct (Z.leb_spec actual 0) as [Hneg|Hpos].
  - rewrite Z.max_l in * by lia. apply Zlen_0_nil in Hbytes as ->.
    eexists _, _, h2, (mkLayout fr1 w1 (Some c2) sp2).
    split_and!; [done| |done|by rewrite Hsum|by rewrite app_nil_r|by eapply frames_trans|done|lia|].
    { split; simpl; try done. rewrite Hl. f_equal. done. }
    intros [Hf0 Hs0] Hw0. rewrite Hs0 in Hsp1. rewrite (Hnone1 Hw0), Hf0.
    destruct sp1; simpl in Hsp1, Hlen2; [|lia]. by destruct sp2.
  - rewrite Z.max_r in * by lia.
    assert (Hroom2 : room ((w1, Some c2) :: sp2) >= actual).
    { unfold room. rewrite Htl2, Zlen_app. pose proof (Zlen_nonneg (drop (length bytes) (tails ((w1, Some c1) :: sp1)))). lia. }
    pose proof (Zlen_nonneg (bytes_of L)).
    destruct (CacheList_Add_spec h2 cl1 fr1 w1 c2 sp2 actual fuel Hwf2 ltac:(lia) ltac:(lia) ltac:(lia))
      as (cl3 & h3 & fr3 & w3 & c3 & sp3 & Hrun3 & Hwf3 & Hcon3 & Hfr3 & Hone). hrun Hrun3.
    assert (Hbs3 : contents (fr3 ++ [(w3, Some c3)]) = bytes_of L ++ bytes).
    { rewrite Hcon3, Hbs, Htl2. f_equal. rewrite take_app_le by (unfold Zlen in *; lia).
      apply take_ge. unfold Zlen in *. lia. }
    eexists _, _, h3, (mkLayout fr3 w3 (Some c3) sp3).
    assert (Hgrow : spare L = [] -> fr3 = fr1 /\ sp3 = []).
    { intros Hs0. rewrite Hs0 in Hsp1. destruct sp1; simpl in Hsp1, Hlen2; [|lia].
      destruct sp2; [|done]. destruct (Hone eq_refl) as (-> & _ & ->). done. }
    split_and!; [done| |done|by rewrite Hsum|done|by eapply frames_trans; [exact Hfr1|eapply frames_trans]|done| |].
    + split; simpl; try done; [|unfold MAX_SIZE; rewrite u64_small; lia].
      unfold bytes_of at 1. simpl. rewrite Hbs3, Zlen_app, u64_small; lia.
    + intros [Hs0 _] _. destruct (Hgrow Hs0) as [-> ->]. split; [done|]. simpl. intros c [= <-].
      destruct (Cache_Empty c3) eqn:E; [|done]. exfalso.
      apply (Cache_Empty_content c3 (sh_wc _ _ _ _ _ _ (proj1 Hwf3))) in E.
      rewrite contents_snoc_nil in Hbs3 by done. rewrite Hcon1 in Hbs3. fold (bytes_of L) in Hbs3.
      rewrite <- (app_nil_r (bytes_of L)) in Hbs3 at 1. apply app_inv_head in Hbs3. subst bytes.
      unfold Zlen in Hbytes. simpl in Hbytes. lia.
    + intros [Hf0 Hs0] Hw0. destruct (Hgrow Hs0) as [-> ->]. by rewrite (Hnone1 Hw0), Hf0.
Qed.

(** Otherwise it never returns: [FastExpand] keeps linking nodes. *)
Lemma Buffer_Read_spins h b L readable readv howmuch :
  Buffer_ok h b L -> let n := read_amount readable b howmuch in
  0 <= n <= MAX_SIZE -> expand_room (wcache L) (spare L) n < n ->
  forall fuel, Buffer_Read readable readv fuel b howmuch h = NoFuel.
Proof.
  intros [Hwf _ _ _] n Hn Hroom fuel.
  destruct (FastExpand_spec h _ _ _ _ _ n Hwf Hn)
    as (cl1 & h1 & fr1 & w1 & c1 & sp1 & _ & _ & _ & _ & _ & _ & _ & _ & Hspin).
  unfold Buffer_Read. fold n. unfold mbind at 1, ST_bind at 1. by rewrite (Hspin Hroom fuel).
Qed.
End read.
