(* ===== verification/BufferSep.v ===== *)
(** * Several buffers in one heap.

    The session of SessionHeap.v has two buffers of its own and one in each task it has
    queued.  [holds h l]: the heap [h] contains the buffers [l], each well-formed, and every
    node belongs to exactly one of them.  An operation on some of the buffers leaves the others
    alone; the number of nodes allocated so far is fuel enough for the loops on any chain. *)

From S2P Require Import Prelude Cache CacheList CacheRing CacheListSpec CacheListMove CacheListGrow.
From S2P Require Import NetBuffer NetBufferSpec NetBufferIO.

(** A buffer object with the chain it stands for. *)
Abbreviation placed_buffer := (BufferImpl * layout)%type.

Definition addrs (L : layout) : list ptr := (all L).*1.

Definition footprint (l : list placed_buffer) : list ptr := concat ((fun x => addrs (snd x)) <$> l).

Record holds (h : Heap) (l : list placed_buffer) : Prop := {
  ho_heap : heap_ok h;
  ho_ok : Forall (fun x => Buffer_ok h (fst x) (snd x)) l;
  ho_sep : NoDup (footprint l);
  ho_all : forall p, is_Some (nodes h !! p) -> p ∈ footprint l
}.

Section separation.
Implicit Types (h : Heap) (b : BufferImpl) (L : layout) (l : list placed_buffer).

#[export] Instance footprint_perm : Proper ((≡ₚ) ==> (≡ₚ)) footprint.
Proof.
  intros l l' Hp. unfold footprint. induction Hp as [|x l l' _ IH|x y l|l l' l'' _ IH1 _ IH2]; simpl.
  - done.
  - by rewrite IH.
  - by rewrite !(assoc_L (++)), (Permutation_app_comm (addrs _) (addrs _)).
  - by etrans.
Qed.

#[export] Instance holds_perm h : Proper ((≡ₚ) ==> iff) (holds h).
Proof.
  assert (Himp : forall l l', l ≡ₚ l' -> holds h l -> holds h l').
  { intros l l' Hp [A B C D]. split; [done|by rewrite <- Hp|by rewrite <- Hp|]. intros p Hd%D. by rewrite <- Hp. }
  intros l l' Hp. split; apply Himp; [done|by symmetry].
Qed.

Lemma footprint_app l1 l2 : footprint (l1 ++ l2) = footprint l1 ++ footprint l2.
Proof. unfold footprint. by rewrite fmap_app, concat_app. Qed.

Lemma elem_of_footprint p l : p ∈ footprint l <-> exists x, x ∈ l /\ p ∈ addrs (snd x).
Proof.
  induction l as [|x l IH]; [set_solver|]. unfold footprint in *. simpl.
  rewrite elem_of_app, IH. setoid_rewrite elem_of_cons. naive_solver.
Qed.

(** The chain of a buffer is made of nodes that exist. *)
Lemma Buffer_ok_alive h b L p : Buffer_ok h b L -> p ∈ addrs L -> (p < brk h)%positive.
Proof.
  intros [[Hsh _] _ _ _] Hp. destruct (ring_alive _ _ p (sh_ring _ _ _ _ _ _ Hsh) Hp) as [n Hn].
  by apply (proj2 (sh_heap _ _ _ _ _ _ Hsh)) in Hn.
Qed.

Lemma Buffer_ok_same h h' b L :
  Buffer_ok h b L -> heap_ok h' -> (forall p, p ∈ addrs L -> nodes h' !! p = nodes h !! p) -> Buffer_ok h' b L.
Proof.
  intros [[[Hh Hr Hrd Hw Hf Hc Hs] Hct] Hl Hm Hn] Hh' He. split; try done. split; [|done].
  split; try done. by apply (ring_ext (nodes h)).
Qed.

(** The frame rule. *)
Lemma holds_frames h h' xs ys rest :
  holds h (xs ++ rest) -> heap_ok h' -> Forall (fun x => Buffer_ok h' (fst x) (snd x)) ys ->
  NoDup (footprint ys) -> frames (footprint xs) (footprint ys) h h' -> holds h' (ys ++ rest).
Proof.
  intros [_ Hok Hnd Hall] Hh' Hys Hndy [_ Hnew Hold Hgone]. rewrite footprint_app in Hnd.
  apply NoDup_app in Hnd as (_ & Hdj & Hndr). apply Forall_app in Hok as [_ Hok].
  assert (Halive : forall p, p ∈ footprint rest -> (p < brk h)%positive).
  { intros p (x & Hx & Hp)%elem_of_footprint. rewrite Forall_forall in Hok.
    by apply (Buffer_ok_alive _ _ _ _ (Hok _ Hx)). }
  split; [done| | |].
  - apply Forall_app. split; [done|]. rewrite Forall_forall in Hok |- *. intros x Hx.
    apply (Buffer_ok_same h); [by apply Hok|done|]. intros p Hp.
    assert (Hpr : p ∈ footprint rest).
    { apply elem_of_footprint. eauto. }
    apply Hold; [by apply Halive|]. intros Hpx. by apply (Hdj p).
  - rewrite footprint_app. apply NoDup_app. split_and!; [done| |done]. intros p Hp Hpr.
    apply Hnew in Hp as [Hp|Hp]; [by apply (Hdj p)|]. apply Halive in Hpr. lia.
  - intros p Hp. rewrite footprint_app, elem_of_app. destruct (Hgone p Hp) as [?|[Hn Ha%Hall]]; [by left|].
    rewrite footprint_app, elem_of_app in Ha. tauto.
Qed.

(** The chain of any of the buffers is shorter than the number of nodes ever allocated. *)
Lemma nodes_bound (l : list ptr) (m : ptr) :
  NoDup l -> (forall p, p ∈ l -> (p < m)%positive) -> (length l < Pos.to_nat m)%nat.
Proof.
  intros Hnd Hl.
  assert (Hsub : (Pos.to_nat <$> l) ⊆+ seq 1 (Pos.to_nat m - 1)).
  { apply NoDup_submseteq; [apply NoDup_fmap; [apply _|done]|]. intros n (p & -> & Hp)%list_elem_of_fmap.
    apply Hl in Hp. rewrite elem_of_seq. lia. }
  apply submseteq_length in Hsub. rewrite length_fmap, length_seq in Hsub. lia.
Qed.

Lemma holds_length h b L l : holds h ((b, L) :: l) -> (length (all L) < Pos.to_nat (brk h))%nat.
Proof.
  intros [_ Hok Hnd _]. inversion Hok as [|? ? Hb _]; subst. unfold footprint in Hnd. simpl in *.
  apply NoDup_app in Hnd as (Hnd & _). rewrite <- (length_fmap fst). apply nodes_bound; [done|].
  intros p. by apply (Buffer_ok_alive _ _ _ _ Hb).
Qed.

Lemma holds_first h b L l : holds h ((b, L) :: l) -> Buffer_ok h b L.
Proof. intros [_ Hok _ _]. by inversion Hok. Qed.

Lemma holds_apart h b L b' L' l : holds h ((b, L) :: (b', L') :: l) -> addrs L ## addrs L'.
Proof.
  intros [_ _ Hnd _]. unfold footprint in Hnd. simpl in Hnd. apply NoDup_app in Hnd as (_ & Hdj & _).
  intros p Hp Hp'. apply (Hdj p Hp). apply elem_of_app. by left.
Qed.

(** One buffer changed. *)
Lemma holds_step h h' b b' L L' l :
  holds h ((b, L) :: l) -> Buffer_ok h' b' L' -> owns L L' h h' -> holds h' ((b', L') :: l).
Proof.
  intros Hh Hb Ho. apply (holds_frames h h' [(b, L)] [(b', L')]); [done| |by constructor| |].
  - apply (proj1 (bo_wf _ _ _ Hb)).
  - unfold footprint. simpl. rewrite app_nil_r.
    apply (ring_NoDup _ _ (sh_ring _ _ _ _ _ _ (proj1 (bo_wf _ _ _ Hb)))).
  - unfold footprint. simpl. by rewrite !app_nil_r.
Qed.
End separation.

(** ** The operations *)

Section operations.
Implicit Types (h : Heap) (b : BufferImpl) (L : layout) (l : list placed_buffer).

Lemma holds_ctor h l max :
  holds h l ->
  exists b h' L, Buffer_ctor max h = Ok (b, h') /\ holds h' ((b, L) :: l) /\ bytes_of L = [] /\
    max_read b = max /\ single L /\ wcache L = None.
Proof.
  intros Hh. destruct (Buffer_ctor_spec h max (ho_heap _ _ Hh)) as (b & h' & L & Hrun & Hb & He & Hm & Hf & Hs & Hw).
  exists b, h', L. split_and!; try done; try apply Hs.
  apply (holds_frames h h' [] [(b, L)]); [done| |by constructor| |].
  - apply (proj1 (bo_wf _ _ _ Hb)).
  - unfold footprint. simpl. rewrite app_nil_r.
    apply (ring_NoDup _ _ (sh_ring _ _ _ _ _ _ (proj1 (bo_wf _ _ _ Hb)))).
  - unfold footprint. simpl. by rewrite app_nil_r.
Qed.

Lemma holds_dtor h b L l fuel :
  holds h ((b, L) :: l) -> (Pos.to_nat (brk h) <= fuel)%nat ->
  exists h', Buffer_dtor fuel b h = Ok (tt, h') /\ holds h' l.
Proof.
  intros Hh Hf. pose proof (holds_first _ _ _ _ Hh) as Hb. pose proof (holds_length _ _ _ _ Hh) as Hlen.
  unfold all in Hlen. rewrite length_app in Hlen. simpl in Hlen.
  destruct (CacheList_dtor_spec h _ _ _ _ _ fuel (bo_wf _ _ _ Hb)) as (h' & Hrun & Hok & _ & Hfr).
  { rewrite length_app. lia. }
  exists h'. split; [exact Hrun|]. apply (holds_frames h h' [(b, L)] []); [done|done|done|constructor|].
  unfold footprint. simpl. by rewrite app_nil_r.
Qed.

Lemma holds_Append h b other L K l fuel :
  holds h ((b, L) :: (other, K) :: l) -> total_len b + total_len other <= MAX_SIZE ->
  total_len b = 0 \/ spare L = [] -> (Pos.to_nat (brk h) <= fuel)%nat ->
  exists r h' L' K', Buffer_Append fuel false b other h = Ok (r, h') /\
    holds h' ((fst r, L') :: (snd r, K') :: l) /\
    bytes_of L' = bytes_of L ++ bytes_of K /\ bytes_of K' = [] /\
    max_read (fst r) = max_read b /\ max_read (snd r) = max_read other /\
    Buffer_Append_shape b other L K r L' K'.
Proof.
  intros Hh Hmax Hsp Hf. pose proof (holds_first _ _ _ _ Hh) as Hb. pose proof (holds_apart _ _ _ _ _ _ Hh) as Hdj.
  assert (Hh2 : holds h ((other, K) :: (b, L) :: l)) by (by rewrite Permutation_swap).
  pose proof (holds_first _ _ _ _ Hh2) as Ho. pose proof (holds_length _ _ _ _ Hh2) as Hlen.
  unfold all in Hlen. rewrite length_app in Hlen. simpl in Hlen.
  destruct (Buffer_Append_spec h b other L K fuel Hb Ho Hdj Hmax Hsp ltac:(lia))
    as (r & h' & Hrun & L' & K' & HbL & HbK & Hbs & Hbs' & Hm & Hm' & Hdj' & Hfr & Hsh).
  exists r, h', L', K'. split_and!; try done.
  apply (holds_frames h h' [(b, L); (other, K)] [(fst r, L'); (snd r, K')]); [done| |by rewrite Forall_cons, Forall_singleton| |].
  - apply (proj1 (bo_wf _ _ _ HbL)).
  - unfold footprint. simpl. rewrite app_nil_r. apply NoDup_app. split_and!.
    + apply (ring_NoDup _ _ (sh_ring _ _ _ _ _ _ (proj1 (bo_wf _ _ _ HbL)))).
    + intros p Hp Hp'. by apply (Hdj' p).
    + apply (ring_NoDup _ _ (sh_ring _ _ _ _ _ _ (proj1 (bo_wf _ _ _ HbK)))).
  - unfold footprint. simpl. by rewrite !app_nil_r.
Qed.
End operations.
