(* ===== verification/NetBufferFind.v ===== *)
(** * Iterators over a buffer and the search for a pattern.

    Sources: hare/net/buffer_iterator.cc, [BufferIteratorImpl] of hare/net/buffer-inl.h,
    [get_next], [Buffer::Begin], [Buffer::End] and [Buffer::Find] of hare/net/buffer.cc. *)

From S2P Require Import Prelude Cache CacheList CacheRing CacheListSpec CacheListMove CacheListGrow.
From S2P Require Import NetBuffer NetBufferSpec.

(** ** Iterators *)

(** [BufferIteratorImpl]; the pointer to the list is an argument of the operations.
    [None] is an iterator that is not [Valid()]. *)
Record IterImpl := mkIter { iter : ptr; curr_index : Z }.

Abbreviation BufferIterator := (option IterImpl).

#[export] Instance IterImpl_eq_dec : EqDecision IterImpl.
Proof. solve_decision. Defined.

Definition Iter_begin (cl : CacheList) : M BufferIterator :=
  c ← cache_of (CacheList_Begin cl);
  mret (Some (mkIter (CacheList_Begin cl) (misalign_ c))).

Definition Iter_end (cl : CacheList) (p : ptr) : M BufferIterator :=
  c ← cache_of p;
  mret (Some (mkIter p (Cache_size c))).

Definition char_at (data : list cell) (i : Z) : outcome cell :=
  l ← mem_read data i 1;
  deref (l !! 0%nat).

(** [operator*] *)
Definition Iter_deref (it : BufferIterator) : M cell :=
  match it with
  | None => mret (Some 0)
  | Some i => c ← cache_of (iter i); lift (char_at (Cache_Data c) (curr_index i))
  end.

(** [operator++] *)
Definition Iter_incr (cl : CacheList) (it : BufferIterator) : M BufferIterator :=
  match it with
  | None => mret None
  | Some i =>
    let end_ := CacheList_End cl in
    stop ← (if decide (iter i = end_) then
              e ← cache_of end_; mret (curr_index i =? Cache_size e)
            else mret false);
    if stop : bool then mret (Some i)
    else
      let index := u64 (curr_index i + 1) in
      c ← cache_of (iter i);
      if index >? Cache_size c then
        n ← load (iter i);
        c' ← cache_of (next n);
        mret (Some (mkIter (next n) (misalign_ c')))
      else mret (Some (mkIter (iter i) index))
  end.

(** [operator--] *)
Definition Iter_decr (cl : CacheList) (it : BufferIterator) : M BufferIterator :=
  match it with
  | None => mret None
  | Some i =>
    let begin := CacheList_Begin cl in
    stop ← (if decide (iter i = begin) then
              b ← cache_of begin; mret (curr_index i =? misalign_ b)
            else mret false);
    if stop : bool then mret (Some i)
    else
      back ← (if curr_index i =? 0 then mret true
              else c ← cache_of (iter i); mret (curr_index i - 1 <? misalign_ c));
      if back : bool then
        n ← load (iter i);
        c' ← cache_of (prev n);
        mret (Some (mkIter (prev n) (Cache_size c')))
      else mret (Some (mkIter (iter i) (curr_index i - 1)))
  end.

(** [operator==] and [operator!=] read through both pointers. *)
Definition Iter_eq (x y : BufferIterator) : outcome bool :=
  a ← deref x; b ← deref y;
  Ok (bool_decide (iter a = iter b) && (curr_index a =? curr_index b)).

Definition Iter_ne (x y : BufferIterator) : outcome bool :=
  a ← deref x; b ← deref y;
  Ok (bool_decide (iter a <> iter b) || negb (curr_index a =? curr_index b)).

Definition Buffer_Begin (b : BufferImpl) : M BufferIterator := Iter_begin (cache_chain b).

Definition Buffer_End (b : BufferImpl) : M BufferIterator :=
  Iter_end (cache_chain b) (CacheList_End (cache_chain b)).

(** ** The search *)

(** [std::vector<std::int32_t>::operator[]], which is not checked. *)
Definition vec_get (v : list Z) (i : Z) : outcome Z :=
  if 0 <=? i then deref (v !! Z.to_nat i) else UB.

Definition vec_set (v : list Z) (i x : Z) : outcome (list Z) :=
  if decide (0 <= i < Zlen v) then Ok (<[Z.to_nat i := x]> v) else UB.

(** The loop of [get_next]; [pat] is the memory at [_begin]. *)
Fixpoint get_next_loop (fuel : nat) (pat : list cell) (size : Z) (next : list Z) (j k : Z) : outcome (list Z) :=
  match fuel with
  | O => NoFuel
  | S fuel =>
    if j <? size then
      same ← (if k =? -1 then Ok true
              else x ← char_at pat j; y ← char_at pat k; Ok (bool_decide (x = y)));
      if same : bool then
        let j := j + 1 in
        k ← int32 (k + 1);
        x ← char_at pat j;
        y ← char_at pat k;
        next ← (if decide (x <> y) then vec_set next j k
                else v ← vec_get next k; vec_set next j v);
        get_next_loop fuel pat size next j k
      else
        k ← vec_get next k;
        get_next_loop fuel pat size next j k
    else Ok next
  end.

Definition get_next (fuel : nat) (pat : list cell) (size : Z) : outcome (list Z) :=
  get_next_loop fuel pat size (replicate (Z.to_nat size) (-1)) 0 (-1).

(** The loop of [Find]: (i, j) at its end. *)
Fixpoint find_loop (fuel : nat) (b : BufferImpl) (pat : list cell) (size : Z) (next_val : list Z)
    (i : BufferIterator) (j : Z) : M (BufferIterator * Z) :=
  match fuel with
  | O => lift NoFuel
  | S fuel =>
    e ← Buffer_End b;
    ne ← lift (Iter_ne i e);
    if ne && ((j =? -1) || (j <? size)) then
      eq ← (if j =? -1 then mret true
            else x ← Iter_deref i; y ← lift (char_at pat j); mret (bool_decide (x = y)));
      if eq : bool then
        i ← Iter_incr (cache_chain b) i;
        j ← lift (int32 (j + 1));
        find_loop fuel b pat size next_val i j
      else
        j ← lift (vec_get next_val j);
        find_loop fuel b pat size next_val i j
    else mret (i, j)
  end.

Definition Buffer_Find (fuel : nat) (b : BufferImpl) (pat : list cell) (size : Z) : M BufferIterator :=
  if size >? total_len b then Buffer_End b
  else
    next_val ← lift (get_next fuel pat size);
    i ← Buffer_Begin b;
    r ← find_loop fuel b pat size next_val i 0;
    if (snd r >=? 0) && (snd r >=? size) then mret (fst r) else Buffer_End b.

(** ** [get_next] writes past the end of its table *)

Section get_next_lemmas.
(** What the loop keeps: the entries of the table are smaller than their index. *)
Definition table_ok (next : list Z) (size : Z) : Prop :=
  Zlen next = size /\ forall i x, next !! i = Some x -> -1 <= x < Z.of_nat i.

Lemma char_at_total pat i : (exists c, char_at pat i = Ok c) \/ char_at pat i = UB.
Proof.
  unfold char_at, mem_read. case_decide; [|by right]. simpl. destruct (_ !! 0%nat); eauto.
Qed.

Lemma vec_get_ok v size i :
  table_ok v size -> 0 <= i < size -> exists x, vec_get v i = Ok x /\ -1 <= x < i.
Proof.
  intros [Hlen Hv] Hi. unfold vec_get. rewrite (proj2 (Z.leb_le _ _)) by lia.
  destruct (v !! Z.to_nat i) as [x|] eqn:E.
  - exists x. split; [done|]. apply Hv in E. lia.
  - apply lookup_ge_None in E. unfold Zlen in *. lia.
Qed.

Lemma vec_set_ok v size i x :
  table_ok v size -> 0 <= i < size -> -1 <= x < i ->
  exists v', vec_set v i x = Ok v' /\ table_ok v' size.
Proof.
  intros [Hlen Hv] Hi Hx. unfold vec_set. rewrite decide_True by lia. eexists. split; [done|]. split.
  - unfold Zlen in *. by rewrite length_insert.
  - intros i' x'. rewrite list_lookup_insert. case_decide as E; [|by apply Hv].
    intros [= <-]. destruct E. lia.
Qed.

(** The last successful comparison stores at index [size]. *)
Lemma get_next_loop_UB fuel :
  forall pat size next j k,
  table_ok next size -> 0 <= j < size -> -1 <= k < j \/ (j = 0 /\ k = -1) -> size < 2 ^ 31 ->
  2 * (size - j) + k + 1 <= Z.of_nat fuel ->
  get_next_loop fuel pat size next j k = UB.
Proof.
  induction fuel as [|fuel IH]; intros pat size next j k Ht Hj Hk Hsz Hfuel; [lia|].
  simpl. rewrite (proj2 (Z.ltb_lt _ _)) by lia.
  assert (Hstep : forall same : outcome bool, same = UB \/ (exists b, same = Ok b /\ (b = false -> 0 <= k)) ->
    (same ≫= fun same => if same : bool then
       k ← int32 (k + 1); x ← char_at pat (j + 1); y ← char_at pat k;
       next ← (if decide (x <> y) then vec_set next (j + 1) k
               else v ← vec_get next k; vec_set next (j + 1) v);
       get_next_loop fuel pat size next (j + 1) k
     else k ← vec_get next k; get_next_loop fuel pat size next j k) = UB).
  { intros same [->|([] & -> & Hb)]; [done| |].
    - ored. rewrite int32_ok by lia. ored.
      destruct (char_at_total pat (j + 1)) as [[x ->]| ->]; [|done]. ored.
      destruct (char_at_total pat (k + 1)) as [[y ->]| ->]; [|done]. ored.
      destruct (vec_get_ok next size (k + 1) Ht ltac:(lia)) as (v & Hv & Hvb).
      destruct (decide (j + 1 < size)) as [Hlt|Hge].
      + destruct (vec_set_ok next size (j + 1) (k + 1) Ht ltac:(lia) ltac:(lia)) as (n1 & -> & Hn1).
        destruct (vec_set_ok next size (j + 1) v Ht ltac:(lia) ltac:(lia)) as (n2 & Hs2 & Hn2).
        destruct (decide (x <> y)); ored; [|rewrite Hv; ored; rewrite Hs2; ored]; apply IH; auto; lia.
      + assert (Hub : forall z, vec_set next (j + 1) z = UB).
        { intros z. unfold vec_set. destruct Ht as [Hlen _]. by rewrite decide_False by lia. }
        destruct (decide (x <> y)); [by rewrite Hub|]. by rewrite Hv; ored; rewrite Hub.
    - ored. destruct (vec_get_ok next size k Ht) as (v & -> & Hvb); [specialize (Hb eq_refl); lia|]. ored.
      apply IH; auto; lia. }
  apply Hstep. destruct (Z.eqb_spec k (-1)) as [->|Hk1]; [right; by exists true|].
  destruct (char_at_total pat j) as [[x ->]| ->]; [|by left]. ored.
  destruct (char_at_total pat k) as [[y ->]| ->]; [|by left]. ored.
  right. eexists. split; [done|]. lia.
Qed.

Lemma get_next_UB fuel pat size :
  1 <= size < 2 ^ 31 -> 2 * size <= Z.of_nat fuel -> get_next fuel pat size = UB.
Proof.
  intros Hs Hf. apply get_next_loop_UB; [|lia|lia|lia|lia]. split.
  - rewrite Zlen_replicate. lia.
  - intros i x [-> Hi]%lookup_replicate. lia.
Qed.

(** [Find] has undefined behaviour for every pattern that could be found. *)
Lemma Buffer_Find_UB h b pat size fuel :
  1 <= size <= total_len b -> size < 2 ^ 31 -> 2 * size <= Z.of_nat fuel ->
  Buffer_Find fuel b pat size h = UB.
Proof.
  intros Hs H31 Hf. unfold Buffer_Find. rewrite Z.gtb_ltb, (proj2 (Z.ltb_ge _ _)) by lia.
  unfold mbind at 1, ST_bind at 1. by rewrite get_next_UB by lia.
Qed.
End get_next_lemmas.

(** ** Walking over a buffer *)

Section walk.
Implicit Types (h : Heap) (b : BufferImpl) (L : layout).

Fixpoint Iter_steps (n : nat) (cl : CacheList) (it : BufferIterator) : M BufferIterator :=
  match n with
  | O => mret it
  | S n => it ← Iter_incr cl it; Iter_steps n cl it
  end.

(** Inside a node [++] moves on by one cell, up to the end of its bytes. *)
Lemma Iter_incr_inside h cl p c i :
  cache_of p h = Ok (c, h) -> 0 <= i < Cache_size c -> Cache_ok c ->
  Iter_incr cl (Some (mkIter p i)) h = Ok (Some (mkIter p (i + 1)), h).
Proof.
  intros Hc Hi Hok. destruct Hok as (? & ? & ? & ?). unfold Iter_incr. simpl iter. simpl curr_index.
  assert (Hnext : forall stop : M bool, stop h = Ok (false, h) ->
    (stop ≫= fun stop => if stop : bool then mret (Some (mkIter p i))
     else c ← cache_of p;
       (if u64 (i + 1) >? Cache_size c then n ← load p; c' ← cache_of (next n);
          mret (Some (mkIter (next n) (misalign_ c')))
        else mret (Some (mkIter p (u64 (i + 1)))))) h = Ok (Some (mkIter p (i + 1)), h)).
  { intros stop Hs. hrun Hs. hrun Hc. rewrite u64_small by lia.
    rewrite Z.gtb_ltb, (proj2 (Z.ltb_ge _ _)) by lia. done. }
  apply Hnext. case_decide as E; [|done]. rewrite <- E. hrun Hc.
  by rewrite (proj2 (Z.eqb_neq _ _)) by lia.
Qed.

Lemma Iter_steps_inside h cl p c n :
  forall i, cache_of p h = Ok (c, h) -> Cache_ok c -> 0 <= i -> i + Z.of_nat n <= Cache_size c ->
  Iter_steps n cl (Some (mkIter p i)) h = Ok (Some (mkIter p (i + Z.of_nat n)), h).
Proof.
  induction n as [|n IH]; intros i Hc Hok Hi Hn; simpl; [by rewrite Z.add_0_r|].
  hrun (Iter_incr_inside h cl p c i Hc ltac:(lia) Hok). rewrite (IH (i + 1)) by (done || lia).
  repeat first [done | lia | f_equal].
Qed.

Lemma Iter_deref_inside h p c i :
  cache_of p h = Ok (c, h) -> Cache_ok c -> (i < length (Cache_content c))%nat ->
  exists x, Iter_deref (Some (mkIter p (misalign_ c + Z.of_nat i))) h = Ok (x, h) /\
    Cache_content c !! i = Some x.
Proof.
  intros Hc Hok Hi. pose proof (Cache_content_length c Hok) as Hl. rewrite Cache_ReadableSize_ok in Hl by done.
  destruct (lookup_lt_is_Some_2 _ _ Hi) as [x Hx]. exists x. split; [|done].
  pose proof Hok as (? & ? & ? & ?). unfold Zlen in *.
  unfold Iter_deref. hrun Hc. unfold char_at. rewrite mem_read_ok by (unfold Zlen; simpl; lia).
  unfold Cache_content in Hx. rewrite lookup_take_lt, lookup_drop in Hx by lia. simpl curr_index. ored.
  rewrite lookup_take_lt, lookup_drop, Nat.add_0_r by lia.
  replace (Z.to_nat (misalign_ c + Z.of_nat i)) with (Z.to_nat (misalign_ c) + i)%nat by lia.
  by rewrite Hx.
Qed.

(** A buffer whose bytes are in one node is walked from [Begin()] to [End()] byte by byte. *)
Lemma walk_single h b L i :
  Buffer_ok h b L -> front L = [] -> (i <= length (bytes_of L))%nat -> is_Some (wcache L) ->
  exists it it', (bg ← Buffer_Begin b; Iter_steps i (cache_chain b) bg) h = Ok (it, h) /\
    Buffer_End b h = Ok (it', h) /\
    ((i < length (bytes_of L))%nat -> exists x, Iter_deref it h = Ok (x, h) /\ bytes_of L !! i = Some x) /\
    Iter_ne it it' = Ok (bool_decide (i <> length (bytes_of L))).
Proof.
  intros [Hwf _ _ _] Hfr Hi [c Hc]. pose proof Hwf as [[_ Hr Hrd Hw _ Hok _] _].
  unfold bytes_of in *. rewrite Hfr, Hc in *. simpl app in *.
  rewrite contents_cons, contents_nil, app_nil_r in *. unfold entry_content in *. simpl in Hi.
  pose proof (cache_of_ring h [] (wnode L) c (spare L) Hr) as Hco.
  pose proof (Cache_content_length c Hok) as Hl. rewrite Cache_ReadableSize_ok in Hl by done.
  pose proof Hok as (? & ? & ? & ?). unfold Zlen in Hl. cbn [snd] in *.
  unfold Buffer_Begin, Buffer_End, Iter_begin, Iter_end, CacheList_Begin, CacheList_End.
  rewrite Hrd, Hw. simpl fstp.
  exists (Some (mkIter (wnode L) (misalign_ c + Z.of_nat i))), (Some (mkIter (wnode L) (Cache_size c))).
  split_and!.
  - erewrite (ST_bind_run (_ ← cache_of _; _)); [|by hrun Hco].
    apply (Iter_steps_inside h _ _ c); [done|done|lia|lia].
  - by hrun Hco.
  - intros Hlt. by apply Iter_deref_inside.
  - unfold Iter_ne. ored. simpl. rewrite bool_decide_eq_false_2 by (by intros []). simpl. f_equal.
    destruct (Z.eqb_spec (misalign_ c + Z.of_nat i) (Cache_size c)); simpl; symmetry.
    + apply bool_decide_eq_false_2. lia.
    + apply bool_decide_eq_true_2. lia.
Qed.

(** Where the bytes go on in the next node, the walk first stops behind the last byte
    of the node it is on: as many steps as that node has bytes do not reach the next
    byte, and if the node is full the dereference there is out of bounds. *)
Lemma walk_boundary h b L x c fr :
  Buffer_ok h b L -> front L = (x, Some c) :: fr -> Cache_Full c = true ->
  exists it, (bg ← Buffer_Begin b; Iter_steps (length (Cache_content c)) (cache_chain b) bg) h = Ok (it, h) /\
    Iter_deref it h = UB.
Proof.
  intros [Hwf _ _ _] Hfr Hfull. pose proof Hwf as [[_ Hr Hrd Hw Hact _ _] _]. rewrite Hfr in *. simpl in *.
  apply Forall_cons in Hact as [(c0 & Hc0 & Hok) _]. simpl in Hc0. injection Hc0 as <-.
  pose proof (cache_of_ring h [] x c _ Hr) as Hco.
  pose proof (Cache_content_length c Hok) as Hl. rewrite Cache_ReadableSize_ok in Hl by done.
  pose proof Hok as (? & ? & ? & ?). unfold Zlen in Hl.
  unfold Buffer_Begin, Iter_begin, CacheList_Begin. rewrite Hrd.
  exists (Some (mkIter x (Cache_size c))). split.
  - erewrite (ST_bind_run (_ ← cache_of _; _)); [|by hrun Hco].
    rewrite (Iter_steps_inside h _ _ c) by (done || lia). repeat first [done | lia | f_equal].
  - unfold Iter_deref. simpl iter. hrun Hco. simpl curr_index. unfold char_at, mem_read.
    unfold Cache_Full in Hfull. apply Z.eqb_eq in Hfull. by rewrite decide_False by lia.
Qed.
End walk.
