(* ===== verification/Time.v ===== *)
(** * Calendar and time zones.

    Sources: hare/base/time/datetime.cc, hare/base/time/timezone.cc and their headers.
    [int] and [std::int32_t] arithmetic is checked: a signed overflow is undefined
    behaviour.  [/] and [%] of C++ are [Z.quot] and [Z.rem]. *)

From S2P Require Import Prelude.

(** [ints l r]: [r], provided that every intermediate value [l] is an [int]. *)
Definition in_int32 (z : Z) : bool := (- 2 ^ 31 <=? z) && (z <? 2 ^ 31).
Definition ints {A} (l : list Z) (r : A) : outcome A := if forallb in_int32 l then Ok r else UB.

(** ** Dates *)

Record YMD := mkYMD { ymd_year : Z; ymd_month : Z; ymd_day : Z }.

Definition JulianDayNumber (year month day : Z) : outcome Z :=
  let a := Z.quot (14 - month) 12 in
  let y := year + 4800 - a in
  let m := month + 12 * a - 3 in
  let r := day + Z.quot (153 * m + 2) 5 + y * 365 + Z.quot y 4 - Z.quot y 100 + Z.quot y 400 - 32045 in
  ints [14 - month; year + 4800; y; 12 * a; month + 12 * a; m; 153 * m; 153 * m + 2;
        day + Z.quot (153 * m + 2) 5; y * 365; day + Z.quot (153 * m + 2) 5 + y * 365;
        day + Z.quot (153 * m + 2) 5 + y * 365 + Z.quot y 4;
        day + Z.quot (153 * m + 2) 5 + y * 365 + Z.quot y 4 - Z.quot y 100;
        day + Z.quot (153 * m + 2) 5 + y * 365 + Z.quot y 4 - Z.quot y 100 + Z.quot y 400; r] r.

Definition GetYMD (julian_day_number : Z) : outcome YMD :=
  let a := julian_day_number + 32044 in
  let b := Z.quot (4 * a + 3) 146097 in
  let c := a - Z.quot (b * 146097) 4 in
  let d := Z.quot (4 * c + 3) 1461 in
  let e := c - Z.quot (1461 * d) 4 in
  let m := Z.quot (5 * e + 2) 153 in
  ints [a; 4 * a; 4 * a + 3; b * 146097; c; 4 * c; 4 * c + 3; 1461 * d; e; 5 * e; 5 * e + 2;
        b * 100; b * 100 + d; 153 * m; 153 * m + 2]
    (mkYMD (b * 100 + d - 4800 + Z.quot m 10) (m + 3 - 12 * Z.quot m 10) (e - Z.quot (153 * m + 2) 5 + 1)).

(** Class [Date]: a Julian day number. *)
Definition Date_of_ymd (year month day : Z) : outcome Z := JulianDayNumber year month day.
Definition Date_Valid (jdn : Z) : bool := jdn >? 0.
Definition Date_Detail (jdn : Z) : outcome YMD := GetYMD jdn.
Definition Date_Year (jdn : Z) : outcome Z := d ← Date_Detail jdn; Ok (ymd_year d).
Definition Date_Month (jdn : Z) : outcome Z := d ← Date_Detail jdn; Ok (ymd_month d).
Definition Date_Day (jdn : Z) : outcome Z := d ← Date_Detail jdn; Ok (ymd_day d).
Definition DAYS_PER_WEEK : Z := 7.
Definition Date_WeekDay (jdn : Z) : outcome Z := ints [jdn + 1] (Z.rem (jdn + 1) DAYS_PER_WEEK).
Definition Date_lt (x y : Z) : bool := x <? y.
Definition Date_eq (x y : Z) : bool := x =? y.

(** ** Date and time of day *)

Record DateTime := mkDateTime {
  year : Z; month : Z; day : Z; hour : Z; minute : Z; second : Z
}.

Definition HARE_START_YEAR : Z := 1900.
Definition DateTime_default : DateTime := mkDateTime HARE_START_YEAR 1 1 0 0 0.

(** [std::tm], as far as it is used. *)
Record tm := mktm { tm_year : Z; tm_mon : Z; tm_mday : Z; tm_hour : Z; tm_min : Z; tm_sec : Z }.

Definition DateTime_of_tm (t : tm) : outcome DateTime :=
  ints [tm_year t + HARE_START_YEAR; tm_mon t + 1]
    (mkDateTime (tm_year t + HARE_START_YEAR) (tm_mon t + 1) (tm_mday t) (tm_hour t) (tm_min t) (tm_sec t)).

Definition SECONDS_PER_DAY : Z := 86400.

Definition JULIAN_DAY_OF_19700101 : Z :=
  match JulianDayNumber 1970 1 1 with Ok n => n | _ => 0 end.

(** The hour, minute and second of [FillHMS]. *)
Definition FillHMS (seconds : Z) (d : DateTime) : outcome DateTime :=
  let minutes := Z.quot (i32 seconds) 60 in
  let h := Z.quot minutes 60 in
  ints [h * 60; minutes - h * 60; minutes * 60; i32 seconds - minutes * 60]
    (mkDateTime (year d) (month d) (day d) h (minutes - h * 60) (i32 seconds - minutes * 60)).

Definition BreakTime (time : Z) : outcome DateTime :=
  let seconds := i32 (Z.rem time SECONDS_PER_DAY) in
  let days := i32 (Z.quot time SECONDS_PER_DAY) in
  let seconds' := if seconds <? 0 then seconds + SECONDS_PER_DAY else seconds in
  days' ← (if seconds <? 0 then int32 (days - 1) else Ok days);
  sdt ← FillHMS (u32 seconds') DateTime_default;
  n ← int32 (days' + JULIAN_DAY_OF_19700101);
  ymd ← Date_Detail n;
  Ok (mkDateTime (ymd_year ymd) (ymd_month ymd) (ymd_day ymd) (hour sdt) (minute sdt) (second sdt)).

Definition ToUtcTime (seconds_since_epoch : Z) : outcome DateTime := BreakTime seconds_since_epoch.

Definition FromUtcTime (dt : DateTime) : outcome Z :=
  n ← Date_of_ymd (year dt) (month dt) (day dt);
  let seconds_in_day := hour dt * 3600 + minute dt * 60 + second dt in
  let days := n - JULIAN_DAY_OF_19700101 in
  ints [hour dt * 3600; minute dt * 60; hour dt * 3600 + minute dt * 60; seconds_in_day; days;
        days * SECONDS_PER_DAY; days * SECONDS_PER_DAY + seconds_in_day]
    (days * SECONDS_PER_DAY + seconds_in_day).

(** ** Time zones *)

Record Transition := mkTransition { utc_time : Z; local_time : Z; local_time_idx : Z }.
Record LocalTime := mkLocalTime { utc_offset : Z; is_dst : bool; desig_idx : Z }.

Record TimezoneImpl := mkTimezone {
  transitions : list Transition;
  local_times : list LocalTime;
  abbreviation : string;
  tz_string : string;
  valid : bool
}.

Definition Timezone_default : TimezoneImpl := mkTimezone [] [] "" "" false.

Definition AddLocalTime (z : TimezoneImpl) (utc_offset : Z) (is_dst : bool) (desig_idx : Z) : TimezoneImpl :=
  mkTimezone (transitions z) (local_times z ++ [mkLocalTime utc_offset is_dst desig_idx])
    (abbreviation z) (tz_string z) (valid z).

(** [std::vector::operator[]] (not checked) and [at] (checked). *)
Definition index {A} (v : list A) (i : Z) : outcome A :=
  if 0 <=? i then deref (v !! Z.to_nat i) else UB.
Definition at_ {A} (v : list A) (i : Z) : outcome A :=
  match (if 0 <=? i then v !! Z.to_nat i else None) with Some x => Ok x | None => Throw OutOfRange end.

Definition AddTransition (z : TimezoneImpl) (utc_time local_time_idx : Z) : outcome TimezoneImpl :=
  l ← at_ (local_times z) local_time_idx;
  t ← int64 (utc_time + utc_offset l);
  Ok (mkTimezone (transitions z ++ [mkTransition utc_time t local_time_idx])
        (local_times z) (abbreviation z) (tz_string z) (valid z)).

(** [this->Clone(other)]: what [other] becomes. *)
Definition Clone (z other : TimezoneImpl) : TimezoneImpl :=
  if negb (valid z) then other
  else mkTimezone (transitions other) (local_times z) (abbreviation z) (tz_string z) (valid z).

Definition Timezone_fixed (east_of_utc : Z) (name : string) : TimezoneImpl :=
  let z := AddLocalTime Timezone_default east_of_utc false 0 in
  mkTimezone (transitions z) (local_times z) name (tz_string z) true.

Definition Timezone_UTC : TimezoneImpl := Timezone_fixed 0 "UTC".

(** Copy constructor and assignment. *)
Definition Timezone_copy (another : TimezoneImpl) : TimezoneImpl :=
  if valid another then Clone another Timezone_default else Timezone_default.
Definition Timezone_assign (this another : TimezoneImpl) : TimezoneImpl :=
  if valid another then Clone another this else this.

(** [std::upper_bound] on a range ordered by [key]: the number of elements that are not
    greater than [x]. *)
Fixpoint upper_bound (key : Transition -> Z) (l : list Transition) (x : Z) : nat :=
  match l with
  | [] => 0
  | t :: l => if x <? key t then 0 else S (upper_bound key l x)
  end.

Definition front {A} (v : list A) : outcome A := deref (v !! 0%nat).
Definition back {A} (v : list A) : outcome A := deref (last v).

Definition FindLocalTime_utc (z : TimezoneImpl) (utc : Z) : outcome LocalTime :=
  before ← (match transitions z with [] => Ok true | t :: _ => Ok (utc <? utc_time t) end);
  if before : bool then front (local_times z)
  else
    let it := upper_bound utc_time (transitions z) utc in
    _ ← hare_assert (negb (it =? 0)%nat);
    t ← (if (it =? length (transitions z))%nat then back (transitions z)
         else index (transitions z) (Z.of_nat it - 1));
    index (local_times z) (local_time_idx t).

(** [trans->utc_time - 1 + offset of prior] *)
Definition prior_second_of (z : TimezoneImpl) (trans prior : Transition) : outcome Z :=
  l ← index (local_times z) (local_time_idx prior);
  int64 (utc_time trans - 1 + utc_offset l).

Definition FindLocalTime_local (z : TimezoneImpl) (tdt : DateTime) (post_transition : bool) : outcome LocalTime :=
  lt ← FromUtcTime tdt;
  let ts := transitions z in
  before ← (match ts with [] => Ok true | t :: _ => Ok (lt <? local_time t) end);
  if before : bool then front (local_times z)
  else
    let it := upper_bound local_time ts lt in
    _ ← hare_assert (negb (it =? 0)%nat);
    if (it =? length ts)%nat then
      t ← back ts; index (local_times z) (local_time_idx t)
    else
      next ← index ts (Z.of_nat it);
      prior ← index ts (Z.of_nat it - 1);
      prior_second ← prior_second_of z next prior;
      if prior_second <? lt then
        (* it's a skip *)
        index (local_times z) (local_time_idx (if post_transition then next else prior))
      else
        let trans := prior in
        pp ← (if (it - 1 =? 0)%nat then Ok (prior, prior_second)
              else p ← index ts (Z.of_nat it - 2); s ← prior_second_of z trans p; Ok (p, s));
        if lt <=? snd pp then
          (* it's repeat *)
          index (local_times z) (local_time_idx (if post_transition then trans else fst pp))
        else index (local_times z) (local_time_idx trans).

(** [ToLocal]: the local time and the offset it stores for the caller. *)
Definition ToLocal (z : TimezoneImpl) (seconds : Z) : outcome (DateTime * Z) :=
  _ ← hare_assert (valid z);
  l ← FindLocalTime_utc z seconds;
  s ← int64 (seconds + utc_offset l);
  dt ← BreakTime s;
  Ok (dt, utc_offset l).

Definition FromLocal (z : TimezoneImpl) (dt : DateTime) (post_transition : bool) : outcome Z :=
  _ ← hare_assert (valid z);
  l ← FindLocalTime_local z dt post_transition;
  local_seconds ← FromUtcTime dt;
  int64 (local_seconds - utc_offset l).

(** ** The calendar *)

(** The Gregorian leap rule and the length of a month. *)
Definition is_leap (y : Z) : bool :=
  (y mod 4 =? 0) && (negb (y mod 100 =? 0) || (y mod 400 =? 0)).

Definition days_in_month (y m : Z) : Z :=
  if m =? 2 then (if is_leap y then 29 else 28)
  else if (m =? 4) || (m =? 6) || (m =? 9) || (m =? 11) then 30 else 31.

Definition valid_date (y m d : Z) : Prop := 1 <= m <= 12 /\ 1 <= d <= days_in_month y m.

(** lia with the defining equations of the divisions. *)
Ltac div_lia := Z.to_euclidean_division_equations; lia.

Section calendar.
(** The count of days before year [100 * B + Y] (years start in March) and day [e] of it. *)
Definition day_count (B Y e : Z) : Z := 36524 * B + B / 4 + (365 * Y + Y / 4) + e.

(** [e = 365] is the leap day at the end of a March year. *)
Definition year_ok (B Y e : Z) : Prop :=
  0 <= B /\ 0 <= Y <= 99 /\ 0 <= e <= 365 /\ (e = 365 -> Y mod 4 = 3 /\ (Y = 99 -> B mod 4 = 3)).

Lemma century_of B Y e :
  year_ok B Y e -> (4 * day_count B Y e + 3) / 146097 = B.
Proof.
  unfold year_ok, day_count. intros (HB & HY & He & Hl). symmetry. apply Z.div_unique_pos with
    (4 * (B / 4) - B + 4 * (365 * Y + Y / 4 + e) + 3); [|lia]. 
  destruct (Z.eq_dec e 365) as [->|Hne]; [destruct (Hl eq_refl) as [H1 H2]|]; clear Hl; div_lia.
Qed.

Lemma century_rest B Y e :
  year_ok B Y e -> day_count B Y e - (B * 146097) / 4 = 365 * Y + Y / 4 + e.
Proof. unfold year_ok, day_count. intros (HB & _). div_lia. Qed.

Lemma year_of B Y e :
  year_ok B Y e -> (4 * (365 * Y + Y / 4 + e) + 3) / 1461 = Y.
Proof.
  unfold year_ok. intros (_ & HY & He & Hl). symmetry.
  apply Z.div_unique_pos with (4 * (Y / 4) - Y + 4 * e + 3); [|lia].
  destruct (Z.eq_dec e 365) as [->|Hne]; [destruct (Hl eq_refl) as [H1 _]|]; clear Hl; div_lia.
Qed.

Lemma year_rest Y e : 365 * Y + Y / 4 + e - (1461 * Y) / 4 = e.
Proof. div_lia. Qed.

(** The month of day [e], and back. *)
Lemma month_of m dd :
  0 <= m <= 11 -> 0 <= dd < (153 * (m + 1) + 2) / 5 - (153 * m + 2) / 5 ->
  (5 * ((153 * m + 2) / 5 + dd) + 2) / 153 = m.
Proof. intros. div_lia. Qed.

Lemma ints_ok {A} l (r : A) : Forall (fun z => - 2 ^ 31 <= z < 2 ^ 31) l -> ints l r = Ok r.
Proof.
  intros H. unfold ints. replace (forallb in_int32 l) with true; [done|]. symmetry.
  apply forallb_forall. intros z Hz. rewrite Forall_forall in H.
  specialize (H z ltac:(by apply list_elem_of_In)). unfold in_int32. lia.
Qed.

(** The March-based year, month and day of a date. *)
Definition shifted (y m : Z) : Z := y + 4800 - (if m <=? 2 then 1 else 0).
Definition march_month (m : Z) : Z := if m <=? 2 then m + 9 else m - 3.
Definition year_day (m d : Z) : Z := (153 * march_month m + 2) / 5 + (d - 1).

Definition MAX_YEAR : Z := 1000000.

Lemma date_year_ok y m d :
  valid_date y m d -> -4799 <= y -> year_ok (shifted y m / 100) (shifted y m mod 100) (year_day m d).
Proof.
  unfold valid_date, days_in_month, is_leap, shifted, year_day, march_month, year_ok.
  intros [Hm Hd] Hy.
  assert (m = 1 \/ m = 2 \/ m = 3 \/ m = 4 \/ m = 5 \/ m = 6 \/ m = 7 \/ m = 8 \/ m = 9 \/ m = 10 \/ m = 11 \/ m = 12)
    as Hcase by lia.
  destruct Hcase as [-> | [-> | [-> | [-> | [-> | [-> | [-> | [-> | [-> | [-> | [-> | ->]]]]]]]]]]]; simpl in *;
    try (split_and!; [div_lia..|]; intros; exfalso; div_lia).
  (* February *)
  split_and!; [div_lia|div_lia|div_lia|div_lia| |].
  - destruct (_ && _) in Hd; div_lia.
  - intros He. destruct (y mod 4 =? 0) eqn:E4; simpl in Hd; [|exfalso; div_lia].
    destruct (y mod 100 =? 0) eqn:E100; simpl in Hd.
    + destruct (y mod 400 =? 0) eqn:E400; simpl in Hd; [|exfalso; div_lia].
      split; [|intros _]; div_lia.
    + split; [|intros; exfalso]; div_lia.
Qed.

(** [JulianDayNumber] on a valid date of a year from -4799 on. *)
Lemma JulianDayNumber_spec y m d :
  valid_date y m d -> -4799 <= y <= MAX_YEAR ->
  JulianDayNumber y m d =
    Ok (day_count (shifted y m / 100) (shifted y m mod 100) (year_day m d) - 32044).
Proof.
  intros Hv Hy. pose proof (date_year_ok y m d Hv ltac:(lia)) as Hok. unfold MAX_YEAR in *.
  destruct Hv as [Hm Hd]. unfold year_ok in Hok. unfold JulianDayNumber.
  assert (Hd' : 1 <= d <= 31) by (unfold days_in_month in Hd; repeat case_match; lia).
  replace (Z.quot (14 - m) 12) with (if m <=? 2 then 1 else 0) by (destruct (Z.leb_spec m 2); div_lia).
  fold (shifted y m).
  replace (m + 12 * (if m <=? 2 then 1 else 0) - 3) with (march_month m)
    by (unfold march_month; destruct (Z.leb_spec m 2); lia).
  assert (Hmm : 0 <= march_month m <= 11) by (unfold march_month; destruct (Z.leb_spec m 2); lia).
  assert (Hsy : 0 <= shifted y m <= 1004800) by (unfold shifted; destruct (Z.leb_spec m 2); lia).
  rewrite !Z.quot_div_nonneg by lia.
  assert (H12 : 0 <= 12 * (if m <=? 2 then 1 else 0) <= 12) by (destruct (m <=? 2); lia).
  rewrite ints_ok.
  - f_equal. unfold day_count, year_day. clear - Hsy. set (s := shifted y m) in *.
    assert (s = 100 * (s / 100) + s mod 100) by div_lia. div_lia.
  - assert (0 <= (153 * march_month m + 2) / 5 <= 337) by (clear - Hmm; div_lia).
    assert (0 <= shifted y m / 4 <= 251200) by (clear - Hsy; div_lia).
    assert (0 <= shifted y m / 100 <= 10048) by (clear - Hsy; div_lia).
    assert (0 <= shifted y m / 400 <= 2512) by (clear - Hsy; div_lia).
    repeat (constructor; [lia|]). constructor.
Qed.

(** [GetYMD] on a day count. *)
Lemma GetYMD_count B Y e :
  year_ok B Y e -> B <= 11000 ->
  let m := (5 * e + 2) / 153 in
  GetYMD (day_count B Y e - 32044) =
    Ok (mkYMD (B * 100 + Y - 4800 + m / 10) (m + 3 - 12 * (m / 10)) (e - (153 * m + 2) / 5 + 1)).
Proof.
  intros Hok HB m. pose proof (century_of B Y e Hok) as H1. pose proof (century_rest B Y e Hok) as H2.
  pose proof (year_of B Y e Hok) as H3. pose proof (year_rest Y e) as H4.
  pose proof Hok as (HB0 & HY & He & _).
  assert (Hd : 0 <= day_count B Y e <= 402000000) by (unfold day_count; clear - HB HB0 HY He; div_lia).
  assert (Hc : 0 <= 365 * Y + Y / 4 + e <= 36600) by (clear - HY He; div_lia).
  assert (Hm : 0 <= m <= 11) by (unfold m; clear - He; div_lia).
  unfold GetYMD. replace (day_count B Y e - 32044 + 32044) with (day_count B Y e) by lia.
  rewrite (Z.quot_div_nonneg (4 * day_count B Y e + 3)) by lia. rewrite H1.
  rewrite (Z.quot_div_nonneg (B * 146097)) by lia. rewrite H2.
  rewrite (Z.quot_div_nonneg (4 * (365 * Y + Y / 4 + e) + 3)) by lia. rewrite H3.
  rewrite (Z.quot_div_nonneg (1461 * Y)) by lia. rewrite H4.
  rewrite (Z.quot_div_nonneg (5 * e + 2)) by lia. fold m.
  rewrite !Z.quot_div_nonneg by lia.
  apply ints_ok. repeat (constructor; [lia|]). constructor.
Qed.

(** The calendar year, month and day of [GetYMD] back to the March-based ones. *)
Lemma GetYMD_date y m d :
  valid_date y m d ->
  let mm := (5 * year_day m d + 2) / 153 in
  mm = march_month m /\ mm + 3 - 12 * (mm / 10) = m /\ year_day m d - (153 * mm + 2) / 5 + 1 = d /\
  shifted y m - 4800 + mm / 10 = y.
Proof.
  intros [Hm Hd] mm.
  assert (Hmm : 0 <= march_month m <= 11) by (unfold march_month; destruct (Z.leb_spec m 2); lia).
  assert (E : mm = march_month m).
  { subst mm. unfold year_day. apply month_of; [done|].
    assert (Hd' : d <= (153 * (march_month m + 1) + 2) / 5 - (153 * march_month m + 2) / 5); [|lia].
    unfold days_in_month in Hd. unfold march_month.
    assert (m = 1 \/ m = 2 \/ m = 3 \/ m = 4 \/ m = 5 \/ m = 6 \/ m = 7 \/ m = 8 \/ m = 9 \/ m = 10 \/ m = 11 \/ m = 12)
      as Hcase by lia.
    destruct Hcase as [-> | [-> | [-> | [-> | [-> | [-> | [-> | [-> | [-> | [-> | [-> | ->]]]]]]]]]]];
      simpl in *; try destruct (is_leap y); div_lia. }
  rewrite E. split_and!; [done|..].
  - unfold march_month in *. destruct (Z.leb_spec m 2); div_lia.
  - unfold year_day. lia.
  - unfold shifted, march_month in *. destruct (Z.leb_spec m 2); div_lia.
Qed.

(** A valid date survives the way through its Julian day number. *)
Lemma date_roundtrip y m d :
  valid_date y m d -> -4799 <= y <= MAX_YEAR ->
  (n ← JulianDayNumber y m d; GetYMD n) = Ok (mkYMD y m d).
Proof.
  intros Hv Hy. rewrite (JulianDayNumber_spec y m d Hv Hy). ored.
  rewrite GetYMD_count; [|apply date_year_ok; [done|lia]|].
  - destruct (GetYMD_date y m d Hv) as (_ & H2 & H3 & H4). cbv zeta in *. f_equal. f_equal; [|done|done].
    pose proof (Z.div_mod (shifted y m) 100 ltac:(lia)). lia.
  - unfold MAX_YEAR, shifted in *. destruct (m <=? 2); div_lia.
Qed.

(** Every day count is one of a year and a day of it. *)
Lemma day_count_split a :
  0 <= a -> exists B Y e, year_ok B Y e /\ day_count B Y e = a.
Proof.
  intros Ha. set (B := (4 * a + 3) / 146097). set (c := a - B * 146097 / 4).
  assert (HB : 0 <= B) by (subst B; clear - Ha; div_lia).
  assert (Hc : 0 <= c <= 36524 /\ (c = 36524 -> B mod 4 = 3)).
  { assert (146097 * B <= 4 * a + 3 < 146097 * B + 146097) by (subst B; clear - Ha; div_lia).
    subst c. clearbody B. clear - H HB. split; [|intros]; div_lia. }
  destruct Hc as [Hc Hlast]. set (Y := (4 * c + 3) / 1461). set (e := c - 1461 * Y / 4).
  assert (HY : 1461 * Y <= 4 * c + 3 < 1461 * Y + 1461) by (subst Y; clear - Hc; div_lia).
  assert (HY' : 0 <= Y <= 99) by lia.
  assert (He : 0 <= e <= 365 /\ (e = 365 -> Y mod 4 = 3)).
  { subst e. clearbody Y c. clear - HY HY' Hc. split; [|intros]; div_lia. }
  exists B, Y, e. split.
  - unfold year_ok. split_and!; try lia. intros H365. split; [by apply He|]. intros H99. apply Hlast.
    subst e. clearbody Y c. clear - H365 H99. subst Y. div_lia.
  - unfold day_count. subst e c. clearbody B Y. clear - HB HY'. div_lia.
Qed.

Definition MAX_DAY : Z := 365000000.

(** Back to the calendar: a valid date, whose March-based form is what we started from. *)
Lemma count_date B Y e :
  year_ok B Y e ->
  let mm := (5 * e + 2) / 153 in
  let y := B * 100 + Y - 4800 + mm / 10 in
  let m := mm + 3 - 12 * (mm / 10) in
  let d := e - (153 * mm + 2) / 5 + 1 in
  valid_date y m d /\ shifted y m = 100 * B + Y /\ year_day m d = e /\ -4800 <= y.
Proof.
  intros (HB & HY & He & Hl). cbv zeta.
  assert (Hmm : 0 <= (5 * e + 2) / 153 <= 11) by (clear - He; div_lia).
  assert (Hd : let mm := (5 * e + 2) / 153 in (153 * mm + 2) / 5 <= e /\ e < (153 * (mm + 1) + 2) / 5)
    by (cbv zeta; clear - He; div_lia).
  cbv zeta in Hd. generalize dependent ((5 * e + 2) / 153). intros mm Hmm Hd.
  assert (mm = 0 \/ mm = 1 \/ mm = 2 \/ mm = 3 \/ mm = 4 \/ mm = 5 \/ mm = 6 \/ mm = 7 \/ mm = 8 \/ mm = 9 \/ mm = 10 \/ mm = 11)
    as Hcase by lia.
  unfold valid_date, shifted, year_day, march_month, days_in_month.
  destruct Hcase as [-> | [-> | [-> | [-> | [-> | [-> | [-> | [-> | [-> | [-> | [-> | ->]]]]]]]]]]];
    simpl in *; try (clear Hl; split_and!; div_lia).
  (* February *)
  assert (Hleap : e = 365 -> is_leap (B * 100 + Y - 4800 + 1) = true).
  { intros E. destruct (Hl E) as [H1 H2]. clear Hl. unfold is_leap.
    apply andb_true_iff. split; [apply Z.eqb_eq; div_lia|]. apply orb_true_iff.
    destruct (Z.eq_dec Y 99) as [->|HY'].
    - right. apply Z.eqb_eq. specialize (H2 eq_refl). div_lia.
    - left. apply negb_true_iff, Z.eqb_neq. div_lia. }
  clear Hl. split_and!; try div_lia.
  change (11 / 10) with 1 in *.
  destruct (is_leap _) eqn:E; [div_lia|]. destruct (Z.eq_dec e 365) as [E'|]; [|div_lia].
  by specialize (Hleap E').
Qed.

(** Every day has a valid date, and the date leads back to the day. *)
Lemma day_roundtrip n :
  -32044 + 366 <= n <= MAX_DAY ->
  exists y m d, GetYMD n = Ok (mkYMD y m d) /\ valid_date y m d /\ -4799 <= y <= MAX_YEAR /\
    JulianDayNumber y m d = Ok n.
Proof.
  intros Hn. unfold MAX_DAY in *.
  destruct (day_count_split (n + 32044) ltac:(lia)) as (B & Y & e & Hok & Hcount).
  destruct (count_date B Y e Hok) as (Hv & Hsh & Hyd & Hy). cbv zeta in *.
  assert (HB : B <= 11000).
  { destruct Hok as (HB & HY & He & _). unfold day_count in Hcount. clear - Hcount Hn HB HY He. div_lia. }
  pose proof (GetYMD_count B Y e Hok HB) as Hget. cbv zeta in Hget. rewrite Hcount in Hget.
  replace (n + 32044 - 32044) with n in Hget by lia.
  eexists _, _, _. split; [exact Hget|]. split; [exact Hv|].
  set (mm := (5 * e + 2) / 153) in *.
  assert (Hmm : 0 <= mm <= 11) by (destruct Hok as (_ & _ & He & _); subst mm; clear - He; div_lia).
  assert (Hyr : -4799 <= B * 100 + Y - 4800 + mm / 10 <= MAX_YEAR).
  { destruct Hok as (HB0 & HY & He & _). unfold MAX_YEAR. unfold day_count in Hcount.
    clearbody mm. clear - Hcount Hn HB0 HY He Hmm. split; div_lia. }
  split; [done|]. rewrite JulianDayNumber_spec by done.
  rewrite Hsh, Hyd. f_equal. destruct Hok as (HB0 & HY & _).
  replace ((100 * B + Y) / 100) with B by (clear - HY; div_lia).
  replace ((100 * B + Y) mod 100) with Y by (clear - HY; div_lia). lia.
Qed.
End calendar.

(** ** UTC times *)

Definition valid_time (dt : DateTime) : Prop :=
  valid_date (year dt) (month dt) (day dt) /\
  0 <= hour dt <= 23 /\ 0 <= minute dt <= 59 /\ 0 <= second dt <= 59.

(** The days the calendar is proved for, around the epoch. *)
Definition day_range (days : Z) : Prop := -2400000 <= days <= 360000000.

Section utc.
Lemma FillHMS_spec s d :
  0 <= s < 86400 ->
  FillHMS (u32 s) d = Ok (mkDateTime (year d) (month d) (day d) (s / 3600) (s / 60 mod 60) (s mod 60)).
Proof.
  intros Hs. unfold FillHMS. unfold u32. rewrite (Z.mod_small s) by lia. rewrite i32_small by lia.
  rewrite !Z.quot_div_nonneg by (clear - Hs; div_lia). rewrite ints_ok.
  - f_equal. f_equal; clear - Hs; div_lia.
  - repeat (constructor; [clear - Hs; div_lia|]). constructor.
Qed.

(** [BreakTime]: the day and the second of the day, rounded down. *)
Lemma BreakTime_day t y m d :
  day_range (t / 86400) -> GetYMD (t / 86400 + JULIAN_DAY_OF_19700101) = Ok (mkYMD y m d) ->
  BreakTime t = Ok (mkDateTime y m d (t mod 86400 / 3600) (t mod 86400 / 60 mod 60) (t mod 86400 mod 60)).
Proof.
  intros Hr Hget. unfold day_range in Hr. set (s := t mod 86400).
  assert (Hs : 0 <= s < 86400) by (subst s; apply Z.mod_pos_bound; lia).
  unfold BreakTime, SECONDS_PER_DAY.
  rewrite (i32_small (Z.rem t 86400)) by (clear; div_lia).
  rewrite (i32_small (Z.quot t 86400)) by (clear - Hr; div_lia).
  replace (if Z.rem t 86400 <? 0 then Z.rem t 86400 + 86400 else Z.rem t 86400) with s
    by (subst s; clear; destruct (Z.ltb_spec (Z.rem t 86400) 0); div_lia).
  replace (if Z.rem t 86400 <? 0 then int32 (Z.quot t 86400 - 1) else Ok (Z.quot t 86400))
    with (Ok (t / 86400)).
  - ored. rewrite FillHMS_spec by done. ored.
    rewrite int32_ok by (change JULIAN_DAY_OF_19700101 with 2440588; lia). ored.
    unfold Date_Detail. rewrite Hget. done.
  - destruct (Z.ltb_spec (Z.rem t 86400) 0).
    + rewrite int32_ok by (clear - Hr; div_lia). f_equal. clear - H. div_lia.
    + f_equal. clear - H. div_lia.
Qed.

Lemma BreakTime_spec t :
  day_range (t / 86400) ->
  exists dt, BreakTime t = Ok dt /\ valid_time dt /\
    JulianDayNumber (year dt) (month dt) (day dt) = Ok (t / 86400 + JULIAN_DAY_OF_19700101) /\
    hour dt * 3600 + minute dt * 60 + second dt = t mod 86400.
Proof.
  intros Hr. destruct (day_roundtrip (t / 86400 + JULIAN_DAY_OF_19700101)) as (y & m & d & Hget & Hv & _ & Hjdn).
  { change JULIAN_DAY_OF_19700101 with 2440588. unfold MAX_DAY. unfold day_range in Hr. lia. }
  pose proof (BreakTime_day t y m d Hr Hget) as Hb. set (s := t mod 86400) in *.
  assert (Hs : 0 <= s < 86400) by (subst s; apply Z.mod_pos_bound; lia).
  eexists. split; [exact Hb|]. split; [|split; [done|]].
  - split; [done|]. simpl. clear - Hs. split_and!; div_lia.
  - simpl. clear - Hs. div_lia.
Qed.

(** [FromUtcTime] of a valid time whose day number is known. *)
Lemma FromUtcTime_spec dt days :
  valid_time dt -> JulianDayNumber (year dt) (month dt) (day dt) = Ok (days + JULIAN_DAY_OF_19700101) ->
  day_range days ->
  let t := days * 86400 + (hour dt * 3600 + minute dt * 60 + second dt) in
  FromUtcTime dt = if (-24855 <=? days) && (t <? 2 ^ 31) then Ok t else UB.
Proof.
  intros (_ & Hh & Hm & Hs) Hj Hr t. unfold day_range in Hr. unfold FromUtcTime, Date_of_ymd. rewrite Hj. ored.
  replace (days + JULIAN_DAY_OF_19700101 - JULIAN_DAY_OF_19700101) with days by lia.
  unfold SECONDS_PER_DAY. fold t. unfold ints.
  replace (forallb in_int32 _) with ((-24855 <=? days) && (t <? 2 ^ 31)); [done|].
  simpl. unfold in_int32. subst t.
  destruct (Z.leb_spec (-24855) days), (Z.ltb_spec (days * 86400 + (hour dt * 3600 + minute dt * 60 + second dt)) (2 ^ 31));
    simpl; lia.
Qed.

(** Seconds to a date and back: the identity as long as [int] does not overflow, which
    it does from 2038-01-19 03:14:08 on and before 1901-12-14. *)
Lemma utc_roundtrip t :
  day_range (t / 86400) ->
  (dt ← ToUtcTime t; FromUtcTime dt) =
    if (-24855 * 86400 <=? t) && (t <? 2 ^ 31) then Ok t else UB.
Proof.
  intros Hr. destruct (BreakTime_spec t Hr) as (dt & Hb & Hv & Hj & Hs).
  unfold ToUtcTime. rewrite Hb. ored. rewrite (FromUtcTime_spec dt (t / 86400) Hv Hj Hr). rewrite Hs.
  replace (t / 86400 * 86400 + t mod 86400) with t by div_lia.
  replace (-24855 <=? t / 86400) with (-24855 * 86400 <=? t); [done|].
  destruct (Z.leb_spec (-24855 * 86400) t), (Z.leb_spec (-24855) (t / 86400)); try done; div_lia.
Qed.

(** The days of the week follow each other. *)
Lemma WeekDay_next n :
  0 <= n < 2 ^ 31 - 2 ->
  (Date_WeekDay (n + 1) = w ← Date_WeekDay n; Ok ((w + 1) mod 7)) /\
  exists w, Date_WeekDay n = Ok w /\ 0 <= w <= 6.
Proof.
  intros Hn. unfold Date_WeekDay, DAYS_PER_WEEK.
  rewrite !ints_ok by (repeat (constructor; [lia|]); constructor). ored.
  rewrite !Z.rem_mod_nonneg by lia. split; [f_equal; clear; div_lia|].
  eexists. split; [done|]. clear. div_lia.
Qed.
End utc.

(** ** Time zones *)

Section zones.
Implicit Types (z : TimezoneImpl).

(** The zone a transition refers to exists. *)
Definition zone_ok z : Prop :=
  local_times z <> [] /\
  Forall (fun t => 0 <= local_time_idx t < Zlen (local_times z)) (transitions z).

Lemma upper_bound_le key l x : (upper_bound key l x <= length l)%nat.
Proof. induction l as [|t l IH]; simpl; [lia|]. destruct (x <? key t); simpl; lia. Qed.

(** The transition before the upper bound: the last one that is not later than [x],
    in a list ordered by [key]. *)
Lemma upper_bound_last key l x :
  (forall i j t u, (i < j)%nat -> l !! i = Some t -> l !! j = Some u -> key t < key u) ->
  forall j u, l !! j = Some u -> ((j < upper_bound key l x)%nat <-> key u <= x).
Proof.
  induction l as [|t l IH]; intros Hord j u Hj; [done|]. simpl.
  destruct (Z.ltb_spec x (key t)) as [Hlt|Hge].
  - split; [lia|]. intros Hu. destruct j as [|j]; [injection Hj as ->; lia|].
    specialize (Hord 0%nat (S j) t u ltac:(lia) eq_refl Hj). lia.
  - destruct j as [|j]; [injection Hj as ->; split; [lia|lia]|].
    assert (Hord' : forall i j t u, (i < j)%nat -> l !! i = Some t -> l !! j = Some u -> key t < key u).
    { intros i' j' t' u' Hij H1 H2. exact (Hord (S i') (S j') t' u' ltac:(lia) H1 H2). }
    specialize (IH Hord' j u Hj). lia.
Qed.

Lemma index_ok {A} (v : list A) i : 0 <= i < Zlen v -> exists x, index v i = Ok x /\ v !! Z.to_nat i = Some x.
Proof.
  intros Hi. unfold index. rewrite (proj2 (Z.leb_le _ _)) by lia.
  destruct (lookup_lt_is_Some_2 v (Z.to_nat i)) as [x Hx]; [unfold Zlen in Hi; lia|].
  rewrite Hx. eauto.
Qed.

(** [FindLocalTime] by UTC time: the local time of the last transition that is not
    later, or the first local time if there is none. *)
Lemma FindLocalTime_utc_spec z utc :
  zone_ok z ->
  (forall i j t u, (i < j)%nat -> transitions z !! i = Some t -> transitions z !! j = Some u ->
     utc_time t < utc_time u) ->
  exists l, FindLocalTime_utc z utc = Ok l /\
    ((Forall (fun t => utc < utc_time t) (transitions z) /\ local_times z !! 0%nat = Some l) \/
     exists k t, transitions z !! k = Some t /\ utc_time t <= utc /\
       (forall j u, (k < j)%nat -> transitions z !! j = Some u -> utc < utc_time u) /\
       local_times z !! Z.to_nat (local_time_idx t) = Some l).
Proof.
  intros [Hne Hidx] Hord. unfold FindLocalTime_utc.
  pose proof (upper_bound_last utc_time (transitions z) utc Hord) as Hub.
  pose proof (upper_bound_le utc_time (transitions z) utc) as Hle.
  destruct (transitions z) as [|t0 ts] eqn:Ets.
  { ored. destruct (local_times z) as [|l ls]; [done|]. exists l. split; [done|]. left. split; [constructor|done]. }
  ored. destruct (Z.ltb_spec utc (utc_time t0)) as [Hlt|Hge].
  { destruct (local_times z) as [|l ls]; [done|]. exists l. split; [done|]. left. split; [|done].
    apply Forall_lookup. intros [|j] u Hu; [by injection Hu as <-|].
    specialize (Hord 0%nat (S j) t0 u ltac:(lia) eq_refl Hu). lia. }
  set (it := upper_bound utc_time (t0 :: ts) utc) in *.
  assert (Hpos : (0 < it)%nat) by (apply (Hub 0%nat t0 eq_refl); lia).
  rewrite (proj2 (Nat.eqb_neq it 0)) by lia. ored.
  destruct (lookup_lt_is_Some_2 (t0 :: ts) (it - 1)) as [t Ht]; [lia|].
  assert (Hsel : (if (it =? length (t0 :: ts))%nat then back (t0 :: ts)
                  else index (t0 :: ts) (Z.of_nat it - 1)) = Ok t).
  { destruct (Nat.eqb_spec it (length (t0 :: ts))) as [E|E].
    - unfold back. rewrite last_lookup, <- E. replace (Nat.pred it) with (it - 1)%nat by lia. by rewrite Ht.
    - unfold index. rewrite (proj2 (Z.leb_le _ _)) by lia.
      replace (Z.to_nat (Z.of_nat it - 1)) with (it - 1)%nat by lia. by rewrite Ht. }
  rewrite Hsel. ored.
  rewrite Forall_lookup in Hidx. destruct (index_ok _ _ (Hidx _ _ Ht)) as (l & Hl & Hl').
  exists l. split; [done|]. right. exists (it - 1)%nat, t. split_and!; try done.
  - apply (Hub _ _ Ht). lia.
  - intros j u Hj Hu. destruct (Z.lt_ge_cases utc (utc_time u)) as [?|Hge']; [done|].
    apply (Hub _ _ Hu) in Hge'. lia.
Qed.

(** A copy of a zone has no transitions. *)
Lemma Timezone_copy_transitions z : transitions (Timezone_copy z) = [].
Proof. unfold Timezone_copy, Clone. by destruct (valid z). Qed.

(** A zone with a fixed offset: local time and back. *)
Lemma fixed_roundtrip east name s post :
  day_range ((s + east) / 86400) -> -86400 <= east <= 86400 ->
  (r ← ToLocal (Timezone_fixed east name) s; FromLocal (Timezone_fixed east name) (fst r) post) =
    if (-24855 * 86400 <=? s + east) && (s + east <? 2 ^ 31) then Ok s else UB.
Proof.
  intros Hr He. unfold day_range in Hr.
  assert (Hb : -220000000000 <= s + east <= 32000000000000) by (clear - Hr; div_lia).
  unfold ToLocal. simpl. unfold FindLocalTime_utc. simpl. ored.
  rewrite int64_ok by lia. ored.
  destruct (BreakTime_spec (s + east) Hr) as (dt & Hbr & Hv & Hj & Hs). rewrite Hbr. ored.
  unfold FromLocal, FindLocalTime_local. simpl. ored.
  rewrite (FromUtcTime_spec dt ((s + east) / 86400) Hv Hj Hr), Hs.
  replace ((s + east) / 86400 * 86400 + (s + east) mod 86400) with (s + east) by div_lia.
  replace (-24855 <=? (s + east) / 86400) with (-24855 * 86400 <=? s + east).
  2: { destruct (Z.leb_spec (-24855 * 86400) (s + east)), (Z.leb_spec (-24855) ((s + east) / 86400)); try done; div_lia. }
  destruct (_ && _); [|done]. ored. simpl. rewrite int64_ok by lia. f_equal. lia.
Qed.
End zones.
