(* ===== verification/Util.v ===== *)
(** * Timestamps, hooks and type-erased values.

    Sources: include/hare/base/time/timestamp.h, hare/base/time/timestamp.cc,
    hare/base/util/atomic_hook.h, hare/base/msg_handle.cc, hare/base/fwd-inl.h ([InnerLog]),
    include/hare/base/util/any.h and hare/base/util/any.cc. *)

From S2P Require Import Prelude.

(** ** [Timestamp]: microseconds since the epoch *)

Definition MICROSECONDS_PER_SECOND : Z := 1000000.

Definition Timestamp_Invalid : Z := -1.
(** [FromUnixTime]: the arithmetic is on [std::int64_t]. *)
Definition FromUnixTime (time microseconds : Z) : outcome Z :=
  t ← int64 (time * MICROSECONDS_PER_SECOND); int64 (t + microseconds).
Definition FromUnixTime_seconds (time : Z) : outcome Z := FromUnixTime time 0.
Definition Timestamp_Swap (this another : Z) : Z * Z := (another, this).
Definition Timestamp_Valid (t : Z) : bool := t >? 0.
Definition SecondsSinceEpoch (t : Z) : Z := Z.quot t MICROSECONDS_PER_SECOND.
Definition Timestamp_eq (x y : Z) : bool := x =? y.
Definition Timestamp_lt (x y : Z) : bool := x <? y.

(** The two numbers that [ToString] prints. *)
Definition Timestamp_parts (t : Z) : Z * Z :=
  (SecondsSinceEpoch t, t - SecondsSinceEpoch t * MICROSECONDS_PER_SECOND).

Lemma Timestamp_parts_spec t :
  - 2 ^ 63 <= t < 2 ^ 63 ->
  let p := Timestamp_parts t in
  FromUnixTime (fst p) (snd p) = Ok t /\ - MICROSECONDS_PER_SECOND < snd p < MICROSECONDS_PER_SECOND /\
  (0 <= t -> 0 <= snd p).
Proof.
  intros Ht p. subst p. unfold Timestamp_parts, SecondsSinceEpoch, FromUnixTime, MICROSECONDS_PER_SECOND. simpl.
  pose proof (Z.quot_rem' t 1000000) as Hq. pose proof (Z.rem_bound_abs t 1000000 ltac:(lia)) as Hb.
  pose proof (Z.rem_sign_mul t 1000000 ltac:(lia)) as Hs.
  assert (Hr : t - Z.quot t 1000000 * 1000000 = Z.rem t 1000000) by lia. rewrite Hr.
  rewrite int64_ok by nia. simpl. rewrite int64_ok by lia. split_and!; try lia; [f_equal; lia|nia].
Qed.

(** ** [AtomicHook] *)

Section hook.
(** The functions a hook can hold; [DummyFunction] is one of them. *)
Context {F : Type} `{EqDecision F} (DummyFunction : F).
(** Whether [assert] is compiled in. *)
Context (asserts : bool).

Record AtomicHook := mkHook { hook_ : F; default_fn_ : F }.

Definition Hook_ctor (default_fn : F) : AtomicHook := mkHook default_fn default_fn.
Definition Hook_default : AtomicHook := Hook_ctor DummyFunction.

Definition DoLoad (h : AtomicHook) : F := hook_ h.

(** [DoStore]: the compare-and-exchange is one atomic step; when it fails [expected] is the
    value that was found. *)
Definition DoStore (h : AtomicHook) (fn : F) : bool * AtomicHook :=
  let store_succeeded := bool_decide (hook_ h = default_fn_ h) in
  let expected := if store_succeeded then default_fn_ h else hook_ h in
  let h' := if store_succeeded then mkHook fn (default_fn_ h) else h in
  (store_succeeded || bool_decide (expected = fn), h').

Definition Hook_Store (h : AtomicHook) (fn : F) : outcome AtomicHook :=
  let r := DoStore h fn in
  if asserts && negb (fst r) then Abort else Ok (snd r).

(** [operator()] calls this function. *)
Definition Hook_call (h : AtomicHook) : F := DoLoad h.

Definition Hook_Load (h : AtomicHook) : option F :=
  if decide (DoLoad h = DummyFunction) then None else Some (DoLoad h).

(** A function is registered once: the first one stays, registering it again is allowed,
    another one is refused. *)
Lemma Hook_Store_spec d fn fn' :
  fn <> d ->
  exists h, Hook_Store (Hook_ctor d) fn = Ok h /\ Hook_call h = fn /\ Hook_Store h fn = Ok h /\
    (fn' <> fn -> fst (DoStore h fn') = false /\ snd (DoStore h fn') = h).
Proof.
  intros Hd. exists (mkHook fn d). unfold Hook_Store, DoStore. simpl.
  rewrite (bool_decide_true (d = d)), (bool_decide_false (fn = d)), (bool_decide_true (fn = fn)) by done. simpl.
  rewrite !andb_false_r. split_and!; try done. intros Hf. by rewrite bool_decide_false.
Qed.
End hook.
Arguments AtomicHook F : clear implicits.

(** [InnerLog()], the hook for the messages of the library, and [RegisterLogHandler]. *)
Section log_handler.
Context {F : Type} `{EqDecision F} (asserts : bool) (DefaultMsgHandle : F).
Definition InnerLog : AtomicHook F := Hook_ctor DefaultMsgHandle.
Definition RegisterLogHandler (h : AtomicHook F) (handle : F) : outcome (AtomicHook F) := Hook_Store asserts h handle.
End log_handler.

(** ** [Any] *)

Section any.
(** The types a program stores, by their type ids, and the values of each. *)
Context {Ty : Type} `{EqDecision Ty} (value : Ty -> Type).
(** What is left of a value that was moved from. *)
Context (any_moved : forall t, value t -> value t).

(** [ptr_]: null, or a [Derived<t>] with its value. *)
Definition Any : Type := option { t : Ty & value t }.

Definition Any_default : Any := None.
Definition Any_of (t : Ty) (v : value t) : Any := Some (existT t v).
Definition HasValue (a : Any) : bool := match a with Some _ => true | None => false end.
Definition Any_Clone (a : Any) : Any := match a with Some (existT t v) => Some (existT t v) | None => None end.
Definition Any_copy (other : Any) : Any := if negb (HasValue other) then None else Any_Clone other.
(** The move constructor takes the pointer: (this, other). *)
Definition Any_move (other : Any) : Any * Any := (other, None).
Definition Any_Swap (this other : Any) : Any * Any := (other, this).
(** [Any(rhs).Swap( *this )] *)
Definition Any_assign (this rhs : Any) : Any := snd (Any_Swap (Any_copy rhs) this).
Definition Any_move_assign (this rhs : Any) : Any * Any :=
  let m := Any_move rhs in (snd (Any_Swap (fst m) this), snd m).
Definition Any_Reset (this : Any) : Any := None.
Definition Any_emplace (this : Any) (t : Ty) (v : value t) : Any := let _ := Any_Reset this in Any_of t v.

(** *** Types at run time

    [FastTypeId<T>()] is the address of a static variable of its own for each type ([None]
    stands for [void]). *)
Context (dummy_var : option Ty -> Z).

Definition FastTypeId (t : option Ty) : Z := dummy_var t.

(** The virtual function of [Derived<T>], and [GetObjTypeId]. *)
Definition Derived_ObjTypeId (d : { t : Ty & value t }) : Z := FastTypeId (Some (projT1 d)).
Definition GetObjTypeId (a : Any) : Z := match a with Some d => Derived_ObjTypeId d | None => FastTypeId None end.

(** [static_cast<Derived<U>*>(operand->ptr_.get())->value]: nothing is checked, an object of
    another type, or none, is undefined behaviour. *)
Definition static_value (t : Ty) (a : Any) : outcome (value t) :=
  match a with
  | Some (existT t' v) => match decide (t' = t) with left e => Ok (eq_rect t' value v t e) | right _ => UB end
  | None => UB
  end.

(** [AnyCast] on a pointer: null for a null operand or another type. *)
Definition AnyCast_ptr (t : Ty) (operand : option Any) : outcome (option (value t)) :=
  match operand with
  | None => Ok None
  | Some a =>
    if GetObjTypeId a =? FastTypeId (Some t) then v ← static_value t a; Ok (Some v) else Ok None
  end.

(** [AnyCast] on a reference: [ThrowBadAnyCast] when the pointer is null. *)
Definition ThrowBadAnyCast {A} : outcome A := Throw Exception.
Definition AnyCast (t : Ty) (a : Any) : outcome (value t) :=
  r ← AnyCast_ptr t (Some a);
  match r with Some v => Ok v | None => ThrowBadAnyCast end.

(** [AnyCast] on an rvalue moves the value out of the object, which keeps what is left. *)
Definition AnyCast_move (t : Ty) (a : Any) : outcome (value t * Any) :=
  v ← AnyCast t a; Ok (v, Any_of t (any_moved t v)).

(** The type of the object, [None] for none. *)
Definition held (a : Any) : option Ty := projT1 <$> a.

Lemma static_value_of t v : static_value t (Any_of t v) = Ok v.
Proof.
  unfold static_value, Any_of. destruct (decide (t = t)) as [E|]; [|done]. f_equal. symmetry.
  apply Eqdep_dec.eq_rect_eq_dec. intros; apply decide; apply _.
Qed.

(** When the tags differ, as those of distinct static variables do, the cast looks at an
    object only if it has the type asked for. *)
Lemma AnyCast_ptr_spec t a :
  Inj (=) (=) dummy_var ->
  (held a <> Some t /\ AnyCast_ptr t (Some a) = Ok None) \/
  exists v, a = Any_of t v /\ AnyCast_ptr t (Some a) = Ok (Some v).
Proof.
  intros Hinj. destruct (decide (held a = Some t)) as [E|E].
  - right. destruct a as [[t' v]|]; [|done]. injection E as ->. exists v. split; [done|].
    unfold AnyCast_ptr. rewrite Z.eqb_refl. change (Some (existT t v)) with (Any_of t v). by rewrite static_value_of.
  - left. split; [done|]. unfold AnyCast_ptr.
    replace (GetObjTypeId a =? FastTypeId (Some t)) with false; [done|]. symmetry. apply Z.eqb_neq.
    intros H. destruct a as [[t' v]|]; apply Hinj in H; [|done]. simpl in *. by injection H as ->.
Qed.

(** Two types with one tag: an object of the one is read as the other. *)
Lemma AnyCast_collision t t' v :
  t <> t' -> dummy_var (Some t) = dummy_var (Some t') -> AnyCast t' (Any_of t v) = UB.
Proof.
  intros Hne Heq. unfold AnyCast, AnyCast_ptr. simpl. unfold Derived_ObjTypeId, FastTypeId. simpl.
  rewrite Heq, Z.eqb_refl. by destruct (decide (t = t')).
Qed.

(** Copies are equal and independent; a move empties its source; assigning is copying. *)
Lemma Any_copy_spec (this a : Any) :
  Any_copy a = a /\ Any_assign this a = a /\ Any_move_assign this a = (a, None) /\ HasValue (snd (Any_move a)) = false.
Proof. by destruct a as [[t v]|]. Qed.
End any.
