(* ===== verification/Queue.v ===== *)
(** * Bounded queues, the thread pool and the latch.

    Sources: include/hare/base/util/queue.h (CircularQueue, BlockingQueue),
    include/hare/base/util/thread_pool.h, hare/base/util/count_down_latch.cc.

    The methods of [BlockingQueue] run under one mutex: each is one step of a step
    relation, enabled when the predicate of its condition variable holds. *)

From S2P Require Import Prelude.

Section queue.
Context {T : Type}.
(** [T{}], and what is left in an object that was moved from. *)
Context (dflt : T) (moved_from : T -> T).

(** ** [CircularQueue] *)

Record CircularQueue := mkCQ {
  max_capacity_ : Z; over_counter_ : Z; head_ : Z; tail_ : Z; sequence_ : list T
}.

Definition CQ_ctor (max : Z) : CircularQueue := mkCQ max 0 0 0 (replicate (Z.to_nat max) dflt).

(** [sequence_[i]], unchecked. *)
Definition seq_get (s : list T) (i : Z) : outcome T :=
  if 0 <=? i then deref (s !! Z.to_nat i) else UB.
Definition seq_set (s : list T) (i : Z) (x : T) : outcome (list T) :=
  if decide (0 <= i < Zlen s) then Ok (<[Z.to_nat i := x]> s) else UB.

(** [x % max], undefined for 0. *)
Definition umod (x m : Z) : outcome Z := if m =? 0 then UB else Ok (u64 x mod m).

Definition CQ_PushBack (q : CircularQueue) (item : T) : outcome CircularQueue :=
  if max_capacity_ q >? 0 then
    s ← seq_set (sequence_ q) (tail_ q) item;
    t ← umod (tail_ q + 1) (max_capacity_ q);
    if t =? head_ q then
      h ← umod (head_ q + 1) (max_capacity_ q);
      Ok (mkCQ (max_capacity_ q) (u64 (over_counter_ q + 1)) h t s)
    else Ok (mkCQ (max_capacity_ q) (over_counter_ q) (head_ q) t s)
  else Ok q.

Definition CQ_Front (q : CircularQueue) : outcome T := seq_get (sequence_ q) (head_ q).

Definition CQ_Size (q : CircularQueue) : Z :=
  if tail_ q >=? head_ q then tail_ q - head_ q else u64 (max_capacity_ q - head_ q + tail_ q).

Definition CQ_At (q : CircularQueue) (i : Z) : outcome T :=
  _ ← hare_assert (i <? CQ_Size q);
  k ← umod (head_ q + i) (max_capacity_ q);
  seq_get (sequence_ q) k.

Definition CQ_PopFront (q : CircularQueue) : outcome (T * CircularQueue) :=
  x ← seq_get (sequence_ q) (head_ q);
  s ← seq_set (sequence_ q) (head_ q) (moved_from x);
  h ← umod (head_ q + 1) (max_capacity_ q);
  Ok (x, mkCQ (max_capacity_ q) (over_counter_ q) h (tail_ q) s).

Definition CQ_Empty (q : CircularQueue) : bool := tail_ q =? head_ q.

Definition CQ_Full (q : CircularQueue) : bool :=
  if max_capacity_ q >? 0 then ((tail_ q + 1) mod max_capacity_ q) =? head_ q else false.

(** The loop of [GetAll]; [i] stays 0. *)
Fixpoint CQ_GetAll (fuel : nat) (q : CircularQueue) (seq : list T) : outcome (CircularQueue * list T) :=
  match fuel with
  | O => NoFuel
  | S fuel =>
    if CQ_Empty q then Ok (q, seq)
    else
      r ← CQ_PopFront q;
      seq ← seq_set seq 0 (fst r);
      CQ_GetAll fuel (snd r) seq
  end.

Definition CQ_ResetCounter (q : CircularQueue) : CircularQueue :=
  mkCQ (max_capacity_ q) 0 (head_ q) (tail_ q) (sequence_ q).

(** [Move]: (this, other) afterwards. *)
Definition CQ_Move (other : CircularQueue) : CircularQueue * CircularQueue :=
  (mkCQ (max_capacity_ other) (over_counter_ other) (head_ other) (tail_ other) (sequence_ other),
   mkCQ 0 0 0 0 []).

(** *** The invariant and the abstract value *)

Record CQ_ok (q : CircularQueue) : Prop := {
  cq_len : Zlen (sequence_ q) = max_capacity_ q;
  cq_head : 0 <= head_ q < Z.max 1 (max_capacity_ q);
  cq_tail : 0 <= tail_ q < Z.max 1 (max_capacity_ q);
  cq_max : 0 <= max_capacity_ q < 2 ^ 63
}.

Definition slot (q : CircularQueue) (i : nat) : T :=
  nth (Z.to_nat ((head_ q + Z.of_nat i) mod max_capacity_ q)) (sequence_ q) dflt.

(** The items from the oldest to the newest. *)
Definition items (q : CircularQueue) : list T := slot q <$> seq 0 (Z.to_nat (CQ_Size q)).

(** *** Lemmas *)

Implicit Types (q : CircularQueue).

Lemma mod_add_eq a b m : 0 < m -> 0 <= b < m -> (a - b) mod m = 0 -> a mod m = b.
Proof.
  intros Hm Hb H. apply Z.mod_divide in H as [k Hk]; [|lia].
  replace a with (b + k * m) by lia. rewrite Z.mod_add by lia. by apply Z.mod_small.
Qed.

Lemma CQ_Size_mod q :
  CQ_ok q -> 0 < max_capacity_ q -> CQ_Size q = (tail_ q - head_ q) mod max_capacity_ q.
Proof.
  intros [_ Hh Ht Hm] Hpos. unfold CQ_Size. rewrite Z.geb_leb.
  destruct (Z.leb_spec (head_ q) (tail_ q)).
  - rewrite Z.mod_small; lia.
  - rewrite u64_small by lia. rewrite <- (Z.mod_add _ 1) by lia. rewrite Z.mod_small; lia.
Qed.

Lemma CQ_Size_bound q : CQ_ok q -> 0 <= CQ_Size q < Z.max 1 (max_capacity_ q).
Proof.
  intros Hok. pose proof Hok as [_ Hh Ht Hm]. destruct (Z.eq_dec (max_capacity_ q) 0) as [E|E].
  - unfold CQ_Size. rewrite E in *. replace (tail_ q) with 0 by lia. replace (head_ q) with 0 by lia. done.
  - rewrite CQ_Size_mod by (done || lia). pose proof (Z.mod_pos_bound (tail_ q - head_ q) (max_capacity_ q)). lia.
Qed.

Lemma items_length q : CQ_ok q -> Zlen (items q) = CQ_Size q.
Proof.
  intros H. pose proof (CQ_Size_bound q H). unfold items, Zlen. rewrite length_fmap, length_seq. lia.
Qed.

Lemma items_lookup q i :
  CQ_ok q -> items q !! i = if decide (Z.of_nat i < CQ_Size q) then Some (slot q i) else None.
Proof.
  intros Hok. unfold items. rewrite list_lookup_fmap. pose proof (CQ_Size_bound q Hok).
  case_decide.
  - by rewrite lookup_seq_lt by lia.
  - by rewrite lookup_seq_ge by lia.
Qed.

Lemma CQ_ctor_ok max : 0 <= max < 2 ^ 63 -> CQ_ok (CQ_ctor max) /\ items (CQ_ctor max) = [].
Proof. intros. split; [|done]. split; simpl; try lia. rewrite Zlen_replicate. lia. Qed.

(** [Full] is [Size() == max_capacity() - 1]. *)
Lemma CQ_Full_size q :
  CQ_ok q -> 0 < max_capacity_ q -> (CQ_Full q = true <-> CQ_Size q = max_capacity_ q - 1).
Proof.
  intros Hok Hpos. pose proof Hok as [_ Hh Ht Hm]. rewrite CQ_Size_mod by done. unfold CQ_Full.
  rewrite (proj2 (Z.gtb_lt _ _)), Z.eqb_eq by lia. set (M := max_capacity_ q) in *.
  assert (E : tail_ q + 1 = M \/ tail_ q + 1 < M) by lia. split; intros H.
  - destruct E as [E|E]; [rewrite E, Z.mod_same in H by lia|rewrite Z.mod_small in H by lia].
    + rewrite <- H. rewrite Z.mod_small; lia.
    + rewrite <- H. replace (tail_ q - (tail_ q + 1)) with (M - 1 + (-1) * M) by lia.
      rewrite Z.mod_add by lia. apply Z.mod_small. lia.
  - apply mod_add_eq; [lia|lia|]. replace (tail_ q + 1 - head_ q) with ((tail_ q - head_ q) + 1) by lia.
    rewrite <- Z.add_mod_idemp_l, H by lia. replace (M - 1 + 1) with M by lia. apply Z.mod_same. lia.
Qed.

Lemma CQ_Empty_items q : CQ_ok q -> (CQ_Empty q = true <-> items q = []).
Proof.
  intros Hok. unfold CQ_Empty. rewrite Z.eqb_eq.
  assert (Hsz : tail_ q = head_ q <-> CQ_Size q = 0).
  { pose proof Hok as [_ Hh Ht Hm]. unfold CQ_Size. rewrite Z.geb_leb.
    destruct (Z.leb_spec (head_ q) (tail_ q)); [lia|]. rewrite u64_small by lia. lia. }
  rewrite Hsz, <- items_length by done. split; [apply Zlen_0_nil|by intros ->].
Qed.

Lemma slot_set q i k x :
  CQ_ok q -> 0 < max_capacity_ q -> 0 <= k < max_capacity_ q ->
  slot (mkCQ (max_capacity_ q) (over_counter_ q) (head_ q) (tail_ q) (<[Z.to_nat k := x]> (sequence_ q))) i =
    if decide ((head_ q + Z.of_nat i) mod max_capacity_ q = k) then x else slot q i.
Proof.
  intros [Hl _ _ _] Hpos Hk. unfold slot. simpl. unfold Zlen in Hl.
  set (j := (head_ q + Z.of_nat i) mod max_capacity_ q).
  assert (Hj : 0 <= j < max_capacity_ q) by (apply Z.mod_pos_bound; lia).
  rewrite !nth_lookup, list_lookup_insert. case_decide as H1; case_decide as H2; try lia; done.
Qed.

(** The slots a queue with another head has. *)
Lemma slot_shift m o h h' t s i d :
  0 < m -> h' = (h + d) mod m -> 0 <= d ->
  slot (mkCQ m o h' t s) i = slot (mkCQ m o h t s) (Z.to_nat d + i).
Proof.
  intros Hm -> Hd. unfold slot. simpl. do 2 f_equal.
  rewrite Z.add_mod_idemp_l by lia. f_equal. lia.
Qed.

(** The position behind the last item, and only it, is [tail_]. *)
Lemma tail_position q i :
  CQ_ok q -> 0 < max_capacity_ q -> Z.of_nat i < max_capacity_ q ->
  ((head_ q + Z.of_nat i) mod max_capacity_ q = tail_ q <-> Z.of_nat i = CQ_Size q).
Proof.
  intros Hok Hpos Hi. pose proof Hok as [_ Hh Ht Hm]. rewrite CQ_Size_mod by done. set (M := max_capacity_ q) in *.
  split; intros H.
  - rewrite <- H, Zminus_mod_idemp_l.
    replace (head_ q + Z.of_nat i - head_ q) with (Z.of_nat i) by lia. symmetry. apply Z.mod_small. lia.
  - apply mod_add_eq; [lia|lia|]. rewrite H.
    replace (head_ q + (tail_ q - head_ q) mod M - tail_ q) with ((tail_ q - head_ q) mod M - (tail_ q - head_ q)) by lia.
    rewrite Zminus_mod_idemp_l, Z.sub_diag. done.
Qed.

Lemma umod_ok x m : 0 <= x < 2 ^ 64 -> 0 < m -> umod x m = Ok (x mod m).
Proof. intros. unfold umod. rewrite (proj2 (Z.eqb_neq _ _)), u64_small by lia. done. Qed.

(** What [PushBack] does to the items. *)
Lemma CQ_PushBack_spec q x :
  CQ_ok q -> 0 < max_capacity_ q ->
  exists q', CQ_PushBack q x = Ok q' /\ CQ_ok q' /\ max_capacity_ q' = max_capacity_ q /\
    items q' = (if CQ_Full q then drop 1 (items q ++ [x]) else items q ++ [x]) /\
    over_counter_ q' = (if CQ_Full q then u64 (over_counter_ q + 1) else over_counter_ q).
Proof.
  intros Hok Hpos. pose proof Hok as [Hl Hh Ht Hm]. pose proof (CQ_Size_bound q Hok) as Hsb.
  pose proof (CQ_Full_size q Hok Hpos) as Hfull. pose proof (items_length q Hok) as Hil.
  unfold CQ_PushBack. rewrite (proj2 (Z.gtb_lt _ _)) by lia. unfold seq_set. rewrite decide_True by lia. ored.
  rewrite (umod_ok (tail_ q + 1)) by lia. ored. unfold CQ_Full in *. rewrite (proj2 (Z.gtb_lt _ _)) in * by lia.
  set (M := max_capacity_ q) in *. remember ((tail_ q + 1) mod M) as t eqn:Et.
  assert (Hb : 0 <= t < M) by (rewrite Et; apply Z.mod_pos_bound; lia).
  set (s := <[Z.to_nat (tail_ q) := x]> (sequence_ q)).
  assert (Hls : Zlen s = M) by (unfold s, Zlen in *; by rewrite length_insert).
  assert (Hslot : forall i o t, slot (mkCQ M o (head_ q) t s) i =
            if decide ((head_ q + Z.of_nat i) mod M = tail_ q) then x else slot q i).
  { intros i o t'. exact (slot_set q i (tail_ q) x Hok Hpos ltac:(fold M; lia)). }
  assert (Hpush : forall i, Z.of_nat i <= CQ_Size q ->
            (items q ++ [x]) !! i = Some (if decide ((head_ q + Z.of_nat i) mod M = tail_ q) then x else slot q i)).
  { intros i Hi. pose proof (tail_position q i Hok Hpos ltac:(lia)) as Htp. fold M in Htp.
    destruct (decide (Z.of_nat i = CQ_Size q)) as [E|E].
    - rewrite decide_True by (by apply Htp). rewrite lookup_app_r by (unfold Zlen in Hil; lia).
      by replace (i - length (items q))%nat with O by (unfold Zlen in Hil; lia).
    - rewrite decide_False by (by intros ?%Htp). rewrite lookup_app_l by (unfold Zlen in Hil; lia).
      rewrite items_lookup by done. by rewrite decide_True by lia. }
  destruct (Z.eqb_spec t (head_ q)) as [E|E].
  - rewrite umod_ok by lia. ored. destruct Hfull as [Hf _]. specialize (Hf eq_refl).
    set (h' := (head_ q + 1) mod M). set (q' := mkCQ M (u64 (over_counter_ q + 1)) h' t s).
    assert (Hok' : CQ_ok q').
    { split; simpl; try done; [|fold M; lia]. pose proof (Z.mod_pos_bound (head_ q + 1) M). unfold h'. lia. }
    exists q'. split_and!; try done. 
    assert (Hsz : CQ_Size q' = M - 1).
    { rewrite CQ_Size_mod by done. simpl. rewrite E. unfold h'. rewrite Zminus_mod_idemp_r.
      replace (head_ q - (head_ q + 1)) with (M - 1 + (-1) * M) by lia. rewrite Z.mod_add by lia.
      apply Z.mod_small. lia. }
    apply list_eq. intros i. rewrite items_lookup, lookup_drop by done. rewrite Hsz. case_decide as Hi.
    + unfold q'. rewrite (slot_shift M (u64 (over_counter_ q + 1)) (head_ q) h' t s i 1) by (done || lia).
      rewrite Hslot, Hpush by lia. done.
    + symmetry. apply lookup_ge_None. rewrite length_app. simpl. unfold Zlen in Hil. lia.
  - assert (Hnf : CQ_Size q <> M - 1) by (intros H; by apply Hfull in H).
    set (q' := mkCQ M (over_counter_ q) (head_ q) t s).
    assert (Hok' : CQ_ok q') by (split; simpl; try done; fold M; lia).
    exists q'. split_and!; try done.
    assert (Hsz : CQ_Size q' = CQ_Size q + 1).
    { pose proof (CQ_Size_mod q Hok Hpos) as E1. fold M in E1.
      rewrite (CQ_Size_mod q') by done. simpl. rewrite Et, Zminus_mod_idemp_l.
      replace (tail_ q + 1 - head_ q) with ((tail_ q - head_ q) + 1) by lia.
      rewrite <- Z.add_mod_idemp_l, <- E1 by lia. apply Z.mod_small. lia. }
    apply list_eq. intros i. rewrite items_lookup by done. rewrite Hsz. case_decide as Hi.
    + unfold q'. rewrite Hslot, Hpush by lia. done.
    + symmetry. apply lookup_ge_None. rewrite length_app. simpl. unfold Zlen in Hil. lia.
Qed.

(** [PopFront] of a queue that is not empty gives the oldest item. *)
Lemma CQ_PopFront_spec q x l :
  CQ_ok q -> items q = x :: l ->
  exists q', CQ_PopFront q = Ok (x, q') /\ CQ_ok q' /\ items q' = l /\
    max_capacity_ q' = max_capacity_ q /\ over_counter_ q' = over_counter_ q.
Proof.
  intros Hok Hit. pose proof Hok as [Hl Hh Ht Hm]. pose proof (CQ_Size_bound q Hok) as Hsb.
  pose proof (items_length q Hok) as Hil. rewrite Hit, Zlen_cons in Hil. pose proof (Zlen_nonneg l).
  assert (Hpos : 0 < max_capacity_ q) by lia. set (M := max_capacity_ q) in *.
  assert (Hx : sequence_ q !! Z.to_nat (head_ q) = Some x).
  { pose proof (items_lookup q 0 Hok) as H0. rewrite Hit, decide_True in H0 by lia. injection H0 as ->.
    unfold slot. fold M. rewrite Z.add_0_r, Z.mod_small by lia. rewrite nth_lookup.
    destruct (lookup_lt_is_Some_2 (sequence_ q) (Z.to_nat (head_ q))) as [y Hy]; [unfold Zlen in Hl; lia|].
    by rewrite Hy. }
  unfold CQ_PopFront, seq_get, seq_set. rewrite (proj2 (Z.leb_le _ _)), Hx by lia. ored.
  rewrite decide_True by lia. ored. rewrite umod_ok by lia. ored.
  set (h' := (head_ q + 1) mod M). set (s := <[Z.to_nat (head_ q) := moved_from x]> (sequence_ q)).
  set (q' := mkCQ M (over_counter_ q) h' (tail_ q) s).
  assert (Hok' : CQ_ok q').
  { split; simpl; try done; [|fold M; pose proof (Z.mod_pos_bound (head_ q + 1) M); unfold h'; lia].
    unfold s, Zlen in *. by rewrite length_insert. }
  exists q'. split_and!; try done.
  assert (Hsz : CQ_Size q' = CQ_Size q - 1).
  { pose proof (CQ_Size_mod q Hok Hpos) as E1. fold M in E1.
    rewrite (CQ_Size_mod q') by done. simpl. unfold h'. rewrite Zminus_mod_idemp_r.
    replace (tail_ q - (head_ q + 1)) with ((tail_ q - head_ q) - 1) by lia.
    rewrite <- Zminus_mod_idemp_l, <- E1. apply Z.mod_small. lia. }
  apply list_eq. intros i. rewrite items_lookup by done. rewrite Hsz. 
  pose proof (items_lookup q (S i) Hok) as HS. rewrite Hit in HS. simpl in HS. rewrite HS.
  case_decide as Hi; case_decide as Hi'; try lia; [|done]. f_equal.
  unfold q'. rewrite (slot_shift M (over_counter_ q) (head_ q) h' (tail_ q) s i 1) by (done || lia).
  change (Z.to_nat 1 + i)%nat with (S i). unfold s, M.
  rewrite (slot_set q (S i) (head_ q) (moved_from x)) by (done || lia).
  rewrite decide_False; [done|]. fold M. intros E.
  assert (E0 : (head_ q + Z.of_nat (S i) - head_ q) mod M = 0).
  { rewrite <- Zminus_mod_idemp_l, E, Z.sub_diag. done. }
  replace (head_ q + Z.of_nat (S i) - head_ q) with (Z.of_nat (S i)) in E0 by lia.
  rewrite Z.mod_small in E0 by lia. lia.
Qed.
End queue.

Arguments CircularQueue : clear implicits.

Section get_all.
Context {T : Type} (dflt : T) (moved_from : T -> T).

(** [GetAll] empties the queue into the first element of the target: only the newest
    item is left there. *)
Lemma CQ_GetAll_spec (l : list T) :
  forall q x out fuel,
  CQ_ok q -> items dflt q = l ++ [x] -> out <> [] -> (length l + 1 < fuel)%nat ->
  exists q', CQ_GetAll moved_from fuel q out = Ok (q', <[0%nat := x]> out) /\
    CQ_ok q' /\ items dflt q' = [] /\ max_capacity_ q' = max_capacity_ q.
Proof.
  induction l as [|y l IH]; intros q x out fuel Hok Hit Hout Hfuel;
    (destruct fuel as [|fuel]; [lia|]); simpl CQ_GetAll.
  all: assert (He : CQ_Empty q = false)
    by (apply not_true_iff_false; rewrite (CQ_Empty_items dflt) by done; rewrite Hit; done).
  all: rewrite He; destruct (CQ_PopFront_spec dflt moved_from q _ _ Hok Hit) as (q' & -> & Hok' & Hit' & Hm & _); ored.
  all: unfold seq_set at 1; rewrite decide_True by (destruct out; [done|]; unfold Zlen; simpl; lia); ored.
  - exists q'. split; [|done]. destruct fuel as [|fuel]; [simpl in Hfuel; lia|]. simpl.
    by rewrite (proj2 (CQ_Empty_items dflt q' Hok')).
  - destruct (IH q' x (<[Z.to_nat 0 := y]> out) fuel Hok' Hit') as (q2 & Hrun & Hok2 & Hit2 & Hm2).
    + by destruct out.
    + simpl in Hfuel. lia.
    + exists q2. rewrite Hrun. split_and!; try done; [|congruence].
      do 2 f_equal. change (Z.to_nat 0) with 0%nat. apply list_insert_insert_eq.
Qed.
End get_all.

(** ** [BlockingQueue] *)

Section blocking.
Context {T : Type} (dflt : T) (moved_from : T -> T).
Implicit Types (q : CircularQueue T).

(** What a call of a method that holds the mutex does: [None] when the predicate of its
    wait does not hold, so that it sleeps. *)
Definition BQ_Enqueue q (item : T) : option (outcome (CircularQueue T)) :=
  if CQ_Full q then None else Some (CQ_PushBack q item).

Definition BQ_EnqueueNoWait q (item : T) : outcome (CircularQueue T) := CQ_PushBack q item.

Definition BQ_Dequeue q : option (outcome (T * CircularQueue T)) :=
  if CQ_Empty q then None else Some (CQ_PopFront moved_from q).

(** [DequeueFor] when its time is over: false if there is still nothing. *)
Definition BQ_DequeueFor q : outcome (option T * CircularQueue T) :=
  if CQ_Empty q then Ok (None, q) else r ← CQ_PopFront moved_from q; Ok (Some (fst r), snd r).

Definition BQ_Dequeues (fuel : nat) q : option (outcome (list T * CircularQueue T)) :=
  if CQ_Empty q then None
  else Some (r ← CQ_GetAll moved_from fuel q (replicate (Z.to_nat (CQ_Size q)) dflt); Ok (snd r, fst r)).

(** The events of a queue. *)
Inductive bq_event :=
  | EvEnqueue (x : T)
  | EvEnqueueNoWait (x : T)
  | EvDequeue (x : T)
  | EvTimeout
  | EvDequeues (l : list T)
  | EvReset.

Inductive BQ_step : CircularQueue T -> bq_event -> CircularQueue T -> Prop :=
  | step_Enqueue q q' x : BQ_Enqueue q x = Some (Ok q') -> BQ_step q (EvEnqueue x) q'
  | step_EnqueueNoWait q q' x : BQ_EnqueueNoWait q x = Ok q' -> BQ_step q (EvEnqueueNoWait x) q'
  | step_Dequeue q q' x : BQ_Dequeue q = Some (Ok (x, q')) -> BQ_step q (EvDequeue x) q'
  | step_DequeueFor q q' x : BQ_DequeueFor q = Ok (Some x, q') -> BQ_step q (EvDequeue x) q'
  | step_Timeout q q' : BQ_DequeueFor q = Ok (None, q') -> BQ_step q EvTimeout q'
  | step_Dequeues q q' l fuel : BQ_Dequeues fuel q = Some (Ok (l, q')) -> BQ_step q (EvDequeues l) q'
  | step_Reset q : BQ_step q EvReset (CQ_ResetCounter q).

Inductive BQ_run : CircularQueue T -> list bq_event -> CircularQueue T -> Prop :=
  | run_nil q : BQ_run q [] q
  | run_cons q q' q'' e tr : BQ_step q e q' -> BQ_run q' tr q'' -> BQ_run q (e :: tr) q''.

(** *** The specification: a bounded queue of [cap - 1] items

    First in, first out: [Dequeue] delivers the oldest item, [Dequeues] all of them from the
    oldest to the newest; [EnqueueNoWait] gives up the oldest item when there is no room. *)

Inductive spec_step (cap : Z) : list T -> bq_event -> list T -> Prop :=
  | spec_Enqueue l x : Zlen l < cap - 1 -> spec_step cap l (EvEnqueue x) (l ++ [x])
  | spec_EnqueueNoWait l x :
      spec_step cap l (EvEnqueueNoWait x) (if Zlen l =? cap - 1 then drop 1 (l ++ [x]) else l ++ [x])
  | spec_Dequeue l x : spec_step cap (x :: l) (EvDequeue x) l
  | spec_Timeout : spec_step cap [] EvTimeout []
  | spec_Dequeues l : l <> [] -> spec_step cap l (EvDequeues l) []
  | spec_Reset l : spec_step cap l EvReset l.

Lemma spec_enqueue_inv cap l x l' : spec_step cap l (EvEnqueue x) l' -> l' = l ++ [x].
Proof. by inversion 1. Qed.

Lemma spec_dequeue_inv cap l x l' : spec_step cap l (EvDequeue x) l' -> l = x :: l'.
Proof. by inversion 1. Qed.

Lemma CQ_GetAll_fuel fuel q out r :
  CQ_ok q -> CQ_GetAll moved_from fuel q out = Ok r -> (length (items dflt q) < fuel)%nat.
Proof.
  revert q out. induction fuel as [|fuel IH]; intros q out Hok; [done|]. simpl.
  destruct (CQ_Empty q) eqn:E.
  - intros _. apply (CQ_Empty_items dflt q Hok) in E. rewrite E. simpl. lia.
  - destruct (items dflt q) as [|x l] eqn:Eit; [by apply (CQ_Empty_items dflt q Hok) in Eit; congruence|].
    destruct (CQ_PopFront_spec dflt moved_from q x l Hok Eit) as (q' & -> & Hok' & Hit & _). ored.
    intros (out' & _ & Hrun)%bind_Ok. apply IH in Hrun; [|done]. rewrite Hit in Hrun. simpl. lia.
Qed.

(** [Dequeues] of two items or more: the newest one, and default values for the others. *)
Definition garbled (l : list T) (e : bq_event) (l' : list T) : Prop :=
  exists older x, older <> [] /\ l = older ++ [x] /\ e = EvDequeues (x :: replicate (length older) dflt) /\ l' = [].

Lemma BQ_Dequeues_garbled q l q' :
  CQ_ok q -> 0 < max_capacity_ q -> BQ_step q (EvDequeues l) q' ->
  CQ_ok q' /\ max_capacity_ q' = max_capacity_ q /\
  exists older x, items dflt q = older ++ [x] /\ l = x :: replicate (length older) dflt /\ items dflt q' = [].
Proof.
  intros Hok Hpos Hs. inversion Hs as [| | | | |? ? ? fuel H|]; subst. pose proof (items_length dflt q Hok) as Hlen.
  pose proof (CQ_Size_bound q Hok) as Hb.
  unfold BQ_Dequeues in H. destruct (CQ_Empty q) eqn:E; [done|]. injection H as H.
  apply bind_Ok in H as (r & Hr & Hret). pose proof (CQ_GetAll_fuel _ _ _ _ Hok Hr) as Hf.
  destruct (items dflt q) as [|y l' _] eqn:Eit using rev_ind.
  { by apply (CQ_Empty_items dflt q Hok) in Eit; congruence. }
  rewrite length_app in Hf. simpl in Hf. rewrite Zlen_app in Hlen. unfold Zlen in Hlen. simpl in Hlen.
  destruct (CQ_GetAll_spec dflt moved_from l' q y (replicate (Z.to_nat (CQ_Size q)) dflt) fuel Hok Eit)
    as (q1 & Hq1 & Hok1 & Hit1 & Hm1); [|lia|].
  { by replace (Z.to_nat (CQ_Size q)) with (S (length l')) by lia. }
  rewrite Hq1 in Hr. injection Hr as <-. injection Hret as <- <-.
  replace (Z.to_nat (CQ_Size q)) with (S (length l')) by lia. split_and!; [done|done|]. by exists l', y.
Qed.

(** Every step of the code is a step of the specification, but for [Dequeues] of more than
    one item. *)
Lemma BQ_step_refines q e q' :
  CQ_ok q -> 0 < max_capacity_ q -> BQ_step q e q' ->
  CQ_ok q' /\ max_capacity_ q' = max_capacity_ q /\
  (spec_step (max_capacity_ q) (items dflt q) e (items dflt q') \/ garbled (items dflt q) e (items dflt q')).
Proof.
  intros Hok Hpos Hs. pose proof (items_length dflt q Hok) as Hlen.
  pose proof (CQ_Full_size q Hok Hpos) as Hfull. pose proof (CQ_Size_bound q Hok) as Hb.
  assert (Hcase : items dflt q = [] \/ exists x l, items dflt q = x :: l) by (destruct (items dflt q); eauto).
  assert (Hpop : forall r, CQ_PopFront moved_from q = Ok r -> CQ_Empty q = false ->
    CQ_ok (snd r) /\ max_capacity_ (snd r) = max_capacity_ q /\ items dflt q = fst r :: items dflt (snd r)).
  { intros r Hr He. destruct Hcase as [H0|(x & l & H0)]; [by apply CQ_Empty_items in H0; congruence|].
    destruct (CQ_PopFront_spec dflt moved_from q x l Hok H0) as (q1 & Hq1 & Hok1 & Hit1 & Hm & _).
    rewrite Hq1 in Hr. injection Hr as <-. simpl. by rewrite Hit1. }
  destruct Hs as [q q' x H|q q' x H|q q' x H|q q' x H|q q' H|q q' l fuel H|q].
  - unfold BQ_Enqueue in H. destruct (CQ_Full q) eqn:E; [done|]. injection H as H.
    destruct (CQ_PushBack_spec dflt q x Hok Hpos) as (q1 & Hq1 & Hok1 & Hm & Hit & _).
    rewrite Hq1 in H. injection H as <-. rewrite Hit, E. split_and!; try done. left. constructor.
    assert (CQ_Size q <> max_capacity_ q - 1) by (intros ?%Hfull; congruence). lia.
  - unfold BQ_EnqueueNoWait in H.
    destruct (CQ_PushBack_spec dflt q x Hok Hpos) as (q1 & Hq1 & Hok1 & Hm & Hit & _).
    rewrite Hq1 in H. injection H as <-. split_and!; try done. left. rewrite Hit.
    replace (CQ_Full q) with (Zlen (items dflt q) =? max_capacity_ q - 1); [constructor|].
    rewrite Hlen. destruct (CQ_Full q) eqn:E; [by apply Z.eqb_eq, Hfull|].
    apply Z.eqb_neq. intros ?%Hfull. congruence.
  - unfold BQ_Dequeue in H. destruct (CQ_Empty q) eqn:E; [done|]. injection H as H.
    destruct (Hpop _ H eq_refl) as (? & ? & Hit). simpl in *. rewrite Hit. split_and!; try done. left. constructor.
  - unfold BQ_DequeueFor in H. destruct (CQ_Empty q) eqn:E; [done|].
    apply bind_Ok in H as (r & Hr & [= <- <-]). destruct (Hpop _ Hr eq_refl) as (? & ? & Hit).
    rewrite Hit. split_and!; try done. left. constructor.
  - unfold BQ_DequeueFor in H. destruct (CQ_Empty q) eqn:E; [|by apply bind_Ok in H as (r & _ & ?)].
    injection H as <-. apply (CQ_Empty_items dflt q Hok) in E. rewrite E. split_and!; try done. left. constructor.
  - destruct (BQ_Dequeues_garbled q l q' Hok Hpos (step_Dequeues q q' l fuel H)) as (H1 & H2 & older & x & E & -> & E').
    split_and!; try done. rewrite E, E'. destruct older as [|z older]; [left; by constructor|right; by exists (z :: older), x].
  - split_and!; [by destruct Hok|done|left; constructor].
Qed.

Lemma BQ_step_spec q e q' :
  CQ_ok q -> 0 < max_capacity_ q -> BQ_step q e q' -> (match e with EvDequeues _ => False | _ => True end) ->
  CQ_ok q' /\ max_capacity_ q' = max_capacity_ q /\ spec_step (max_capacity_ q) (items dflt q) e (items dflt q').
Proof.
  intros Hok Hpos Hs He. destruct (BQ_step_refines q e q' Hok Hpos Hs) as (H1 & H2 & [H|(? & ? & _ & _ & -> & _)]); done.
Qed.

(** *** Runs *)

Definition enqueued (tr : list bq_event) : list T :=
  omap (fun e => match e with EvEnqueue x => Some x | _ => None end) tr.
Definition dequeued (tr : list bq_event) : list T :=
  omap (fun e => match e with EvDequeue x => Some x | _ => None end) tr.

(** Events of the code that waits for room and takes items one by one. *)
Definition plain (e : bq_event) : bool :=
  match e with EvEnqueueNoWait _ | EvDequeues _ => false | _ => true end.

Lemma BQ_run_ok q tr q' :
  CQ_ok q -> 0 < max_capacity_ q -> BQ_run q tr q' -> CQ_ok q' /\ max_capacity_ q' = max_capacity_ q.
Proof.
  intros Hok Hpos Hr. induction Hr as [q|q q' q'' e tr Hs Hr IH]; [done|].
  destruct (BQ_step_refines q e q' Hok Hpos Hs) as (Hok' & Hm & _). rewrite <- Hm in *. auto.
Qed.

(** Nothing is lost, duplicated or reordered by the waiting operations. *)
Lemma BQ_run_fifo q tr q' :
  CQ_ok q -> 0 < max_capacity_ q -> forallb plain tr = true -> BQ_run q tr q' ->
  items dflt q ++ enqueued tr = dequeued tr ++ items dflt q'.
Proof.
  intros Hok Hpos Hp Hr. induction Hr as [q|q q' q'' e tr Hs Hr IH]; [by rewrite app_nil_r|].
  simpl in Hp. apply andb_true_iff in Hp as [Hpe Hp].
  destruct (BQ_step_spec q e q' Hok Hpos Hs ltac:(by destruct e)) as (Hok' & Hm & Hspec). rewrite <- Hm in Hpos.
  specialize (IH Hok' Hpos Hp). remember (items dflt q) as l eqn:El. remember (items dflt q') as l' eqn:El'.
  destruct Hspec; simpl in *; try done.
  - by rewrite <- (assoc_L (++)) in IH.
  - by rewrite IH.
Qed.

(** A queue of capacity 1 is full when it is empty: [Enqueue] never gets through. *)
Lemma BQ_capacity_one q x : CQ_ok q -> max_capacity_ q = 1 -> BQ_Enqueue q x = None.
Proof.
  intros Hok H1. unfold BQ_Enqueue. pose proof (CQ_Size_bound q Hok).
  rewrite (proj2 (CQ_Full_size q Hok ltac:(lia))); [done|]. lia.
Qed.

(** Progress: of [Enqueue] and [Dequeue] one is always enabled, and both do what they
    are called for. *)
Lemma BQ_progress q x :
  CQ_ok q -> 1 < max_capacity_ q ->
  (exists q', BQ_step q (EvEnqueue x) q') \/ (exists y q', BQ_step q (EvDequeue y) q').
Proof.
  intros Hok Hm. destruct (CQ_Full q) eqn:E.
  - right. apply (CQ_Full_size q Hok ltac:(lia)) in E. pose proof (items_length dflt q Hok) as Hl.
    destruct (items dflt q) as [|y l] eqn:Eit; [rewrite Zlen_nil in Hl; lia|].
    destruct (CQ_PopFront_spec dflt moved_from q y l Hok Eit) as (q' & Hq' & _).
    exists y, q'. constructor. unfold BQ_Dequeue. destruct (CQ_Empty q) eqn:Ee; [|by rewrite Hq'].
    apply (CQ_Empty_items dflt q Hok) in Ee. congruence.
  - left. destruct (CQ_PushBack_spec dflt q x Hok ltac:(lia)) as (q' & Hq' & _).
    exists q'. constructor. unfold BQ_Enqueue. by rewrite E, Hq'.
Qed.
End blocking.

(** ** [ThreadPool] *)

Lemma sublist_length_eq {A} (l k : list A) : l `sublist_of` k -> length l = length k -> l = k.
Proof.
  induction 1 as [|x l k H IH|x l k H IH]; intros Hl; simpl in *; [done|f_equal; auto|].
  apply sublist_length in H. lia.
Qed.

Inductive Policy := BLOCK_RETRY | DISCARD.

Section pool.
Context {T : Type} (dflt : T) (moved_from : T -> T).
(** What [handle_] returns for an item. *)
Context (handle : T -> bool).

(** [running]: the worker threads that are in [Loop]. *)
Record ThreadPool := mkPool { queue_ : CircularQueue T; threads_ : nat; running : nat }.

Definition TP_ctor (max_items thr_n : Z) : outcome ThreadPool :=
  if (thr_n =? 0) || (thr_n >=? 1024) then Throw Exception
  else Ok (mkPool (CQ_ctor dflt max_items) (Z.to_nat thr_n) 0).

Definition TP_Start (p : ThreadPool) : ThreadPool := mkPool (queue_ p) (threads_ p) (threads_ p).

Definition TP_Post (p : ThreadPool) (item : T) (policy : Policy) : option (outcome (CircularQueue T)) :=
  match policy with
  | BLOCK_RETRY => BQ_Enqueue (queue_ p) item
  | DISCARD => Some (BQ_EnqueueNoWait (queue_ p) item)
  end.

(** One round of [Loop] of a worker: the item it handled and whether it goes on. *)
Definition TP_Loop_round (p : ThreadPool) : option (outcome (T * bool * CircularQueue T)) :=
  r ← BQ_Dequeue moved_from (queue_ p);
  Some (x ← r; Ok (fst x, handle (fst x), snd x)).

(** [Join] waits for every thread: it returns when none is in [Loop]. *)
Definition TP_Join (p : ThreadPool) : option ThreadPool := if (running p =? 0)%nat then Some p else None.

Definition TP_ThreadSize (p : ThreadPool) : nat := threads_ p.
Definition TP_OverCounter (p : ThreadPool) : Z := over_counter_ (queue_ p).
Definition TP_ResetCounter (p : ThreadPool) : ThreadPool := mkPool (CQ_ResetCounter (queue_ p)) (threads_ p) (running p).
Definition TP_QueueSize (p : ThreadPool) : Z := CQ_Size (queue_ p).

(** [PvPost x policy]: an item is posted; [PvHandle x]: a worker takes one and handles it. *)
Inductive pool_event := PvPost (x : T) (policy : Policy) | PvHandle (x : T).

Inductive TP_step : ThreadPool -> pool_event -> ThreadPool -> Prop :=
  | step_Post p x policy q : TP_Post p x policy = Some (Ok q) ->
      TP_step p (PvPost x policy) (mkPool q (threads_ p) (running p))
  | step_Handle p x b q : (0 < running p)%nat -> TP_Loop_round p = Some (Ok (x, b, q)) ->
      TP_step p (PvHandle x) (mkPool q (threads_ p) (if b : bool then running p else pred (running p))).

Inductive TP_run : ThreadPool -> list pool_event -> ThreadPool -> Prop :=
  | pool_nil p : TP_run p [] p
  | pool_cons p p' p'' e tr : TP_step p e p' -> TP_run p' tr p'' -> TP_run p (e :: tr) p''.

Definition posted (tr : list pool_event) : list T :=
  omap (fun e => match e with PvPost x _ => Some x | _ => None end) tr.
Definition handled (tr : list pool_event) : list T :=
  omap (fun e => match e with PvHandle x => Some x | _ => None end) tr.

(** The number of items that [DISCARD] has given up, as the counter of the queue says. *)
Definition counted (n lost : Z) : Z := if lost =? 0 then n else u64 (n + lost).

Lemma counted_next n lost : 0 <= lost -> counted (u64 (n + 1)) lost = counted n (lost + 1).
Proof.
  intros Hl. unfold counted, u64. rewrite (proj2 (Z.eqb_neq (lost + 1) 0)) by lia. destruct (Z.eqb_spec lost 0) as [->|].
  - f_equal; lia.
  - rewrite Zplus_mod_idemp_l. f_equal. lia.
Qed.

(** What every step keeps: the workers, and the items up to those that are given up. *)
Record pool_kept (p : ThreadPool) (tr : list pool_event) (p' : ThreadPool) : Prop := {
  pk_order : handled tr ++ items dflt (queue_ p') `sublist_of` items dflt (queue_ p) ++ posted tr;
  pk_lost : exists lost, 0 <= lost /\
    Zlen (items dflt (queue_ p)) + Zlen (posted tr) = Zlen (handled tr) + Zlen (items dflt (queue_ p')) + lost /\
    over_counter_ (queue_ p') = counted (over_counter_ (queue_ p)) lost /\
    (Forall (fun e => forall x, e <> PvPost x DISCARD) tr -> lost = 0);
  pk_running : (running p = running p' + length (filter (fun x => handle x = false) (handled tr)))%nat;
  pk_ok : CQ_ok (queue_ p');
  pk_max : max_capacity_ (queue_ p') = max_capacity_ (queue_ p)
}.

(** A post: the item goes behind the others, and with [DISCARD] the oldest one gives way when
    there is no room. *)
Lemma TP_Post_spec p x policy q :
  CQ_ok (queue_ p) -> 0 < max_capacity_ (queue_ p) -> TP_Post p x policy = Some (Ok q) ->
  CQ_ok q /\ max_capacity_ q = max_capacity_ (queue_ p) /\
  ((items dflt q = items dflt (queue_ p) ++ [x] /\ over_counter_ q = over_counter_ (queue_ p)) \/
   (policy = DISCARD /\ items dflt q = drop 1 (items dflt (queue_ p) ++ [x]) /\
    over_counter_ q = u64 (over_counter_ (queue_ p) + 1))).
Proof.
  intros Hok Hpos Hp. destruct (CQ_PushBack_spec dflt (queue_ p) x Hok Hpos) as (q' & Hq & Hok' & Hm & Hit & Hc).
  destruct policy; simpl in Hp.
  - unfold BQ_Enqueue in Hp. destruct (CQ_Full (queue_ p)); [done|]. injection Hp as Hp. rewrite Hq in Hp. injection Hp as <-.
    split_and!; [done|done|by left].
  - unfold BQ_EnqueueNoWait in Hp. injection Hp as Hp. rewrite Hq in Hp. injection Hp as <-. split_and!; [done|done|].
    destruct (CQ_Full (queue_ p)); [by right|by left].
Qed.

Lemma TP_Loop_round_spec p x b q :
  CQ_ok (queue_ p) -> 0 < max_capacity_ (queue_ p) -> TP_Loop_round p = Some (Ok (x, b, q)) ->
  CQ_ok q /\ max_capacity_ q = max_capacity_ (queue_ p) /\ items dflt (queue_ p) = x :: items dflt q /\ b = handle x /\
  over_counter_ q = over_counter_ (queue_ p).
Proof.
  intros Hok Hpos Hp. unfold TP_Loop_round in Hp. destruct (BQ_Dequeue moved_from (queue_ p)) as [r|] eqn:Ed; [|done].
  simpl in Hp. injection Hp as Hp. apply bind_Ok in Hp as ([y q1] & -> & [= <- <- <-]). unfold BQ_Dequeue in Ed.
  destruct (CQ_Empty (queue_ p)) eqn:Ee; [done|]. injection Ed as Ed.
  destruct (items dflt (queue_ p)) as [|z l] eqn:Eit; [by apply (CQ_Empty_items dflt _ Hok) in Eit; congruence|].
  destruct (CQ_PopFront_spec dflt moved_from (queue_ p) z l Hok Eit) as (q2 & Hq2 & Hok2 & Hit2 & Hm2 & Hc2).
  rewrite Hq2 in Ed. injection Ed as <- <-. by rewrite Hit2.
Qed.

(** Items are handled at most once each, in the order they were posted; those that are not
    handled wait in the queue or were given up, as many as the counter of the queue has
    counted, and none unless an item was posted with [DISCARD]; every item whose handler
    returns false stops one worker. *)
Lemma TP_run_spec p tr p' :
  CQ_ok (queue_ p) -> 0 < max_capacity_ (queue_ p) -> TP_run p tr p' -> pool_kept p tr p'.
Proof.
  intros Hok Hpos Hr. induction Hr as [p|p p' p'' e tr Hs Hr IH].
  { split; simpl; [by rewrite app_nil_r| |lia|done|done]. exists 0. split_and!; try done; simpl; lia. }
  destruct Hs as [p x policy q Hp|p x b q Hrun Hp]; simpl in *.
  - destruct (TP_Post_spec p x policy q Hok Hpos Hp) as (Hok' & Hm & Hit). rewrite <- Hm in Hpos.
    destruct (IH Hok' Hpos) as [H1 (lost & H0 & H2 & H3 & H4) H5 H6 H7]. simpl in *.
    assert (Hcons : forall y, Zlen (y :: posted tr) = Zlen (posted tr) + 1) by (intros y; unfold Zlen; simpl; lia).
    destruct Hit as [[Hit Hc]|(-> & Hit & Hc)]; rewrite Hit in H1, H2.
    + split; simpl; [by rewrite <- (assoc_L (++)) in H1| |done|done|congruence].
      exists lost. rewrite Zlen_app in H2. change (Zlen [x]) with 1 in H2. rewrite Hcons. split_and!; [done|lia|by rewrite H3, Hc|].
      intros [_ Hf]%Forall_cons. auto.
    + split; simpl; [| |done|done|congruence].
      * trans (drop 1 (items dflt (queue_ p) ++ [x]) ++ posted tr); [done|].
        trans ((items dflt (queue_ p) ++ [x]) ++ posted tr); [|by rewrite <- (assoc_L (++))].
        apply sublist_app; [apply sublist_drop|done].
      * exists (lost + 1). unfold Zlen in H2. rewrite length_drop, length_app in H2. simpl in H2. rewrite Hcons. unfold Zlen.
        split_and!; [lia|lia|by rewrite H3, Hc, counted_next|]. intros [Hf _]%Forall_cons. by destruct (Hf x).
  - destruct (TP_Loop_round_spec p x b q Hok Hpos Hp) as (Hok' & Hm & Hit & -> & Hc). rewrite <- Hm in Hpos.
    destruct (IH Hok' Hpos) as [H1 (lost & H0 & H2 & H3 & H4) H5 H6 H7]. simpl in *.
    split; simpl; [| | |done|congruence].
    + rewrite Hit. simpl. by apply sublist_skip.
    + exists lost. rewrite Hit. unfold Zlen in *. simpl. split_and!; [done|lia|by rewrite H3, Hc|]. intros [_ Hf]%Forall_cons. auto.
    + rewrite filter_cons. destruct (handle x) eqn:Eh; case_decide; try done; simpl; lia.
Qed.

(** [Join] of a started pool returns exactly when as many items as it has threads were
    answered with false; what was posted after the last of them stays in the queue. *)
Lemma TP_Join_spec p tr p' :
  CQ_ok (queue_ p) -> 0 < max_capacity_ (queue_ p) -> TP_run (TP_Start p) tr p' ->
  (TP_Join p' = Some p' <-> length (filter (fun x => handle x = false) (handled tr)) = TP_ThreadSize p).
Proof using dflt moved_from handle.
  intros Hok Hpos Hr. destruct (TP_run_spec (TP_Start p) tr p' Hok Hpos Hr) as [_ _ Hn _ _]. unfold TP_Join, TP_ThreadSize in *.
  simpl in Hn. destruct (Nat.eqb_spec (running p') 0); split; intros H; try done; lia.
Qed.
End pool.

(** ** [CountDownLatch] *)

Section latch.
Definition Latch_ctor (count : Z) : Z := u32 count.
Definition Latch_CountDown (count : Z) : Z := u32 (count - 1).
Definition Latch_Count (count : Z) : Z := count.

(** Whether [Await(milliseconds)] returns: [timed_out] tells whether the one wait of a
    bounded [Await] is over. *)
Definition Latch_Await (count milliseconds : Z) (timed_out : bool) : bool :=
  if count >? 0 then (milliseconds >? 0) && timed_out else true.

(** The latch opens after exactly [count] calls; one more call closes it again. *)
Lemma Latch_spec n k :
  0 < n < 2 ^ 32 -> Z.of_nat k <= n ->
  Nat.iter k Latch_CountDown (Latch_ctor n) = n - Z.of_nat k /\
  (Latch_Await (Nat.iter k Latch_CountDown (Latch_ctor n)) 0 false = true <-> Z.of_nat k = n).
Proof.
  intros Hn. induction k as [|k IH]; intros Hk.
  - simpl. unfold Latch_ctor, u32. rewrite Z.mod_small by lia. split; [lia|].
    unfold Latch_Await. rewrite (proj2 (Z.gtb_lt _ _)) by lia. simpl. split; [done|lia].
  - destruct (IH ltac:(lia)) as [IH1 _]. simpl. rewrite IH1. unfold Latch_CountDown, u32.
    rewrite Z.mod_small by lia. split; [lia|]. unfold Latch_Await. simpl. zbool; split; try lia; done.
Qed.

Lemma Latch_underflow n ms :
  0 < n < 2 ^ 32 ->
  Nat.iter (S (Z.to_nat n)) Latch_CountDown (Latch_ctor n) = 2 ^ 32 - 1 /\
  Latch_Await (2 ^ 32 - 1) ms false = false.
Proof.
  intros Hn. destruct (Latch_spec n (Z.to_nat n) Hn ltac:(lia)) as [H _]. split.
  - change (Latch_CountDown (Nat.iter (Z.to_nat n) Latch_CountDown (Latch_ctor n)) = 2 ^ 32 - 1).
    rewrite H. by replace (n - Z.of_nat (Z.to_nat n)) with 0 by lia.
  - unfold Latch_Await. simpl. by rewrite andb_false_r.
Qed.
End latch.
