(* ===== verification/NetError.v ===== *)
(** * Error codes and addresses of the network library.

    Sources: hare/net/error.cc, include/hare/net/error.h, hare/base/io/operation.cc (byte
    order), hare/net/host_address.cc, hare/net/socket_op.cc and hare/net/socket.cc.  The
    machine is little-endian.  What a system call returns is an argument of the operation
    that makes it. *)

From S2P Require Import Prelude.

(** ** [net::Error] *)

Definition ERROR_ILLEGAL : Z := -1.
Definition ERROR_SUCCESS : Z := 0.
Definition ERROR_GET_LOCAL_ADDRESS : Z := 1.
Definition ERROR_WRONG_FAMILY : Z := 2.
Definition ERROR_SOCKET_BIND : Z := 3.
Definition ERROR_SOCKET_LISTEN : Z := 4.
Definition ERROR_SOCKET_CLOSED : Z := 5.
Definition ERROR_SOCKET_CONNECT : Z := 6.
Definition ERROR_SOCKET_SHUTDOWN_WRITE : Z := 7.
Definition ERROR_SOCKET_FROM_IP : Z := 8.
Definition ERROR_SOCKET_TCP_NO_DELAY : Z := 9.
Definition ERROR_SOCKET_REUSE_ADDR : Z := 10.
Definition ERROR_SOCKET_REUSE_PORT : Z := 11.
Definition ERROR_SOCKET_KEEP_ALIVE : Z := 12.
Definition ERROR_SOCKET_WRITING : Z := 13.
Definition ERROR_ACCEPTOR_ACTIVED : Z := 14.
Definition ERROR_SESSION_ALREADY_DISCONNECT : Z := 15.
Definition ERROR_GET_SOCKET_PAIR : Z := 16.
Definition ERROR_INIT_IO_POOL : Z := 17.
Definition ERRORS_NBR : Z := 18.

Definition error_description : list string := [
  "Illegal error occurred, please contact the developer.";
  "Success.";
  "Cannot get local address.";
  "The family of address is [AF_INET6/AF_INET] .";
  "Failed to bind socket.";
  "Failed to listen at specified port  .";
  "Failed to close socket.";
  "Failed to connect socket.";
  "Failed to shutdown write of socket.";
  "Failed to get addr from ip/port.";
  "Failed to set no-delay to tcp socket.";
  "Failed to set reuse address to socket.";
  "Failed to set reuse port to socket.";
  "Failed to set keep alive to socket.";
  "Failed to shutdown, because socket is writing.";
  "Failed to active acceptor.";
  "Session already disconnected.";
  "Failed to get pair socket.";
  "Failed to init io pool."
]%string.

Record Error := mkError { error_code : Z; system_code : Z }.

Definition Error_ctor (error_code errno : Z) : Error := mkError error_code errno.
Definition Error_bool (e : Error) : bool := error_code e =? ERROR_SUCCESS.
Definition Error_eq (e : Error) (c : Z) : bool := error_code e =? c.

(** [error_description[error_code_]]: an index that is not checked. *)
Definition Description (e : Error) : outcome string :=
  if error_code e <? 0 then UB else deref (error_description !! Z.to_nat (error_code e)).

(** The text the table of error.cc gives for a code by its comments: the entry behind the
    one the index picks. *)
Definition documented_description (code : Z) : option string := error_description !! Z.to_nat (code + 1).

(** ** Byte order *)

Definition bswap16 (x : Z) : Z := Z.lor (Z.shiftl (Z.land x 0xff) 8) (Z.land (Z.shiftr x 8) 0xff).
Definition bswap32 (x : Z) : Z := Z.lor (Z.shiftl (bswap16 (Z.land x 0xffff)) 16) (bswap16 (Z.shiftr x 16)).
Definition bswap64 (x : Z) : Z := Z.lor (Z.shiftl (bswap32 (Z.land x 0xffffffff)) 32) (bswap32 (Z.shiftr x 32)).

Definition HostToNetwork16 (x : Z) : Z := bswap16 x.
Definition HostToNetwork32 (x : Z) : Z := bswap32 x.
Definition HostToNetwork64 (x : Z) : Z := bswap64 x.
Definition NetworkToHost16 (x : Z) : Z := bswap16 x.
Definition NetworkToHost32 (x : Z) : Z := bswap32 x.
Definition NetworkToHost64 (x : Z) : Z := bswap64 x.

(** ** [HostAddress] *)

Definition AF_INET : Z := 2.
Definition AF_INET6 : Z := 10.
Definition INADDR_ANY : Z := 0.
Definition INADDR_LOOPBACK : Z := 0x7f000001.
Definition in6addr_any : list Z := replicate 16 0.
Definition in6addr_loopback : list Z := replicate 15 0 ++ [1].

(** The 28 bytes behind [in_], as the fields of [sockaddr_in] and [sockaddr_in6]; the
    ports and the IPv4 address as the numbers the machine reads there. *)
Record sockaddr := mkSockaddr {
  sin_family : Z; sin_port : Z; s_addr : Z; sin6_addr : list Z; sin6_scope_id : Z
}.

Definition zero_sockaddr : sockaddr := mkSockaddr 0 0 0 in6addr_any 0.

(** The object: [in_], which is null after a move. *)
Record HostAddress := mkAddress { in_ : option sockaddr }.

Definition HostAddress_port (port : Z) (loopback_only ipv6 : bool) : HostAddress :=
  mkAddress (Some (
    if ipv6 then
      mkSockaddr AF_INET6 (HostToNetwork16 port) 0 (if loopback_only then in6addr_loopback else in6addr_any) 0
    else
      mkSockaddr AF_INET (HostToNetwork16 port) (if loopback_only then INADDR_LOOPBACK else INADDR_ANY) in6addr_any 0)).

(** The move constructor swaps with a null pointer: the source is null afterwards. *)
Definition HostAddress_move (another : HostAddress) : HostAddress * HostAddress :=
  (mkAddress (in_ another), mkAddress None).

Definition Family (a : HostAddress) : outcome Z := s ← deref (in_ a); mret (sin_family s).

(** The copies of [Clone] field by field: the scope id is not among them. *)
Definition HostAddress_Clone (a : HostAddress) : outcome HostAddress :=
  s ← deref (in_ a);
  mret (mkAddress (Some (
    if sin_family s =? AF_INET6 then mkSockaddr AF_INET6 (sin_port s) 0 (sin6_addr s) 0
    else mkSockaddr AF_INET (sin_port s) (s_addr s) in6addr_any 0))).

Definition PortNetEndian (a : HostAddress) : outcome Z := s ← deref (in_ a); mret (sin_port s).
Definition Port (a : HostAddress) : outcome Z := p ← PortNetEndian a; mret (NetworkToHost16 p).

Definition Ipv4NetEndian (a : HostAddress) : outcome Z :=
  s ← deref (in_ a);
  _ ← hare_assert (sin_family s =? AF_INET);
  mret (s_addr s).

Definition SetScopeId (a : HostAddress) (id : Z) : outcome HostAddress :=
  s ← deref (in_ a);
  mret (if sin_family s =? AF_INET6
        then mkAddress (Some (mkSockaddr (sin_family s) (sin_port s) (s_addr s) (sin6_addr s) id)) else a).

(** ** socket_op.cc *)

Section socket_op.
(** [inet_pton]: its result and the address it writes (only when it succeeds). *)
Variable inet_pton4 : string -> Z * Z.
Variable inet_pton6 : string -> Z * list Z.

Definition FromIpPort4 (ip : string) (port : Z) (addr : sockaddr) : bool * sockaddr :=
  let r := inet_pton4 ip in
  (fst r <=? 0,
   mkSockaddr AF_INET (HostToNetwork16 port) (if fst r >? 0 then snd r else s_addr addr) (sin6_addr addr) (sin6_scope_id addr)).

Definition FromIpPort6 (ip : string) (port : Z) (addr : sockaddr) : bool * sockaddr :=
  let r := inet_pton6 ip in
  (fst r <=? 0,
   mkSockaddr AF_INET6 (HostToNetwork16 port) (s_addr addr) (if fst r >? 0 then snd r else sin6_addr addr) (sin6_scope_id addr)).

(** [strchr(_ip.c_str(), ':') != nullptr] *)
Fixpoint has_colon (ip : string) : bool :=
  match ip with
  | EmptyString => false
  | String c ip =>
    if bool_decide (c = Ascii.ascii_of_nat 0) then false
    else if bool_decide (c = Ascii.ascii_of_nat 58) then true else has_colon ip
  end.

(** The result of [FromIpPort] is not looked at. *)
Definition HostAddress_ip (ip : string) (port : Z) (ipv6 : bool) : HostAddress :=
  mkAddress (Some (snd (if ipv6 || has_colon ip then FromIpPort6 ip port zero_sockaddr
                        else FromIpPort4 ip port zero_sockaddr))).
End socket_op.

Definition EPERM : Z := 1.
Definition EINTR : Z := 4.
Definition EBADF : Z := 9.
Definition EAGAIN : Z := 11.
Definition EACCES : Z := 13.
Definition EFAULT : Z := 14.
Definition EMFILE : Z := 24.
Definition EPROTO : Z := 71.
Definition ENOTSOCK : Z := 88.
Definition EAFNOSUPPORT : Z := 97.
Definition EADDRINUSE : Z := 98.
Definition EADDRNOTAVAIL : Z := 99.
Definition ENETUNREACH : Z := 101.
Definition ECONNABORTED : Z := 103.
Definition EISCONN : Z := 106.
Definition ECONNREFUSED : Z := 111.
Definition EALREADY : Z := 114.
Definition EINPROGRESS : Z := 115.

(** What [accept4] returned: a descriptor with the address of the peer, or [errno]. *)
Inductive accepted := AcFd (fd : Z) (peer : sockaddr) | AcErr (errno : Z).

(** [socket_op::Accept]: errors other than the expected ones throw. *)
Definition op_Accept (r : accepted) : outcome accepted :=
  match r with
  | AcFd fd peer => Ok (AcFd fd peer)
  | AcErr e =>
    if bool_decide (e ∈ [EAGAIN; ECONNABORTED; EINTR; EPROTO; EPERM; EMFILE]) then Ok (AcErr e)
    else Throw Exception
  end.

Definition AddrLen (family : Z) : Z := if family =? AF_INET then 16 else 28.

(** ** [Socket] *)

Record Socket := mkSocket { socket_ : Z; family_ : Z }.

(** [Socket::Socket(family, TYPE_TCP, socket)]; [created]: what [socket()] returns. *)
Definition Socket_ctor (family socket created : Z) : outcome Socket :=
  if socket =? -1 then (if created <? 0 then Throw Exception else Ok (mkSocket created family))
  else Ok (mkSocket socket family).

(** [err ? Error() : Error(ERROR_SOCKET_CLOSED)] with the result of [::close]. *)
Definition Socket_Close (s : Socket) (close_ret errno : Z) : Error * Socket :=
  if socket_ s =? -1 then (Error_ctor ERROR_SUCCESS errno, s)
  else (if close_ret =? 0 then Error_ctor ERROR_SOCKET_CLOSED errno else Error_ctor ERROR_SUCCESS errno,
        mkSocket (-1) (family_ s)).

Definition Socket_Bind (bind_ret errno : Z) : Error :=
  if bind_ret =? -1 then Error_ctor ERROR_SOCKET_BIND errno else Error_ctor ERROR_SUCCESS errno.
Definition Socket_Listen (listen_ret errno : Z) : Error :=
  if listen_ret <? 0 then Error_ctor ERROR_SOCKET_LISTEN errno else Error_ctor ERROR_SUCCESS errno.
Definition Socket_ShutdownWrite (ret errno : Z) : Error :=
  if ret <? 0 then Error_ctor ERROR_SOCKET_SHUTDOWN_WRITE errno else Error_ctor ERROR_SUCCESS errno.

(** [Socket::Accept]: the address of the peer is copied into the object of the caller. *)
Definition Socket_Accept (peer_addr : HostAddress) (r : accepted) : outcome (accepted * HostAddress) :=
  r ← op_Accept r;
  match r with
  | AcFd fd peer =>
    _ ← hare_assert (bool_decide (is_Some (in_ peer_addr)));
    mret (r, mkAddress (Some peer))
  | AcErr _ => mret (r, peer_addr)
  end.

(** ** Theorems *)

Section byteorder.
Lemma lor_disjoint a b k : 0 <= k -> 0 <= b < 2 ^ k -> Z.lor (Z.shiftl a k) b = a * 2 ^ k + b.
Proof.
  intros Hk Hb. rewrite <- Z.shiftl_mul_pow2 by done. rewrite <- Z.add_lor_land.
  enough (E : Z.land (Z.shiftl a k) b = 0) by (rewrite E; lia).
  apply Z.bits_inj'. intros n Hn. rewrite Z.land_spec, Z.bits_0.
  destruct (Z.ltb_spec n k) as [Hlt|Hge]; [by rewrite Z.shiftl_spec_low|].
  destruct (Z.testbit b n) eqn:E; [|apply andb_false_r].
  exfalso. assert (Hb0 : b <> 0) by (intros ->; by rewrite Z.bits_0 in E).
  rewrite Z.bits_above_log2 in E; [done|lia|]. apply Z.log2_lt_pow2; [lia|].
  eapply Z.lt_le_trans; [apply Hb|]. by apply Z.pow_le_mono_r.
Qed.

Lemma bswap16_arith x : bswap16 x = (x mod 256) * 256 + (x / 256) mod 256.
Proof.
  unfold bswap16. change 0xff with (Z.ones 8). rewrite !Z.land_ones, Z.shiftr_div_pow2 by lia.
  change (2 ^ 8) with 256. rewrite lor_disjoint; [done|lia|]. apply Z.mod_pos_bound. lia.
Qed.

Lemma bswap16_range x : 0 <= bswap16 x < 2 ^ 16.
Proof.
  rewrite bswap16_arith. pose proof (Z.mod_pos_bound x 256). pose proof (Z.mod_pos_bound (x / 256) 256). lia.
Qed.

Lemma bswap16_invol x : 0 <= x < 2 ^ 16 -> bswap16 (bswap16 x) = x.
Proof.
  intros Hx. rewrite !bswap16_arith. pose proof (Z.mod_pos_bound x 256 ltac:(lia)).
  assert (0 <= x / 256 < 256) by (split; [apply Z.div_pos|apply Z.div_lt_upper_bound]; lia).
  rewrite (Z.mod_small (x / 256)) by lia.
  rewrite (Z.add_comm (x mod 256 * 256) (x / 256)), Z.mod_add, Z.div_add by lia.
  rewrite (Z.mod_small (x / 256)), (Z.div_small (x / 256)) by lia. rewrite Z.add_0_l, Z.mod_small by lia.
  pose proof (Z.div_mod x 256). lia.
Qed.

(** A swap of a double word, from swaps of the two halves. *)
Lemma swap_halves (f : Z -> Z) k x :
  0 <= k -> (forall y, 0 <= f y < 2 ^ k) -> (forall y, 0 <= y < 2 ^ k -> f (f y) = y) -> 0 <= x < 2 ^ (k + k) ->
  let g := fun x => Z.lor (Z.shiftl (f (Z.land x (Z.ones k))) k) (f (Z.shiftr x k)) in
  0 <= g x < 2 ^ (k + k) /\ g (g x) = x.
Proof.
  intros Hk Hr Hi Hx g. assert (Hp : 0 < 2 ^ k) by (by apply Z.pow_pos_nonneg).
  assert (Hg : forall y, g y = f (y mod 2 ^ k) * 2 ^ k + f (y / 2 ^ k)).
  { intros y. unfold g. rewrite Z.land_ones, Z.shiftr_div_pow2 by done. by apply lor_disjoint. }
  rewrite Z.pow_add_r in * by done.
  assert (Hq : 0 <= x / 2 ^ k < 2 ^ k) by (split; [apply Z.div_pos|apply Z.div_lt_upper_bound]; lia).
  pose proof (Z.mod_pos_bound x (2 ^ k) Hp). rewrite !Hg.
  pose proof (Hr (x mod 2 ^ k)). pose proof (Hr (x / 2 ^ k)). split; [nia|].
  rewrite (Z.add_comm (f (x mod 2 ^ k) * 2 ^ k) (f (x / 2 ^ k))), Z.mod_add, Z.div_add by lia.
  rewrite (Z.mod_small (f (x / 2 ^ k))), (Z.div_small (f (x / 2 ^ k))) by done. rewrite Z.add_0_l, !Hi by done.
  pose proof (Z.div_mod x (2 ^ k)). lia.
Qed.
End byteorder.

Lemma bswap32_invol x : 0 <= x < 2 ^ 32 -> bswap32 (bswap32 x) = x.
Proof. intros Hx. exact (proj2 (swap_halves bswap16 16 x ltac:(lia) bswap16_range bswap16_invol Hx)). Qed.

Lemma bswap32_range x : 0 <= bswap32 x < 2 ^ 32.
Proof.
  unfold bswap32. pose proof (bswap16_range (Z.land x 65535)). pose proof (bswap16_range (Z.shiftr x 16)).
  rewrite lor_disjoint by lia. lia.
Qed.

Lemma bswap64_invol x : 0 <= x < 2 ^ 64 -> bswap64 (bswap64 x) = x.
Proof. intros Hx. exact (proj2 (swap_halves bswap32 32 x ltac:(lia) bswap32_range bswap32_invol Hx)). Qed.

(** A port survives the way into an address and back. *)
Lemma Port_roundtrip port lo v6 : 0 <= port < 2 ^ 16 -> Port (HostAddress_port port lo v6) = Ok port.
Proof.
  intros H. unfold Port, PortNetEndian, HostAddress_port, NetworkToHost16, HostToNetwork16.
  by destruct v6; simpl; rewrite bswap16_invol.
Qed.

(** [Clone] keeps family, port and address (not the scope id). *)
Lemma Clone_spec port lo v6 :
  HostAddress_Clone (HostAddress_port port lo v6) = Ok (HostAddress_port port lo v6).
Proof. by destruct v6. Qed.

(** [Description] gives the text of the code before. *)
Lemma Description_shifted :
  error_description !! 0%nat = Some "Illegal error occurred, please contact the developer."%string /\
  Description (mkError ERROR_SUCCESS 0) = Ok "Illegal error occurred, please contact the developer."%string /\
  forall code errno, 1 <= code < ERRORS_NBR ->
    exists s, Description (mkError code errno) = Ok s /\ documented_description (code - 1) = Some s.
Proof.
  split_and!; [done|done|]. intros code errno Hc. unfold Description, documented_description, ERRORS_NBR in *. simpl.
  rewrite (proj2 (Z.ltb_ge _ _)) by lia. replace (code - 1 + 1) with code by lia.
  destruct (error_description !! Z.to_nat code) as [s|] eqn:E; [by exists s|].
  apply lookup_ge_None in E. simpl in E. lia.
Qed.
