(* ===== verification/System.v ===== *)
(** * System information.

    Source: hare/base/util/system.cc: the readers of /proc/stat and /proc/<pid>/stat, the
    local addresses and the stack trace.  The first line of a file, the interfaces of the
    machine and the symbols of the stack are arguments. *)

From Stdlib Require Import Ascii.
From Stdlib Require String.
From S2P Require Import Prelude NetError.

(** ** [SystemInfo] *)

Definition NAME_LENGTH : nat := 256.

(** A char array of which nobody knows where it ends: reading it as a string without a
    terminator inside runs past it. *)
Definition array_str (a : list Z) : outcome (list Z) := if bool_decide (0 ∈ a) then Ok (c_str a) else UB.

(** The constructor and the functions that read it: [gethostname]'s result and the array it
    leaves, [getcwd]'s result (null or the array). *)
Definition HostName (gethostname_ret : Z) (host_name : list Z) : outcome (list Z) :=
  array_str (if gethostname_ret =? 0 then <[(NAME_LENGTH - 1)%nat := 0]> host_name else host_name).

Definition SystemDir (getcwd_ret : option (list Z)) : outcome (list Z) :=
  match getcwd_ret with None => Throw Exception | Some system_dir => array_str system_dir end.

Definition SetCurrentThreadName (prctl_ret : Z) : bool := negb (prctl_ret =? -1).

(** ** [std::string] *)

Definition SPACE : Z := 32.

(** The bytes of a literal. *)
Definition bytes_of (s : string) : list Z := (fun c => Z.of_nat (nat_of_ascii c)) <$> String.list_ascii_of_string s.

(** [find(c, pos)] *)
Fixpoint find_rec (l : list Z) (c : Z) (i : nat) : option nat :=
  match l with
  | [] => None
  | b :: l => if b =? c then Some i else find_rec l c (S i)
  end.
Definition find (s : list Z) (c : Z) (pos : nat) : option nat := find_rec (drop pos s) c pos.

Definition substr (s : list Z) (pos : nat) : outcome (list Z) :=
  if (length s <? pos)%nat then Throw OutOfRange else Ok (drop pos s).

(** [while (s[index++] == ' ') {}]: the position behind the end reads as 0, beyond it
    everything is undefined. *)
Fixpoint skip_rec (rest : list Z) (index : nat) : nat :=
  match rest with
  | [] => S index
  | b :: rest => if b =? SPACE then skip_rec rest (S index) else S index
  end.
Definition skip_spaces (s : list Z) (index : nat) : outcome nat :=
  if (length s <? index)%nat then UB else Ok (skip_rec (drop index s) index).

(** [std::stoull] *)
Definition is_digit (b : Z) : bool := (48 <=? b) && (b <=? 57).
Definition is_space (b : Z) : bool := (b =? 32) || ((9 <=? b) && (b <=? 13)).
Fixpoint digits (l : list Z) (acc : Z) : Z :=
  match l with
  | b :: l => if is_digit b then digits l (acc * 10 + (b - 48)) else acc
  | [] => acc
  end.
Fixpoint drop_space (l : list Z) : list Z :=
  match l with
  | b :: r => if is_space b then drop_space r else l
  | [] => []
  end.
Definition stoull (s : list Z) : outcome Z :=
  let s := drop_space s in
  let neg := match s with b :: _ => b =? 45 | [] => false end in
  let s := match s with b :: r => if (b =? 45) || (b =? 43) then r else s | [] => [] end in
  match s with
  | b :: _ =>
    if is_digit b then
      let v := digits s 0 in
      if v <? 2 ^ 64 then Ok (u64 (if neg then - v else v)) else Throw OutOfRange
    else Throw InvalidArgument
  | [] => Throw InvalidArgument
  end.

(** ** CPU times *)

(** The block that is repeated for every field: cut the line at [index], go on from the same
    [index] in what is left, find the next space.  [None] makes the caller return 0. *)
Definition next_field (file_line : list Z) (index : nat) : outcome (option (Z * list Z * nat)) :=
  file_line ← substr file_line index;
  index ← skip_spaces file_line index;
  match find file_line SPACE index with
  | None => Ok None
  | Some index => v ← stoull file_line; Ok (Some (v, file_line, index))
  end.

(** [n] fields from here, added up. *)
Fixpoint sum_fields (n : nat) (file_line : list Z) (index : nat) (sum : Z) : outcome Z :=
  match n with
  | O => Ok sum
  | S n =>
    r ← next_field file_line index;
    match r with
    | None => Ok 0
    | Some (v, file_line, index) => sum_fields n file_line index (u64 (sum + v))
    end
  end.

(** [file]: the first line, [None] when the file cannot be opened. *)
Definition CpuTotalOccupy (file : option (list Z)) : outcome Z :=
  match file with
  | None => Ok 0
  | Some file_line =>
    match find file_line SPACE 0 with
    | None => Throw OutOfRange
    | Some index => sum_fields 4 file_line index 0
    end
  end.

Definition PROCESS_ITEM : nat := 14.

(** The loop that cuts the line behind its space number [PROCESS_ITEM - 1]. *)
Fixpoint cut_items (rest : list Z) (count : nat) : option (list Z) :=
  match rest with
  | [] => None
  | b :: rest =>
    if b =? SPACE then
      if (S count =? PROCESS_ITEM - 1)%nat then Some rest else cut_items rest (S count)
    else cut_items rest count
  end.

Definition CpuProcOccupy (file : option (list Z)) : outcome Z :=
  match file with
  | None => Ok 0
  | Some file_line =>
    let file_line := default file_line (cut_items file_line 0) in
    match find file_line SPACE 0 with
    | None => Ok 0
    | Some index => user_time ← stoull file_line; sum_fields 3 file_line index user_time
    end
  end.

(** ** Addresses of the machine *)

Section local_address.
(** [inet_ntop] on the bytes at an address: the text. *)
Variable inet_ntop : Z -> list Z -> list Z.

(** The text in a zeroed buffer, of which [len] bytes are taken as a string. *)
Definition fixed_string (text : list Z) (len : nat) : list Z := take len (text ++ replicate len 0).

(** The loop over the interfaces: [ifa_addr] is null, or a family with the bytes of the
    [sockaddr]; the address is taken at the place [sockaddr_in] has it, for both families. *)
Fixpoint local_loop (family : Z) (len : nat) (ifs : list (option (Z * list Z))) (out : list (list Z)) : outcome (list (list Z)) :=
  match ifs with
  | [] => Ok out
  | None :: _ => UB
  | Some (f, sockaddr) :: ifs =>
    local_loop family len ifs
      (if family =? f then out ++ [fixed_string (inet_ntop family (drop 4 sockaddr)) len] else out)
  end.

Definition LocalAddressList (getifaddrs_ret family : Z) (ifs : list (option (Z * list Z))) (out : list (list Z)) :
    outcome (Z * list (list Z)) :=
  if negb (getifaddrs_ret =? 0) then Ok (-1, out)
  else if family =? AF_INET6 then l ← local_loop family 46 ifs out; Ok (0, l)
  else if family =? AF_INET then l ← local_loop family 16 ifs out; Ok (0, l)
  else Ok (-1, out).
End local_address.

(** ** The stack trace *)

Section stack.
(** [abi::__cxa_demangle]: the name, when it succeeds. *)
Variable demangle : list Z -> option (list Z).

(** The position of the last [c]. *)
Fixpoint last_pos (l : list Z) (c : Z) (i : nat) (found : option nat) : option nat :=
  match l with
  | [] => found
  | b :: l => last_pos l c (S i) (if b =? c then Some i else found)
  end.

(** One line of the trace; 40 and 43 are the parenthesis and the plus. *)
Definition trace_line (demangled : bool) (symbol : list Z) : list Z :=
  let plain := symbol ++ [10] in
  if demangled then
    match last_pos symbol 40 0 None, last_pos symbol 43 0 None with
    | Some left_par, Some plus =>
      (* the plus is overwritten with 0 during the call *)
      match demangle (c_str (drop (S left_par) (<[plus := 0]> symbol))) with
      | Some name => take (S left_par) symbol ++ name ++ drop plus symbol ++ [10]
      | None => plain
      end
    | _, _ => plain
    end
  else plain.

(** [symbols]: [backtrace_symbols], [None] when it fails; its first entry is skipped. *)
Definition StackTrace (demangled : bool) (symbols : option (list (list Z))) : list Z :=
  match symbols with
  | None => []
  | Some l => concat (trace_line demangled <$> drop 1 l)
  end.

Lemma last_pos_skip l c i f r : c ∉ l -> last_pos (l ++ r) c i f = last_pos r c (i + length l) f.
Proof.
  revert i. induction l as [|b l IH]; intros i Hc; [by rewrite Nat.add_0_r|].
  rewrite not_elem_of_cons in Hc. destruct Hc as [Hb Hc]. simpl.
  rewrite (proj2 (Z.eqb_neq b c)) by done. rewrite IH by done. f_equal. lia.
Qed.

Lemma last_pos_any l c i f r : exists f', last_pos (l ++ r) c i f = last_pos r c (i + length l) f'.
Proof.
  revert i f. induction l as [|b l IH]; intros i f; [exists f; by rewrite Nat.add_0_r|].
  simpl. destruct (IH (S i) (if b =? c then Some i else f)) as [f' ->]. exists f'. f_equal. lia.
Qed.

Lemma c_str_zero l r : 0 ∉ l -> c_str (l ++ 0 :: r) = l.
Proof.
  induction l as [|b l IH]; [done|]. rewrite not_elem_of_cons. intros [Hb Hl]. simpl.
  rewrite (proj2 (Z.eqb_neq b 0)) by congruence. by rewrite IH.
Qed.

(** A symbol of the form [file(name+offset)] becomes [file(demangled+offset)]. *)
Lemma trace_line_spec file name rest d :
  40 ∉ name -> 43 ∉ name -> 40 ∉ rest -> 43 ∉ rest -> 0 ∉ name -> demangle name = Some d ->
  trace_line true (file ++ [40] ++ name ++ [43] ++ rest) = file ++ [40] ++ d ++ [43] ++ rest ++ [10].
Proof.
  intros H40 H43 R40 R43 H0 Hd. unfold trace_line.
  destruct (last_pos_any file 40 0%nat None ([40] ++ name ++ [43] ++ rest)) as [f1 ->].
  destruct (last_pos_any file 43 0%nat None ([40] ++ name ++ [43] ++ rest)) as [f2 ->]. simpl.
  rewrite !last_pos_skip by done. simpl. rewrite <- (app_nil_r rest), !last_pos_skip, (app_nil_r rest) by done. simpl.
  assert (E : drop (S (length file)) (<[S (length file + length name) := 0]> (file ++ 40 :: name ++ 43 :: rest)) = name ++ 0 :: rest).
  { rewrite insert_app_r_alt by lia. rewrite drop_app_ge by lia.
    replace (S (length file + length name) - length file)%nat with (S (length name)) by lia.
    replace (S (length file) - length file)%nat with 1%nat by lia. simpl. rewrite drop_0.
    rewrite insert_app_r_alt, Nat.sub_diag by lia. done. }
  rewrite E, c_str_zero, Hd by done. rewrite take_app_ge by lia. replace (S (length file) - length file)%nat with 1%nat by lia.
  replace (file ++ 40 :: name ++ 43 :: rest) with ((file ++ 40 :: name) ++ 43 :: rest) by (rewrite <- (assoc_L (++)); done).
  rewrite drop_app_length' by (rewrite length_app; simpl; lia). simpl. rewrite take_0.
  by rewrite <- (assoc_L (++)).
Qed.
End stack.

(** ** What the readers make of a line *)

(** Of the four times at the beginning of the line the third is skipped, and the sixth field
    is taken for the last: the position found in one string is used in the next. *)
Example CpuTotalOccupy_skips :
  CpuTotalOccupy (Some (bytes_of "cpu  123 45 67 890 11 22 33 44 55 66")) = Ok (123 + 45 + 890 + 22).
Proof. by vm_compute. Qed.

(** A long first field makes the reader look beyond its end. *)
Example CpuTotalOccupy_undefined : CpuTotalOccupy (Some (bytes_of "cpu  12345678 1 2 3 4 5 6 7 8")) = UB.
Proof. by vm_compute. Qed.

Lemma c_str_shorter l : 0 ∈ l -> (length (c_str l) < length l)%nat.
Proof.
  induction l as [|b l IH]; intros Hin; [by apply elem_of_nil in Hin|]. simpl. destruct (Z.eqb_spec b 0); simpl; [lia|].
  apply elem_of_cons in Hin as [<-|Hin]; [done|]. specialize (IH Hin). lia.
Qed.

(** When [gethostname] succeeds the name ends inside its array. *)
Lemma HostName_spec a :
  length a = NAME_LENGTH -> exists name, HostName 0 a = Ok name /\ (length name < NAME_LENGTH)%nat.
Proof.
  intros Hl. unfold HostName, array_str. simpl.
  assert (Hin : <[(NAME_LENGTH - 1)%nat := 0]> a !! (NAME_LENGTH - 1)%nat = Some 0)
    by (apply list_lookup_insert_eq; unfold NAME_LENGTH in *; lia).
  apply list_elem_of_lookup_2 in Hin. rewrite bool_decide_true by done. eexists. split; [done|].
  apply c_str_shorter in Hin. by rewrite length_insert, Hl in Hin.
Qed.
