(* ===== verification/Stamps.v ===== *)
(** * Texts of dates and times.

    Sources: hare/base/time/datetime.cc ([DateTime::ToFmt], [Date::ToFmt]),
    hare/base/time/timestamp.cc ([Timestamp::ToString], [Timestamp::ToFmt]).  fmt's
    zero-padded integers and [gmtime_r] are parameters.  The day count of the Gregorian
    calendar is written down here on its own; [JulianDayNumber] is proved to be it, and the
    texts to be ordered as the times they stand for. *)

From S2P Require Import Prelude Time Util System.

(** ** The texts *)

Section texts.
(** [pad w n]: what [{:0wd}] prints for [n]; [w = 0] stands for no width. *)
Variable pad : nat -> Z -> list Z.
(** [gmtime_r], [None] when it fails. *)
Variable gmtime : Z -> option tm.

Definition DateTime_ToFmt (dt : DateTime) : list Z :=
  pad 4 (year dt) ++ [45] ++ pad 2 (month dt) ++ [45] ++ pad 2 (day dt) ++ [32] ++
  pad 2 (hour dt) ++ [58] ++ pad 2 (minute dt) ++ [58] ++ pad 2 (second dt).

Definition Date_ToFmt (julian_day_number : Z) : outcome (list Z) :=
  d ← Date_Detail julian_day_number;
  Ok (pad 4 (ymd_year d) ++ [45] ++ pad 2 (ymd_month d) ++ [45] ++ pad 2 (ymd_day d)).

Definition Timestamp_ToString (t : Z) : list Z :=
  let '(seconds, microseconds) := Timestamp_parts t in pad 0 seconds ++ [46] ++ pad 6 microseconds.

(** A [std::tm] that [gmtime_r] leaves alone is all zero. *)
Definition Timestamp_ToFmt (show_microseconds : bool) (t : Z) : outcome (list Z) :=
  let '(seconds, microseconds) := Timestamp_parts t in
  let tm_time := default (mktm 0 0 0 0 0 0) (gmtime seconds) in
  ints [tm_year tm_time + HARE_START_YEAR; tm_mon tm_time + 1]
    (pad 4 (tm_year tm_time + HARE_START_YEAR) ++ [45] ++ pad 2 (tm_mon tm_time + 1) ++ [45] ++
     pad 2 (tm_mday tm_time) ++ [32] ++ pad 2 (tm_hour tm_time) ++ [58] ++ pad 2 (tm_min tm_time) ++ [58] ++
     pad 2 (tm_sec tm_time) ++ (if show_microseconds then [46] ++ pad 6 (i32 microseconds) else [])).
End texts.

(** ** Days by the rule of the calendar *)

(** The days of year [y] before month [m], and the number of a day, 1 for 0001-01-01. *)
Definition days_before (y m : Z) : Z :=
  foldr (fun k s => days_in_month y (Z.of_nat k) + s) 0 (seq 1 (Z.to_nat (m - 1))).

Definition civil_day (y m d : Z) : Z :=
  365 * (y - 1) + (y - 1) / 4 - (y - 1) / 100 + (y - 1) / 400 + days_before y m + d.

Definition civil_seconds (dt : DateTime) : Z :=
  (civil_day (year dt) (month dt) (day dt) - civil_day 1970 1 1) * 86400 +
  (hour dt * 3600 + minute dt * 60 + second dt).

Lemma months m : 1 <= m <= 12 ->
  m = 1 \/ m = 2 \/ m = 3 \/ m = 4 \/ m = 5 \/ m = 6 \/ m = 7 \/ m = 8 \/ m = 9 \/ m = 10 \/ m = 11 \/ m = 12.
Proof. lia. Qed.

Ltac by_month Hm :=
  apply months in Hm;
  destruct Hm as [-> | [-> | [-> | [-> | [-> | [-> | [-> | [-> | [-> | [-> | [-> | ->]]]]]]]]]]].

(** The leap rule and the divisions of the count agree. *)
Lemma leap_count y : (if is_leap y then 1 else 0) =
  (y / 4 - y / 100 + y / 400) - ((y - 1) / 4 - (y - 1) / 100 + (y - 1) / 400).
Proof.
  unfold is_leap. destruct (Z.eqb_spec (y mod 4) 0), (Z.eqb_spec (y mod 100) 0), (Z.eqb_spec (y mod 400) 0);
    simpl; div_lia.
Qed.

Lemma days_before_eq y m : 1 <= m <= 12 ->
  days_before y m = year_day m 1 - (if m <=? 2 then 306 else -59 - (if is_leap y then 1 else 0)).
Proof.
  intros Hm. unfold days_before, days_in_month, year_day, march_month.
  by_month Hm; simpl; destruct (is_leap y); reflexivity.
Qed.

(** [JulianDayNumber] is the count of the calendar, from another first day. *)
Lemma JulianDayNumber_civil y m d :
  valid_date y m d -> -4799 <= y <= MAX_YEAR -> JulianDayNumber y m d = Ok (civil_day y m d + 1721425).
Proof.
  intros Hv Hy. rewrite JulianDayNumber_spec by done. f_equal. destruct Hv as [Hm _].
  unfold civil_day. rewrite days_before_eq by done. pose proof (leap_count y) as Hl.
  unfold day_count, year_day, shifted.
  set (q := (153 * march_month m + 2) / 5) in *. clearbody q.
  destruct (Z.leb_spec m 2); [clear Hl|rewrite Hl; clear Hl]; clear - Hy; div_lia.
Qed.

(** ** Dates in order *)

Definition date_lt (y m d y' m' d' : Z) : Prop := y < y' \/ y = y' /\ (m < m' \/ m = m' /\ d < d').

Lemma days_before_step y m m' : 1 <= m -> m < m' <= 12 -> days_before y m + days_in_month y m <= days_before y m'.
Proof.
  intros H1 H2. rewrite !days_before_eq by lia. unfold days_in_month, year_day, march_month.
  assert (Hm : 1 <= m <= 12) by lia. assert (Hm' : 1 <= m' <= 12) by lia.
  by_month Hm; by_month Hm'; try lia; simpl; destruct (is_leap y); vm_compute; discriminate.
Qed.

Lemma days_before_year y m : 1 <= m <= 12 ->
  0 <= days_before y m /\ days_before y m + days_in_month y m <= 365 + (if is_leap y then 1 else 0).
Proof.
  intros Hm. rewrite days_before_eq by done. unfold days_in_month, year_day, march_month.
  by_month Hm; simpl; destruct (is_leap y); (split; vm_compute; discriminate).
Qed.

Lemma civil_day_lt y m d y' m' d' :
  valid_date y m d -> valid_date y' m' d' -> date_lt y m d y' m' d' -> civil_day y m d < civil_day y' m' d'.
Proof.
  intros [Hm Hd] [Hm' Hd'] Hlt. unfold civil_day.
  destruct Hlt as [Hy|[-> [Hlt|[-> Hlt]]]].
  - pose proof (days_before_year y m Hm). pose proof (days_before_year y' m' Hm'). pose proof (leap_count y) as Hl.
    assert (y / 4 - y / 100 + y / 400 <= (y' - 1) / 4 - (y' - 1) / 100 + (y' - 1) / 400) by (clear - Hy; div_lia).
    lia.
  - pose proof (days_before_step y' m m'). lia.
  - lia.
Qed.

(** The order of two dates with times, field by field. *)
Definition fields (dt : DateTime) : list Z := [year dt; month dt; day dt; hour dt; minute dt; second dt].

Definition thenc (c c' : comparison) : comparison := match c with Eq => c' | _ => c end.
Local Infix "⊳" := thenc (at level 60, right associativity).

Fixpoint compare_all (l l' : list Z) : comparison :=
  match l, l' with
  | x :: l, x' :: l' => Z.compare x x' ⊳ compare_all l l'
  | [], [] => Eq
  | [], _ => Lt
  | _, [] => Gt
  end.

Lemma compare_all_eq l l' : compare_all l l' = Eq -> l = l'.
Proof.
  revert l'. induction l as [|x l IH]; intros [|x' l'] H; try done. simpl in H.
  destruct (Z.compare_spec x x'); try done. subst. f_equal. by apply IH.
Qed.

Lemma compare_all_antisym l l' : compare_all l' l = CompOpp (compare_all l l').
Proof.
  revert l'. induction l as [|x l IH]; intros [|x' l']; try done. simpl.
  rewrite Z.compare_antisym, IH. by destruct (x ?= x').
Qed.

Lemma civil_seconds_lt a b :
  valid_time a -> valid_time b -> compare_all (fields a) (fields b) = Lt -> civil_seconds a < civil_seconds b.
Proof.
  intros (Hda & Hha & Hma & Hsa) (Hdb & Hhb & Hmb & Hsb) Hlt. unfold civil_seconds. simpl in Hlt.
  pose proof (civil_day_lt _ _ _ _ _ _ Hda Hdb) as Hday. unfold date_lt in Hday.
  destruct (Z.compare_spec (year a) (year b)) as [Ey|?|?]; simpl in Hlt; try done; [|lia].
  destruct (Z.compare_spec (month a) (month b)) as [Em|?|?]; simpl in Hlt; try done; [|lia].
  destruct (Z.compare_spec (day a) (day b)) as [Ed|?|?]; simpl in Hlt; try done; [|lia].
  rewrite Ey, Em, Ed.
  destruct (Z.compare_spec (hour a) (hour b)); simpl in Hlt; try done; [|lia].
  destruct (Z.compare_spec (minute a) (minute b)); simpl in Hlt; try done; [|lia].
  destruct (Z.compare_spec (second a) (second b)); simpl in Hlt; try done. lia.
Qed.

Lemma civil_seconds_compare a b :
  valid_time a -> valid_time b -> compare_all (fields a) (fields b) = Z.compare (civil_seconds a) (civil_seconds b).
Proof.
  intros Ha Hb. destruct (compare_all (fields a) (fields b)) eqn:E; symmetry.
  - apply compare_all_eq in E. destruct a, b. unfold fields in E. simpl in E. simplify_eq. apply Z.compare_refl.
  - apply Z.compare_lt_iff. by apply civil_seconds_lt.
  - apply Z.compare_gt_iff. apply civil_seconds_lt; [done..|]. by rewrite compare_all_antisym, E.
Qed.

(** ** Texts in order *)

(** What the theorems need of fmt: a number that fits gets exactly its width, in decimal
    digits. *)
Definition pads (pad : nat -> Z -> list Z) : Prop :=
  forall w n, (0 < w)%nat -> 0 <= n < 10 ^ Z.of_nat w ->
    length (pad w n) = w /\ forallb is_digit (pad w n) = true /\ digits (pad w n) 0 = n.

(** [gmtime_r] on the seconds for which it is used: the fields of a valid date whose seconds,
    counted by the calendar, are those. *)
Definition tm_time (t : tm) : DateTime :=
  mkDateTime (tm_year t + HARE_START_YEAR) (tm_mon t + 1) (tm_mday t) (tm_hour t) (tm_min t) (tm_sec t).
Definition breaks_down (gmtime : Z -> option tm) (s : Z) : Prop :=
  exists t, gmtime s = Some t /\ valid_time (tm_time t) /\ civil_seconds (tm_time t) = s.

Lemma compare_all_app a a' b b' :
  length a = length a' -> compare_all (a ++ b) (a' ++ b') = compare_all a a' ⊳ compare_all b b'.
Proof.
  revert a'. induction a as [|x a IH]; intros [|x' a'] Hl; try done. simpl in *.
  rewrite IH by lia. by destruct (x ?= x').
Qed.

Lemma digits_lt l l' a a' :
  length l = length l' -> forallb is_digit l = true -> forallb is_digit l' = true -> a < a' -> digits l a < digits l' a'.
Proof.
  revert l' a a'. induction l as [|b l IH]; intros [|b' l'] a a' Hl Hd Hd' Ha; try done. simpl in *.
  apply andb_prop in Hd as [Hb Hd]. apply andb_prop in Hd' as [Hb' Hd']. rewrite Hb, Hb'.
  apply IH; [lia|done..|]. unfold is_digit in *. lia.
Qed.

Lemma digits_compare l l' a :
  length l = length l' -> forallb is_digit l = true -> forallb is_digit l' = true ->
  compare_all l l' = Z.compare (digits l a) (digits l' a).
Proof.
  revert l' a. induction l as [|b l IH]; intros [|b' l'] a Hl Hd Hd'; try done; [symmetry; apply Z.compare_refl|].
  simpl in *. apply andb_prop in Hd as [Hb Hd]. apply andb_prop in Hd' as [Hb' Hd']. rewrite Hb, Hb'.
  destruct (Z.compare_spec b b') as [->|Hlt|Hlt]; simpl; [by apply IH; [lia|..]| |]; symmetry.
  - apply Z.compare_lt_iff, digits_lt; [lia|done..|]. lia.
  - apply Z.compare_gt_iff, digits_lt; [lia|done..|]. lia.
Qed.

Lemma pad_compare pad w n n' : pads pad -> (0 < w)%nat -> 0 <= n < 10 ^ Z.of_nat w -> 0 <= n' < 10 ^ Z.of_nat w ->
  compare_all (pad w n) (pad w n') = Z.compare n n'.
Proof.
  intros Hp Hw Hn Hn'. destruct (Hp w n Hw Hn) as (L & D & V), (Hp w n' Hw Hn') as (L' & D' & V').
  rewrite (digits_compare _ _ 0) by congruence. by rewrite V, V'.
Qed.

(** Two numbers of the same width in front of what follows. *)
Lemma pad_app pad w n n' r r' : pads pad -> (0 < w)%nat -> 0 <= n < 10 ^ Z.of_nat w -> 0 <= n' < 10 ^ Z.of_nat w ->
  compare_all (pad w n ++ r) (pad w n' ++ r') = Z.compare n n' ⊳ compare_all r r'.
Proof.
  intros Hp Hw Hn Hn'. rewrite compare_all_app by (by rewrite (proj1 (Hp w n Hw Hn)), (proj1 (Hp w n' Hw Hn'))).
  by rewrite pad_compare.
Qed.

Lemma compare_sep c r r' : compare_all (c :: r) (c :: r') = compare_all r r'.
Proof. simpl. by rewrite Z.compare_refl. Qed.

(** ** The theorems on the texts *)

Definition four_digits (dt : DateTime) : Prop := valid_time dt /\ 0 <= year dt <= 9999.

Lemma month_days y m : days_in_month y m <= 31.
Proof. unfold days_in_month. repeat case_match; lia. Qed.

Lemma DateTime_ToFmt_compare pad a b r r' :
  pads pad -> four_digits a -> four_digits b ->
  compare_all (DateTime_ToFmt pad a ++ r) (DateTime_ToFmt pad b ++ r') =
    Z.compare (civil_seconds a) (civil_seconds b) ⊳ compare_all r r'.
Proof.
  intros Hp [Ha Hya] [Hb Hyb]. rewrite <- civil_seconds_compare by done. unfold DateTime_ToFmt, fields.
  destruct Ha as ([? ?] & ? & ? & ?), Hb as ([? ?] & ? & ? & ?).
  pose proof (month_days (year a) (month a)). pose proof (month_days (year b) (month b)).
  rewrite <- !(assoc_L (++)). cbn [app]. repeat (rewrite pad_app by (done || simpl; lia); rewrite ?compare_sep).
  simpl. repeat (destruct (Z.compare _ _); simpl; try done).
Qed.

(** The seconds of the years 1970 to 9999. *)
Definition MAX_STAMP : Z := 253402300800.

Lemma year_of_seconds dt : valid_time dt -> 0 <= civil_seconds dt < MAX_STAMP -> 1970 <= year dt <= 9999.
Proof.
  intros Hv Hs.
  pose proof (civil_seconds_compare (mkDateTime 1970 1 1 0 0 0) dt ltac:(by vm_compute) Hv) as H0.
  pose proof (civil_seconds_compare dt (mkDateTime 9999 12 31 23 59 59) Hv ltac:(by vm_compute)) as H1.
  change (civil_seconds (mkDateTime 1970 1 1 0 0 0)) with 0 in H0.
  change (civil_seconds (mkDateTime 9999 12 31 23 59 59)) with (MAX_STAMP - 1) in H1. cbn [fields compare_all year] in H0, H1.
  split.
  - destruct (Z.compare_spec 1970 (year dt)); cbn [thenc] in H0; try lia. symmetry in H0. apply Z.compare_gt_iff in H0. lia.
  - destruct (Z.compare_spec (year dt) 9999); cbn [thenc] in H1; try lia. symmetry in H1. apply Z.compare_gt_iff in H1. lia.
Qed.

(** A valid date and time is given by its seconds. *)
Lemma ToUtcTime_civil dt :
  valid_time dt -> 0 <= civil_seconds dt < MAX_STAMP -> ToUtcTime (civil_seconds dt) = Ok dt.
Proof.
  intros Hv Hs. pose proof (year_of_seconds dt Hv Hs) as Hy. unfold MAX_STAMP in Hs.
  destruct Hv as (Hd & Hho & Hmi & Hse). set (s := civil_seconds dt) in *.
  pose proof (date_roundtrip _ _ _ Hd ltac:(unfold MAX_YEAR; lia)) as R.
  rewrite JulianDayNumber_civil in R by (done || unfold MAX_YEAR; lia).
  assert (Hsd : s = (civil_day (year dt) (month dt) (day dt) - 719163) * 86400 +
                    (hour dt * 3600 + minute dt * 60 + second dt)) by reflexivity.
  set (n := civil_day (year dt) (month dt) (day dt)) in *. ored.
  unfold ToUtcTime. rewrite (BreakTime_day s (year dt) (month dt) (day dt)).
  - clearbody s n. destruct dt; simpl in *. f_equal. f_equal; clear - Hsd Hho Hmi Hse; div_lia.
  - unfold day_range. clear - Hs. div_lia.
  - rewrite <- R. f_equal. change JULIAN_DAY_OF_19700101 with 2440588. clear - Hsd Hho Hmi Hse. div_lia.
Qed.

Lemma SecondsSinceEpoch_range t : 0 <= t < MAX_STAMP * MICROSECONDS_PER_SECOND -> 0 <= SecondsSinceEpoch t < MAX_STAMP.
Proof.
  intros Ht. unfold SecondsSinceEpoch, MICROSECONDS_PER_SECOND, MAX_STAMP in *.
  rewrite Z.quot_div_nonneg by lia. clear - Ht. div_lia.
Qed.

(** A time stamp is printed as the date and time of its seconds, and its microseconds. *)
Lemma Timestamp_ToFmt_eq pad gmtime show t :
  0 <= t < MAX_STAMP * MICROSECONDS_PER_SECOND -> breaks_down gmtime (SecondsSinceEpoch t) ->
  exists dt, ToUtcTime (SecondsSinceEpoch t) = Ok dt /\ four_digits dt /\ civil_seconds dt = SecondsSinceEpoch t /\
    Timestamp_ToFmt pad gmtime show t =
      Ok (DateTime_ToFmt pad dt ++ if show then [46] ++ pad 6%nat (t mod MICROSECONDS_PER_SECOND) else []).
Proof.
  intros Ht (x & Hx & Hv & Hs).
  assert (Hsec : SecondsSinceEpoch t = t / MICROSECONDS_PER_SECOND) by (apply Z.quot_div_nonneg; [lia|done]).
  assert (Hb : 0 <= civil_seconds (tm_time x) < MAX_STAMP)
    by (rewrite Hs; by apply SecondsSinceEpoch_range).
  pose proof (year_of_seconds _ Hv Hb) as Hy. pose proof (proj1 (proj1 Hv)) as Hm. simpl in Hy, Hm.
  exists (tm_time x). split; [rewrite <- Hs; by apply ToUtcTime_civil|].
  split; [split; [done|simpl; lia]|]. split; [done|].
  unfold Timestamp_ToFmt, Timestamp_parts. rewrite Hx. simpl.
  rewrite ints_ok by (unfold HARE_START_YEAR in *; repeat constructor; lia).
  f_equal. unfold DateTime_ToFmt. simpl. repeat (rewrite <- (assoc_L (++)); cbn [app]).
  replace (i32 (t - SecondsSinceEpoch t * MICROSECONDS_PER_SECOND)) with (t mod MICROSECONDS_PER_SECOND); [done|].
  rewrite Hsec. unfold MICROSECONDS_PER_SECOND. rewrite i32_small by (clear; div_lia). clear. div_lia.
Qed.

Lemma Timestamp_ToFmt_compare pad gmtime t t' :
  pads pad -> (forall s, 0 <= s < MAX_STAMP -> breaks_down gmtime s) ->
  0 <= t < MAX_STAMP * MICROSECONDS_PER_SECOND -> 0 <= t' < MAX_STAMP * MICROSECONDS_PER_SECOND ->
  exists l l', Timestamp_ToFmt pad gmtime true t = Ok l /\ Timestamp_ToFmt pad gmtime true t' = Ok l' /\
    compare_all l l' = Z.compare t t'.
Proof.
  intros Hp Hg Ht Ht'.
  assert (Hq : forall x, 0 <= x < MAX_STAMP * MICROSECONDS_PER_SECOND ->
    SecondsSinceEpoch x = x / MICROSECONDS_PER_SECOND /\ 0 <= x / MICROSECONDS_PER_SECOND < MAX_STAMP /\
    0 <= x mod MICROSECONDS_PER_SECOND < 10 ^ Z.of_nat 6).
  { intros x Hx. split; [apply Z.quot_div_nonneg; [lia|done]|]. unfold MICROSECONDS_PER_SECOND, MAX_STAMP in *.
    change (10 ^ Z.of_nat 6) with 1000000. clear - Hx. div_lia. }
  destruct (Hq t Ht) as (E & Hr & Hm), (Hq t' Ht') as (E' & Hr' & Hm').
  destruct (Timestamp_ToFmt_eq pad gmtime true t Ht) as (dt & _ & Hd & Hc & ->); [rewrite E; by apply Hg|].
  destruct (Timestamp_ToFmt_eq pad gmtime true t' Ht') as (dt' & _ & Hd' & Hc' & ->); [rewrite E'; by apply Hg|].
  do 2 eexists. split_and!; [done..|]. rewrite DateTime_ToFmt_compare by done. rewrite Hc, Hc', E, E'.
  cbn [app]. rewrite compare_sep, pad_compare by (done || lia).
  unfold MICROSECONDS_PER_SECOND in *.
  destruct (Z.compare_spec (t / 1000000) (t' / 1000000)); simpl;
    [destruct (Z.compare_spec (t mod 1000000) (t' mod 1000000))|..]; symmetry.
  - apply Z.compare_eq_iff. clear - H H0. div_lia.
  - apply Z.compare_lt_iff. clear - H H0. div_lia.
  - apply Z.compare_gt_iff. clear - H H0. div_lia.
  - apply Z.compare_lt_iff. clear - H. div_lia.
  - apply Z.compare_gt_iff. clear - H. div_lia.
Qed.

(** Before the epoch the fraction is negative and the text of [ToString] is not that of a
    number: of half a second before the epoch it prints 0 and -500000. *)
Lemma Timestamp_parts_negative : Timestamp_parts (-500000) = (0, -500000).
Proof. done. Qed.

(** Every second of these years has its date and time. *)
Lemma ToUtcTime_seconds s : 0 <= s < MAX_STAMP ->
  exists dt, ToUtcTime s = Ok dt /\ valid_time dt /\ civil_seconds dt = s.
Proof.
  unfold MAX_STAMP. intros Hs. assert (Hr : day_range (s / 86400)) by (unfold day_range; clear - Hs; div_lia).
  destruct (day_roundtrip (s / 86400 + JULIAN_DAY_OF_19700101)) as (y & m & d & Hget & Hv & Hy & Hj).
  { change JULIAN_DAY_OF_19700101 with 2440588. unfold MAX_DAY, day_range in *. lia. }
  eexists. split; [by apply BreakTime_day|]. rewrite JulianDayNumber_civil in Hj by done.
  change JULIAN_DAY_OF_19700101 with 2440588 in Hj. injection Hj as Hj. split.
  - split; [done|]. simpl. clear. split_and!; div_lia.
  - unfold civil_seconds. simpl. change (civil_day 1970 1 1) with 719163.
    replace (civil_day y m d) with (s / 86400 + 719163) by lia. clear. div_lia.
Qed.

(** ** An implementation of what is assumed *)

(** The last [w] decimal digits. *)
Fixpoint pad_digits (w : nat) (n : Z) (acc : list Z) : list Z :=
  match w with O => acc | S w => pad_digits w (n / 10) ((48 + n mod 10) :: acc) end.
Definition pad_dec (w : nat) (n : Z) : list Z := pad_digits w n [].

Lemma pad_digits_length w n acc : length (pad_digits w n acc) = (w + length acc)%nat.
Proof. revert n acc. induction w as [|w IH]; intros n acc; [done|]. simpl. rewrite IH. simpl. lia. Qed.

Lemma pad_digits_digit w n acc : forallb is_digit acc = true -> forallb is_digit (pad_digits w n acc) = true.
Proof.
  revert n acc. induction w as [|w IH]; intros n acc Ha; [done|]. apply IH. simpl. rewrite Ha.
  unfold is_digit. pose proof (Z.mod_pos_bound n 10 ltac:(lia)). lia.
Qed.

Lemma pad_digits_value w n acc v : 0 <= n < 10 ^ Z.of_nat w ->
  digits (pad_digits w n acc) v = digits acc (v * 10 ^ Z.of_nat w + n).
Proof.
  revert n acc. induction w as [|w IH]; intros n acc Hn.
  - change (10 ^ Z.of_nat 0) with 1 in Hn. simpl. f_equal. lia.
  - rewrite Nat2Z.inj_succ, Z.pow_succ_r in * by lia. cbn [pad_digits].
    rewrite IH by (clear - Hn; div_lia). cbn [digits].
    pose proof (Z.mod_pos_bound n 10 ltac:(lia)). replace (is_digit (48 + n mod 10)) with true by (unfold is_digit; lia).
    f_equal. pose proof (Z.div_mod n 10 ltac:(lia)). lia.
Qed.

Lemma pad_dec_pads : pads pad_dec.
Proof.
  intros w n Hw Hn. unfold pad_dec. rewrite pad_digits_length, pad_digits_digit, pad_digits_value by done.
  simpl. split_and!; [lia|done..].
Qed.

(** [gmtime] by way of the calendar of the library. *)
Definition gmtime_cal (s : Z) : option tm :=
  match ToUtcTime s with
  | Ok dt => Some (mktm (year dt - HARE_START_YEAR) (month dt - 1) (day dt) (hour dt) (minute dt) (second dt))
  | _ => None
  end.

Lemma gmtime_cal_breaks s : 0 <= s < MAX_STAMP -> breaks_down gmtime_cal s.
Proof.
  intros Hs. destruct (ToUtcTime_seconds s Hs) as (dt & E & Hv & Hc). unfold breaks_down, gmtime_cal. rewrite E.
  eexists. split; [done|]. unfold tm_time. simpl.
  replace (year dt - HARE_START_YEAR + HARE_START_YEAR) with (year dt) by lia.
  replace (month dt - 1 + 1) with (month dt) by lia. destruct dt. done.
Qed.

Example stamp_text :
  Timestamp_ToFmt pad_dec gmtime_cal true 1000000000000001 = Ok (bytes_of "2001-09-09 01:46:40.000001") /\
  DateTime_ToFmt pad_dec DateTime_default = bytes_of "1900-01-01 00:00:00" /\
  Date_ToFmt pad_dec 2440588 = Ok (bytes_of "1970-01-01").
Proof. by vm_compute. Qed.
