(* ===== verification/Doubles.v ===== *)
(** * Code on floating-point numbers.

    Sources: include/hare/base/time/timestamp.h ([Timestamp::Difference]),
    hare/base/util/system.cc ([CpuUsage]), hare/base/msg_handle.cc ([DefaultMsgHandle]).  A
    [double] is a [spec_float] with 53 bits of precision and exponents below 1024; the
    operations round to nearest, ties to even. *)

From Stdlib Require Import SpecFloat.
From S2P Require Import Prelude Util System.

(** ** [double] *)

Definition double_of (n : Z) : spec_float := binary_normalize 53 1024 n 0 false.
Definition ddiv : spec_float -> spec_float -> spec_float := SFdiv 53 1024.
Definition dsub : spec_float -> spec_float -> spec_float := SFsub 53 1024.
Definition dmul : spec_float -> spec_float -> spec_float := SFmul 53 1024.

(** ** [Timestamp::Difference] *)

Definition Difference (high low : Z) : outcome spec_float :=
  diff ← int64 (high - low); Ok (ddiv (double_of diff) (double_of MICROSECONDS_PER_SECOND)).

(** Rounding keeps the sign apart from the rest. *)
Lemma binary_round_aux_opp s m e l :
  binary_round_aux 53 1024 (negb s) m e l = SFopp (binary_round_aux 53 1024 s m e l).
Proof.
  unfold binary_round_aux. destruct (shr_fexp _ _ m e l) as [mrs e1].
  destruct (shr_fexp _ _ _ _ _) as [mrs' e2]. destruct (shr_m mrs'); try done. by case_match.
Qed.

Lemma double_of_opp n : n <> 0 -> double_of (- n) = SFopp (double_of n).
Proof.
  intros Hn. unfold double_of, binary_normalize, binary_round.
  destruct n as [|p|p]; [done|..]; simpl; destruct (shl_align _ _ _) as [m e];
    [apply (binary_round_aux_opp false)|apply (binary_round_aux_opp true)].
Qed.

Lemma ddiv_opp x y : ddiv (SFopp x) y = SFopp (ddiv x y).
Proof.
  unfold ddiv. destruct x as [s|s| |s m e], y as [s'|s'| |s' m' e']; simpl; rewrite ?xorb_assoc, ?negb_xorb_l; try done.
  destruct (SFdiv_core_binary _ _ _ _ _ _) as [[q e''] l]. rewrite <- negb_xorb_l. apply binary_round_aux_opp.
Qed.

(** The difference the other way round is the same number with the other sign. *)
Lemma Difference_swap t t' d :
  t <> t' -> - 2 ^ 63 < t - t' < 2 ^ 63 -> Difference t t' = Ok d -> Difference t' t = Ok (SFopp d).
Proof.
  intros Hne Hr. unfold Difference. rewrite !int64_ok by lia. ored. intros [= <-].
  replace (t' - t) with (- (t - t')) by lia. by rewrite double_of_opp, ddiv_opp by lia.
Qed.

(** Whole seconds, halves and tenths. *)
Example Difference_values :
  Difference 3000000 1000000 = Ok (double_of 2) /\
  Difference 500000 0 = Ok (ddiv (double_of 1) (double_of 2)) /\
  Difference 0 100000 = Ok (SFopp (ddiv (double_of 1) (double_of 10))).
Proof. by vm_compute. Qed.

(** ** [DefaultMsgHandle] *)

(** Standard output: what is buffered and what was flushed, and the static time of the last
    flush, initialised by the first call. *)
Record MsgState := mkMsg { s_last_flush_time : option Z; buffered : list Z; flushed : list Z }.

Definition HALF : spec_float := ddiv (double_of 1) (double_of 2).
Definition TEN_MICRO : spec_float := ddiv (double_of 1) (double_of 100000).

Definition flush_due (now last : Z) : outcome bool :=
  d ← Difference now last; Ok (SFltb TEN_MICRO (SFabs (dsub d HALF))).

Section handler.
(** The line fmt makes of the kind ([true]: [TRACE_MSG]) and the message. *)
Variable line : bool -> list Z -> list Z.

(** [now0], [now]: the two readings of the clock; the first is used when [s_last_flush_time]
    is initialised. *)
Definition DefaultMsgHandle (now0 now : Z) (trace : bool) (msg : list Z) (s : MsgState) : outcome MsgState :=
  let last := default now0 (s_last_flush_time s) in
  let out := buffered s ++ line trace msg in
  due ← flush_due now last;
  Ok (if due : bool then mkMsg (Some now) [] (flushed s ++ out) else mkMsg (Some last) out (flushed s)).

(** Nothing is lost and nothing reordered, whether or not it is flushed. *)
Lemma DefaultMsgHandle_keeps now0 now trace msg s s' :
  DefaultMsgHandle now0 now trace msg s = Ok s' ->
  flushed s' ++ buffered s' = (flushed s ++ buffered s) ++ line trace msg /\ is_Some (s_last_flush_time s').
Proof.
  unfold DefaultMsgHandle. intros H. apply bind_Ok in H as (due & _ & H). simplify_eq.
  destruct due; simpl; rewrite ?app_nil_r, ?(assoc_L (++)); split; done || by eexists.
Qed.
End handler.

(** The condition that should flush every half second holds at nearly all times: of the
    hundredths of the second after a flush only the fiftieth is not flushed. *)
Lemma flushes_always :
  forallb (fun k => match flush_due (10000 * Z.of_nat k) 0 with Ok b => eqb b (negb (k =? 50)%nat) | _ => false end)
    (seq 0 101) = true.
Proof. by vm_compute. Qed.

(** ** [CpuUsage] *)

(** The two readings of /proc/stat and of /proc/<pid>/stat, before and after the pause, and
    the number of processors. *)
Definition CpuUsage (total1 proc1 total2 proc2 : option (list Z)) (cpu_num : Z) : outcome spec_float :=
  total_cputime1 ← CpuTotalOccupy total1;
  pro_cputime1 ← CpuProcOccupy proc1;
  total_cputime2 ← CpuTotalOccupy total2;
  pro_cputime2 ← CpuProcOccupy proc2;
  let total := u64 (total_cputime2 - total_cputime1) in
  let pcpu := if negb (total =? 0) then ddiv (double_of (u64 (pro_cputime2 - pro_cputime1))) (double_of total)
              else double_of 0 in
  Ok (dmul pcpu (double_of cpu_num)).

(** A clock that did not move does not make the division fail. *)
Lemma CpuUsage_still total proc1 proc2 n t p1 p2 :
  CpuTotalOccupy total = Ok t -> CpuProcOccupy proc1 = Ok p1 -> CpuProcOccupy proc2 = Ok p2 ->
  CpuUsage total proc1 total proc2 n = Ok (dmul (double_of 0) (double_of n)).
Proof. intros E E1 E2. unfold CpuUsage. rewrite E, E1, E2. ored. by rewrite Z.sub_diag. Qed.

Definition stat1 : list Z := bytes_of "cpu  100 20 30 400 10 50 0 0 0 0".
Definition stat2 : list Z := bytes_of "cpu  140 20 30 440 10 70 0 0 0 0".
Definition pid1 : list Z := bytes_of "7 (a) S 1 1 1 0 0 0 0 0 0 0 30 20 0 0 20 0 1 0 5 0 0 0".
Definition pid2 : list Z := bytes_of "7 (a) S 1 1 1 0 0 0 0 0 0 0 40 35 0 0 20 0 1 0 5 0 0 0".

(** 25 of 100 ticks, on two processors; and a process that ends during the pause: its time is
    then read as 0, and the difference wraps around. *)
Example CpuUsage_values :
  CpuUsage (Some stat1) (Some pid1) (Some stat2) (Some pid2) 2 = Ok HALF /\
  exists d, CpuUsage (Some stat1) (Some pid1) (Some stat2) None 2 = Ok d /\ SFltb (double_of (10 ^ 17)) d = true.
Proof. split; [|eexists; split]; by vm_compute. Qed.
