(* ===== verification/Exceptions.v ===== *)
(** * [hare::Exception].

    Source: hare/base/exception.cc, include/hare/base/exception.h.  The members of an
    exception live in an object of the thread that made it; an exception holds a pointer to
    that object, which its destructor deletes. *)

From S2P Require Import Prelude System.

Record ExceptionImpl := mkExceptionImpl { what_ : list Z; stack_trace_ : list Z }.

(** The pointer [impl_]: to the [thread_local] object of a thread, or to an object that
    [new] made. *)
Inductive impl_ptr := ThreadLocal (tid : Z) | FromNew (p : positive).

Definition Exception_object : Type := impl_ptr.

(** The objects: one for each thread, made when the thread first asks for it, and those of
    [new]. *)
Record ExceptionMem := mkExceptionMem {
  thread_exception_impl : gmap Z ExceptionImpl;
  heap_impls : gmap positive ExceptionImpl
}.

Definition ExceptionImpl_default : ExceptionImpl := mkExceptionImpl [] [].

Definition impl_at (p : impl_ptr) (m : ExceptionMem) : option ExceptionImpl :=
  match p with ThreadLocal tid => thread_exception_impl m !! tid | FromNew a => heap_impls m !! a end.

Definition put_impl (p : impl_ptr) (i : ExceptionImpl) (m : ExceptionMem) : ExceptionMem :=
  match p with
  | ThreadLocal tid => mkExceptionMem (<[tid := i]> (thread_exception_impl m)) (heap_impls m)
  | FromNew a => mkExceptionMem (thread_exception_impl m) (<[a := i]> (heap_impls m))
  end.

(** [delete p]: only for what [new] returned. *)
Definition delete_impl (p : impl_ptr) : ST ExceptionMem unit := fun m =>
  match p with
  | ThreadLocal _ => UB
  | FromNew a =>
    match heap_impls m !! a with
    | Some _ => Ok (tt, mkExceptionMem (thread_exception_impl m) (delete a (heap_impls m)))
    | None => UB
    end
  end.

Definition ThreadException (tid : Z) : ST ExceptionMem impl_ptr := fun m =>
  let p := ThreadLocal tid in
  Ok (p, match impl_at p m with Some _ => m | None => put_impl p ExceptionImpl_default m end).

(** The constructor, in thread [tid]; [symbols] is what the library tells about the stack. *)
Definition Exception_ctor (demangle : list Z -> option (list Z)) (tid : Z) (symbols : option (list (list Z)))
    (what : list Z) : ST ExceptionMem Exception_object := fun m =>
  match ThreadException tid m with
  | Ok (p, m) => Ok (p, put_impl p (mkExceptionImpl what (StackTrace demangle false symbols)) m)
  | r => r
  end.

(** The copy constructor is the implicit one. *)
Definition Exception_copy (e : Exception_object) : Exception_object := e.

Definition Exception_dtor (e : Exception_object) : ST ExceptionMem unit := delete_impl e.

Definition Exception_what (e : Exception_object) (m : ExceptionMem) : outcome (list Z) :=
  i ← deref (impl_at e m); Ok (c_str (what_ i)).

Definition Exception_StackTrace (e : Exception_object) (m : ExceptionMem) : outcome (list Z) :=
  i ← deref (impl_at e m); Ok (c_str (stack_trace_ i)).

(** The end of a [catch] block: the exception object is destroyed.  Those of the library
    have nothing to release. *)
Definition end_catch (e : exn) : outcome unit := match e with Exception => UB | _ => Ok tt end.

Section exceptions.
Context (demangle : list Z -> option (list Z)).
#[local] Abbreviation ctor := (Exception_ctor demangle).

(** Of the objects of the threads a construction changes that of its own thread. *)
Lemma Exception_ctor_at tid sy what m tid' :
  exists m', ctor tid sy what m = Ok (ThreadLocal tid, m') /\
    impl_at (ThreadLocal tid') m' =
      (if decide (tid' = tid) then Some (mkExceptionImpl what (StackTrace demangle false sy))
       else impl_at (ThreadLocal tid') m).
Proof.
  unfold Exception_ctor, ThreadException. eexists. split; [done|]. simpl.
  destruct (decide (tid' = tid)) as [->|Hne]; [apply lookup_insert_eq|]. rewrite lookup_insert_ne by done.
  destruct (_ !! tid); [done|]. simpl. by rewrite lookup_insert_ne.
Qed.

(** The text of an exception is the one it was made with, until the same thread makes another
    exception: from then on it is the text of that one. *)
Lemma Exception_what_spec tid sy what m :
  exists e m1, ctor tid sy what m = Ok (e, m1) /\ Exception_what e m1 = Ok (c_str what) /\
    (forall tid' sy' what', exists e' m2, ctor tid' sy' what' m1 = Ok (e', m2) /\
       Exception_what e m2 = Ok (c_str (if decide (tid = tid') then what' else what))).
Proof.
  destruct (Exception_ctor_at tid sy what m tid) as (m1 & E1 & H1). rewrite decide_True in H1 by done.
  exists (ThreadLocal tid), m1. unfold Exception_what. rewrite H1. split_and!; [done|done|]. intros tid' sy' what'.
  destruct (Exception_ctor_at tid' sy' what' m1 tid) as (m2 & E2 & H2). exists (ThreadLocal tid'), m2.
  split; [done|]. rewrite H2, H1. by destruct (decide (tid = tid')).
Qed.

(** Whatever happens in between, destroying an exception, or a copy of it, is undefined: its
    object was not made by [new]. *)
Lemma Exception_dtor_undefined tid sy what m e m1 m2 :
  ctor tid sy what m = Ok (e, m1) -> Exception_dtor (Exception_copy e) m2 = UB.
Proof. by intros [= <- _]. Qed.

(** [end_catch] is the destructor of the exception. *)
Lemma end_catch_dtor tid sy what m e m1 m2 :
  ctor tid sy what m = Ok (e, m1) ->
  end_catch Exception = (r ← Exception_dtor e m2; Ok (fst r)).
Proof. by intros [= <- _]. Qed.
End exceptions.
