(* ===== verification/LogFile.v ===== *)
(** * Files of the log: [io::FileHelper], [RotateFileBySize] and [FileBackend].

    Sources: include/hare/base/io/file.h, hare/base/io/file.cc and
    include/hare/log/backends/file_backend.h.

    A file is an inode with its bytes; the directory maps names to inodes, so that a file
    that is removed while it is open goes on to exist without a name.  What [stdio] holds
    back until it is flushed counts as written.  Whether the [n]th call of the C library
    succeeds is a parameter; [fmt::format] is a parameter, too. *)

From S2P Require Import Prelude Queue.

Record Disk := mkDisk {
  dir : gmap string positive;
  inodes : gmap positive (list Z);
  lib_calls : nat
}.

(** The bytes of a file, by its name. *)
Definition content (d : Disk) (name : string) : option (list Z) := i ← dir d !! name; inodes d !! i.

Definition call_done (d : Disk) : Disk := mkDisk (dir d) (inodes d) (S (lib_calls d)).
Definition set_inode (i : positive) (bytes : list Z) (d : Disk) : Disk :=
  mkDisk (dir d) (<[i := bytes]> (inodes d)) (lib_calls d).

(** [io::FileHelper] *)
Record FileHelper := mkFile {
  fp_ : option positive; written_bytes_ : Z; size_of : Z; filename_ : string
}.

Definition FileHelper_default : FileHelper := mkFile None 0 0 "".

(** [detail::RotateFileBySize] *)
Record RotateFileBySize := mkRotate { rotate_id_ : Z; rotate_max : Z }.

(** [log::FileBackend] *)
Record FileBackend := mkFileBackend {
  generator_ : RotateFileBySize;
  basename_ : string;
  file_ : FileHelper;
  max_files_ : Z;
  filename_history_ : CircularQueue string
}.

Abbreviation FM := (EM (FileHelper * Disk)).
Abbreviation BM := (EM (FileBackend * Disk)).

Definition set_file (f : FileHelper) (b : FileBackend) : FileBackend :=
  mkFileBackend (generator_ b) (basename_ b) f (max_files_ b) (filename_history_ b).
Definition set_generator (g : RotateFileBySize) (b : FileBackend) : FileBackend :=
  mkFileBackend g (basename_ b) (file_ b) (max_files_ b) (filename_history_ b).
Definition set_history (q : CircularQueue string) (b : FileBackend) : FileBackend :=
  mkFileBackend (generator_ b) (basename_ b) (file_ b) (max_files_ b) q.

Section files.
(** The C library: whether [fopen], [remove] and [fstat] succeed, how many of the bytes
    it is given [fwrite] takes, each for the call with this number. *)
Context (fopen_ok remove_ok fstat_ok fsync_ok : nat -> bool) (fwrite_n : nat -> Z -> Z).
(** [fmt::format("{}.{}.log", basename, id)] *)
Context (fmt_name : string -> Z -> string).
(** What is left of a string that was moved from; [MaxSize] of the generator. *)
Context (moved_from : string -> string) (MaxSize : Z).

(** ** hare/base/io/file.cc *)

(** [file_inner::Open] on Linux: [fopen] with mode "wb" ([truncate]) or "ab". *)
Definition file_inner_Open (name : string) (truncate : bool) : EM Disk (option positive) := fun d =>
  if fopen_ok (lib_calls d) then
    match dir d !! name with
    | Some i => (Ok (Some i), call_done (if truncate then set_inode i [] d else d))
    | None =>
      let i := fresh (dom (inodes d)) in
      (Ok (Some i), call_done (set_inode i [] (mkDisk (<[name := i]> (dir d)) (inodes d) (lib_calls d))))
    end
  else (Ok None, call_done d).

Definition file_inner_Exists (name : string) : EM Disk bool := fun d =>
  (Ok (bool_decide (is_Some (dir d !! name))), d).

Definition file_inner_Remove (name : string) : EM Disk bool := fun d =>
  match dir d !! name with
  | Some _ =>
    if remove_ok (lib_calls d) then (Ok true, call_done (mkDisk (delete name (dir d)) (inodes d) (lib_calls d)))
    else (Ok false, call_done d)
  | None => (Ok false, call_done d)
  end.

Definition file_inner_Size (fp : option positive) : EM Disk Z := fun d =>
  match fp with
  | None => (Ok 0, d)
  | Some i => (Ok (if fstat_ok (lib_calls d) then Zlen (default [] (inodes d !! i)) else 0), call_done d)
  end.

Definition file_inner_Sync (fp : option positive) : EM Disk bool := fun d =>
  match fp with
  | None => (UB, d)
  | Some _ => (Ok (fsync_ok (lib_calls d)), call_done d)
  end.

(** [fwrite] and [fwrite_unlocked]: the number of bytes taken; the stream must be open. *)
Definition fwrite (bytes : list Z) (fp : option positive) : EM Disk Z := fun d =>
  match fp with
  | None => (UB, d)
  | Some i =>
    let n := fwrite_n (lib_calls d) (Zlen bytes) in
    (Ok n, call_done (set_inode i (default [] (inodes d !! i) ++ take (Z.to_nat n) bytes) d))
  end.

(** ** [FileHelper] *)

Definition on_disk {P A} (m : EM Disk A) : EM (P * Disk) A := zoom snd (fun d s => (fst s, d)) m.
Definition this_mod {P} (f : P -> P) : EM (P * Disk) unit := emod (fun s => (f (fst s), snd s)).
Definition this_get {P A} (f : P -> A) : EM (P * Disk) A := eget (fun s => f (fst s)).

Definition File_Close : FM unit :=
  this_mod (fun f => mkFile None 0 (size_of f) (filename_ f)).

Definition File_Open (file : string) (truncate : bool) : FM unit :=
  _ ← File_Close;
  fp ← on_disk (file_inner_Open file truncate);
  _ ← this_mod (fun f => mkFile fp (written_bytes_ f) (size_of f) (filename_ f));
  match fp with
  | None => elift (Throw Exception)
  | Some _ =>
    _ ← this_mod (fun f => mkFile (fp_ f) (written_bytes_ f) (size_of f) file);
    n ← on_disk (file_inner_Size fp);
    this_mod (fun f => mkFile (fp_ f) (written_bytes_ f) n (filename_ f))
  end.

Definition File_Reopen (truncate : bool) : FM unit :=
  name ← this_get filename_;
  if decide (name = "") then elift (Throw Exception) else File_Open name truncate.

Definition File_Length (f : FileHelper) : Z :=
  match fp_ f with None => 0 | Some _ => u64 (size_of f + written_bytes_ f) end.

Definition File_Sync : FM bool := fp ← this_get fp_; on_disk (file_inner_Sync fp).

Definition File_Append (buffer : list Z) : FM unit :=
  fp ← this_get fp_;
  n ← on_disk (fwrite buffer fp);
  if negb (n =? Zlen buffer) then elift (Throw Exception)
  else this_mod (fun f => mkFile (fp_ f) (u64 (written_bytes_ f + Zlen buffer)) (size_of f) (filename_ f)).

(** ** [RotateFileBySize] *)

Definition GetName (g : RotateFileBySize) (basename : string) : outcome (string * RotateFileBySize) :=
  next_id ← int32 (rotate_id_ g + 1);
  let next_id := if rotate_max g >? 0 then Z.rem next_id (rotate_max g) else next_id in
  Ok (fmt_name basename (rotate_id_ g), mkRotate next_id (rotate_max g)).

Definition ShouldRotate (f : FileHelper) : bool := File_Length f >=? MaxSize.

(** ** [FileBackend] *)

Definition in_file {A} (m : FM A) : BM A :=
  zoom (fun s => (file_ (fst s), snd s)) (fun r s => (set_file (fst r) (fst s), snd r)) m.

(** [generator_.GetName(basename_)] *)
Definition next_name : BM string :=
  b ← this_get id;
  r ← elift (GetName (generator_ b) (basename_ b));
  _ ← this_mod (set_generator (snd r));
  mret (fst r).

Definition push_history : BM unit :=
  b ← this_get id;
  q ← elift (CQ_PushBack (filename_history_ b) (filename_ (file_ b)));
  this_mod (set_history q).

(** A file that cannot be removed is reported on [stderr], and that is all. *)
Definition DeleteOld : BM unit :=
  b ← this_get id;
  _ ← (if CQ_Full (filename_history_ b) then
         r ← elift (CQ_PopFront moved_from (filename_history_ b));
         _ ← this_mod (set_history (snd r));
         _ ← on_disk (file_inner_Remove (fst r));
         mret tt
       else mret tt);
  push_history.

Definition FileBackend_new (basename : string) (max_files : Z) : FileBackend :=
  mkFileBackend (mkRotate 0 max_files) basename FileHelper_default max_files
    (CQ_ctor "" (if max_files >? 0 then max_files else 0)).

(** The body of the constructor, on the members as they are initialised. *)
Definition FileBackend_ctor : BM unit :=
  name ← next_name;
  _ ← in_file (File_Open name false);
  b ← this_get id;
  if max_files_ b >? 0 then push_history else mret tt.

Definition FileBackend_filename (b : FileBackend) : string := filename_ (file_ b).

Definition File_InnerSinkIt (msg : list Z) : BM unit :=
  _ ← in_file (File_Append msg);
  b ← this_get id;
  let should_rotation := ShouldRotate (file_ b) in
  _ ← (if should_rotation then name ← next_name; in_file (File_Open name false) else mret tt);
  b ← this_get id;
  if should_rotation && (max_files_ b >? 0) then DeleteOld else mret tt.

(** Messages one after the other. *)
Fixpoint sink_all (msgs : list (list Z)) : BM unit :=
  match msgs with
  | [] => mret tt
  | m :: msgs => _ ← File_InnerSinkIt m; sink_all msgs
  end.
End files.
