(* ===== verification/LogFileSpec.v ===== *)
(** * What the log files keep.

    The backend is related to the sequence of the contents of its files.  While no call of
    the C library fails, the bytes logged are the bytes that rotation has dropped followed
    by the bytes in the files; without a limit on the files nothing is dropped. *)

From S2P Require Import Prelude Queue LogFile.

Section directory.
Context (fmt_name : string -> Z -> string) (base : string) (max : Z).
(** The text of a name tells its number. *)
Hypothesis fmt_name_inj : forall base i j, fmt_name base i = fmt_name base j -> i = j.

(** The number in the name of the [k]th file, and its name. *)
Definition file_id (k : nat) : Z := if max >? 0 then Z.of_nat k mod max else Z.of_nat k.
Definition log_name (k : nat) : string := fmt_name base (file_id k).

(** ** The directory *)

(** The files from number [lo] on have the contents [cs]; there are no other log files. *)
Record disk_ok (lo : nat) (cs : list (list Z)) (d : Disk) : Prop := {
  disk_content : forall j c, cs !! j = Some c -> content d (log_name (lo + j)) = Some c;
  disk_only : forall k, is_Some (dir d !! log_name k) -> exists j, (j < length cs)%nat /\ log_name k = log_name (lo + j);
  disk_inj : forall n1 n2 i, dir d !! n1 = Some i -> dir d !! n2 = Some i -> n1 = n2;
  disk_live : forall n i, dir d !! n = Some i -> is_Some (inodes d !! i)
}.

Lemma log_name_inj k k' :
  (0 < max -> Z.abs (Z.of_nat k - Z.of_nat k') < max) -> log_name k = log_name k' -> k = k'.
Proof using fmt_name_inj.
  intros Hd H. apply fmt_name_inj in H. unfold file_id in H. destruct (Z.gtb_spec max 0); [|lia].
  specialize (Hd ltac:(lia)).
  pose proof (Z.div_mod (Z.of_nat k) max ltac:(lia)). pose proof (Z.div_mod (Z.of_nat k') max ltac:(lia)).
  assert (Z.of_nat k / max = Z.of_nat k' / max) by nia. lia.
Qed.

Lemma disk_call lo cs d : disk_ok lo cs d -> disk_ok lo cs (call_done d).
Proof. intros [Hc Ho Hi Hl]. split; [exact Hc|exact Ho|exact Hi|exact Hl]. Qed.

Lemma content_dir d name c : content d name = Some c -> exists i, dir d !! name = Some i /\ inodes d !! i = Some c.
Proof. unfold content. intros H. destruct (dir d !! name) as [i|]; [by exists i|done]. Qed.

Lemma disk_append lo pre cur i m d :
  (0 < max -> Zlen (pre ++ [cur]) <= max) ->
  disk_ok lo (pre ++ [cur]) d -> dir d !! log_name (lo + length pre) = Some i ->
  disk_ok lo (pre ++ [cur ++ m]) (set_inode i (cur ++ m) d).
Proof using fmt_name_inj.
  intros Hlen [Hc Ho Hi Hl] Hd. rewrite Zlen_app in Hlen. unfold Zlen in Hlen. simpl in Hlen. split; simpl; try done.
  - intros j c Hj. unfold content. simpl. destruct (decide (j = length pre)) as [->|Hne].
    + rewrite lookup_app_r, Nat.sub_diag in Hj by lia. injection Hj as <-. rewrite Hd. simpl. by rewrite lookup_insert_eq.
    + assert (Hlt : (j < length pre)%nat) by (apply lookup_lt_Some in Hj; rewrite length_app in Hj; simpl in Hj; lia).
      rewrite lookup_app_l in Hj by lia.
      destruct (content_dir d (log_name (lo + j)) c) as (i' & Hd' & Hin); [apply Hc; by rewrite lookup_app_l by lia|].
      rewrite Hd'. simpl. rewrite lookup_insert_ne; [done|]. intros <-.
      assert (lo + j = lo + length pre)%nat; [|lia]. apply log_name_inj; [lia|]. by eapply Hi.
  - intros k Hk. destruct (Ho k Hk) as (j & Hj & E). exists j. rewrite length_app in *. done.
  - intros n j Hn. destruct (decide (j = i)) as [->|]; [by rewrite lookup_insert_eq|].
    rewrite lookup_insert_ne by done. by eapply Hl.
Qed.

Lemma disk_next_free lo cs d :
  (0 < max -> Zlen cs < max) -> disk_ok lo cs d -> dir d !! log_name (lo + length cs) = None.
Proof using fmt_name_inj.
  intros Hlen [Hc Ho Hi Hl]. destruct (dir d !! log_name (lo + length cs)) eqn:E; [|done].
  destruct (Ho _ (ex_intro _ _ E)) as (j & Hj & Hn). unfold Zlen in Hlen.
  apply log_name_inj in Hn; lia.
Qed.

(** [fopen] of a new file. *)
Definition created (name : string) (d : Disk) : Disk :=
  let i := fresh (dom (inodes d)) in
  call_done (set_inode i [] (mkDisk (<[name := i]> (dir d)) (inodes d) (lib_calls d))).

Lemma disk_create lo cs d :
  (0 < max -> Zlen cs < max) -> disk_ok lo cs d -> disk_ok lo (cs ++ [[]]) (created (log_name (lo + length cs)) d).
Proof using fmt_name_inj.
  intros Hlen Hok. pose proof (disk_next_free lo cs d Hlen Hok) as Hfree. destruct Hok as [Hc Ho Hi Hl].
  pose proof (is_fresh (dom (inodes d))) as Hf. rewrite not_elem_of_dom in Hf.
  assert (Hnew : forall n i, dir d !! n = Some i -> i <> fresh (dom (inodes d))).
  { intros n i Hn ->. destruct (Hl _ _ Hn). congruence. }
  split; simpl.
  - intros j c Hj. unfold content. simpl. destruct (decide (j = length cs)) as [->|Hne].
    + rewrite lookup_app_r, Nat.sub_diag in Hj by lia. injection Hj as <-. rewrite lookup_insert_eq. simpl.
      by rewrite lookup_insert_eq.
    + assert (Hlt : (j < length cs)%nat) by (apply lookup_lt_Some in Hj; rewrite length_app in Hj; simpl in Hj; lia).
      rewrite lookup_app_l in Hj by lia. destruct (content_dir d _ _ (Hc j c Hj)) as (i & Hd & Hin).
      rewrite lookup_insert_ne by congruence. rewrite Hd. simpl. by rewrite lookup_insert_ne by (symmetry; eauto).
  - intros k. rewrite length_app. simpl. destruct (decide (log_name k = log_name (lo + length cs))) as [E|E].
    + intros _. exists (length cs). split; [lia|done].
    + rewrite lookup_insert_ne by done. intros Hk. destruct (Ho k Hk) as (j & ? & ?). exists j. split; [lia|done].
  - intros n1 n2 i. rewrite !lookup_insert_Some. intros [[<- <-]|[? H1]] [[<- E]|[? H2]]; try done.
    + by eapply Hnew in H2.
    + subst. by eapply Hnew in H1.
    + by eapply Hi.
  - intros n i. rewrite lookup_insert_Some. intros [[<- <-]|[_ Hn]]; [by rewrite lookup_insert_eq|].
    rewrite lookup_insert_ne by (symmetry; eauto). by eapply Hl.
Qed.

Lemma disk_remove lo c cs d :
  (0 < max -> Zlen (c :: cs) <= max) -> disk_ok lo (c :: cs) d ->
  disk_ok (S lo) cs (mkDisk (delete (log_name lo) (dir d)) (inodes d) (lib_calls d)).
Proof using fmt_name_inj.
  intros Hlen [Hc Ho Hi Hl]. rewrite Zlen_cons in Hlen. unfold Zlen in Hlen. split; simpl.
  - intros j c' Hj. specialize (Hc (S j) c' Hj). apply lookup_lt_Some in Hj. unfold content. simpl.
    rewrite lookup_delete_ne; [by rewrite <- Nat.add_succ_r|]. intros E.
    assert (lo = S (lo + j)); [|lia]. apply log_name_inj; [lia|done].
  - intros k Hk. destruct (decide (log_name lo = log_name k)) as [E|E]; [rewrite E, lookup_delete_eq in Hk; by destruct Hk|].
    rewrite lookup_delete_ne in Hk by done. destruct (Ho k Hk) as ([|j] & Hj & En); [rewrite Nat.add_0_r in En; congruence|].
    exists j. simpl in Hj. split; [lia|]. by rewrite Nat.add_succ_r in En.
  - intros n1 n2 i. rewrite !lookup_delete_Some. naive_solver.
  - intros n i. rewrite lookup_delete_Some. naive_solver.
Qed.
End directory.

(** ** The backend *)

Section retention.
Context (fopen_ok remove_ok fstat_ok : nat -> bool) (fwrite_n : nat -> Z -> Z).
Context (fmt_name : string -> Z -> string) (moved_from : string -> string) (MaxSize : Z) (base : string) (max : Z).
(** The library calls succeed, and the text of a name tells its number. *)
Hypothesis fopen_succeeds : forall k, fopen_ok k = true.
Hypothesis remove_succeeds : forall k, remove_ok k = true.
Hypothesis fstat_succeeds : forall k, fstat_ok k = true.
Hypothesis fwrite_all : forall k n, fwrite_n k n = n.
Hypothesis fmt_name_inj : forall base i j, fmt_name base i = fmt_name base j -> i = j.
(** No limit on the files, or one that leaves room for the current file and another. *)
Hypothesis max_range : max <= 0 \/ 2 <= max < 2 ^ 31.

#[local] Set Default Proof Using "All".

#[local] Abbreviation log_name := (log_name fmt_name base max).
#[local] Abbreviation file_id := (file_id max).
#[local] Abbreviation disk_ok := (disk_ok fmt_name base max).

(** The files before the current one have the contents [pre], the current one [cur]. *)
Record back_ok (lo : nat) (pre : list (list Z)) (cur : list Z) (b : FileBackend) (d : Disk) : Prop := {
  back_disk : disk_ok lo (pre ++ [cur]) d;
  back_gen : generator_ b = mkRotate (file_id (S (lo + length pre))) max;
  back_base : basename_ b = base;
  back_max : max_files_ b = max;
  back_file : exists i w s, file_ b = mkFile (Some i) w s (log_name (lo + length pre)) /\
    dir d !! log_name (lo + length pre) = Some i /\ s + w = Zlen cur /\ 0 <= s /\ 0 <= w;
  back_hist : 0 < max -> CQ_ok (filename_history_ b) /\ max_capacity_ (filename_history_ b) = max /\
    items "" (filename_history_ b) = log_name <$> seq lo (S (length pre)) /\ Zlen pre + 1 <= max - 1;
  back_full : forall j c, pre !! j = Some c -> MaxSize <= Zlen c
}.

Lemma append_run lo pre cur b d m :
  back_ok lo pre cur b d -> Zlen cur + Zlen m < 2 ^ 64 ->
  exists b' d', in_file (File_Append fwrite_n m) (b, d) = (Ok tt, (b', d')) /\ back_ok lo pre (cur ++ m) b' d'.
Proof.
  intros [Hd Hg Hb Hm Hf Hh Hfu] Hlt. destruct Hf as (i & w & s & Hf & Hdi & Hs & Hs0 & Hw0).
  pose proof (Zlen_nonneg m). assert (Hi : inodes d !! i = Some cur).
  { destruct (content_dir d (log_name (lo + length pre)) cur) as (i' & H1 & H2); [|congruence].
    apply Hd. by rewrite lookup_app_r, Nat.sub_diag by lia. }
  eexists _, _. split.
  - unfold File_Append, in_file, zoom, this_get, this_mod, on_disk, fwrite, mbind, EM_bind, eget, emod. simpl.
    rewrite Hf. simpl. rewrite fwrite_all, Z.eqb_refl. simpl. rewrite u64_small by lia. reflexivity.
  - split; simpl; try done.
    + rewrite Hi, take_ge by (unfold Zlen; lia). apply disk_call. apply disk_append; [done| |done|done].
      intros H0. destruct (Hh H0) as (_ & _ & _ & ?). rewrite Zlen_app, Zlen_cons, Zlen_nil. lia.
    + eexists i, _, s. split; [done|]. rewrite Zlen_app. split; [done|]. lia.
Qed.

Lemma next_name_run k b d :
  generator_ b = mkRotate (file_id k) max -> basename_ b = base -> Z.of_nat (S k) < 2 ^ 31 ->
  next_name fmt_name (b, d) = (Ok (log_name k), (set_generator (mkRotate (file_id (S k)) max) b, d)).
Proof.
  intros Hg Hb Hk. unfold next_name, this_get, this_mod, elift, mbind, EM_bind, eget, emod, GetName. simpl. rewrite Hg, Hb. simpl.
  assert (Hr : - 2 ^ 31 <= file_id k + 1 < 2 ^ 31).
  { unfold LogFileSpec.file_id. destruct (Z.gtb_spec max 0); [|lia].
    pose proof (Z.mod_pos_bound (Z.of_nat k) max ltac:(lia)). lia. }
  rewrite int32_ok by done. simpl. do 4 f_equal. unfold LogFileSpec.file_id in *.
  destruct (Z.gtb_spec max 0); [|lia]. pose proof (Z.mod_pos_bound (Z.of_nat k) max ltac:(lia)).
  rewrite Z.rem_mod_nonneg, Z.add_mod_idemp_l by lia. f_equal. lia.
Qed.

Lemma open_run name b d :
  dir d !! name = None ->
  in_file (File_Open fopen_ok fstat_ok name false) (b, d) =
    (Ok tt, (set_file (mkFile (Some (fresh (dom (inodes d)))) 0 0 name) b, call_done (created name d))).
Proof.
  intros Hn. unfold in_file, zoom, File_Open, File_Close, this_mod, on_disk, zoom, file_inner_Open, file_inner_Size,
    mbind, EM_bind, emod. simpl. rewrite fopen_succeeds, Hn. simpl. rewrite fstat_succeeds, lookup_insert_eq. done.
Qed.

Lemma push_history_run b d :
  CQ_ok (filename_history_ b) -> 0 < max_capacity_ (filename_history_ b) ->
  CQ_Full (filename_history_ b) = false ->
  exists q, push_history (b, d) = (Ok tt, (set_history q b, d)) /\ CQ_ok q /\
    max_capacity_ q = max_capacity_ (filename_history_ b) /\
    items "" q = items "" (filename_history_ b) ++ [filename_ (file_ b)].
Proof.
  intros Hok Hpos Hfull. destruct (CQ_PushBack_spec "" _ (filename_ (file_ b)) Hok Hpos) as (q & Hq & Hokq & Hm & Hit & _).
  exists q. rewrite Hfull in Hit. split_and!; try done.
  unfold push_history, this_get, this_mod, elift, mbind, EM_bind, eget, emod. simpl. by rewrite Hq.
Qed.

(** [DeleteOld] with room in the history. *)
Lemma DeleteOld_room b d :
  CQ_ok (filename_history_ b) -> 0 < max_capacity_ (filename_history_ b) ->
  CQ_Full (filename_history_ b) = false ->
  exists q, DeleteOld remove_ok moved_from (b, d) = (Ok tt, (set_history q b, d)) /\ CQ_ok q /\
    max_capacity_ q = max_capacity_ (filename_history_ b) /\
    items "" q = items "" (filename_history_ b) ++ [filename_ (file_ b)].
Proof.
  intros Hok Hpos Hfull. destruct (push_history_run b d Hok Hpos Hfull) as (q & Hq & H).
  exists q. split; [|done]. unfold DeleteOld, this_get, mbind, EM_bind, eget. simpl. by rewrite Hfull.
Qed.

(** [DeleteOld] with a full history: the oldest file goes. *)
Lemma DeleteOld_full b d x l i :
  CQ_ok (filename_history_ b) -> 1 < max_capacity_ (filename_history_ b) ->
  CQ_Full (filename_history_ b) = true -> items "" (filename_history_ b) = x :: l -> dir d !! x = Some i ->
  exists q, DeleteOld remove_ok moved_from (b, d) =
      (Ok tt, (set_history q b, call_done (mkDisk (delete x (dir d)) (inodes d) (lib_calls d)))) /\ CQ_ok q /\
    max_capacity_ q = max_capacity_ (filename_history_ b) /\ items "" q = l ++ [filename_ (file_ b)].
Proof.
  intros Hok Hpos Hfull Hit Hd.
  destruct (CQ_PopFront_spec "" moved_from _ x l Hok Hit) as (q1 & Hq1 & Hok1 & Hit1 & Hm1 & _).
  assert (Hnf : CQ_Full q1 = false).
  { destruct (CQ_Full q1) eqn:E; [|done]. apply (CQ_Full_size q1 Hok1) in E; [|lia].
    apply (CQ_Full_size _ Hok) in Hfull; [|lia]. pose proof (items_length "" _ Hok) as H1.
    pose proof (items_length "" _ Hok1) as H2. rewrite Hit, Zlen_cons in H1. rewrite Hit1 in H2. lia. }
  destruct (push_history_run (set_history q1 b) (call_done (mkDisk (delete x (dir d)) (inodes d) (lib_calls d))) Hok1)
    as (q & Hq & Hokq & Hm & Hitq); [simpl; lia|done|]. simpl in *. exists q. rewrite Hitq, Hit1.
  split_and!; [|done|congruence|done].
  unfold DeleteOld, this_get, this_mod, on_disk, zoom, elift, file_inner_Remove, mbind, EM_bind, eget, emod. simpl.
  rewrite Hfull, Hq1. simpl. rewrite Hd, remove_succeeds. simpl. rewrite Hq. by destruct b.
Qed.

(** The part of [InnerSinkIt] that changes the file. *)
Definition rotate : BM unit :=
  _ ← (name ← next_name fmt_name; in_file (File_Open fopen_ok fstat_ok name false));
  b ← this_get id;
  if max_files_ b >? 0 then DeleteOld remove_ok moved_from else mret tt.

(** The backend and the directory when the next file, number [k], has been opened. *)
Definition opened_backend (k : nat) (b : FileBackend) (d : Disk) : FileBackend :=
  set_file (mkFile (Some (fresh (dom (inodes d)))) 0 0 (log_name k)) (set_generator (mkRotate (file_id (S k)) max) b).
Definition opened_disk (k : nat) (d : Disk) : Disk := call_done (created (log_name k) d).

Lemma rotate_opens lo pre cur b d :
  back_ok lo pre cur b d -> Z.of_nat (lo + length pre + 2) < 2 ^ 31 ->
  let k := S (lo + length pre) in
  rotate (b, d) = (if max >? 0 then DeleteOld remove_ok moved_from (opened_backend k b d, opened_disk k d)
                   else (Ok tt, (opened_backend k b d, opened_disk k d))) /\
  disk_ok lo ((pre ++ [cur]) ++ [[]]) (opened_disk k d) /\
  dir (opened_disk k d) !! log_name k = Some (fresh (dom (inodes d))).
Proof.
  intros [Hd Hg Hb Hm Hf Hh Hfu] Hlt k.
  assert (Hlen : 0 < max -> Zlen (pre ++ [cur]) < max).
  { intros H0. destruct (Hh H0) as (_ & _ & _ & ?). rewrite Zlen_app, Zlen_cons, Zlen_nil. lia. }
  assert (Ek : (lo + length (pre ++ [cur]) = k)%nat) by (rewrite length_app; simpl; lia).
  pose proof (disk_next_free _ _ _ fmt_name_inj _ _ _ Hlen Hd) as Hfree.
  pose proof (disk_create _ _ _ fmt_name_inj _ _ _ Hlen Hd) as Hd1. rewrite Ek in *.
  split_and!; [|by apply disk_call|apply lookup_insert_eq].
  unfold rotate. unfold mbind at 1, EM_bind at 1. unfold mbind at 1, EM_bind at 1.
  rewrite (next_name_run _ b d Hg Hb) by lia. rewrite open_run by done.
  unfold this_get, mbind, EM_bind, eget. simpl. rewrite Hm. by destruct (max >? 0).
Qed.

Lemma names_snoc lo n : (log_name <$> seq lo (S n)) = (log_name <$> seq lo n) ++ [log_name (lo + n)].
Proof. by rewrite seq_S, fmap_app. Qed.

(** The files kept after the rotation are full. *)
Lemma all_full (pre : list (list Z)) (cur : list Z) :
  (forall j c, pre !! j = Some c -> MaxSize <= Zlen c) -> MaxSize <= Zlen cur ->
  forall j c, (pre ++ [cur]) !! j = Some c -> MaxSize <= Zlen c.
Proof.
  intros Hfu Hsz j c [|(? & Hj)]%lookup_app_Some; [eauto|]. by apply list_lookup_singleton_Some in Hj as [_ <-].
Qed.

Lemma rotated_same k b d : set_history (filename_history_ b) (opened_backend k b d) = opened_backend k b d.
Proof. done. Qed.

(** A rotation that keeps all the files. *)
Lemma rotated_more lo pre cur b d q :
  let k := S (lo + length pre) in
  back_ok lo pre cur b d -> MaxSize <= Zlen cur -> disk_ok lo ((pre ++ [cur]) ++ [[]]) (opened_disk k d) ->
  dir (opened_disk k d) !! log_name k = Some (fresh (dom (inodes d))) ->
  (0 < max -> CQ_ok q /\ max_capacity_ q = max /\
     items "" q = items "" (filename_history_ b) ++ [log_name k] /\ Zlen pre + 2 <= max - 1) ->
  back_ok lo (pre ++ [cur]) [] (set_history q (opened_backend k b d)) (opened_disk k d).
Proof.
  intros k [Hd Hg Hb Hm Hf Hh Hfu] Hsz Hd1 Hdir Hq.
  assert (Ek : (lo + length (pre ++ [cur]) = k)%nat) by (rewrite length_app; simpl; lia).
  split; simpl; rewrite ?Ek; try done.
  - eexists _, 0, 0. by split_and!.
  - intros H0. destruct (Hq H0) as (? & ? & Hit & ?). destruct (Hh H0) as (_ & _ & Hitb & _).
    split_and!; [done|done| |rewrite Zlen_app, Zlen_cons, Zlen_nil; lia].
    rewrite length_app, Nat.add_1_r. change (items "" q = log_name <$> seq lo (S (S (length pre)))).
    by rewrite names_snoc, Hit, Hitb, Nat.add_succ_r.
  - by apply all_full.
Qed.

(** A rotation that drops the oldest file. *)
Lemma rotated_less lo pre cur c pre' b d q :
  let k := S (lo + length pre) in
  back_ok lo pre cur b d -> MaxSize <= Zlen cur -> 0 < max -> pre ++ [cur] = c :: pre' ->
  disk_ok lo ((pre ++ [cur]) ++ [[]]) (opened_disk k d) ->
  dir (opened_disk k d) !! log_name k = Some (fresh (dom (inodes d))) ->
  CQ_ok q -> max_capacity_ q = max -> items "" q = (log_name <$> seq (S lo) (length pre)) ++ [log_name k] ->
  back_ok (S lo) pre' [] (set_history q (opened_backend k b d))
    (call_done (mkDisk (delete (log_name lo) (dir (opened_disk k d))) (inodes (opened_disk k d)) (lib_calls (opened_disk k d)))).
Proof.
  intros k [Hd Hg Hb Hm Hf Hh Hfu] Hsz Hpos Epre Hd1 Hdir Hokq Hcap Hit. destruct (Hh Hpos) as (_ & _ & _ & Hl).
  assert (El : length pre' = length pre) by (apply (f_equal length) in Epre; rewrite length_app in Epre; simpl in Epre; lia).
  assert (Ek : (S lo + length pre' = k)%nat) by (unfold k; lia). rewrite Epre in Hd1.
  split; rewrite ?Ek; try done.
  - apply disk_call, (disk_remove _ _ _ fmt_name_inj lo c (pre' ++ [[]]) (opened_disk k d)); [|done].
    intros _. rewrite Zlen_cons, Zlen_app, Zlen_cons, Zlen_nil. unfold Zlen in *. lia.
  - eexists _, 0, 0. split_and!; [done| |done|done|done]. simpl. rewrite lookup_delete_ne; [done|].
    intros E. apply log_name_inj in E; [lia|done|]. unfold Zlen in Hl. lia.
  - intros _. split_and!; [done|done| |unfold Zlen in *; lia]. rewrite El, names_snoc. exact Hit.
  - intros j c' Hj. apply (all_full pre cur Hfu Hsz (S j)). by rewrite Epre.
Qed.

Lemma rotate_run lo pre cur b d :
  back_ok lo pre cur b d -> MaxSize <= Zlen cur -> Z.of_nat (lo + length pre + 2) < 2 ^ 31 ->
  exists lo' pre' b' d', rotate (b, d) = (Ok tt, (b', d')) /\ back_ok lo' pre' [] b' d' /\
    ((lo' = lo /\ pre' = pre ++ [cur]) \/
     (0 < max /\ lo' = S lo /\ Zlen pre' + 1 = max - 1 /\ exists c, pre ++ [cur] = c :: pre')).
Proof.
  intros Hok Hsz Hlt. destruct (rotate_opens lo pre cur b d Hok Hlt) as (-> & Hd1 & Hdir).
  set (k := S (lo + length pre)) in *. pose proof (back_hist _ _ _ _ _ Hok) as Hh.
  destruct (Z.gtb_spec max 0) as [Hpos|Hpos].
  - destruct (Hh Hpos) as (Hq & Hcap & Hit & Hl). pose proof (items_length "" _ Hq) as Hil.
    pose proof (CQ_Full_size _ Hq ltac:(lia)) as Hsize.
    rewrite Hit in Hil. unfold Zlen in Hil at 1. rewrite length_fmap, length_seq in Hil.
    destruct (CQ_Full (filename_history_ b)) eqn:Hfull.
    + destruct (pre ++ [cur]) as [|c pre'] eqn:Epre; [by destruct pre|].
      destruct (content_dir (opened_disk k d) (log_name lo) c) as (i0 & Hi0 & _).
      { rewrite <- (Nat.add_0_r lo). by apply Hd1. }
      destruct (DeleteOld_full (opened_backend k b d) (opened_disk k d) (log_name lo) (log_name <$> seq (S lo) (length pre)) i0)
        as (q & Hrun & Hokq & Hcq & Hitq); [done|simpl; lia|done|done|done|].
      rewrite Hrun. eexists (S lo), pre', _, _. split; [done|]. split.
      * apply (rotated_less lo pre cur c pre'); try done; [by rewrite Epre|by rewrite Hcq].
      * right. apply (f_equal length) in Epre. rewrite length_app in Epre. simpl in Epre.
        pose proof (proj1 Hsize eq_refl). unfold Zlen in *. split_and!; [done|done|lia|by exists c].
    + destruct (DeleteOld_room (opened_backend k b d) (opened_disk k d) Hq) as (q & Hrun & Hokq & Hcq & Hitq); [simpl; lia|done|].
      rewrite Hrun. eexists lo, (pre ++ [cur]), _, _. split; [done|]. split; [|by left].
      apply rotated_more; try done. intros _. split_and!; [done|by rewrite Hcq|done|].
      assert (CQ_Size (filename_history_ b) <> max - 1) by (rewrite <- Hcap; intros E; apply Hsize in E; done).
      unfold Zlen in *. lia.
  - eexists lo, (pre ++ [cur]), _, _. split; [done|]. split; [|by left].
    rewrite <- (rotated_same k b d). apply rotated_more; try done. lia.
Qed.

(** What was logged, [all], is what rotation has dropped, [gone], and what is in the files;
    it drops files only when there are as many as the limit allows. *)
Definition kept (all gone : list Z) (lo : nat) (pre : list (list Z)) (cur : list Z) : Prop :=
  all = gone ++ concat (pre ++ [cur]) /\ (lo = 0%nat -> gone = []) /\
  (lo <> 0%nat -> 0 < max /\ Zlen pre + 1 = max - 1) /\ (0 < MaxSize -> Zlen cur < MaxSize).

#[local] Abbreviation InnerSinkIt :=
  (File_InnerSinkIt fopen_ok remove_ok fstat_ok fwrite_n fmt_name moved_from MaxSize).
#[local] Abbreviation sink_all := (sink_all fopen_ok remove_ok fstat_ok fwrite_n fmt_name moved_from MaxSize).

Lemma InnerSinkIt_split m b d b1 d1 :
  in_file (File_Append fwrite_n m) (b, d) = (Ok tt, (b1, d1)) ->
  InnerSinkIt m (b, d) = if ShouldRotate MaxSize (file_ b1) then rotate (b1, d1) else (Ok tt, (b1, d1)).
Proof using Type.
  intros H. unfold File_InnerSinkIt. rewrite (EM_bind_run _ _ _ _ _ H).
  rewrite (EM_bind_run (this_get id) _ (b1, d1) b1 (b1, d1)) by done. cbv zeta.
  by destruct (ShouldRotate MaxSize (file_ b1)).
Qed.

Lemma sink_run lo pre cur b d m all gone :
  back_ok lo pre cur b d -> kept all gone lo pre cur ->
  Zlen all + Zlen m < 2 ^ 64 -> Z.of_nat (lo + length pre + 2) < 2 ^ 31 ->
  exists lo' pre' cur' gone' b' d', InnerSinkIt m (b, d) = (Ok tt, (b', d')) /\
    back_ok lo' pre' cur' b' d' /\ kept (all ++ m) gone' lo' pre' cur' /\
    (lo' + length pre' <= S (lo + length pre))%nat.
Proof.
  intros Hok (Hall & Hg0 & Hg1 & Hcur) Hlt Hk. pose proof (Zlen_nonneg gone). pose proof (Zlen_nonneg (concat pre)).
  assert (Hc : Zlen all = Zlen gone + Zlen (concat pre) + Zlen cur).
  { rewrite Hall, concat_app, !Zlen_app. simpl. rewrite app_nil_r. lia. }
  destruct (append_run lo pre cur b d m Hok ltac:(lia)) as (b1 & d1 & Hrun & Hok1).
  assert (Hall' : all ++ m = gone ++ concat (pre ++ [cur ++ m])).
  { rewrite Hall, !concat_app. simpl. by rewrite !app_nil_r, !(assoc_L (++)). }
  rewrite (InnerSinkIt_split _ _ _ _ _ Hrun). destruct (back_file _ _ _ _ _ Hok1) as (i & w & s & Hf & _ & Hsw & ? & ?).
  assert (Hlen : File_Length (file_ b1) = Zlen (cur ++ m)).
  { rewrite Hf. unfold File_Length. simpl. rewrite Hsw. apply u64_small. rewrite Zlen_app.
    pose proof (Zlen_nonneg cur). pose proof (Zlen_nonneg m). lia. }
  unfold ShouldRotate. rewrite Hlen, Z.geb_leb. destruct (Z.leb_spec MaxSize (Zlen (cur ++ m))) as [Hsz|Hsz].
  - destruct (rotate_run lo pre (cur ++ m) b1 d1 Hok1 Hsz Hk) as (lo' & pre' & b' & d' & -> & Hok' & Hcase).
    destruct Hcase as [[-> ->]|(Hpos & -> & Hl & c & Hcons)].
    + exists lo, (pre ++ [cur ++ m]), [], gone, b', d'. split_and!; [done|done| |rewrite length_app; simpl; lia].
      split_and!; [|done|intros Hlo|done]. { by rewrite Hall', (concat_app _ [[]]), app_nil_r. }
      destruct (Hg1 Hlo) as [Hp Hl]. destruct (back_hist _ _ _ _ _ Hok' Hp) as (_ & _ & _ & Hb).
      rewrite Zlen_app, Zlen_cons, Zlen_nil in Hb. lia.
    + exists (S lo), pre', [], (gone ++ c), b', d'. assert (length pre' = length pre).
      { apply (f_equal length) in Hcons. rewrite length_app in Hcons. simpl in Hcons. lia. }
      split_and!; [done|done| |lia]. split_and!; [|done|done|done].
      rewrite Hall', Hcons, (concat_app _ [[]]), app_nil_r. simpl. by rewrite (assoc_L (++)).
  - exists lo, pre, (cur ++ m), gone, b1, d1. split_and!; try done. lia.
Qed.

Lemma sink_all_run msgs : forall lo pre cur b d all gone,
  back_ok lo pre cur b d -> kept all gone lo pre cur ->
  Zlen all + Zlen (concat msgs) < 2 ^ 64 -> Z.of_nat (lo + length pre + length msgs + 2) < 2 ^ 31 ->
  exists lo' pre' cur' gone' b' d', sink_all msgs (b, d) = (Ok tt, (b', d')) /\
    back_ok lo' pre' cur' b' d' /\ kept (all ++ concat msgs) gone' lo' pre' cur'.
Proof.
  induction msgs as [|m msgs IH]; intros lo pre cur b d all gone Hok Hk Hlt Hn; simpl.
  - rewrite app_nil_r. by exists lo, pre, cur, gone, b, d.
  - simpl in Hlt, Hn. rewrite Zlen_app in Hlt. pose proof (Zlen_nonneg (concat msgs)).
    destruct (sink_run lo pre cur b d m all gone Hok Hk ltac:(lia) ltac:(lia))
      as (lo1 & pre1 & cur1 & gone1 & b1 & d1 & Hrun & Hok1 & Hk1 & Hle).
    destruct (IH lo1 pre1 cur1 b1 d1 (all ++ m) gone1 Hok1 Hk1) as (lo2 & pre2 & cur2 & gone2 & b2 & d2 & Hrun2 & Hok2 & Hk2);
      [rewrite Zlen_app; lia|lia|].
    exists lo2, pre2, cur2, gone2, b2, d2. rewrite <- (assoc_L (++)) in Hk2. split_and!; [|done|done].
    unfold mbind, EM_bind. by rewrite Hrun.
Qed.

(** The constructor on a directory without log files. *)
Lemma ctor_run d :
  disk_ok 0 [] d ->
  exists b' d', FileBackend_ctor fopen_ok fstat_ok fmt_name (FileBackend_new base max, d) = (Ok tt, (b', d')) /\
    back_ok 0 [] [] b' d'.
Proof.
  intros Hd. assert (Hlen : 0 < max -> Zlen (@nil (list Z)) < max) by (intros; unfold Zlen; simpl; lia).
  pose proof (disk_next_free _ _ _ fmt_name_inj _ _ _ Hlen Hd) as Hfree.
  pose proof (disk_create _ _ _ fmt_name_inj _ _ _ Hlen Hd) as Hd1. simpl in Hfree, Hd1.
  assert (Hid : file_id 0 = 0) by (unfold LogFileSpec.file_id; destruct (Z.gtb_spec max 0); [by apply Z.mod_0_l; lia|done]).
  unfold FileBackend_ctor. unfold mbind at 1, EM_bind at 1.
  rewrite (next_name_run 0) by (simpl; rewrite ?Hid; lia || done).
  unfold mbind at 1, EM_bind at 1. rewrite open_run by done. unfold mbind at 1, EM_bind at 1, this_get, eget. simpl.
  assert (Hfile : exists i w s, mkFile (Some (fresh (dom (inodes d)))) 0 0 (log_name 0) = mkFile (Some i) w s (log_name 0) /\
    dir (call_done (created (log_name 0) d)) !! log_name 0 = Some i /\ s + w = Zlen (@nil Z) /\ 0 <= s /\ 0 <= w).
  { eexists _, 0, 0. split_and!; try done. apply lookup_insert_eq. }
  destruct (Z.gtb_spec max 0) as [Hpos|Hpos].
  - set (b1 := set_file (mkFile (Some (fresh (dom (inodes d)))) 0 0 (log_name 0))
                 (set_generator (mkRotate (file_id 1) max) (FileBackend_new base max))).
    assert (Eq : filename_history_ b1 = CQ_ctor "" max) by (simpl; by rewrite (proj2 (Z.gtb_lt _ _)) by lia).
    destruct (CQ_ctor_ok "" max ltac:(lia)) as [Hq Hi].
    destruct (push_history_run b1 (call_done (created (log_name 0) d))) as (q & Hrun & Hokq & Hcq & Hitq);
      [by rewrite Eq|rewrite Eq; simpl; lia| |].
    { rewrite Eq. apply Z.eqb_neq || idtac. unfold CQ_Full. simpl. rewrite (proj2 (Z.gtb_lt _ _)) by lia.
      apply Z.eqb_neq. rewrite Z.mod_small; lia. }
    rewrite Hrun. eexists _, _. split; [done|]. split; try done; [by apply disk_call|].
    intros _. rewrite Eq, Hi in Hitq. simpl. rewrite Hitq, Hcq, Eq. split_and!; [done|done|done|]. rewrite Zlen_nil. lia.
  - eexists _, _. split; [done|]. split; try done; [by apply disk_call|lia].
Qed.

Lemma retention d msgs :
  disk_ok 0 [] d -> Zlen (concat msgs) < 2 ^ 64 -> Z.of_nat (length msgs) + 2 < 2 ^ 31 ->
  exists lo pre cur gone b' d',
    (_ ← FileBackend_ctor fopen_ok fstat_ok fmt_name; sink_all msgs) (FileBackend_new base max, d) = (Ok tt, (b', d')) /\
    back_ok lo pre cur b' d' /\ kept (concat msgs) gone lo pre cur.
Proof.
  intros Hd Hlen Hn. destruct (ctor_run d Hd) as (b1 & d1 & Hrun & Hok).
  destruct (sink_all_run msgs 0 [] [] b1 d1 [] []) as (lo & pre & cur & gone & b & d' & Hrun2 & Hok2 & Hk);
    [done|by split_and!|rewrite Zlen_nil; lia|simpl; lia|].
  exists lo, pre, cur, gone, b, d'. split_and!; [|done|done]. unfold mbind, EM_bind. by rewrite Hrun.
Qed.
End retention.

(** ** A limit of one file *)

Section single.
Context (fopen_ok remove_ok fstat_ok : nat -> bool) (fwrite_n : nat -> Z -> Z).
Context (fmt_name : string -> Z -> string) (moved_from : string -> string) (MaxSize : Z) (base : string).
Hypothesis fopen_succeeds : forall k, fopen_ok k = true.
Hypothesis remove_succeeds : forall k, remove_ok k = true.
Hypothesis fwrite_all : forall k n, fwrite_n k n = n.

#[local] Set Default Proof Using "All".

#[local] Abbreviation InnerSinkIt :=
  (File_InnerSinkIt fopen_ok remove_ok fstat_ok fwrite_n fmt_name moved_from MaxSize).
#[local] Abbreviation sink_all := (sink_all fopen_ok remove_ok fstat_ok fwrite_n fmt_name moved_from MaxSize).
#[local] Abbreviation name := (fmt_name base 0).

(** A backend that was given the limit 1, with an open file. *)
Definition single_ok (b : FileBackend) : Prop :=
  generator_ b = mkRotate 0 1 /\ basename_ b = base /\ max_files_ b = 1 /\ is_Some (fp_ (file_ b)) /\
  filename_ (file_ b) = name /\
  exists o, filename_history_ b = mkCQ 1 o 0 0 [name].

(** Opening: whether the file is there or not, it is afterwards. *)
Lemma open_any b d :
  exists i d' s, in_file (File_Open fopen_ok fstat_ok name false) (b, d) =
    (Ok tt, (set_file (mkFile (Some i) 0 s name) b, d')) /\ dir d' !! name = Some i.
Proof.
  unfold in_file, zoom, File_Open, File_Close, this_mod, on_disk, zoom, file_inner_Open, file_inner_Size,
    mbind, EM_bind, emod. simpl. rewrite fopen_succeeds. destruct (dir d !! name) as [i|] eqn:E; simpl.
  - by eexists i, _, _.
  - eexists _, _, _. split; [done|]. apply lookup_insert_eq.
Qed.

(** Rotation with the limit 1 removes the file it has just opened. *)
Lemma rotate_single b d :
  single_ok b ->
  exists b' d', rotate fopen_ok remove_ok fstat_ok fmt_name moved_from (b, d) = (Ok tt, (b', d')) /\
    single_ok b' /\ dir d' !! name = None.
Proof.
  intros (Hg & Hb & Hm & Hf & Hn & o & Hh). unfold rotate.
  assert (E1 : next_name fmt_name (b, d) = (Ok name, (set_generator (mkRotate 0 1) b, d))).
  { unfold next_name, this_get, this_mod, elift, mbind, EM_bind, eget, emod, GetName. simpl. by rewrite Hg, Hb. }
  destruct (open_any (set_generator (mkRotate 0 1) b) d) as (i & d1 & s & E2 & Hd1).
  rewrite (EM_bind_run _ _ _ tt (set_file (mkFile (Some i) 0 s name) (set_generator (mkRotate 0 1) b), d1)).
  2: { by rewrite (EM_bind_run _ _ _ _ _ E1). }
  unfold DeleteOld, push_history, this_get, this_mod, on_disk, zoom, elift, file_inner_Remove, mbind, EM_bind, eget, emod.
  simpl. rewrite Hm. simpl. rewrite Hh. simpl. rewrite Hd1, remove_succeeds. simpl.
  eexists _, _. split; [done|]. split; [|simpl; apply lookup_delete_eq].
  split_and!; try done. by eexists.
Qed.

Lemma append_single m b d :
  single_ok b -> exists b' d', in_file (File_Append fwrite_n m) (b, d) = (Ok tt, (b', d')) /\ single_ok b' /\ dir d' = dir d.
Proof.
  intros (Hg & Hb & Hm & [i Hf] & Hn & Hh).
  unfold File_Append, in_file, zoom, this_get, this_mod, on_disk, fwrite, mbind, EM_bind, eget, emod. simpl.
  rewrite Hf. simpl. rewrite fwrite_all, Z.eqb_refl. simpl. eexists _, _. split; [done|]. split; [|done].
  by split_and!.
Qed.

(** Once the file is gone, no message is ever in the directory again. *)
Lemma sink_single msgs : forall b d, single_ok b -> dir d !! name = None ->
  exists b' d', sink_all msgs (b, d) = (Ok tt, (b', d')) /\ dir d' !! name = None.
Proof.
  induction msgs as [|m msgs IH]; intros b d Hok Hd; [by exists b, d|].
  destruct (append_single m b d Hok) as (b1 & d1 & E1 & Hok1 & Hd1). simpl.
  assert (Hs : exists b2 d2, InnerSinkIt m (b, d) = (Ok tt, (b2, d2)) /\ single_ok b2 /\ dir d2 !! name = None).
  { rewrite (InnerSinkIt_split fopen_ok remove_ok fstat_ok fwrite_n fmt_name moved_from MaxSize m b d b1 d1 E1).
    destruct (ShouldRotate MaxSize (file_ b1)); [by apply rotate_single|]. exists b1, d1. by rewrite Hd1. }
  destruct Hs as (b2 & d2 & E2 & Hok2 & Hd2). rewrite (EM_bind_run _ _ _ _ _ E2). by apply IH.
Qed.

(** With the limit 1 the first message that fills the file takes the log away for good. *)
Lemma single_lost m msgs d :
  dir d !! name = None -> MaxSize <= Zlen m < 2 ^ 64 ->
  exists b' d',
    (_ ← FileBackend_ctor fopen_ok fstat_ok fmt_name; sink_all (m :: msgs)) (FileBackend_new base 1, d) = (Ok tt, (b', d')) /\
    content d' name = None.
Proof.
  intros Hd Hm.
  assert (E1 : next_name fmt_name (FileBackend_new base 1, d) = (Ok name, (FileBackend_new base 1, d))) by done.
  assert (E2 : exists i d1, in_file (File_Open fopen_ok fstat_ok name false) (FileBackend_new base 1, d) =
    (Ok tt, (set_file (mkFile (Some i) 0 0 name) (FileBackend_new base 1), d1))).
  { unfold in_file, zoom, File_Open, File_Close, this_mod, on_disk, zoom, file_inner_Open, file_inner_Size,
      mbind, EM_bind, emod. simpl. rewrite fopen_succeeds, Hd. simpl. rewrite lookup_insert_eq. simpl.
    rewrite if_same. by eexists _, _. }
  destruct E2 as (i & d1 & E2).
  set (b1 := set_history (mkCQ 1 1 0 0 [name]) (set_file (mkFile (Some i) 0 0 name) (FileBackend_new base 1))).
  assert (E3 : FileBackend_ctor fopen_ok fstat_ok fmt_name (FileBackend_new base 1, d) = (Ok tt, (b1, d1))).
  { unfold FileBackend_ctor. by rewrite (EM_bind_run _ _ _ _ _ E1), (EM_bind_run _ _ _ _ _ E2). }
  rewrite (EM_bind_run _ _ _ _ _ E3). assert (Hok : single_ok b1) by (split_and!; try done; by eexists).
  assert (E4 : exists d2 b2, in_file (File_Append fwrite_n m) (b1, d1) = (Ok tt, (b2, d2)) /\ single_ok b2 /\
    ShouldRotate MaxSize (file_ b2) = true).
  { unfold File_Append, in_file, zoom, this_get, this_mod, on_disk, fwrite, mbind, EM_bind, eget, emod. simpl.
    rewrite fwrite_all, Z.eqb_refl. simpl. eexists _, _. split; [done|]. split; [split_and!; try done; by eexists|].
    unfold ShouldRotate, File_Length. simpl. pose proof (Zlen_nonneg m). rewrite !u64_small by (rewrite ?u64_small; lia).
    apply Z.geb_le. lia. }
  destruct E4 as (d2 & b2 & E4 & Hok2 & Hrot). simpl.
  destruct (rotate_single b2 d2 Hok2) as (b3 & d3 & E5 & Hok3 & Hd3).
  assert (E6 : InnerSinkIt m (b1, d1) = (Ok tt, (b3, d3))).
  { by rewrite (InnerSinkIt_split _ _ _ fwrite_n _ _ MaxSize m b1 d1 b2 d2 E4), Hrot. }
  rewrite (EM_bind_run _ _ _ _ _ E6). destruct (sink_single msgs b3 d3 Hok3 Hd3) as (b' & d' & E7 & Hd').
  exists b', d'. split; [done|]. unfold content. by rewrite Hd'.
Qed.
End single.

(** ** A file that cannot be opened *)

Section failed_open.
Context (fopen_ok remove_ok fstat_ok : nat -> bool) (fwrite_n : nat -> Z -> Z).
Context (fmt_name : string -> Z -> string) (moved_from : string -> string) (MaxSize : Z).

#[local] Abbreviation InnerSinkIt :=
  (File_InnerSinkIt fopen_ok remove_ok fstat_ok fwrite_n fmt_name moved_from MaxSize).

(** The message is written, the rotation throws, and the stream is left closed. *)
Lemma rotation_fails m b d b1 d1 :
  in_file (File_Append fwrite_n m) (b, d) = (Ok tt, (b1, d1)) -> ShouldRotate MaxSize (file_ b1) = true ->
  - 2 ^ 31 <= rotate_id_ (generator_ b1) < 2 ^ 31 - 1 -> fopen_ok (lib_calls d1) = false ->
  exists b' d', InnerSinkIt m (b, d) = (Throw Exception, (b', d')) /\ fp_ (file_ b') = None /\
    dir d' = dir d1 /\ inodes d' = inodes d1.
Proof.
  intros E1 Hrot Hid Hf. rewrite (InnerSinkIt_split _ _ _ _ _ _ _ _ _ _ _ _ E1), Hrot.
  unfold rotate, next_name, GetName, this_get, this_mod, elift, in_file, zoom, File_Open, File_Close, on_disk, zoom,
    file_inner_Open, mbind, EM_bind, eget, emod. simpl. rewrite int32_ok by lia. simpl. rewrite Hf. simpl.
  by eexists _, _.
Qed.

(** The next message is written to a closed stream. *)
Lemma closed_undefined m b d : fp_ (file_ b) = None -> fst (InnerSinkIt m (b, d)) = UB.
Proof.
  intros Hf. unfold File_InnerSinkIt, in_file, zoom, File_Append, this_get, on_disk, zoom, fwrite, mbind, EM_bind, eget.
  simpl. by rewrite Hf.
Qed.

(** A write that comes out short throws, with the stream open and what was taken in the file. *)
Lemma short_write m b d i :
  fp_ (file_ b) = Some i -> fwrite_n (lib_calls d) (Zlen m) <> Zlen m ->
  exists d', InnerSinkIt m (b, d) = (Throw Exception, (b, d')) /\ dir d' = dir d /\
    inodes d' !! i = Some (default [] (inodes d !! i) ++ take (Z.to_nat (fwrite_n (lib_calls d) (Zlen m))) m).
Proof.
  intros Hf Hn. unfold File_InnerSinkIt, in_file, zoom, File_Append, this_get, on_disk, zoom, fwrite, mbind, EM_bind, eget.
  simpl. rewrite Hf. simpl. rewrite (proj2 (Z.eqb_neq _ _)) by done. simpl. eexists. split.
  - f_equal. f_equal. unfold set_file. by destruct b as [? ? [? ? ? ?] ? ?].
  - split; [done|]. apply lookup_insert_eq.
Qed.
End failed_open.
