(* ===== verification/Log.v ===== *)
(** * Loggers, their messages and backends.

    Sources: include/hare/log/details/msg.h, hare/log/details/msg.cc,
    include/hare/log/backends/base_backend.h, std_backend.h, include/hare/log/logging.h,
    include/hare/log/registry.h and hare/log/registry.cc.

    Backends are shared objects: a logger keeps their addresses, the objects live in
    [LogWorld].  A backend may be a class of the user: what its [Log] and [Flush] do to the
    state of the user is a parameter.  The calls made on the backends and on the error
    handler are recorded in [obs].  [fmt] is a parameter, as is what the text of a message
    comes to.  The thread-local variables of [LogTime] are kept per thread. *)

From Stdlib Require Import Ascii.
From S2P Require Import Prelude Queue Time Exceptions LogFile.

(** ** Levels *)

Definition LEVEL_TRACE : Z := 0.
Definition LEVEL_DEBUG : Z := 1.
Definition LEVEL_INFO : Z := 2.
Definition LEVEL_WARNING : Z := 3.
Definition LEVEL_ERROR : Z := 4.
Definition LEVEL_FATAL : Z := 5.
Definition LEVEL_NBRS : Z := 6.

Definition level_name : list string :=
  ["trace"; "debug"; "info"; "warning"; "error"; "fatal"; "nbrs"].

Definition ToStr (level : Z) : outcome string := index level_name level.

Definition name_to_level : gmap string Z :=
  list_to_map [("trace", LEVEL_TRACE); ("debug", LEVEL_DEBUG); ("info", LEVEL_INFO);
               ("warning", LEVEL_WARNING); ("error", LEVEL_ERROR); ("fatal", LEVEL_FATAL); ("nbrs", LEVEL_NBRS)].

Definition FromStr (name : string) : Z := default LEVEL_NBRS (name_to_level !! name).

(** ** Messages *)

Record SourceLoc := mkLoc { filename : string; funcname : string; line : Z }.

(** [std::strrchr]: the rest of the string from the last occurrence on. *)
Fixpoint strrchr (s : string) (c : Ascii.ascii) : option string :=
  match s with
  | EmptyString => None
  | String a r =>
    match strrchr r c with
    | Some t => Some t
    | None => if decide (a = c) then Some s else None
    end
  end.

Definition HARE_SLASH : Ascii.ascii := "/"%char.

Definition SourceLoc_ctor (file : string) (line : Z) (func : string) : SourceLoc :=
  mkLoc (match strrchr file HARE_SLASH with Some (String _ t) => t | _ => file end) func line.

Definition SourceLoc_Empty (l : SourceLoc) : bool := line l =? 0.

(** [capacity]: what the memory buffer [raw_] has room for.  The pointers [name_] and
    [timezone_] of a message made by a logger point into that logger; [attached] tells
    whether they are set. *)
Record Msg := mkMsg {
  attached : bool; msg_level : Z; msg_tid : Z; msg_id : Z; stamp_ : Z;
  raw_ : list Z; capacity : Z; loc_ : SourceLoc
}.

Definition HARE_MICROSECONDS_PER_SECOND : Z := 1000000.

(** The thread-local variables of [LogTime]. *)
Record LogTls := mkTls { t_last_time : Z; t_time : string }.
Definition LogTls_init : LogTls := mkTls 0 "".

Definition Msg_default (now cap : Z) : Msg := mkMsg false LEVEL_NBRS 0 0 now [] cap (mkLoc "" "" 0).

Section format.
(** What fmt makes of a date and time in [DateTime::ToFmt] (Stamps.v), here as a string; and
    of a line of the log. *)
Context (fmt_datetime : DateTime -> string)
        (fmt_record : string -> Z -> string -> Z -> list Z -> string -> Z -> string -> list Z).

(** [LogTime]: the text, the microseconds, and the variables of the thread. *)
Definition LogTime (tls : LogTls) (m : Msg) (tz : TimezoneImpl) : outcome (string * Z * LogTls) :=
  let seconds := Z.quot (stamp_ m) HARE_MICROSECONDS_PER_SECOND in
  let microseconds := i32 (stamp_ m - seconds * HARE_MICROSECONDS_PER_SECOND) in
  _ ← hare_assert (attached m);
  if negb (seconds =? t_last_time tls) then
    dt ← (if valid tz then r ← ToLocal tz seconds; Ok (fst r) else ToUtcTime seconds);
    Ok (fmt_datetime dt, microseconds, mkTls seconds (fmt_datetime dt))
  else Ok (t_time tls, microseconds, tls).

(** [_msg.raw_[_msg.raw_.size()] = '\0'] needs room for one byte more. *)
Definition FormatMsg (tls : LogTls) (tid : Z) (m : Msg) (tz : TimezoneImpl) : outcome (list Z * LogTls) :=
  r ← LogTime tls m tz;
  level ← ToStr (msg_level m);
  _ ← (if Zlen (raw_ m) <? capacity m then Ok tt else UB);
  Ok (fmt_record (fst (fst r)) (snd (fst r)) level tid (c_str (raw_ m))
        (filename (loc_ m)) (line (loc_ m)) (funcname (loc_ m)), snd r).
End format.

(** ** The objects *)

Inductive BackendImpl := STDBackend | FileBackendOf (b : FileBackend) | UserBackend (k : positive).

Record Backend := mkBackend { back_level : Z; impl : BackendImpl }.

(** [level_{LEVEL_INFO}] *)
Definition Backend_new (i : BackendImpl) : Backend := mkBackend LEVEL_INFO i.
Definition Backend_Check (b : Backend) (msg_level : Z) : bool := msg_level >=? back_level b.
Definition Backend_set_level (b : Backend) (level : Z) : Backend := mkBackend level (impl b).

Inductive LogObs := ObsLog (p : positive) (msg : list Z) (level : Z) | ObsFlush (p : positive) | ObsError (e : exn).

Record Logger := mkLogger {
  level_ : Z; flush_level_ : Z; msg_id_ : Z; timezone_ : TimezoneImpl; name_ : string; backends_ : list positive
}.

Definition Logger_ctor (unique_name : string) (backends : list positive) : Logger :=
  mkLogger LEVEL_TRACE LEVEL_WARNING 0 Timezone_default unique_name backends.

Definition set_level (level : Z) (l : Logger) : Logger :=
  mkLogger level (flush_level_ l) (msg_id_ l) (timezone_ l) (name_ l) (backends_ l).
Definition FlushOn (level : Z) (l : Logger) : Logger :=
  mkLogger (level_ l) level (msg_id_ l) (timezone_ l) (name_ l) (backends_ l).
Definition set_timezone (tz : TimezoneImpl) (l : Logger) : Logger :=
  mkLogger (level_ l) (flush_level_ l) (msg_id_ l) (Timezone_assign (timezone_ l) tz) (name_ l) (backends_ l).
Definition set_msg_id (i : Z) (l : Logger) : Logger :=
  mkLogger (level_ l) (flush_level_ l) i (timezone_ l) (name_ l) (backends_ l).

Definition Logger_Check (l : Logger) (level : Z) : bool := level >=? level_ l.
Definition ShouldFlushOn (l : Logger) (m : Msg) : bool :=
  (msg_level m >=? flush_level_ l) && (msg_level m <? LEVEL_NBRS).

Section world.
Context {U : Type}.

Record LogWorld := mkLogWorld {
  disk : Disk;
  backs : gmap positive Backend;
  stdout_ : list Z;
  stderr_ : list Z;
  tls_of : gmap Z LogTls;
  user_state : U;
  obs : list LogObs
}.

Definition set_disk (d : Disk) (w : LogWorld) : LogWorld :=
  mkLogWorld d (backs w) (stdout_ w) (stderr_ w) (tls_of w) (user_state w) (obs w).
Definition set_backs (b : gmap positive Backend) (w : LogWorld) : LogWorld :=
  mkLogWorld (disk w) b (stdout_ w) (stderr_ w) (tls_of w) (user_state w) (obs w).
Definition put_stdout (l : list Z) (w : LogWorld) : LogWorld :=
  mkLogWorld (disk w) (backs w) (stdout_ w ++ l) (stderr_ w) (tls_of w) (user_state w) (obs w).
Definition put_stderr (l : list Z) (w : LogWorld) : LogWorld :=
  mkLogWorld (disk w) (backs w) (stdout_ w) (stderr_ w ++ l) (tls_of w) (user_state w) (obs w).
Definition set_tls (tid : Z) (t : LogTls) (w : LogWorld) : LogWorld :=
  mkLogWorld (disk w) (backs w) (stdout_ w) (stderr_ w) (<[tid := t]> (tls_of w)) (user_state w) (obs w).
Definition set_user (u : U) (w : LogWorld) : LogWorld :=
  mkLogWorld (disk w) (backs w) (stdout_ w) (stderr_ w) (tls_of w) u (obs w).
Definition add_obs (o : LogObs) (w : LogWorld) : LogWorld :=
  mkLogWorld (disk w) (backs w) (stdout_ w) (stderr_ w) (tls_of w) (user_state w) (obs w ++ [o]).

(** A file backend with its file system, as a part of the world. *)
Definition file_part (level : Z) (p : positive) (fb : FileBackend) (w : LogWorld) : FileBackend * Disk := (fb, disk w).
Definition put_file_part (level : Z) (p : positive) (r : FileBackend * Disk) (w : LogWorld) : LogWorld :=
  set_backs (<[p := mkBackend level (FileBackendOf (fst r))]> (backs w)) (set_disk (snd r) w).

Section backends.
Context (fopen_ok remove_ok fstat_ok : nat -> bool) (fwrite_n : nat -> Z -> Z)
        (fmt_name : string -> Z -> string) (moved_from : string -> string) (MaxSize : Z).
Context (user_log : positive -> list Z -> Z -> EM U unit) (user_flush : positive -> EM U unit).
Context (fmt_datetime : DateTime -> string)
        (fmt_record : string -> Z -> string -> Z -> list Z -> string -> Z -> string -> list Z).

(** The room of a memory buffer that was given this many bytes. *)
Context (fmt_capacity : Z -> Z).

Abbreviation WM := (EM LogWorld).

Definition backend_at (p : positive) : WM Backend :=
  b ← eget (fun w => backs w !! p); elift (deref b).

(** [InnerSinkIt] of [STDBackend]. *)
Definition STD_InnerSinkIt (msg : list Z) (level : Z) : WM unit :=
  emod (if level <=? LEVEL_INFO then put_stdout msg else put_stderr msg).

(** [BaseBackend::Log] and the backends of the user. *)
Definition Backend_Log (p : positive) (msg : list Z) (level : Z) : WM unit :=
  b ← backend_at p;
  _ ← emod (add_obs (ObsLog p msg level));
  match impl b with
  | STDBackend => STD_InnerSinkIt msg level
  | FileBackendOf fb =>
    zoom (file_part (back_level b) p fb) (put_file_part (back_level b) p)
      (File_InnerSinkIt fopen_ok remove_ok fstat_ok fwrite_n fmt_name moved_from MaxSize msg)
  | UserBackend k => zoom user_state set_user (user_log k msg level)
  end.

(** [fflush] changes nothing here. *)
Definition Backend_Flush (p : positive) : WM unit :=
  b ← backend_at p;
  _ ← emod (add_obs (ObsFlush p));
  match impl b with
  | STDBackend | FileBackendOf _ => mret tt
  | UserBackend k => zoom user_state set_user (user_flush k)
  end.

(** The loop over [backends_] in [SinkIt]. *)
Fixpoint log_all (ps : list positive) (formatted : list Z) (level : Z) : WM unit :=
  match ps with
  | [] => mret tt
  | p :: ps =>
    b ← backend_at p;
    _ ← (if Backend_Check b level then Backend_Log p formatted level else mret tt);
    log_all ps formatted level
  end.

Fixpoint flush_all (ps : list positive) : WM unit :=
  match ps with
  | [] => mret tt
  | p :: ps => _ ← Backend_Flush p; flush_all ps
  end.

(** [error_handle_], which is [HandleLoggerError]. *)
Definition error_handle (e : exn) : WM unit := emod (add_obs (ObsError e)).

(** The [catch] blocks: the report, and the end of the exception. *)
Definition catch_all (e : exn) : WM unit := _ ← error_handle e; elift (end_catch e).

Abbreviation LM := (EM (Logger * LogWorld)).

Definition in_world {A} (m : WM A) : LM A := zoom snd (fun w s => (fst s, w)) m.
Definition lget {A} (f : Logger -> A) : LM A := eget (fun s => f (fst s)).
Definition lmod (f : Logger -> Logger) : LM unit := emod (fun s => (f (fst s), snd s)).

Definition Logger_Flush : LM unit :=
  ps ← lget backends_;
  in_world (etry (flush_all ps) catch_all).

Definition IncreaseMsgId (m : Msg) : LM Msg :=
  i ← lget msg_id_;
  _ ← lmod (set_msg_id (u64 (i + 1)));
  mret (mkMsg (attached m) (msg_level m) (msg_tid m) i (stamp_ m) (raw_ m) (capacity m) (loc_ m)).

(** What [SinkIt] and the handler of the asynchronous logger have in common: the number,
    the text, and the backends that want it.  [tid]: the thread that runs it. *)
Definition sink_msg (tid : Z) (m : Msg) : LM Msg :=
  m ← IncreaseMsgId m;
  tz ← lget timezone_;
  tls ← in_world (eget (fun w => default LogTls_init (tls_of w !! tid)));
  f ← elift (FormatMsg fmt_datetime fmt_record tls tid m tz);
  _ ← in_world (emod (set_tls tid (snd f)));
  ps ← lget backends_;
  _ ← in_world (log_all ps (fst f) (msg_level m));
  mret m.

Definition SinkIt (tid : Z) (m : Msg) : LM unit :=
  m ← sink_msg tid m;
  l ← lget id;
  if ShouldFlushOn l m then Logger_Flush else mret tt.

Definition Msg_ctor (level tid stamp : Z) (raw : list Z) (loc : SourceLoc) : Msg :=
  mkMsg true level tid 0 stamp raw (fmt_capacity (Zlen raw)) loc.

(** [Log]: [text] is what formatting the arguments comes to, [stamp] the time it is. *)
Definition Logger_Log (tid stamp : Z) (loc : SourceLoc) (level : Z) (text : outcome (list Z)) : LM unit :=
  l ← lget id;
  if negb (Logger_Check l level) then mret tt
  else
    etry (raw ← elift text; SinkIt tid (Msg_ctor level tid stamp raw loc))
         (fun e => in_world (catch_all e)).

Definition Logger_Trace tid stamp loc text : LM unit := Logger_Log tid stamp loc LEVEL_TRACE text.
Definition Logger_Debug tid stamp loc text : LM unit := Logger_Log tid stamp loc LEVEL_DEBUG text.
Definition Logger_Info tid stamp loc text : LM unit := Logger_Log tid stamp loc LEVEL_INFO text.
Definition Logger_Warning tid stamp loc text : LM unit := Logger_Log tid stamp loc LEVEL_WARNING text.
Definition Logger_Error tid stamp loc text : LM unit := Logger_Log tid stamp loc LEVEL_ERROR text.
Definition Logger_Fatal tid stamp loc text : LM unit := Logger_Log tid stamp loc LEVEL_FATAL text.
End backends.
End world.
Arguments LogWorld U : clear implicits.

(** ** The registry *)

(** Names of loggers and their addresses. *)
Definition Registry : Type := gmap string positive.

Definition AssertExists (r : Registry) (name : string) : outcome unit :=
  match r !! name with Some _ => Throw Exception | None => Ok tt end.

Definition RegisterLogger (r : Registry) (logger_name : string) (p : positive) : outcome Registry :=
  _ ← AssertExists r logger_name;
  Ok (<[logger_name := p]> r).

Definition Registry_Get (r : Registry) (name : string) : option positive := r !! name.
Definition Registry_Drop (r : Registry) (name : string) : Registry := delete name r.
Definition Registry_DropAll (r : Registry) : Registry := ∅.

(** [Create]: a new logger object, registered. *)
Definition Registry_Create (r : Registry) (loggers : gmap positive Logger) (name : string) (backends : list positive) :
    outcome (positive * Registry * gmap positive Logger) :=
  let tmp := fresh (dom loggers) in
  r ← RegisterLogger r name tmp;
  Ok (tmp, r, <[tmp := Logger_ctor name backends]> loggers).
