(* ===== verification/LogSpec.v ===== *)
(** * What a logger delivers.

    Which backends get a message, when they are flushed, what happens when one of them
    throws; the names of the levels, the file name of a source location, the registry. *)

From Stdlib Require Import Ascii.
From S2P Require Import Prelude Queue Time Exceptions LogFile LogFileSpec Log.

(** ** Names of levels, source locations, registry *)

Lemma ToStr_FromStr level :
  LEVEL_TRACE <= level <= LEVEL_NBRS -> exists s, ToStr level = Ok s /\ FromStr s = level.
Proof.
  unfold LEVEL_TRACE, LEVEL_NBRS. intros H.
  assert (Hc : level = 0 \/ level = 1 \/ level = 2 \/ level = 3 \/ level = 4 \/ level = 5 \/ level = 6) by lia.
  destruct Hc as [->|[->|[->|[->|[->|[->| ->]]]]]]; eexists; (split; [reflexivity|by vm_compute]).
Qed.

(** Any other name gives [LEVEL_NBRS], at which nothing but messages of that level passes. *)
Lemma FromStr_unknown s : s ∉ level_name -> FromStr s = LEVEL_NBRS.
Proof.
  intros Hs. unfold FromStr, name_to_level. rewrite not_elem_of_list_to_map_1; [done|]. exact Hs.
Qed.

Fixpoint has_char (c : ascii) (s : string) : bool :=
  match s with EmptyString => false | String a r => bool_decide (a = c) || has_char c r end.

Lemma strrchr_none c s : has_char c s = false -> strrchr s c = None.
Proof.
  induction s as [|a s IH]; [done|]. simpl. intros [Ha Hs]%orb_false_iff. rewrite IH by done.
  apply bool_decide_eq_false in Ha. by rewrite decide_False.
Qed.

Lemma strrchr_last c p s : has_char c s = false -> strrchr (p +:+ String c s) c = Some (String c s).
Proof.
  intros Hs. induction p as [|a p IH]; simpl.
  - by rewrite strrchr_none, decide_True.
  - by rewrite IH.
Qed.

(** The file name is what follows the last slash. *)
Lemma SourceLoc_basename path file l func :
  has_char HARE_SLASH file = false ->
  filename (SourceLoc_ctor (path +:+ String HARE_SLASH file) l func) = file /\
  filename (SourceLoc_ctor file l func) = file.
Proof. intros Hs. unfold SourceLoc_ctor. by rewrite strrchr_last, strrchr_none. Qed.

(** A name is registered once; what was registered is found until it is dropped. *)
Lemma RegisterLogger_spec r name p :
  (Registry_Get r name <> None -> RegisterLogger r name p = Throw Exception) /\
  (Registry_Get r name = None ->
     exists r', RegisterLogger r name p = Ok r' /\ Registry_Get r' name = Some p /\
       (forall other, other <> name -> Registry_Get r' other = Registry_Get r other) /\
       Registry_Drop r' name = r /\ Registry_Get (Registry_Drop r' name) name = None).
Proof.
  unfold RegisterLogger, AssertExists, Registry_Get, Registry_Drop. split.
  - by destruct (r !! name).
  - intros H. rewrite H. eexists. split; [done|]. split_and!.
    + apply lookup_insert_eq.
    + intros other Ho. by apply lookup_insert_ne.
    + by apply delete_insert_id.
    + apply lookup_delete_eq.
Qed.

(** ** Delivery *)

Section delivery.
Context {U : Type}.
Context (fopen_ok remove_ok fstat_ok : nat -> bool) (fwrite_n : nat -> Z -> Z)
        (fmt_name : string -> Z -> string) (moved_from : string -> string) (MaxSize : Z).
Context (user_log : positive -> list Z -> Z -> EM U unit) (user_flush : positive -> EM U unit).
Context (fmt_datetime : DateTime -> string)
        (fmt_record : string -> Z -> string -> Z -> list Z -> string -> Z -> string -> list Z)
        (fmt_capacity : Z -> Z).

#[local] Abbreviation Backend_Log :=
  (Backend_Log fopen_ok remove_ok fstat_ok fwrite_n fmt_name moved_from MaxSize user_log).
#[local] Abbreviation log_all :=
  (log_all fopen_ok remove_ok fstat_ok fwrite_n fmt_name moved_from MaxSize user_log).
#[local] Abbreviation sink_msg :=
  (sink_msg fopen_ok remove_ok fstat_ok fwrite_n fmt_name moved_from MaxSize user_log fmt_datetime fmt_record).
#[local] Abbreviation SinkIt :=
  (SinkIt fopen_ok remove_ok fstat_ok fwrite_n fmt_name moved_from MaxSize user_log user_flush fmt_datetime fmt_record).
#[local] Abbreviation Logger_Log :=
  (Logger_Log fopen_ok remove_ok fstat_ok fwrite_n fmt_name moved_from MaxSize user_log user_flush fmt_datetime fmt_record
     fmt_capacity).

(** Whether a backend takes messages of this level. *)
Definition wants (w : LogWorld U) (level : Z) (p : positive) : bool :=
  match backs w !! p with Some b => Backend_Check b level | None => false end.

(** The calls a message should lead to: [Log] on the backends that want it, and [Flush] on
    all of them if [flush]. *)
Definition log_calls (w : LogWorld U) (ps : list positive) (msg : list Z) (level : Z) : list LogObs :=
  (fun p => ObsLog p msg level) <$> filter (fun p => wants w level p = true) ps.
Definition flush_calls (flush : bool) (ps : list positive) : list LogObs := if flush then ObsFlush <$> ps else [].

Definition same_levels (w w' : LogWorld U) : Prop := forall level p, wants w' level p = wants w level p.

Lemma backend_at_inv p (w : LogWorld U) r w' :
  backend_at p w = (r, w') -> w' = w /\ r = deref (backs w !! p).
Proof. unfold backend_at, eget, elift, mbind, EM_bind. by intros [= <- <-]. Qed.

Lemma Backend_Log_effect p msg level (w w' : LogWorld U) b r :
  backs w !! p = Some b -> Backend_Log p msg level w = (r, w') ->
  same_levels w w' /\ obs w' = obs w ++ [ObsLog p msg level].
Proof.
  intros Hb. unfold Log.Backend_Log, backend_at, eget, elift, emod, mbind, EM_bind. simpl. rewrite Hb. simpl.
  destruct (impl b) as [|fb|k] eqn:Ei.
  - unfold STD_InnerSinkIt, emod. intros [= <- <-]. by destruct (level <=? LEVEL_INFO).
  - unfold zoom. intros [= <- <-]. split; [|done]. intros l q. unfold wants. simpl.
    destruct (decide (q = p)) as [->|]; [|by rewrite lookup_insert_ne]. by rewrite lookup_insert_eq, Hb.
  - unfold zoom. by intros [= <- <-].
Qed.

Lemma log_calls_cons w p ps msg level :
  log_calls w (p :: ps) msg level =
    (if wants w level p then [ObsLog p msg level] else []) ++ log_calls w ps msg level.
Proof. unfold log_calls. rewrite filter_cons. by destruct (wants w level p). Qed.

(** The calls come in the order of the backends, up to the one that does not return. *)
Lemma log_all_effect ps msg level : forall (w w' : LogWorld U) r,
  log_all ps msg level w = (r, w') ->
  same_levels w w' /\ exists n, obs w' = obs w ++ take n (log_calls w ps msg level) /\
    (r = Ok tt -> take n (log_calls w ps msg level) = log_calls w ps msg level).
Proof.
  induction ps as [|p ps IH]; intros w w' r H; simpl in H.
  - injection H as <- <-. split; [done|]. exists 0%nat. by rewrite app_nil_r.
  - apply EM_bind_inv in H as [(b & w1 & Hb & H)|(r0 & Hb & Hr & ->)]; apply backend_at_inv in Hb as [-> Hb].
    2: { split; [done|]. exists 0%nat. simpl. rewrite app_nil_r. split; [done|]. by destruct r0. }
    destruct (backs w !! p) as [b'|] eqn:Eb; [|done]. injection Hb as <-.
    rewrite log_calls_cons.
    assert (Ew : wants w level p = Backend_Check b level) by (unfold wants; by rewrite Eb).
    rewrite Ew. destruct (Backend_Check b level) eqn:Ec.
    + apply EM_bind_inv in H as [([] & w1 & H1 & H)|(r0 & H1 & Hr & ->)];
        destruct (Backend_Log_effect p msg level w _ b _ Eb H1) as [Hl1 Ho1].
      * apply IH in H as [Hl (n & Ho & Hn)]. split; [intros l q; by rewrite Hl|].
        assert (El : log_calls w1 ps msg level = log_calls w ps msg level).
        { unfold log_calls. f_equal. apply list_filter_iff. intros q. by rewrite Hl1. }
        rewrite El in *. exists (S n). simpl. rewrite Ho, Ho1, <- (assoc_L (++)). split; [done|]. intros Hok. by rewrite Hn.
      * split; [done|]. exists 1%nat. simpl. rewrite take_0. split; [done|]. by destruct r0.
    + rewrite (EM_bind_run _ _ w tt w) in H by done. by apply IH in H.
Qed.

Lemma flush_all_effect ps : forall (w w' : LogWorld U) r,
  flush_all user_flush ps w = (r, w') ->
  exists n, obs w' = obs w ++ take n (ObsFlush <$> ps) /\ (r = Ok tt -> take n (ObsFlush <$> ps) = ObsFlush <$> ps).
Proof.
  induction ps as [|p ps IH]; intros w w' r H; simpl in H.
  - injection H as <- <-. exists 0%nat. by rewrite app_nil_r.
  - assert (H1 : forall r1 w1, Backend_Flush user_flush p w = (r1, w1) ->
      obs w1 = obs w ++ [ObsFlush p] \/ (obs w1 = obs w /\ r1 <> Ok tt)).
    { intros r1 w1. unfold Backend_Flush. intros [(b & w2 & Hb & H1)|(r0 & Hb & Hr & ->)]%EM_bind_inv;
        apply backend_at_inv in Hb as [-> Hb]; [left|by right; destruct r0].
      unfold emod, zoom, mbind, EM_bind in H1. destruct (impl b); by injection H1 as <- <-. }
    apply EM_bind_inv in H as [([] & w1 & Hf & H)|(r0 & Hf & Hr & ->)]; apply H1 in Hf as [Ho|[Ho Hne]].
    + apply IH in H as (n & Ho' & Hn). exists (S n). rewrite fmap_cons, firstn_cons, Ho', Ho, <- (assoc_L (++)).
      split; [done|]. intros Hok. by rewrite Hn.
    + done.
    + exists 1%nat. simpl. rewrite take_0. split; [done|]. by destruct r0.
    + exists 0%nat. simpl. rewrite app_nil_r. split; [done|]. by destruct r0.
Qed.

(** The message with its number. *)
Definition numbered (m : Msg) (i : Z) : Msg :=
  mkMsg (attached m) (msg_level m) (msg_tid m) i (stamp_ m) (raw_ m) (capacity m) (loc_ m).

(** The text [FormatMsg] makes of a message in this state. *)
Definition text_of (tid : Z) (m : Msg) (l : Logger) (w : LogWorld U) : outcome (list Z * LogTls) :=
  FormatMsg fmt_datetime fmt_record (default LogTls_init (tls_of w !! tid)) tid (numbered m (msg_id_ l)) (timezone_ l).

(** [sink_msg] in one step: the text, then the backends. *)
Lemma sink_msg_run tid m l w :
  sink_msg tid m (l, w) =
    (let l' := set_msg_id (u64 (msg_id_ l + 1)) l in
     match text_of tid m l w with
     | Ok (f, t) =>
       match log_all (backends_ l) f (msg_level m) (set_tls tid t w) with
       | (Ok _, w') => (Ok (numbered m (msg_id_ l)), (l', w'))
       | (r, w') => (outcome_cast r, (l', w'))
       end
     | r => (outcome_cast r, (l', w))
     end).
Proof.
  unfold Log.sink_msg, IncreaseMsgId, lget, lmod, in_world, zoom, elift, eget, emod, mbind, EM_bind, mret, EM_ret. simpl.
  fold (numbered m (msg_id_ l)). fold (text_of tid m l w). destruct (text_of tid m l w) as [[f t]| | | |]; try done. simpl.
  by destruct (log_all (backends_ l) f (msg_level m) (set_tls tid t w)) as [[[]| | | |] w'].
Qed.

Lemma sink_msg_effect tid m l w r l' w' :
  sink_msg tid m (l, w) = (r, (l', w')) ->
  l' = set_msg_id (u64 (msg_id_ l + 1)) l /\ same_levels w w' /\
  exists f n, obs w' = obs w ++ take n (log_calls w (backends_ l) f (msg_level m)) /\
    (forall m', r = Ok m' -> m' = numbered m (msg_id_ l) /\ (exists t, text_of tid m l w = Ok (f, t)) /\
       take n (log_calls w (backends_ l) f (msg_level m)) = log_calls w (backends_ l) f (msg_level m)).
Proof.
  rewrite sink_msg_run. cbv zeta. destruct (text_of tid m l w) as [[f t]| | | |] eqn:Ef; cycle 1.
  1-4: intros [= <- <- <-]; split_and!; [done|done|]; exists [], 0%nat; rewrite app_nil_r; by split.
  destruct (log_all (backends_ l) f (msg_level m) (set_tls tid t w)) as [r1 w1] eqn:E1.
  apply log_all_effect in E1 as (Hl & n & Ho & Hn).
  change (log_calls (set_tls tid t w)) with (log_calls w) in *. change (obs (set_tls tid t w)) with (obs w) in Ho.
  intros H. assert (H2 : l' = set_msg_id (u64 (msg_id_ l + 1)) l /\ w' = w1 /\
    (forall m', r = Ok m' -> m' = numbered m (msg_id_ l) /\ r1 = Ok tt)).
  { destruct r1 as [[]| | | |]; injection H as <- <- <-; split_and!; try done. intros m' [= <-]. done. }
  destruct H2 as (-> & -> & Hr). split_and!; [done|exact Hl|]. exists f, n. split; [done|].
  intros m' Hm. destruct (Hr m' Hm) as [-> H1]. split_and!; [done|by exists t|by apply Hn].
Qed.

(** The [catch] blocks report the exception and do not throw. *)
Lemma catch_all_run e (w : LogWorld U) : catch_all e w = (end_catch e, add_obs (ObsError e) w).
Proof. by destruct e. Qed.

Lemma end_catch_contained e : end_catch e = Ok tt \/ end_catch e = UB.
Proof. destruct e; auto. Qed.

(** [Flush] never throws: the exception of a backend goes to the error handler. *)
Lemma Logger_Flush_effect l (w : LogWorld U) r l' w' :
  Logger_Flush user_flush (l, w) = (r, (l', w')) ->
  l' = l /\ (forall e, r <> Throw e) /\
  (r = Ok tt -> obs w' = obs w ++ (ObsFlush <$> backends_ l) \/
     exists n e, obs w' = obs w ++ take n (ObsFlush <$> backends_ l) ++ [ObsError e]).
Proof.
  unfold Logger_Flush, lget, in_world, zoom, etry, eget, mbind, EM_bind. simpl.
  destruct (flush_all user_flush (backends_ l) w) as [r1 w1] eqn:E1. apply flush_all_effect in E1 as (n & Ho & Hn).
  destruct r1 as [[]| |e| |]; rewrite ?catch_all_run; intros [= <- <- <-]; split_and!; try done.
  - intros _. left. rewrite Ho. by rewrite Hn.
  - intros x. by destruct (end_catch_contained e) as [-> | ->].
  - intros _. right. exists n, e. simpl. by rewrite Ho, <- (assoc_L (++)).
Qed.

(** ** [Log] *)

(** An exception never leaves [Log]. *)
Lemma Logger_Log_contained tid stamp loc level text s e :
  fst (Logger_Log tid stamp loc level text s) <> Throw e.
Proof.
  unfold Log.Logger_Log, lget, eget, mbind at 1, EM_bind at 1. destruct (Logger_Check _ level); [|done]. simpl.
  unfold etry. match goal with |- context [match ?m with pair _ _ => _ end] => destruct m as [[| |x| |] [l w]] end; try done.
  unfold in_world, zoom. rewrite catch_all_run. by destruct (end_catch_contained x) as [-> | ->].
Qed.

(** Below the level of the logger nothing happens. *)
Lemma Logger_Log_below tid stamp loc level text l w :
  level < level_ l -> Logger_Log tid stamp loc level text (l, w) = (Ok tt, (l, w)).
Proof.
  intros H. unfold Log.Logger_Log, lget, eget, mbind at 1, EM_bind at 1, Logger_Check. simpl.
  by rewrite Z.geb_leb, (proj2 (Z.leb_gt _ _)) by lia.
Qed.

(** The calls a message should lead to when it gets the text [f]. *)
Definition all_calls (l : Logger) (w : LogWorld U) (m : Msg) (f : list Z) : list LogObs :=
  log_calls w (backends_ l) f (msg_level m) ++ flush_calls (ShouldFlushOn l m) (backends_ l).

(** Some of them, and the report of an exception. *)
Definition cut_short (full tr : list LogObs) : Prop := exists n e, tr = take n full ++ [ObsError e].

Lemma take_app_l {A} n (l k : list A) : exists j, take n l = take j (l ++ k).
Proof. exists (n `min` length l)%nat. rewrite take_app_le by lia. by rewrite <- take_take, (take_ge l (length l)). Qed.

Lemma SinkIt_effect tid m l w r l' w' :
  SinkIt tid m (l, w) = (r, (l', w')) ->
  (r = Ok tt -> exists f t tr, text_of tid m l w = Ok (f, t) /\ obs w' = obs w ++ tr /\ msg_id_ l' = u64 (msg_id_ l + 1) /\
     (tr = all_calls l w m f \/ cut_short (all_calls l w m f) tr)) /\
  (forall e, r = Throw e -> exists f n, obs w' = obs w ++ take n (all_calls l w m f)).
Proof.
  unfold Log.SinkIt. intros [(m1 & [l1 w1] & H1 & H)|(r0 & H1 & Hr & ->)]%EM_bind_inv;
    apply sink_msg_effect in H1 as (-> & Hl & f & n & Ho & Hf).
  - destruct (Hf m1 eq_refl) as (-> & [t Ht] & Hn). rewrite Hn in Ho. clear Hf Hn.
    rewrite (EM_bind_run (lget id) _ _ (set_msg_id (u64 (msg_id_ l + 1)) l) (set_msg_id (u64 (msg_id_ l + 1)) l, w1)) in H by done.
    change (ShouldFlushOn (set_msg_id (u64 (msg_id_ l + 1)) l) (numbered m (msg_id_ l))) with (ShouldFlushOn l m) in H.
    unfold all_calls, flush_calls. destruct (ShouldFlushOn l m).
    + apply Logger_Flush_effect in H as (-> & Hne & Hok). split; [|intros e ->; by destruct (Hne e)].
      intros ->. change (backends_ (set_msg_id _ l)) with (backends_ l) in Hok. exists f, t.
      destruct (Hok eq_refl) as [E|(k & e & E)]; rewrite Ho, <- (assoc_L (++)) in E; eexists; (split_and!; [done|exact E|done|]).
      * by left.
      * right. exists (length (log_calls w (backends_ l) f (msg_level m)) + k)%nat, e.
        by rewrite take_app_add, (assoc_L (++)).
    + injection H as <- <- <-. split; [|done]. intros _. exists f, t, (log_calls w (backends_ l) f (msg_level m)).
      rewrite app_nil_r. split_and!; try done. by left.
  - split; [by destruct r0|]. intros e He. exists f. destruct (take_app_l n (log_calls w (backends_ l) f (msg_level m))
      (flush_calls (ShouldFlushOn l m) (backends_ l))) as [j Hj]. exists j. by rewrite Ho, Hj.
Qed.

Lemma Logger_Log_above tid stamp loc level text l w :
  level_ l <= level ->
  Logger_Log tid stamp loc level text (l, w) =
    etry (raw ← elift text; SinkIt tid (Msg_ctor fmt_capacity level tid stamp raw loc))
      (fun e => in_world (catch_all e)) (l, w).
Proof.
  intros H. unfold Log.Logger_Log. rewrite (EM_bind_run (lget id) _ _ l (l, w)) by done.
  unfold Logger_Check. by rewrite Z.geb_leb, (proj2 (Z.leb_le _ _)).
Qed.

(** A message at or above the level of the logger, whatever the backends do: it is delivered
    in full, or up to the call that threw and with one report. *)
Lemma Logger_Log_effect tid stamp loc level text l w l' w' :
  level_ l <= level -> Logger_Log tid stamp loc level text (l, w) = (Ok tt, (l', w')) ->
  exists raw f tr, obs w' = obs w ++ tr /\
    let m := Msg_ctor fmt_capacity level tid stamp raw loc in
    (text = Ok raw /\ (exists t, text_of tid m l w = Ok (f, t)) /\ msg_id_ l' = u64 (msg_id_ l + 1) /\ tr = all_calls l w m f) \/
    cut_short (all_calls l w m f) tr.
Proof.
  intros Hlv. rewrite Logger_Log_above by done. unfold etry. cbv beta.
  destruct text as [raw| |e| |]; try done; cycle 1.
  { intros H. change (in_world (catch_all e) (l, w) = (Ok tt, (l', w'))) in H. unfold in_world, zoom in H.
    rewrite catch_all_run in H. injection H as _ <- <-. exists [], [], [ObsError e]. split; [done|]. right. by exists 0%nat, e. }
  rewrite (EM_bind_run (elift (Ok raw)) _ _ raw (l, w)) by done. set (m := Msg_ctor fmt_capacity level tid stamp raw loc).
  destruct (SinkIt tid m (l, w)) as [r [l1 w1]] eqn:E. apply SinkIt_effect in E as [Hok Hth].
  destruct r as [[]| |e| |]; try done.
  - intros [= <- <-]. destruct (Hok eq_refl) as (f & t & tr & Ht & Ho & Hid & Hc). exists raw, f, tr. split; [done|].
    destruct Hc as [->|Hc]; [left|by right]. split_and!; try done. by exists t.
  - unfold in_world, zoom. rewrite catch_all_run. intros [= _ <- <-]. destruct (Hth e eq_refl) as (f & n & Ho). exists raw, f, (take n (all_calls l w m f) ++ [ObsError e]).
    split; [simpl; by rewrite Ho, <- (assoc_L (++))|]. right. by exists n, e.
Qed.

(** An exception in the body: it is reported and its object destroyed. *)
Lemma Logger_Log_throws tid stamp loc level raw l w e l1 w1 :
  level_ l <= level -> SinkIt tid (Msg_ctor fmt_capacity level tid stamp raw loc) (l, w) = (Throw e, (l1, w1)) ->
  Logger_Log tid stamp loc level (Ok raw) (l, w) = (end_catch e, (l1, add_obs (ObsError e) w1)).
Proof.
  intros Hlv E. rewrite Logger_Log_above by done. unfold etry. rewrite (EM_bind_run (elift (Ok raw)) _ _ raw (l, w)) by done.
  rewrite E. unfold in_world, zoom. by rewrite catch_all_run.
Qed.

(** The first backend throws. *)
Lemma SinkIt_throws tid m l w f t p ps b e w1 :
  text_of tid m l w = Ok (f, t) -> backends_ l = p :: ps -> backs w !! p = Some b -> Backend_Check b (msg_level m) = true ->
  Backend_Log p f (msg_level m) (set_tls tid t w) = (Throw e, w1) ->
  SinkIt tid m (l, w) = (Throw e, (set_msg_id (u64 (msg_id_ l + 1)) l, w1)).
Proof.
  intros Ht Hp Hb Hc E. unfold Log.SinkIt, mbind at 1, EM_bind at 1. rewrite sink_msg_run. cbv zeta. rewrite Ht, Hp. simpl.
  unfold backend_at, eget, elift, mbind, EM_bind. simpl. rewrite Hb. simpl. rewrite Hc, E. done.
Qed.

(** A file backend whose stream takes less than it is given. *)
Lemma Backend_Log_short p msg level (w : LogWorld U) blevel fb i :
  backs w !! p = Some (mkBackend blevel (FileBackendOf fb)) -> fp_ (file_ fb) = Some i ->
  fwrite_n (lib_calls (disk w)) (Zlen msg) <> Zlen msg ->
  exists w1, Backend_Log p msg level w = (Throw Exception, w1) /\ obs w1 = obs w ++ [ObsLog p msg level].
Proof.
  intros Hb Hf Hn. unfold Log.Backend_Log, backend_at, eget, elift, emod, zoom, mbind, EM_bind. simpl. rewrite Hb. simpl.
  destruct (short_write fopen_ok remove_ok fstat_ok fwrite_n fmt_name moved_from MaxSize msg fb (disk w) i Hf Hn)
    as (d' & E & _). unfold file_part. change (disk (add_obs (ObsLog p msg level) w)) with (disk w).
  rewrite E. by eexists.
Qed.

(** ** The time of a message *)

(** In a second in which the thread has not logged yet, the time is that of the logger's
    zone; in the second of its last message it is the text of that message, whatever the
    zone. *)
Lemma LogTime_fresh t m tz dt :
  attached m = true -> Z.quot (stamp_ m) HARE_MICROSECONDS_PER_SECOND <> t_last_time t ->
  (if valid tz then r ← ToLocal tz (Z.quot (stamp_ m) HARE_MICROSECONDS_PER_SECOND); Ok (fst r)
   else ToUtcTime (Z.quot (stamp_ m) HARE_MICROSECONDS_PER_SECOND)) = Ok dt ->
  exists us, LogTime fmt_datetime t m tz = Ok (fmt_datetime dt, us, mkTls (Z.quot (stamp_ m) HARE_MICROSECONDS_PER_SECOND) (fmt_datetime dt)).
Proof.
  intros Ha Hn Hdt. unfold LogTime. rewrite Ha. simpl. rewrite (proj2 (Z.eqb_neq _ _)) by done. simpl. rewrite Hdt.
  by eexists.
Qed.

Lemma LogTime_stale t m tz :
  attached m = true -> Z.quot (stamp_ m) HARE_MICROSECONDS_PER_SECOND = t_last_time t ->
  exists us, LogTime fmt_datetime t m tz = Ok (t_time t, us, t).
Proof. intros Ha Hs. unfold LogTime. rewrite Ha, Hs, Z.eqb_refl. simpl. by eexists. Qed.

(** A text that fills its buffer to the last byte is ended behind it. *)
Lemma FormatMsg_full t tid m tz r level :
  LogTime fmt_datetime t m tz = Ok r -> ToStr (msg_level m) = Ok level -> Zlen (raw_ m) = capacity m ->
  FormatMsg fmt_datetime fmt_record t tid m tz = UB.
Proof.
  intros H1 H2 H3. unfold FormatMsg. rewrite H1. simpl. rewrite H2. simpl. by rewrite H3, Z.ltb_irrefl.
Qed.
End delivery.
