(* ===== verification/AsyncLog.v ===== *)
(** * The asynchronous logger.

    Sources: include/hare/log/async_logger.h, hare/log/async_logger.cc and
    include/hare/log/details/async_msg.h, on the thread pool of
    include/hare/base/util/thread_pool.h (Queue.v).

    The state is the logger with the world its backends live in, the queue of the pool and
    what each worker thread is doing.  Taking a message from the queue and handling it is
    one step of a worker; putting the request to flush into the queue, which the handler
    does with the blocking policy, is a step of its own, since the worker may have to wait
    for room.  An exception that leaves the handler ends the process. *)

From S2P Require Import Prelude Queue Time Exceptions LogFile Log LogSpec.

Inductive AsyncType := LOG | FLUSH | TERMINATE.
Record AsyncMsg := mkAsync { async_msg : Msg; type_ : AsyncType }.

(** What the handler has to do next: [HandleMsg] returns [true], posts a request to flush
    and then returns [true], or returns [false]. *)
Inductive Handled := Continue | PostFlush | Stop.

(** A worker waits in [Dequeue], waits in [Post] for its request to flush, or has left [Loop]. *)
Inductive Worker := Waiting | Posting | Ended.

Section async.
Context {U : Type}.
Context (fopen_ok remove_ok fstat_ok : nat -> bool) (fwrite_n : nat -> Z -> Z)
        (fmt_name : string -> Z -> string) (moved_from : string -> string) (MaxSize : Z).
Context (user_log : positive -> list Z -> Z -> EM U unit) (user_flush : positive -> EM U unit).
Context (fmt_datetime : DateTime -> string)
        (fmt_record : string -> Z -> string -> Z -> list Z -> string -> Z -> string -> list Z).
(** A default-constructed message; what is left of a message that was moved; the thread of
    a worker. *)
Context (msg_default : Msg) (msg_moved : AsyncMsg -> AsyncMsg) (tid_of : nat -> Z).

#[local] Abbreviation sink_msg :=
  (sink_msg fopen_ok remove_ok fstat_ok fwrite_n fmt_name moved_from MaxSize user_log fmt_datetime fmt_record).
#[local] Abbreviation SinkIt :=
  (SinkIt fopen_ok remove_ok fstat_ok fwrite_n fmt_name moved_from MaxSize user_log user_flush fmt_datetime fmt_record).

Definition AsyncMsg_of (t : AsyncType) : AsyncMsg := mkAsync msg_default t.

Definition HandleMsg (tid : Z) (m : AsyncMsg) : EM (Logger * LogWorld U) Handled :=
  match type_ m with
  | LOG =>
    m ← sink_msg tid (async_msg m);
    l ← lget id;
    mret (if ShouldFlushOn l m then PostFlush else Continue)
  | FLUSH => _ ← Logger_Flush user_flush; mret Continue
  | TERMINATE => mret Stop
  end.

Record AsyncLogger := mkAsyncLogger {
  core : Logger * LogWorld U;
  pool_queue : CircularQueue AsyncMsg;
  workers : list Worker;
  msg_policy_ : Policy;
  terminated : bool
}.

Definition AsyncLogger_ctor (name : string) (backends : list positive) (max_msg thr_n : Z) (w : LogWorld U) :
    outcome AsyncLogger :=
  p ← TP_ctor (AsyncMsg_of LOG) max_msg thr_n;
  Ok (mkAsyncLogger (Logger_ctor name backends, w) (queue_ p) (replicate (running (TP_Start p)) Waiting) BLOCK_RETRY false).

Definition set_policy (p : Policy) (a : AsyncLogger) : AsyncLogger :=
  mkAsyncLogger (core a) (pool_queue a) (workers a) p (terminated a).

(** [thread_pool_.Post]: nothing while it has to wait. *)
Definition Async_Post (q : CircularQueue AsyncMsg) (m : AsyncMsg) (policy : Policy) :
    option (outcome (CircularQueue AsyncMsg)) :=
  TP_Post (mkPool q 0 0) m policy.

Definition set_queue (q : CircularQueue AsyncMsg) (a : AsyncLogger) : AsyncLogger :=
  mkAsyncLogger (core a) q (workers a) (msg_policy_ a) (terminated a).

(** [SinkIt] and [Flush] of [AsyncLogger], and one turn of the loop of its destructor, which
    posts a request to terminate for every worker. *)
Definition Async_SinkIt (a : AsyncLogger) (m : Msg) : option (outcome (CircularQueue AsyncMsg)) :=
  Async_Post (pool_queue a) (mkAsync m LOG) (msg_policy_ a).
Definition Async_Flush (a : AsyncLogger) : option (outcome (CircularQueue AsyncMsg)) :=
  Async_Post (pool_queue a) (AsyncMsg_of FLUSH) BLOCK_RETRY.
Definition Async_dtor_turn (a : AsyncLogger) : option (outcome (CircularQueue AsyncMsg)) :=
  Async_Post (pool_queue a) (AsyncMsg_of TERMINATE) BLOCK_RETRY.

(** Whether [Join], the end of the destructor, returns. *)
Definition Async_joined (a : AsyncLogger) : bool := forallb (fun w => match w with Ended => true | _ => false end) (workers a).

Definition worker_next (h : Handled) : Worker :=
  match h with Continue => Waiting | PostFlush => Posting | Stop => Ended end.

Inductive async_event :=
  | EvSink (m : Msg) | EvFlush | EvTerminate
  | EvHandle (i : nat) (m : AsyncMsg) | EvRequest (i : nat) | EvCrash (i : nat).

Inductive async_step : AsyncLogger -> async_event -> AsyncLogger -> Prop :=
  | astep_sink a m q : terminated a = false -> Async_SinkIt a m = Some (Ok q) ->
      async_step a (EvSink m) (set_queue q a)
  | astep_flush a q : terminated a = false -> Async_Flush a = Some (Ok q) ->
      async_step a EvFlush (set_queue q a)
  | astep_terminate a q : terminated a = false -> Async_dtor_turn a = Some (Ok q) ->
      async_step a EvTerminate (set_queue q a)
  | astep_handle a i m q h c : terminated a = false -> workers a !! i = Some Waiting ->
      BQ_Dequeue msg_moved (pool_queue a) = Some (Ok (m, q)) -> HandleMsg (tid_of i) m (core a) = (Ok h, c) ->
      async_step a (EvHandle i m)
        (mkAsyncLogger c q (<[i := worker_next h]> (workers a)) (msg_policy_ a) false)
  | astep_request a i q : terminated a = false -> workers a !! i = Some Posting -> Async_Flush a = Some (Ok q) ->
      async_step a (EvRequest i)
        (mkAsyncLogger (core a) q (<[i := Waiting]> (workers a)) (msg_policy_ a) false)
  | astep_crash a i m q e c : terminated a = false -> workers a !! i = Some Waiting ->
      BQ_Dequeue msg_moved (pool_queue a) = Some (Ok (m, q)) -> HandleMsg (tid_of i) m (core a) = (Throw e, c) ->
      async_step a (EvCrash i) (mkAsyncLogger c q (workers a) (msg_policy_ a) true).

Inductive async_run : AsyncLogger -> list async_event -> AsyncLogger -> Prop :=
  | arun_nil a : async_run a [] a
  | arun_cons a a1 a2 e tr : async_step a e a1 -> async_run a1 tr a2 -> async_run a (e :: tr) a2.

(** The synchronous logger on a sequence of messages. *)
Fixpoint sync_run (tid : Z) (ms : list Msg) : EM (Logger * LogWorld U) unit :=
  match ms with
  | [] => mret tt
  | m :: ms => _ ← SinkIt tid m; sync_run tid ms
  end.
End async.
