(* ===== verification/AsyncLogSpec.v ===== *)
(** * The asynchronous logger against the synchronous one, and where it stops.

    With one worker and messages below the flush level, what the backends get is what the
    synchronous logger would give them.  When all the workers wait to post a request to
    flush and the queue is full, nothing is ever handled again. *)

From S2P Require Import Prelude Queue Time Exceptions LogFile Log LogSpec AsyncLog.

Section async.
Context {U : Type}.
Context (fopen_ok remove_ok fstat_ok : nat -> bool) (fwrite_n : nat -> Z -> Z)
        (fmt_name : string -> Z -> string) (moved_from : string -> string) (MaxSize : Z).
Context (user_log : positive -> list Z -> Z -> EM U unit) (user_flush : positive -> EM U unit).
Context (fmt_datetime : DateTime -> string)
        (fmt_record : string -> Z -> string -> Z -> list Z -> string -> Z -> string -> list Z).
Context (msg_default : Msg) (msg_moved : AsyncMsg -> AsyncMsg) (tid_of : nat -> Z).

#[local] Abbreviation sink_msg :=
  (sink_msg fopen_ok remove_ok fstat_ok fwrite_n fmt_name moved_from MaxSize user_log fmt_datetime fmt_record).
#[local] Abbreviation SinkIt :=
  (SinkIt fopen_ok remove_ok fstat_ok fwrite_n fmt_name moved_from MaxSize user_log user_flush fmt_datetime fmt_record).
#[local] Abbreviation HandleMsg :=
  (HandleMsg fopen_ok remove_ok fstat_ok fwrite_n fmt_name moved_from MaxSize user_log user_flush fmt_datetime fmt_record).
#[local] Abbreviation sync_run :=
  (sync_run fopen_ok remove_ok fstat_ok fwrite_n fmt_name moved_from MaxSize user_log user_flush fmt_datetime fmt_record).
#[local] Abbreviation async_step :=
  (async_step fopen_ok remove_ok fstat_ok fwrite_n fmt_name moved_from MaxSize user_log user_flush fmt_datetime fmt_record
     msg_default msg_moved tid_of).
#[local] Abbreviation async_run :=
  (async_run fopen_ok remove_ok fstat_ok fwrite_n fmt_name moved_from MaxSize user_log user_flush fmt_datetime fmt_record
     msg_default msg_moved tid_of).

Implicit Types (a : AsyncLogger (U := U)) (q : CircularQueue AsyncMsg).

(** The messages of a run: posted by users, and handled. *)
Definition sunk (tr : list async_event) : list Msg :=
  omap (fun e => match e with EvSink m => Some m | _ => None end) tr.
Definition handled_msgs (tr : list async_event) : list AsyncMsg :=
  omap (fun e => match e with EvHandle _ m => Some m | _ => None end) tr.

(** ** One worker is the synchronous logger *)

(** A message that does not call for a flush. *)
Definition quiet (flush_level : Z) (m : Msg) : Prop := msg_level m < flush_level.

Lemma quiet_flush l m : quiet (flush_level_ l) m -> ShouldFlushOn l m = false.
Proof.
  unfold quiet, ShouldFlushOn. intros H. rewrite Z.geb_leb, (proj2 (Z.leb_gt _ _)) by done. done.
Qed.

(** Handling such a message is sinking it. *)
Lemma HandleMsg_quiet tid m l w h c :
  quiet (flush_level_ l) m -> HandleMsg tid (mkAsync m LOG) (l, w) = (Ok h, c) ->
  h = Continue /\ SinkIt tid m (l, w) = (Ok tt, c) /\ flush_level_ (fst c) = flush_level_ l.
Proof.
  intros Hq. unfold AsyncLog.HandleMsg, Log.SinkIt. cbn [type_ async_msg].
  intros [(m1 & [l1 w1] & H1 & H)|(r0 & H1 & Hr & H)]%EM_bind_inv; [|by destruct r0].
  rewrite (EM_bind_run _ _ _ _ _ H1). apply sink_msg_effect in H1 as (-> & _ & f & n & _ & Hf).
  destruct (Hf m1 eq_refl) as (-> & _ & _). set (l1 := set_msg_id (u64 (msg_id_ l + 1)) l) in *.
  assert (Hs : ShouldFlushOn l1 (numbered m (msg_id_ l)) = false) by by apply quiet_flush.
  rewrite (EM_bind_run (lget id) _ _ l1 (l1, w1)) in H by done.
  rewrite (EM_bind_run (lget id) _ _ l1 (l1, w1)) by done.
  rewrite Hs in *. by injection H as <- <-.
Qed.

(** A queue of messages to log. *)
Definition to_log (m : Msg) : AsyncMsg := mkAsync m LOG.

(** A state of a logger with one worker, with the messages [ms] in its queue. *)
Record one_worker (fl : Z) (ms : list Msg) a : Prop := {
  ow_queue : CQ_ok (pool_queue a);
  ow_cap : 0 < max_capacity_ (pool_queue a);
  ow_items : items (to_log msg_default) (pool_queue a) = to_log <$> ms;
  ow_quiet : Forall (quiet fl) ms;
  ow_level : flush_level_ (fst (core a)) = fl;
  ow_worker : workers a = [Waiting];
  ow_policy : msg_policy_ a = BLOCK_RETRY
}.

Lemma Async_Post_spec q m q' :
  CQ_ok q -> 0 < max_capacity_ q -> Async_Post q m BLOCK_RETRY = Some (Ok q') ->
  CQ_ok q' /\ max_capacity_ q' = max_capacity_ q /\
  items (to_log msg_default) q' = items (to_log msg_default) q ++ [m].
Proof.
  intros Hok Hpos H. assert (Hs : BQ_step (to_log msg_default) id q (EvEnqueue m) q') by by constructor.
  destruct (BQ_step_spec _ _ _ _ _ Hok Hpos Hs I) as (? & ? & Hsp). apply spec_enqueue_inv in Hsp. done.
Qed.

Lemma BQ_Dequeue_spec q m q' :
  CQ_ok q -> 0 < max_capacity_ q -> BQ_Dequeue msg_moved q = Some (Ok (m, q')) ->
  CQ_ok q' /\ max_capacity_ q' = max_capacity_ q /\
  items (to_log msg_default) q = m :: items (to_log msg_default) q'.
Proof.
  intros Hok Hpos H. assert (Hs : BQ_step (to_log msg_default) msg_moved q (EvDequeue m) q') by by constructor.
  destruct (BQ_step_spec _ _ _ _ _ Hok Hpos Hs I) as (? & ? & Hsp). apply spec_dequeue_inv in Hsp. done.
Qed.

(** Events of users that log, and of workers that work. *)
Definition logging (fl : Z) (e : async_event) : Prop :=
  match e with EvSink m => quiet fl m | EvHandle _ _ => True | _ => False end.

Lemma one_worker_step fl ms a e a' :
  one_worker fl ms a -> logging fl e -> async_step a e a' ->
  exists ms', one_worker fl ms' a' /\
    match e with
    | EvSink m => ms' = ms ++ [m] /\ core a' = core a
    | EvHandle i m => exists m0, m = to_log m0 /\ ms = m0 :: ms' /\ SinkIt (tid_of 0) m0 (core a) = (Ok tt, core a')
    | _ => False
    end.
Proof.
  intros [Hq Hc Hi Hqu Hl Hw Hp] He Hs.
  destruct Hs as [a m q Ht Hpost|a q Ht Hpost|a q Ht Hpost|a i m q h c Ht Hi' Hdq Hh|a i q Ht Hi' Hpost|a i m q e c Ht Hi' Hdq Hh];
    try done.
  - unfold Async_SinkIt in Hpost. rewrite Hp in Hpost. destruct (Async_Post_spec _ _ _ Hq Hc Hpost) as (Hq' & Hm & Hit).
    exists (ms ++ [m]). split; [|done]. split; simpl; try done; [lia|by rewrite Hit, Hi, fmap_app|by apply Forall_app; split; [|constructor]].
  - destruct (BQ_Dequeue_spec _ _ _ Hq Hc Hdq) as (Hq' & Hm & Hit). rewrite Hi in Hit.
    destruct ms as [|m0 ms]; [done|]. rewrite fmap_cons in Hit. injection Hit as <- Hit.
    apply Forall_cons in Hqu as [Hqm Hqu]. rewrite Hw in *.
    destruct i as [|i]; [|by destruct i]. destruct (core a) as [l w] eqn:Ecore. simpl in Hl. subst fl.
    destruct (HandleMsg_quiet _ _ _ _ _ _ Hqm Hh) as (-> & Hsync & Hfl).
    exists ms. split; [|by exists m0]. split; simpl; try done. lia.
Qed.

(** Whatever the interleaving of the users with the worker, the backends see the messages
    as the synchronous logger, run by the worker's thread, would have shown them. *)
Lemma one_worker_run tr : forall fl ms a a',
  one_worker fl ms a -> Forall (logging fl) tr -> async_run a tr a' ->
  exists done rest, ms ++ sunk tr = done ++ rest /\ handled_msgs tr = to_log <$> done /\ one_worker fl rest a' /\
    sync_run (tid_of 0) done (core a) = (Ok tt, core a').
Proof.
  induction tr as [|e tr IH]; intros fl ms a a' Hone Hall Hrun; inversion Hrun; subst.
  - exists [], ms. by rewrite app_nil_r.
  - apply Forall_cons in Hall as [He Hall]. rename H2 into Hst, H4 into Hr.
    destruct (one_worker_step _ _ _ _ _ Hone He Hst) as (ms' & Hone' & Hcase).
    destruct (IH _ _ _ _ Hone' Hall Hr) as (dn & rest & Heq & Hh & Hone2 & Hsync).
    destruct e as [m| | |i m|i|i]; try done.
    + destruct Hcase as [-> Hcore]. exists dn, rest. rewrite <- Hcore. split_and!; try done.
      simpl. by rewrite <- Heq, <- (assoc_L (++)).
    + destruct Hcase as (m0 & -> & -> & Hsink). exists (m0 :: dn), rest. split_and!; try done.
      * simpl. by rewrite Heq.
      * simpl. by rewrite Hh.
      * simpl. by rewrite (EM_bind_run _ _ _ _ _ Hsink).
Qed.

(** ** Where it stops *)

(** Every worker waits for room or has ended, and there is no room. *)
Record stuck a : Prop := {
  stuck_queue : CQ_ok (pool_queue a);
  stuck_cap : 0 < max_capacity_ (pool_queue a);
  stuck_full : CQ_Full (pool_queue a) = true;
  stuck_workers : forall i, workers a !! i <> Some Waiting
}.

Lemma Async_Post_full q m : CQ_Full q = true -> Async_Post q m BLOCK_RETRY = None.
Proof. intros H. unfold Async_Post, TP_Post, BQ_Enqueue. simpl. by rewrite H. Qed.

(** A message that is posted with the policy to discard takes the place of another. *)
Lemma push_stays_full (q : CircularQueue AsyncMsg) m q' :
  CQ_ok q -> 0 < max_capacity_ q -> CQ_Full q = true -> CQ_PushBack q m = Ok q' ->
  CQ_ok q' /\ max_capacity_ q' = max_capacity_ q /\ CQ_Full q' = true.
Proof.
  intros Hok Hpos Hfull Hpush.
  destruct (CQ_PushBack_spec m q m Hok Hpos) as (q1 & H1 & Hok1 & Hm & Hit & _).
  rewrite Hpush in H1. injection H1 as ->. rewrite Hfull in Hit. split_and!; [done|done|].
  apply CQ_Full_size; [done|lia|]. apply (CQ_Full_size q Hok Hpos) in Hfull.
  pose proof (items_length m q Hok) as Hl. pose proof (items_length m q1 Hok1) as Hl1.
  rewrite Hit in Hl1. rewrite <- Hl1, Hm, <- Hfull, <- Hl. unfold Zlen. rewrite length_drop, length_app. simpl. lia.
Qed.

(** The only thing that can still happen is that messages are thrown away. *)
Lemma stuck_step a e a' :
  stuck a -> async_step a e a' -> stuck a' /\ workers a' = workers a /\ core a' = core a /\ msg_policy_ a' = msg_policy_ a /\
    exists m, e = EvSink m /\ msg_policy_ a = DISCARD.
Proof.
  intros [Hq Hc Hf Hw] Hs.
  destruct Hs as [a m q Ht Hpost|a q Ht Hpost|a q Ht Hpost|a i m q h c Ht Hi' Hdq Hh|a i q Ht Hi' Hpost|a i m q e c Ht Hi' Hdq Hh];
    try (by destruct (Hw i)); try (unfold Async_Flush, Async_dtor_turn in Hpost; by rewrite Async_Post_full in Hpost).
  unfold Async_SinkIt in Hpost. destruct (msg_policy_ a) eqn:Ep; [by rewrite Async_Post_full in Hpost|].
  injection Hpost as Hpost. destruct (push_stays_full _ _ _ Hq Hc Hf Hpost) as (Hq' & Hm & Hf').
  split_and!; try done; [|by exists m]. split; simpl; try done. lia.
Qed.

Lemma stuck_run tr : forall a a',
  stuck a -> async_run a tr a' ->
  stuck a' /\ workers a' = workers a /\ core a' = core a /\ handled_msgs tr = [] /\
  (msg_policy_ a = BLOCK_RETRY -> tr = []).
Proof.
  induction tr as [|e tr IH]; intros a a' Hst Hrun; inversion Hrun; subst; [done|].
  rename H2 into H1, H4 into Hr.
  destruct (stuck_step _ _ _ Hst H1) as (Hst1 & Hw & Hc & Hp & m & -> & Hd).
  destruct (IH _ _ Hst1 Hr) as (Hst2 & Hw2 & Hc2 & Hh & _). split_and!; [done|congruence|congruence|done|congruence].
Qed.
End async.
