(* ===== verification/EventLoop.v ===== *)
(** * Events, timers, the two reactors and the loop that drives them.

    Sources: hare/base/io/event.cc, timer.cc, cycle.cc, reactor.h, reactor.cc,
    reactor/reactor_epoll.cc and reactor/reactor_poll.cc.

    One [Cycle] with its reactor is a value of [World]; the [Event] objects live in it
    under addresses.  User code (callbacks and tasks) is a parameter: any computation on
    the world.  [Timestamp::Now()] reads the field [now]; what [epoll_ctl], [epoll_wait]
    and [poll] return is a parameter or an input of the step.  A flag [in_thread] tells
    whether a call comes from the thread of the cycle.  Reference counts are not modelled:
    an [Event] stays in the world; whether the owner an event is tied to is still alive
    is the predicate [owner_alive]. *)

From S2P Require Import Prelude.

(** ** Flags *)

Definition EVENT_DEFAULT : Z := 0x00.
Definition EVENT_TIMEOUT : Z := 0x01.
Definition EVENT_READ : Z := 0x02.
Definition EVENT_WRITE : Z := 0x04.
Definition EVENT_PERSIST : Z := 0x08.
Definition EVENT_ET : Z := 0x10.
Definition EVENT_CLOSED : Z := 0x20.

Definition CHECK_EVENT (event val : Z) : bool := negb (Z.land event val =? 0).
Definition SET_EVENT (event val : Z) : Z := Z.lor event val.
Definition CLEAR_EVENT (event val : Z) : Z := Z.ldiff event val.

(** ** Objects *)

Abbreviation eptr := positive.

(** What a callback does: user code, [Timer::TimerCallback] or [EventNotify::EventCallback]. *)
Inductive Callback := CbNone | CbUser (k : positive) | CbTimer (task : positive) | CbNotify.

(** The object an event is tied to: another object, or (the notifier) an event. *)
Inductive owner := OwnUser (p : positive) | OwnEvent (e : eptr).

Record EventImpl := mkEvent {
  fd : Z; events : Z; callback : Callback; timeval : Z;
  cycle : option positive; id : Z;
  tied : bool; tie_object : option owner
}.

(** [CHECK_EVENT ... && CHECK_EVENT ...]: the constructor drops the timeout of a
    persistent event. *)
Definition Event_ctor (fd : Z) (cb : Callback) (events timeval : Z) : EventImpl :=
  if CHECK_EVENT events EVENT_TIMEOUT && CHECK_EVENT events EVENT_PERSIST then
    mkEvent fd (CLEAR_EVENT events EVENT_TIMEOUT) cb 0 None (-1) false None
  else mkEvent fd events cb timeval None (-1) false None.

Definition Event_Active (e : EventImpl) (cyc : positive) (i : Z) : EventImpl :=
  mkEvent (fd e) (events e) (callback e) (timeval e) (Some cyc) i (tied e) (tie_object e).
Definition Event_Reset (e : EventImpl) : EventImpl :=
  mkEvent (fd e) (events e) (callback e) (timeval e) None (-1) (tied e) (tie_object e).
Definition Event_Tie (e : EventImpl) (o : option owner) : EventImpl :=
  mkEvent (fd e) (events e) (callback e) (timeval e) (cycle e) (id e) true o.
Definition Event_set_events (e : EventImpl) (ev : Z) : EventImpl :=
  mkEvent (fd e) ev (callback e) (timeval e) (cycle e) (id e) (tied e) (tie_object e).

Definition Event_Reading (e : EventImpl) : bool := CHECK_EVENT (events e) EVENT_READ.
Definition Event_Writing (e : EventImpl) : bool := CHECK_EVENT (events e) EVENT_WRITE.

Definition Timer_ctor (task : positive) (timeval : Z) (is_persist : bool) : EventImpl :=
  Event_ctor (-1) (CbTimer task)
    (if is_persist then Z.lor EVENT_TIMEOUT EVENT_PERSIST else EVENT_TIMEOUT) timeval.

Definition EventNotify_ctor (evtfd : Z) : EventImpl :=
  Event_ctor evtfd CbNotify (Z.lor EVENT_READ EVENT_PERSIST) 0.

(** Elements of the timer queue.  [std::priority_queue] with [TimerPriority]: its top is
    an element with the greatest stamp.  The list is kept in that order, the top first. *)
Record TimerElem := mkTimer { t_id : Z; stamp : Z }.

Definition TimerPriority (x y : TimerElem) : bool := stamp x <? stamp y.

Fixpoint pq_emplace (t : TimerElem) (l : list TimerElem) : list TimerElem :=
  match l with
  | [] => [t]
  | u :: l => if TimerPriority u t then t :: u :: l else u :: pq_emplace t l
  end.

Record pollfd := mkPollfd { p_fd : Z; p_events : Z; p_revents : Z }.

(** Base class [Reactor], with the fields of the two derived classes. *)
Record Reactor := mkReactor {
  events_ : gmap Z eptr;
  inverse_map_ : gmap Z Z;
  ptimer_ : list TimerElem;
  active_events_ : list (eptr * Z);
  epoll_size : Z;
  poll_fds_ : list pollfd;
  poll_inverse_ : gmap Z Z
}.

(** The tasks of the queue of a cycle: user code, or one of the lambdas of cycle.cc. *)
Inductive Task :=
  | TUser (k : positive)
  | TUpdate (e : eptr)
  | TRemove (e : eptr)
  | TTimer (e : eptr) (i : Z)
  | TCancel (i : Z).

Record World := mkWorld {
  objs : gmap eptr EventImpl;
  next_obj : eptr;
  reactor : Reactor;
  reactor_time : Z;
  is_running : bool;
  quit : bool;
  event_handling : bool;
  calling_pending_functions : bool;
  event_id : Z;
  pending_functions : list Task;
  notify_event : eptr;
  notified : Z;
  now : Z;
  owner_alive : positive -> bool
}.

Abbreviation L := (ST World).

Definition gets {A} (f : World -> A) : L A := fun w => Ok (f w, w).
Definition puts (f : World -> World) : L unit := fun w => Ok (tt, f w).

Definition set_objs (m : gmap eptr EventImpl) (w : World) : World :=
  mkWorld m (next_obj w) (reactor w) (reactor_time w) (is_running w) (quit w) (event_handling w)
    (calling_pending_functions w) (event_id w) (pending_functions w) (notify_event w) (notified w) (now w) (owner_alive w).
Definition set_reactor (r : Reactor) (w : World) : World :=
  mkWorld (objs w) (next_obj w) r (reactor_time w) (is_running w) (quit w) (event_handling w)
    (calling_pending_functions w) (event_id w) (pending_functions w) (notify_event w) (notified w) (now w) (owner_alive w).
Definition set_pending (l : list Task) (w : World) : World :=
  mkWorld (objs w) (next_obj w) (reactor w) (reactor_time w) (is_running w) (quit w) (event_handling w)
    (calling_pending_functions w) (event_id w) l (notify_event w) (notified w) (now w) (owner_alive w).
Definition set_event_id (i : Z) (w : World) : World :=
  mkWorld (objs w) (next_obj w) (reactor w) (reactor_time w) (is_running w) (quit w) (event_handling w)
    (calling_pending_functions w) i (pending_functions w) (notify_event w) (notified w) (now w) (owner_alive w).
Definition set_quit (b : bool) (w : World) : World :=
  mkWorld (objs w) (next_obj w) (reactor w) (reactor_time w) (is_running w) b (event_handling w)
    (calling_pending_functions w) (event_id w) (pending_functions w) (notify_event w) (notified w) (now w) (owner_alive w).
Definition set_running (b : bool) (w : World) : World :=
  mkWorld (objs w) (next_obj w) (reactor w) (reactor_time w) b (quit w) (event_handling w)
    (calling_pending_functions w) (event_id w) (pending_functions w) (notify_event w) (notified w) (now w) (owner_alive w).
Definition set_handling (b : bool) (w : World) : World :=
  mkWorld (objs w) (next_obj w) (reactor w) (reactor_time w) (is_running w) (quit w) b
    (calling_pending_functions w) (event_id w) (pending_functions w) (notify_event w) (notified w) (now w) (owner_alive w).
Definition set_calling (b : bool) (w : World) : World :=
  mkWorld (objs w) (next_obj w) (reactor w) (reactor_time w) (is_running w) (quit w) (event_handling w)
    b (event_id w) (pending_functions w) (notify_event w) (notified w) (now w) (owner_alive w).
Definition set_notified (n : Z) (w : World) : World :=
  mkWorld (objs w) (next_obj w) (reactor w) (reactor_time w) (is_running w) (quit w) (event_handling w)
    (calling_pending_functions w) (event_id w) (pending_functions w) (notify_event w) n (now w) (owner_alive w).
Definition set_time (t n : Z) (w : World) : World :=
  mkWorld (objs w) (next_obj w) (reactor w) t (is_running w) (quit w) (event_handling w)
    (calling_pending_functions w) (event_id w) (pending_functions w) (notify_event w) (notified w) n (owner_alive w).

Definition set_events (m : gmap Z eptr) (r : Reactor) : Reactor :=
  mkReactor m (inverse_map_ r) (ptimer_ r) (active_events_ r) (epoll_size r) (poll_fds_ r) (poll_inverse_ r).
Definition set_inverse (m : gmap Z Z) (r : Reactor) : Reactor :=
  mkReactor (events_ r) m (ptimer_ r) (active_events_ r) (epoll_size r) (poll_fds_ r) (poll_inverse_ r).
Definition set_ptimer (l : list TimerElem) (r : Reactor) : Reactor :=
  mkReactor (events_ r) (inverse_map_ r) l (active_events_ r) (epoll_size r) (poll_fds_ r) (poll_inverse_ r).
Definition set_active (l : list (eptr * Z)) (r : Reactor) : Reactor :=
  mkReactor (events_ r) (inverse_map_ r) (ptimer_ r) l (epoll_size r) (poll_fds_ r) (poll_inverse_ r).
Definition set_epoll_size (n : Z) (r : Reactor) : Reactor :=
  mkReactor (events_ r) (inverse_map_ r) (ptimer_ r) (active_events_ r) n (poll_fds_ r) (poll_inverse_ r).
Definition set_poll (l : list pollfd) (m : gmap Z Z) (r : Reactor) : Reactor :=
  mkReactor (events_ r) (inverse_map_ r) (ptimer_ r) (active_events_ r) (epoll_size r) l m.

Definition mod_reactor (f : Reactor -> Reactor) : L unit := puts (fun w => set_reactor (f (reactor w)) w).

Definition obj (e : eptr) : L EventImpl := fun w =>
  match objs w !! e with Some o => Ok (o, w) | None => UB end.
Definition set_obj (e : eptr) (o : EventImpl) : L unit := puts (fun w => set_objs (<[e := o]> (objs w)) w).
Definition new_obj (o : EventImpl) : L eptr := fun w =>
  Ok (next_obj w,
      mkWorld (<[next_obj w := o]> (objs w)) (Pos.succ (next_obj w)) (reactor w) (reactor_time w) (is_running w)
        (quit w) (event_handling w) (calling_pending_functions w) (event_id w) (pending_functions w)
        (notify_event w) (notified w) (now w) (owner_alive w)).

(** [event_id.fetch_add(1)] *)
Definition fetch_id : L Z := fun w => Ok (event_id w, set_event_id (event_id w + 1) w).

(** ** The interface of a reactor to the cycle *)

(** What [epoll_wait]/[poll] report: for epoll the registered pointers with their
    events, for poll the whole array with [revents] filled in. *)
Record PollInput := mkInput { in_num : Z; in_epoll : list (eptr * Z); in_revents : list Z; in_now : Z }.

Class ReactorOps := {
  be_EventUpdate : eptr -> L bool;
  be_EventRemove : eptr -> L bool;
  be_FillActiveEvents : PollInput -> L unit
}.

(** ** [ReactorEpoll] *)

Definition EPOLLIN : Z := 0x001.
Definition EPOLLPRI : Z := 0x002.
Definition EPOLLOUT : Z := 0x004.
Definition EPOLLERR : Z := 0x008.
Definition EPOLLHUP : Z := 0x010.
Definition EPOLLRDHUP : Z := 0x2000.
Definition EPOLLET : Z := 0x80000000.

Definition EPOLL_CTL_ADD : Z := 1.
Definition EPOLL_CTL_DEL : Z := 2.
Definition EPOLL_CTL_MOD : Z := 3.

Definition kInitEventsCnt : Z := 16.

Definition DecodeEpoll (ev : Z) : Z :=
  let e := 0 in
  let e := if CHECK_EVENT ev EVENT_READ then SET_EVENT e (Z.lor EPOLLIN EPOLLPRI) else e in
  let e := if CHECK_EVENT ev EVENT_WRITE then SET_EVENT e EPOLLOUT else e in
  if CHECK_EVENT ev EVENT_ET then SET_EVENT e EPOLLET else e.

Definition EncodeEpoll (ev : Z) : Z :=
  let e := EVENT_DEFAULT in
  if CHECK_EVENT ev EPOLLERR || (CHECK_EVENT ev EPOLLHUP && negb (CHECK_EVENT ev EPOLLRDHUP)) then
    SET_EVENT e (Z.lor EVENT_READ EVENT_WRITE)
  else
    let e := if CHECK_EVENT ev EPOLLIN then SET_EVENT e EVENT_READ else e in
    let e := if CHECK_EVENT ev EPOLLOUT then SET_EVENT e EVENT_WRITE else e in
    if CHECK_EVENT ev EPOLLRDHUP then SET_EVENT e EVENT_CLOSED else e.

Section epoll.
(** Whether [epoll_ctl] succeeds. *)
Variable epoll_ctl : Z -> Z -> Z -> bool.

Definition UpdateEpoll (operation : Z) (e : eptr) : L bool :=
  o ← obj e;
  mret (epoll_ctl operation (fd o) (DecodeEpoll (events o))).

Definition Epoll_EventUpdate (e : eptr) : L bool :=
  o ← obj e;
  r ← gets reactor;
  if id o =? -1 then
    _ ← lift (hare_assert (bool_decide (inverse_map_ r !! fd o = None)));
    UpdateEpoll EPOLL_CTL_ADD e
  else
    _ ← lift (hare_assert (bool_decide (is_Some (inverse_map_ r !! fd o))));
    _ ← lift (hare_assert (bool_decide (is_Some (events_ r !! id o))));
    _ ← lift (hare_assert (bool_decide (events_ r !! id o = Some e)));
    UpdateEpoll EPOLL_CTL_MOD e.

Definition Epoll_EventRemove (e : eptr) : L bool :=
  o ← obj e;
  r ← gets reactor;
  _ ← lift (hare_assert (bool_decide (is_Some (inverse_map_ r !! fd o))));
  _ ← lift (hare_assert (id o =? -1));
  UpdateEpoll EPOLL_CTL_DEL e.

(** One turn of the loop of [FillActiveEvents]. *)
Definition Epoll_fill_one (ev : eptr * Z) : L unit :=
  o ← obj (fst ev);
  r ← gets reactor;
  i ← lift (match inverse_map_ r !! fd o with Some i => Ok i | None => Abort end);
  e ← lift (match events_ r !! i with Some e => Ok e | None => Abort end);
  _ ← lift (hare_assert (bool_decide (fst ev = e)));
  mod_reactor (fun r => set_active (active_events_ r ++ [(e, EncodeEpoll (snd ev))]) r).

Fixpoint Epoll_fill (l : list (eptr * Z)) : L unit :=
  match l with [] => mret tt | ev :: l => _ ← Epoll_fill_one ev; Epoll_fill l end.

(** The part of [Poll] behind [epoll_wait]. *)
Definition Epoll_FillActiveEvents (inp : PollInput) : L unit :=
  if in_num inp >? 0 then
    r ← gets reactor;
    _ ← lift (hare_assert (in_num inp <=? epoll_size r));
    _ ← Epoll_fill (take (Z.to_nat (in_num inp)) (in_epoll inp));
    if in_num inp =? epoll_size r then mod_reactor (set_epoll_size (epoll_size r * 2)) else mret tt
  else mret tt.

#[export] Instance EpollBackend : ReactorOps := {|
  be_EventUpdate := Epoll_EventUpdate;
  be_EventRemove := Epoll_EventRemove;
  be_FillActiveEvents := Epoll_FillActiveEvents
|}.
End epoll.

(** ** [ReactorPoll] *)

Definition POLLIN : Z := 0x001.
Definition POLLOUT : Z := 0x004.
Definition POLLERR : Z := 0x008.
Definition POLLHUP : Z := 0x010.
Definition POLLNVAL : Z := 0x020.
Definition POLLRDHUP : Z := 0x2000.

Definition DecodePoll (ev : Z) : Z :=
  let res := 0 in
  let res := if CHECK_EVENT ev EVENT_WRITE then SET_EVENT res POLLOUT else res in
  let res := if CHECK_EVENT ev EVENT_READ then SET_EVENT res POLLIN else res in
  if CHECK_EVENT ev EVENT_CLOSED then SET_EVENT res POLLRDHUP else res.

Definition EncodePoll (ev : Z) : Z :=
  let ev := if CHECK_EVENT ev (Z.lor (Z.lor POLLHUP POLLERR) POLLNVAL)
            then SET_EVENT ev (Z.lor POLLIN POLLOUT) else ev in
  let res := EVENT_DEFAULT in
  let res := if CHECK_EVENT ev POLLIN then SET_EVENT res EVENT_READ else res in
  let res := if CHECK_EVENT ev POLLOUT then SET_EVENT res EVENT_WRITE else res in
  if CHECK_EVENT ev POLLRDHUP then SET_EVENT res EVENT_CLOSED else res.

Section poll.
Definition Poll_EventUpdate (e : eptr) : L bool :=
  o ← obj e;
  r ← gets reactor;
  let target_fd := fd o in
  if id o =? -1 then
    _ ← lift (hare_assert (bool_decide (poll_inverse_ r !! target_fd = None)));
    let fds := poll_fds_ r ++ [mkPollfd target_fd (DecodePoll (events o)) 0] in
    let index := i32 (Zlen fds) - 1 in
    _ ← mod_reactor (set_poll fds (<[target_fd := index]> (poll_inverse_ r)));
    mret true
  else
    _ ← lift (hare_assert (bool_decide (is_Some (events_ r !! id o))));
    _ ← lift (hare_assert (bool_decide (events_ r !! id o = Some e)));
    index ← lift (match poll_inverse_ r !! target_fd with Some i => Ok i | None => Abort end);
    _ ← lift (hare_assert ((0 <=? index) && (index <? i32 (Zlen (poll_fds_ r)))));
    pfd ← lift (deref (poll_fds_ r !! Z.to_nat index));
    _ ← lift (hare_assert ((p_fd pfd =? target_fd) || (p_fd pfd =? - target_fd - 1)));
    _ ← mod_reactor (set_poll (<[Z.to_nat index := mkPollfd target_fd (DecodePoll (events o)) 0]> (poll_fds_ r))
                       (poll_inverse_ r));
    mret true.

Definition Poll_EventRemove (e : eptr) : L bool :=
  o ← obj e;
  r ← gets reactor;
  let target_fd := fd o in
  index ← lift (match poll_inverse_ r !! target_fd with Some i => Ok i | None => Abort end);
  _ ← lift (hare_assert ((0 <=? index) && (index <? i32 (Zlen (poll_fds_ r)))));
  pfd ← lift (deref (poll_fds_ r !! Z.to_nat index));
  _ ← lift (hare_assert (p_events pfd =? DecodePoll (events o)));
  if index =? Zlen (poll_fds_ r) - 1 then
    _ ← mod_reactor (set_poll (removelast (poll_fds_ r)) (delete target_fd (poll_inverse_ r)));
    mret true
  else
    swap_pfd ← lift (deref (last (poll_fds_ r)));
    _ ← lift (hare_assert (bool_decide (is_Some (poll_inverse_ r !! p_fd swap_pfd))));
    _ ← mod_reactor (set_poll (removelast (<[Z.to_nat index := swap_pfd]> (poll_fds_ r)))
                       (delete target_fd (<[p_fd swap_pfd := index]> (poll_inverse_ r))));
    mret true.

(** The loop of [FillActiveEvents]: the position in [poll_fds_] is taken for the id. *)
Fixpoint Poll_fill (l : list pollfd) (event_id num : Z) : L unit :=
  match l with
  | [] => mret tt
  | pfd :: l =>
    if num >? 0 then
      if p_revents pfd >? 0 then
        r ← gets reactor;
        e ← lift (match events_ r !! event_id with Some e => Ok e | None => Abort end);
        o ← obj e;
        _ ← lift (hare_assert (fd o =? p_fd pfd));
        _ ← mod_reactor (fun r => set_active (active_events_ r ++ [(e, EncodePoll (p_revents pfd))]) r);
        Poll_fill l (event_id + 1) (num - 1)
      else Poll_fill l (event_id + 1) num
    else mret tt
  end.

(** [poll] has written the [revents]. *)
Definition with_revents (fds : list pollfd) (rs : list Z) : list pollfd :=
  zip_with (fun p r => mkPollfd (p_fd p) (p_events p) r) fds rs.

Definition Poll_FillActiveEvents (inp : PollInput) : L unit :=
  r ← gets reactor;
  let fds := with_revents (poll_fds_ r) (in_revents inp) in
  _ ← mod_reactor (set_poll fds (poll_inverse_ r));
  if in_num inp >? 0 then Poll_fill fds 0 (in_num inp) else mret tt.

#[export] Instance PollBackend : ReactorOps := {|
  be_EventUpdate := Poll_EventUpdate;
  be_EventRemove := Poll_EventRemove;
  be_FillActiveEvents := Poll_FillActiveEvents
|}.
End poll.

(** ** [Cycle] *)

Definition POLL_TIME_MICROSECONDS : Z := 1000000.

(** [GetWaitTime], with the difference cut to 32 bits. *)
Definition GetWaitTime (ptimer : list TimerElem) (now : Z) : Z :=
  match ptimer with
  | [] => POLL_TIME_MICROSECONDS
  | top :: _ =>
    let time := i32 (stamp top - now) in
    if time <=? 0 then 1
    else if time <? POLL_TIME_MICROSECONDS then time else POLL_TIME_MICROSECONDS
  end.

Section cycle.
(** The cycle's own address, and what user code does. *)
Context (this : positive).
Context (user_cb : positive -> eptr -> Z -> Z -> L unit) (user_task : positive -> L unit).
Context `{!ReactorOps}.

Definition Notify : L unit := puts (fun w => set_notified (notified w + 1) w).

(** [HandleEvent]: only a tied event calls back. *)
Definition tie_locked (w : World) (o : EventImpl) : bool :=
  match tie_object o with
  | Some (OwnUser p) => owner_alive w p
  | Some (OwnEvent _) => true
  | None => false
  end.

(** [read] takes the counter of the eventfd. *)
Definition EventNotify_EventCallback (events : Z) : L unit :=
  if CHECK_EVENT events EVENT_READ then puts (set_notified 0) else lift (Throw Exception).

(** The task runs whatever the events are. *)
Definition Timer_TimerCallback (task : positive) : L unit := user_task task.

Definition run_callback (e : eptr) (cb : Callback) (flag time : Z) : L unit :=
  match cb with
  | CbNone => mret tt
  | CbUser k => user_cb k e flag time
  | CbTimer t => Timer_TimerCallback t
  | CbNotify => EventNotify_EventCallback flag
  end.

Definition HandleEvent (e : eptr) (flag time : Z) : L unit :=
  o ← obj e;
  w ← gets (fun w => w);
  if tied o then
    if tie_locked w o then run_callback e (callback o) flag time else mret tt
  else mret tt.

(** The lambda of [EventUpdate]. *)
Definition update_in_loop (e : eptr) : L unit :=
  o ← obj e;
  ret ← (if fd o >=? 0 then be_EventUpdate e else mret true);
  if negb ret then mret tt
  else
    _ ← (if id o =? -1 then
           i ← fetch_id;
           _ ← set_obj e (Event_Active o this i);
           r ← gets reactor;
           _ ← lift (hare_assert (bool_decide (events_ r !! i = None)));
           _ ← mod_reactor (fun r => set_events (<[i := e]> (events_ r)) r);
           if fd o >=? 0 then
             (* std::map::insert keeps an existing entry *)
             mod_reactor (fun r => set_inverse (match inverse_map_ r !! fd o with
                                                | Some _ => inverse_map_ r
                                                | None => <[fd o := i]> (inverse_map_ r)
                                                end) r)
           else mret tt
         else mret tt);
    o ← obj e;
    if CHECK_EVENT (events o) EVENT_TIMEOUT then
      w ← gets (fun w => w);
      mod_reactor (fun r => set_ptimer (pq_emplace (mkTimer (id o) (now w + timeval o)) (ptimer_ r)) r)
    else mret tt.

(** The lambda of [EventRemove]. *)
Definition remove_in_loop (e : eptr) : L unit :=
  o ← obj e;
  r ← gets reactor;
  match events_ r !! id o with
  | None => mret tt
  | Some e' =>
    _ ← lift (hare_assert (bool_decide (e' = e)));
    _ ← set_obj e (Event_Reset o);
    _ ← (if fd o >=? 0 then
           _ ← be_EventRemove e;
           mod_reactor (fun r => set_inverse (delete (fd o) (inverse_map_ r)) r)
         else mret tt);
    mod_reactor (fun r => set_events (delete (id o) (events_ r)) r)
  end.

(** The lambda of [RunAfter] and [RunEvery]. *)
Definition timer_in_loop (e : eptr) (i : Z) : L unit :=
  o ← obj e;
  _ ← lift (hare_assert (id o =? -1));
  let o := Event_Active o this i in
  _ ← set_obj e o;
  r ← gets reactor;
  _ ← lift (hare_assert (bool_decide (events_ r !! id o = None)));
  _ ← mod_reactor (fun r => set_events (<[id o := e]> (events_ r)) r);
  _ ← lift (hare_assert (CHECK_EVENT (events o) EVENT_TIMEOUT));
  w ← gets (fun w => w);
  mod_reactor (fun r => set_ptimer (pq_emplace (mkTimer (id o) (now w + timeval o)) (ptimer_ r)) r).

(** The lambda of [Cancel]. *)
Definition cancel_in_loop (i : Z) : L unit :=
  r ← gets reactor;
  match events_ r !! i with
  | None => mret tt
  | Some e =>
    o ← obj e;
    if fd o <? 0 then
      _ ← set_obj e (Event_Reset o);
      mod_reactor (fun r => set_events (delete i (events_ r)) r)
    else mret tt
  end.

Definition run_task (t : Task) : L unit :=
  match t with
  | TUser k => user_task k
  | TUpdate e => update_in_loop e
  | TRemove e => remove_in_loop e
  | TTimer e i => timer_in_loop e i
  | TCancel i => cancel_in_loop i
  end.

Definition QueueInCycle (in_thread : bool) (t : Task) : L unit :=
  _ ← puts (fun w => set_pending (pending_functions w ++ [t]) w);
  if in_thread then mret tt else Notify.

Definition RunInCycle (in_thread : bool) (t : Task) : L unit :=
  if in_thread then run_task t else QueueInCycle false t.

Definition EventUpdate (in_thread : bool) (e : eptr) : L unit :=
  o ← obj e;
  if bool_decide (cycle o <> Some this) && negb (id o =? -1) then mret tt
  else RunInCycle in_thread (TUpdate e).

Definition EventRemove (in_thread : bool) (e : eptr) : L unit :=
  o ← obj e;
  if bool_decide (cycle o <> Some this) || (id o =? -1) then mret tt
  else RunInCycle in_thread (TRemove e).

Definition EventCheck (in_thread : bool) (e : eptr) : L bool :=
  o ← obj e;
  if id o <? 0 then mret false
  else if negb in_thread then lift (Throw Exception)
  else r ← gets reactor; mret (bool_decide (is_Some (events_ r !! id o))).

(** [Event::EnableRead] and its like: the flag, then an update if the event is in a cycle. *)
Definition Event_change (in_thread : bool) (e : eptr) (f : Z -> Z) : L unit :=
  o ← obj e;
  _ ← set_obj e (Event_set_events o (f (events o)));
  match cycle o with Some _ => EventUpdate in_thread e | None => mret tt end.

Definition EnableRead (t : bool) (e : eptr) : L unit := Event_change t e (fun v => SET_EVENT v EVENT_READ).
Definition DisableRead (t : bool) (e : eptr) : L unit := Event_change t e (fun v => CLEAR_EVENT v EVENT_READ).
Definition EnableWrite (t : bool) (e : eptr) : L unit := Event_change t e (fun v => SET_EVENT v EVENT_WRITE).
Definition DisableWrite (t : bool) (e : eptr) : L unit := Event_change t e (fun v => CLEAR_EVENT v EVENT_WRITE).

Definition Deactivate (in_thread : bool) (e : eptr) : L unit :=
  o ← obj e;
  match cycle o with Some _ => EventRemove in_thread e | None => mret tt end.

Definition Run_timer (in_thread : bool) (task : positive) (delay : Z) (persist : bool) : L Z :=
  w ← gets (fun w => w);
  if negb (is_running w) then mret (-1)
  else
    timer ← new_obj (Timer_ctor task delay persist);
    i ← fetch_id;
    _ ← RunInCycle in_thread (TTimer timer i);
    mret i.

Definition RunAfter (in_thread : bool) (task : positive) (delay : Z) : L Z := Run_timer in_thread task delay false.
Definition RunEvery (in_thread : bool) (task : positive) (delay : Z) : L Z := Run_timer in_thread task delay true.

Definition Cancel (in_thread : bool) (i : Z) : L unit :=
  w ← gets (fun w => w);
  if negb (is_running w) then mret tt else RunInCycle in_thread (TCancel i).

Definition Exit (in_thread : bool) : L unit :=
  _ ← puts (set_quit true);
  if in_thread then mret tt else Notify.

(** [EventHandling()] returns the other flag. *)
Definition EventHandling (w : World) : bool := calling_pending_functions w.

Fixpoint run_all (l : list Task) : L unit :=
  match l with [] => mret tt | t :: l => _ ← run_task t; run_all l end.

Definition DoPendingFunctions : L unit :=
  _ ← puts (set_calling true);
  functions ← gets pending_functions;
  _ ← puts (set_pending []);
  _ ← run_all functions;
  puts (set_calling false).

(** The loop of [NotifyTimer].  [event] refers into the map: it must still be there
    when it is used after the callback. *)
Fixpoint NotifyTimer (fuel : nat) (time : Z) : L unit :=
  match fuel with
  | O => lift NoFuel
  | S fuel =>
    w ← gets (fun w => w);
    match ptimer_ (reactor w) with
    | [] => mret tt
    | top :: _ =>
      if reactor_time w <? stamp top then mret tt
      else
        _ ← match events_ (reactor w) !! t_id top with
            | None => mret tt
            | Some e =>
              _ ← HandleEvent e EVENT_TIMEOUT time;
              w ← gets (fun w => w);
              e ← lift (deref (events_ (reactor w) !! t_id top));
              o ← obj e;
              if CHECK_EVENT (events o) EVENT_PERSIST then
                mod_reactor (fun r => set_ptimer (pq_emplace (mkTimer (t_id top) (reactor_time w + timeval o)) (ptimer_ r)) r)
              else EventRemove true e
            end;
        _ ← mod_reactor (fun r => set_ptimer (tail (ptimer_ r)) r);
        NotifyTimer fuel time
    end
  end.

(** The range-for over [active_events_]. *)
Fixpoint handle_active (l : list (eptr * Z)) (time : Z) : L unit :=
  match l with
  | [] => mret tt
  | (e, revents) :: l =>
    _ ← HandleEvent e revents time;
    o ← obj e;
    _ ← (if CHECK_EVENT (events o) EVENT_PERSIST then mret tt else EventRemove true e);
    handle_active l time
  end.

(** One turn of the loop of [Exec]; [inp] is what the system call brings. *)
Definition Exec_turn (fuel : nat) (inp : PollInput) : L unit :=
  _ ← mod_reactor (set_active []);
  _ ← be_FillActiveEvents inp;
  _ ← puts (set_time (in_now inp) (in_now inp));
  _ ← puts (set_handling true);
  w ← gets (fun w => w);
  _ ← handle_active (active_events_ (reactor w)) (reactor_time w);
  _ ← puts (set_handling false);
  w ← gets (fun w => w);
  _ ← NotifyTimer fuel (now w);
  DoPendingFunctions.

(** [while (!quit)]: without further input the loop waits. *)
Fixpoint Exec_loop (fuel : nat) (inps : list PollInput) : L unit :=
  w ← gets (fun w => w);
  if quit w then mret tt
  else match inps with
       | [] => lift NoFuel
       | inp :: inps => _ ← Exec_turn fuel inp; Exec_loop fuel inps
       end.

Definition Exec_begin : L unit :=
  w ← gets (fun w => w);
  _ ← lift (hare_assert (negb (is_running w)));
  _ ← puts (set_running true);
  _ ← puts (set_quit false);
  _ ← EventUpdate true (notify_event w);
  o ← obj (notify_event w);
  set_obj (notify_event w) (Event_Tie o (Some (OwnEvent (notify_event w)))).

(** [for (event : events_) event.second->Reset();] *)
Definition reset_all (m : gmap Z eptr) (os : gmap eptr EventImpl) : gmap eptr EventImpl :=
  foldr (fun p os => alter Event_Reset (snd p) os) os (map_to_list m).

Definition Exec_end : L unit :=
  w ← gets (fun w => w);
  _ ← Deactivate true (notify_event w);
  o ← obj (notify_event w);
  _ ← set_obj (notify_event w) (Event_Tie o None);
  _ ← puts (set_running false);
  _ ← puts (fun w => set_objs (reset_all (events_ (reactor w)) (objs w)) w);
  mod_reactor (fun r => set_ptimer [] (set_events ∅ (set_active [] r))).

Definition Exec (fuel : nat) (inps : list PollInput) : L unit :=
  _ ← Exec_begin;
  _ ← Exec_loop fuel inps;
  Exec_end.
End cycle.

Definition Reactor_init : Reactor :=
  mkReactor ∅ ∅ [] [] kInitEventsCnt (replicate 16 (mkPollfd 0 0 0)) ∅.

(** A new cycle: the notifier is its only event object. *)
Definition Cycle_ctor (evtfd now : Z) : World :=
  mkWorld {[ 1%positive := EventNotify_ctor evtfd ]} 2 Reactor_init (-1) false false false false 0 [] 1 0 now
    (fun _ => true).
