(* ===== verification/EventLoopSpec.v ===== *)
(** * What the event loop keeps and what it does.

    The first part is an invariant of the loop, proved against the interface of a reactor
    ([BackendLaws]) and discharged for epoll: the two maps of the reactor and the event
    objects agree.  The second part is the behaviour of the timers, of the task queue and
    of the poll reactor. *)

From S2P Require Import Prelude EventLoop.

(** ** Flags *)

(** No event has a timeout and is persistent. *)
Definition flags_ok (o : EventImpl) : Prop :=
  CHECK_EVENT (events o) EVENT_TIMEOUT && CHECK_EVENT (events o) EVENT_PERSIST = false.

Section flags.
Lemma CHECK_EVENT_bit ev k : 0 <= k -> CHECK_EVENT ev (2 ^ k) = Z.testbit ev k.
Proof.
  intros Hk. unfold CHECK_EVENT. destruct (Z.testbit ev k) eqn:E.
  - apply negb_true_iff, Z.eqb_neq. intros H.
    assert (Hb : Z.testbit (Z.land ev (2 ^ k)) k = true) by (by rewrite Z.land_spec, E, Z.pow2_bits_true by lia).
    rewrite H, Z.bits_0 in Hb. done.
  - apply negb_false_iff, Z.eqb_eq. apply Z.bits_inj'. intros n Hn. rewrite Z.land_spec, Z.bits_0.
    destruct (Z.eq_dec n k) as [->|Hne]; [by rewrite E|]. rewrite Z.pow2_bits_false by lia. apply andb_false_r.
Qed.

Lemma check_set ev v k : 0 <= k -> CHECK_EVENT (SET_EVENT ev v) (2 ^ k) = CHECK_EVENT ev (2 ^ k) || Z.testbit v k.
Proof. intros. rewrite !CHECK_EVENT_bit by done. unfold SET_EVENT. apply Z.lor_spec. Qed.

Lemma check_clear ev v k :
  0 <= k -> CHECK_EVENT (CLEAR_EVENT ev v) (2 ^ k) = CHECK_EVENT ev (2 ^ k) && negb (Z.testbit v k).
Proof. intros. rewrite !CHECK_EVENT_bit by done. unfold CLEAR_EVENT. apply Z.ldiff_spec. Qed.

Lemma Event_ctor_flags f cb ev tv : flags_ok (Event_ctor f cb ev tv).
Proof.
  unfold flags_ok, Event_ctor.
  destruct (CHECK_EVENT ev EVENT_TIMEOUT && CHECK_EVENT ev EVENT_PERSIST) eqn:E; [|done]. simpl.
  change EVENT_TIMEOUT with (2 ^ 0).
  rewrite check_clear by lia. simpl. by rewrite andb_false_r.
Qed.

(** The operations that change the flags of an event only touch READ and WRITE. *)
Lemma set_rw_flags o v :
  flags_ok o -> v = EVENT_READ \/ v = EVENT_WRITE ->
  flags_ok (Event_set_events o (SET_EVENT (events o) v)) /\
  flags_ok (Event_set_events o (CLEAR_EVENT (events o) v)).
Proof.
  unfold flags_ok. simpl. change EVENT_TIMEOUT with (2 ^ 0). change EVENT_PERSIST with (2 ^ 3).
  intros H Hv. rewrite !check_set, !check_clear by lia.
  by destruct Hv as [-> | ->]; simpl; rewrite ?orb_false_r, ?andb_true_r.
Qed.

(** What epoll reports as events of the library: READ, WRITE and CLOSED only, and the
    error conditions as both READ and WRITE. *)
Lemma EncodeEpoll_spec ev :
  CHECK_EVENT (EncodeEpoll ev) EVENT_TIMEOUT = false /\ CHECK_EVENT (EncodeEpoll ev) EVENT_PERSIST = false /\
  (CHECK_EVENT ev EPOLLIN = true -> CHECK_EVENT (EncodeEpoll ev) EVENT_READ = true) /\
  (CHECK_EVENT ev EPOLLOUT = true -> CHECK_EVENT (EncodeEpoll ev) EVENT_WRITE = true) /\
  (CHECK_EVENT ev EPOLLERR = true ->
     EncodeEpoll ev = Z.lor EVENT_READ EVENT_WRITE).
Proof.
  unfold EncodeEpoll.
  destruct (CHECK_EVENT ev EPOLLERR) eqn:E1; simpl; [split_and!; done|].
  destruct (CHECK_EVENT ev EPOLLHUP && negb (CHECK_EVENT ev EPOLLRDHUP)); simpl; [split_and!; done|].
  by destruct (CHECK_EVENT ev EPOLLIN), (CHECK_EVENT ev EPOLLOUT), (CHECK_EVENT ev EPOLLRDHUP).
Qed.

(** Interest in CLOSED is not passed on to epoll; it is to poll. *)
Lemma Decode_closed :
  (forall ev, CHECK_EVENT (DecodeEpoll ev) EPOLLRDHUP = false) /\
  (forall ev, CHECK_EVENT (DecodePoll ev) POLLRDHUP = CHECK_EVENT ev EVENT_CLOSED).
Proof.
  split; intros ev.
  - unfold DecodeEpoll. by destruct (CHECK_EVENT ev EVENT_READ), (CHECK_EVENT ev EVENT_WRITE), (CHECK_EVENT ev EVENT_ET).
  - unfold DecodePoll. by destruct (CHECK_EVENT ev EVENT_READ), (CHECK_EVENT ev EVENT_WRITE), (CHECK_EVENT ev EVENT_CLOSED).
Qed.
End flags.

(** ** The invariant of the loop *)

Section invariant.
Context (this : positive).

(** The event [e] is in the reactor under its id. *)
Definition active (w : World) (e : eptr) (o : EventImpl) : Prop :=
  objs w !! e = Some o /\ id o <> -1 /\ cycle o = Some this.

Record Inv (w : World) : Prop := {
  inv_map : forall i e, events_ (reactor w) !! i = Some e -> exists o, active w e o /\ id o = i;
  inv_obj : forall e o, active w e o -> events_ (reactor w) !! id o = Some e;
  inv_fd : forall e o, active w e o -> 0 <= fd o -> inverse_map_ (reactor w) !! fd o = Some (id o);
  inv_inverse : forall f i, inverse_map_ (reactor w) !! f = Some i ->
    exists e o, active w e o /\ id o = i /\ fd o = f /\ 0 <= f;
  inv_flags : forall e o, objs w !! e = Some o -> flags_ok o;
  inv_id : 0 <= event_id w;
  inv_next : forall e o, objs w !! e = Some o -> (e < next_obj w)%positive;
  inv_pending : forall e i, TTimer e i ∈ pending_functions w ->
    0 <= i /\ exists o, objs w !! e = Some o /\ fd o < 0
}.

(** What time does not change: the objects stay and keep their descriptor, ids grow. *)
Definition later (w w' : World) : Prop :=
  event_id w <= event_id w' /\
  forall e o, objs w !! e = Some o -> exists o', objs w' !! e = Some o' /\ fd o' = fd o.

Definition keeps {A} (m : L A) : Prop :=
  forall w a w', Inv w -> m w = Ok (a, w') -> Inv w' /\ later w w'.

Lemma later_refl w : later w w.
Proof. split; [lia|]. eauto. Qed.

Lemma later_trans w1 w2 w3 : later w1 w2 -> later w2 w3 -> later w1 w3.
Proof.
  intros [H1 H2] [H3 H4]. split; [lia|]. intros e o (o1 & Ho1 & <-)%H2. by apply H4 in Ho1.
Qed.

Lemma keeps_ret {A} (a : A) : keeps (mret a).
Proof. intros w a' w' Hi [= <- <-]. split; [done|apply later_refl]. Qed.

Lemma keeps_bind {A B} (m : L A) (f : A -> L B) :
  keeps m -> (forall a, keeps (f a)) -> keeps (m ≫= f).
Proof.
  intros Hm Hf w b w' Hi (a & w1 & H1 & H2)%ST_bind_Ok.
  destruct (Hm _ _ _ Hi H1) as [Hi1 Hl1]. destruct (Hf a _ _ _ Hi1 H2) as [Hi2 Hl2].
  split; [done|by eapply later_trans].
Qed.

Lemma keeps_lift {A} (m : outcome A) : keeps (lift m).
Proof. intros w a w' Hi H. unfold lift in H. destruct m; simplify_eq. split; [done|apply later_refl]. Qed.

Lemma keeps_gets {A} (f : World -> A) : keeps (gets f).
Proof. intros w a w' Hi [= <- <-]. split; [done|apply later_refl]. Qed.

Lemma keeps_obj e : keeps (obj e).
Proof. intros w a w' Hi H. unfold obj in H. destruct (objs w !! e); simplify_eq. split; [done|apply later_refl]. Qed.

(** Changes to the fields the invariant does not speak of. *)
Definition neutral (f : World -> World) : Prop :=
  forall w, objs (f w) = objs w /\ events_ (reactor (f w)) = events_ (reactor w) /\
    inverse_map_ (reactor (f w)) = inverse_map_ (reactor w) /\ event_id (f w) = event_id w /\
    next_obj (f w) = next_obj w /\
    (forall e i, TTimer e i ∈ pending_functions (f w) -> TTimer e i ∈ pending_functions w).

Lemma keeps_neutral f : neutral f -> keeps (puts f).
Proof.
  intros Hf w a w' [A B C D E F G P] [= _ <-]. destruct (Hf w) as (H1 & H2 & H3 & H4 & H5 & H6).
  split.
  - split; unfold active in *; rewrite ?H1, ?H2, ?H3, ?H4, ?H5; try done. intros e i ?%H6. auto.
  - split; [lia|]. rewrite H1. eauto.
Qed.
End invariant.

Create HintDb loop.
#[export] Hint Resolve keeps_ret keeps_bind keeps_lift keeps_gets keeps_obj keeps_neutral : loop.
#[export] Hint Extern 1 (neutral _) => (intros w; split_and!; simpl; try done; set_solver) : loop.

(** The laws of a reactor: registering and deregistering only changes its own part of
    the state, and a new event is accepted only for a descriptor that has no entry. *)
Class BackendLaws `{!ReactorOps} := {
  update_frame e w b w' : be_EventUpdate e w = Ok (b, w') ->
    exists f, (forall r, events_ (f r) = events_ r /\ inverse_map_ (f r) = inverse_map_ r) /\
      w' = set_reactor (f (reactor w)) w;
  update_new e w b w' o : be_EventUpdate e w = Ok (b, w') -> objs w !! e = Some o -> id o = -1 ->
    inverse_map_ (reactor w) !! fd o = None;
  remove_frame e w b w' : be_EventRemove e w = Ok (b, w') ->
    exists f, (forall r, events_ (f r) = events_ r /\ inverse_map_ (f r) = inverse_map_ r) /\
      w' = set_reactor (f (reactor w)) w;
  fill_frame inp w w' : be_FillActiveEvents inp w = Ok (tt, w') ->
    exists f, (forall r, events_ (f r) = events_ r /\ inverse_map_ (f r) = inverse_map_ r) /\
      w' = set_reactor (f (reactor w)) w
}.

Lemma obj_Ok e w o w' : obj e w = Ok (o, w') -> objs w !! e = Some o /\ w' = w.
Proof. unfold obj. destruct (objs w !! e); naive_solver. Qed.

Lemma lift_Ok {A} (m : outcome A) (w : World) a w' : lift m w = Ok (a, w') -> m = Ok a /\ w' = w.
Proof. unfold lift. destruct m; naive_solver. Qed.

Lemma assert_Ok b (w : World) u w' : lift (hare_assert b) w = Ok (u, w') -> b = true /\ w' = w.
Proof. unfold lift, hare_assert. destruct b; naive_solver. Qed.

Lemma same_world w : w = set_reactor (reactor w) w.
Proof. by destruct w. Qed.

Lemma gets_Ok {A} (f : World -> A) w a w' : gets f w = Ok (a, w') -> a = f w /\ w' = w.
Proof. intros H. injection H as <- <-. done. Qed.

Lemma puts_Ok f w u w' : puts f w = Ok (u, w') -> u = tt /\ w' = f w.
Proof. intros H. injection H as <- <-. done. Qed.

Lemma mod_Ok f w u w' : mod_reactor f w = Ok (u, w') -> u = tt /\ w' = set_reactor (f (reactor w)) w.
Proof. unfold mod_reactor. intros H. by apply puts_Ok in H. Qed.

Lemma mret_Ok {A} (a : A) (w : World) b w' : (mret a : L A) w = Ok (b, w') -> b = a /\ w' = w.
Proof. intros H. injection H as <- <-. done. Qed.

(** Steps of a successful run. *)
Ltac inv_run :=
  repeat match goal with
  | H : (_ ≫= _) _ = Ok _ |- _ =>
      apply ST_bind_Ok in H; let a := fresh "a" in let w := fresh "w" in
      let H1 := fresh "Hr" in let H2 := fresh "Hr" in destruct H as (a & w & H1 & H2)
  | H : obj _ _ = Ok _ |- _ => apply obj_Ok in H; destruct H as [? ->]
  | H : gets _ _ = Ok _ |- _ => apply gets_Ok in H; destruct H as [-> ->]
  | H : lift (hare_assert _) _ = Ok _ |- _ => apply assert_Ok in H; destruct H as [? ->]
  | H : bool_decide _ = true |- _ => apply bool_decide_eq_true in H
  | H : lift _ _ = Ok _ |- _ => apply lift_Ok in H; destruct H as [? ->]
  | H : mret _ _ = Ok _ |- _ => apply mret_Ok in H; destruct H as [? ->]; simplify_eq
  | H : mod_reactor _ _ = Ok _ |- _ => apply mod_Ok in H; destruct H as [_ ->]
  | H : puts _ _ = Ok _ |- _ => apply puts_Ok in H; destruct H as [_ ->]
  end; simpl in *.

Section epoll_laws.
Context (epoll_ctl : Z -> Z -> Z -> bool).

Lemma Epoll_fill_frame l w w' :
  Epoll_fill l w = Ok (tt, w') ->
  exists act, w' = set_reactor (set_active (active_events_ (reactor w) ++ act) (reactor w)) w.
Proof.
  revert w. induction l as [|ev l IH]; intros w; simpl; intros H.
  - injection H as <-. exists []. rewrite app_nil_r. by destruct w as [? ? []].
  - apply ST_bind_Ok in H as (u & w1 & H1 & H2). destruct (IH _ H2) as (act & ->).
    unfold Epoll_fill_one in H1. inv_run.
    rewrite <- (assoc_L (++)). eauto.
Qed.

#[export] Instance EpollLaws : BackendLaws (H := EpollBackend epoll_ctl).
Proof.
  split; simpl.
  - intros e w b w' H. exists (fun r => r). split; [done|]. rewrite <- same_world.
    unfold Epoll_EventUpdate, UpdateEpoll in H. inv_run. destruct (id a =? -1); by inv_run.
  - intros e w b w' o H Ho Hid. unfold Epoll_EventUpdate in H. inv_run. simplify_eq.
    rewrite Hid in *. simpl in *. by inv_run.
  - intros e w b w' H. exists (fun r => r). split; [done|]. rewrite <- same_world.
    unfold Epoll_EventRemove, UpdateEpoll in H. by inv_run.
  - intros inp w w' H. unfold Epoll_FillActiveEvents in H. destruct (in_num inp >? 0).
    + inv_run. match goal with Hf : Epoll_fill _ _ = Ok (?u, _) |- _ =>
        destruct u; apply Epoll_fill_frame in Hf as (act & ->) end.
      destruct (in_num inp =? epoll_size (reactor w)); inv_run.
      * exists (fun r => set_epoll_size (epoll_size (reactor w) * 2) (set_active (active_events_ (reactor w) ++ act) r)).
        split; [done|reflexivity].
      * exists (fun r => set_active (active_events_ (reactor w) ++ act) r). split; [done|reflexivity].
    + inv_run. exists (fun r => r). split; [done|]. apply same_world.
Qed.
End epoll_laws.

Section changes.
Context (this : positive).
Abbreviation Inv := (Inv this).
Abbreviation active := (active this).

(** What two worlds share beside the objects and the maps. *)
Definition rest_same (w w' : World) : Prop :=
  event_id w <= event_id w' /\ next_obj w' = next_obj w /\
  (forall e i, TTimer e i ∈ pending_functions w' -> TTimer e i ∈ pending_functions w).

(** One object is replaced by one with the same descriptor and good flags. *)
Lemma later_set w w' e o o' :
  objs w !! e = Some o -> fd o' = fd o -> objs w' = <[e := o']> (objs w) -> rest_same w w' -> later w w'.
Proof.
  intros Ho Hfd Hobjs (Hid & _). split; [done|]. intros e' o0 He'. rewrite Hobjs.
  destruct (decide (e' = e)) as [->|Hne].
  - rewrite lookup_insert_eq. simplify_eq. eauto.
  - rewrite lookup_insert_ne by done. eauto.
Qed.

Lemma inv_rest w w' e o o' :
  Inv w -> objs w !! e = Some o -> fd o' = fd o -> flags_ok o' ->
  objs w' = <[e := o']> (objs w) -> rest_same w w' ->
  (forall e o, objs w' !! e = Some o -> flags_ok o) /\ 0 <= event_id w' /\
  (forall e o, objs w' !! e = Some o -> (e < next_obj w')%positive) /\
  (forall e i, TTimer e i ∈ pending_functions w' -> 0 <= i /\ exists o, objs w' !! e = Some o /\ fd o < 0).
Proof.
  intros Hi Ho Hfd Hfl Hobjs (Hid & Hnx & Hpe). rewrite Hobjs, Hnx.
  assert (Hlk : forall e' x, <[e := o']> (objs w) !! e' = Some x ->
            (e' = e /\ x = o') \/ (e' <> e /\ objs w !! e' = Some x)).
  { intros e' x. rewrite lookup_insert_Some. naive_solver. }
  split_and!.
  - intros e' x [[_ ->]|[_ ?]]%Hlk; [done|]. by eapply (inv_flags _ _ Hi).
  - pose proof (inv_id _ _ Hi). lia.
  - intros e' x [[-> _]|[_ ?]]%Hlk; by eapply (inv_next _ _ Hi).
  - intros e' i He%Hpe. destruct (inv_pending _ _ Hi e' i He) as (? & o1 & Ho1 & Hneg). split; [done|].
    destruct (decide (e' = e)) as [->|Hne].
    + exists o'. rewrite lookup_insert_eq. simplify_eq. split; [done|lia].
    + exists o1. by rewrite lookup_insert_ne.
Qed.

(** An event enters the reactor. *)
Lemma inv_register w w' e o i :
  Inv w -> objs w !! e = Some o -> id o = -1 -> 0 <= i -> events_ (reactor w) !! i = None ->
  (0 <= fd o -> inverse_map_ (reactor w) !! fd o = None) ->
  objs w' = <[e := Event_Active o this i]> (objs w) ->
  events_ (reactor w') = <[i := e]> (events_ (reactor w)) ->
  inverse_map_ (reactor w') = (if fd o >=? 0 then <[fd o := i]> (inverse_map_ (reactor w)) else inverse_map_ (reactor w)) ->
  rest_same w w' -> Inv w' /\ later w w'.
Proof.
  intros Hi Ho Hid Hge Hnone Hfree Hobjs Hev Hinv Hrest.
  assert (Hold : forall e' o', e' <> e -> (active w' e' o' <-> active w e' o')).
  { intros e' o' Hne. unfold EventLoopSpec.active. by rewrite Hobjs, lookup_insert_ne. }
  assert (Hnew : active w' e (Event_Active o this i)).
  { split; [by rewrite Hobjs, lookup_insert_eq|]. simpl. split; [lia|done]. }
  assert (Hnot : forall o', ~ active w e o') by (intros o' (Hx & Hy & _); simplify_eq; done).
  destruct (inv_rest w w' e o (Event_Active o this i) Hi Ho eq_refl) as (F & G & N & P); try done.
  { by apply (inv_flags _ _ Hi) in Ho. }
  split; [|exact (later_set w w' e o (Event_Active o this i) Ho eq_refl Hobjs Hrest)]. split; try done.
  - intros j e'. rewrite Hev, lookup_insert_Some. intros [[<- <-]|[Hj He']]; [by eexists|].
    destruct (inv_map _ _ Hi _ _ He') as (o' & Ha & <-). exists o'. split; [|done].
    apply Hold; [|done]. intros ->. by apply Hnot in Ha.
  - intros e' o' Ha. rewrite Hev. destruct (decide (e' = e)) as [->|Hne].
    + destruct Ha as (Hx & _). destruct Hnew as (Hy & _). simplify_eq. by rewrite lookup_insert_eq.
    + apply Hold in Ha; [|done]. apply (inv_obj _ _ Hi) in Ha. rewrite lookup_insert_ne; [done|]. intros ->. congruence.
  - intros e' o' Ha Hf. rewrite Hinv. destruct (decide (e' = e)) as [->|Hne].
    + destruct Ha as (Hx & _). destruct Hnew as (Hy & _). simplify_eq. simpl in *.
      rewrite Z.geb_leb, (proj2 (Z.leb_le _ _)) by done. by rewrite lookup_insert_eq.
    + apply Hold in Ha; [|done]. pose proof (inv_fd _ _ Hi _ _ Ha Hf) as Hx.
      destruct (Z.geb_spec (fd o) 0) as [Hp|Hp]; [|done].
      rewrite lookup_insert_ne; [done|]. intros E. rewrite <- E, Hfree in Hx by lia. done.
  - intros f j. rewrite Hinv.
    assert (Hcase : inverse_map_ (reactor w) !! f = Some j \/ (0 <= fd o /\ f = fd o /\ j = i) ->
      exists e' o', active w' e' o' /\ id o' = j /\ fd o' = f /\ 0 <= f).
    { intros [Hx|(? & -> & ->)]; [|by eexists _, _].
      destruct (inv_inverse _ _ Hi _ _ Hx) as (e' & o' & Ha & Hr). exists e', o'. split; [|done].
      apply Hold; [|done]. intros ->. by apply Hnot in Ha. }
    destruct (Z.geb_spec (fd o) 0) as [Hp|Hp]; [|auto].
    rewrite lookup_insert_Some. intros [[<- <-]|[_ ?]]; apply Hcase; [right|left]; done || lia.
Qed.

(** An event leaves the reactor. *)
Lemma inv_unregister w w' e o :
  Inv w -> active w e o ->
  objs w' = <[e := Event_Reset o]> (objs w) ->
  events_ (reactor w') = delete (id o) (events_ (reactor w)) ->
  inverse_map_ (reactor w') = (if fd o >=? 0 then delete (fd o) (inverse_map_ (reactor w)) else inverse_map_ (reactor w)) ->
  rest_same w w' -> Inv w' /\ later w w'.
Proof.
  intros Hi Ha0 Hobjs Hev Hinv Hrest. pose proof Ha0 as (Ho & Hid & Hcy).
  assert (Hold : forall e' o', active w' e' o' <-> e' <> e /\ active w e' o').
  { intros e' o'. unfold EventLoopSpec.active. rewrite Hobjs. destruct (decide (e' = e)) as [->|Hne].
    - rewrite lookup_insert_eq. split; [|naive_solver]. intros ([= <-] & Hx & _). done.
    - rewrite lookup_insert_ne by done. naive_solver. }
  assert (Huniq : forall e' o', active w e' o' -> id o' = id o -> e' = e /\ o' = o).
  { intros e' o' Ha E. pose proof (inv_obj _ _ Hi _ _ Ha) as H1. pose proof (inv_obj _ _ Hi _ _ Ha0) as H2.
    rewrite E in H1. simplify_eq. destruct Ha as (Hx & _). by simplify_eq. }
  destruct (inv_rest w w' e o (Event_Reset o) Hi Ho eq_refl) as (F & G & N & P); try done.
  { by apply (inv_flags _ _ Hi) in Ho. }
  split; [|exact (later_set w w' e o (Event_Reset o) Ho eq_refl Hobjs Hrest)]. split; try done.
  - intros j e'. rewrite Hev, lookup_delete_Some. intros [Hj He'].
    destruct (inv_map _ _ Hi _ _ He') as (o' & Ha & <-). exists o'. split; [|done]. apply Hold. split; [|done].
    intros ->. destruct Ha as (Hx & _). simplify_eq.
  - intros e' o' [Hne Ha]%Hold. rewrite Hev. apply (inv_obj _ _ Hi) in Ha as Hx.
    rewrite lookup_delete_ne; [done|]. intros E. by destruct (Huniq _ _ Ha (eq_sym E)).
  - intros e' o' [Hne Ha]%Hold Hf. rewrite Hinv. pose proof (inv_fd _ _ Hi _ _ Ha Hf) as Hx.
    destruct (Z.geb_spec (fd o) 0) as [Hp|Hp]; [|done]. rewrite lookup_delete_ne; [done|]. intros E.
    pose proof (inv_fd _ _ Hi _ _ Ha0 ltac:(lia)) as Hy. rewrite E in Hy. simplify_eq.
    by destruct (Huniq e' o' Ha ltac:(congruence)).
  - intros f j Hf. rewrite Hinv in Hf.
    assert (Hx : inverse_map_ (reactor w) !! f = Some j /\ (0 <= fd o -> f <> fd o)).
    { destruct (Z.geb_spec (fd o) 0); [|split; [done|lia]]. apply lookup_delete_Some in Hf as [? ?]. done. }
    destruct Hx as [Hx Hne]. destruct (inv_inverse _ _ Hi _ _ Hx) as (e' & o' & Ha & <- & <- & Hpos).
    exists e', o'. split; [|done]. apply Hold. split; [|done]. intros ->.
    destruct Ha as (Hy & _). simplify_eq. by apply Hne.
Qed.

(** An object changes, not what the maps speak of. *)
Lemma inv_set_obj w w' e o o1 :
  Inv w -> objs w !! e = Some o -> id o1 = id o -> fd o1 = fd o -> cycle o1 = cycle o -> flags_ok o1 ->
  objs w' = <[e := o1]> (objs w) -> events_ (reactor w') = events_ (reactor w) ->
  inverse_map_ (reactor w') = inverse_map_ (reactor w) -> rest_same w w' -> Inv w' /\ later w w'.
Proof.
  intros Hi Ho Hid Hfd Hcy Hfl Hobjs Hev Hinv Hrest.
  assert (Hact : forall e' o', active w' e' o' -> exists o0, active w e' o0 /\ id o0 = id o' /\ fd o0 = fd o').
  { intros e' o' (Hx & Hy & Hz). rewrite Hobjs, lookup_insert_Some in Hx. destruct Hx as [[<- <-]|[_ Hx]].
    - exists o. split_and!; [|congruence|congruence]. split_and!; congruence.
    - exists o'. by split_and!. }
  assert (Hact' : forall e' o0, active w e' o0 -> exists o', active w' e' o' /\ id o' = id o0 /\ fd o' = fd o0).
  { intros e' o0 (Hx & Hy & Hz). unfold EventLoopSpec.active. rewrite Hobjs. destruct (decide (e' = e)) as [->|Hne].
    - simplify_eq. exists o1. rewrite lookup_insert_eq, Hid, Hfd, Hcy. done.
    - exists o0. by rewrite lookup_insert_ne. }
  destruct (inv_rest w w' e o o1 Hi Ho Hfd) as (F & G & N & P); try done.
  split; [|exact (later_set w w' e o o1 Ho Hfd Hobjs Hrest)]. split; try done; rewrite ?Hev, ?Hinv.
  - intros i e' He'. destruct (inv_map _ _ Hi _ _ He') as (o0 & (o' & ? & ? & ?)%Hact' & <-). by exists o'.
  - intros e' o' (o0 & Ha & <- & _)%Hact. by apply (inv_obj _ _ Hi).
  - intros e' o' (o0 & Ha & <- & <-)%Hact. by apply (inv_fd _ _ Hi e').
  - intros f i Hf. destruct (inv_inverse _ _ Hi _ _ Hf) as (e' & o0 & (o' & Ha & E1 & E2)%Hact' & <- & <- & Hp).
    exists e', o'. by rewrite E1, E2.
Qed.

Lemma inv_set_flags w w' e o v :
  Inv w -> objs w !! e = Some o -> flags_ok (Event_set_events o v) ->
  objs w' = <[e := Event_set_events o v]> (objs w) -> events_ (reactor w') = events_ (reactor w) ->
  inverse_map_ (reactor w') = inverse_map_ (reactor w) -> rest_same w w' -> Inv w' /\ later w w'.
Proof. intros Hi Ho Hfl. by apply (inv_set_obj w w' e o). Qed.

(** A new object that is in no reactor. *)
Lemma inv_new_obj w o e w' :
  Inv w -> flags_ok o -> id o = -1 -> new_obj o w = Ok (e, w') ->
  Inv w' /\ later w w' /\ objs w' !! e = Some o.
Proof.
  intros Hi Hfl Hid Hrun. injection Hrun as <- <-.
  assert (Hnew : objs w !! next_obj w = None).
  { destruct (objs w !! next_obj w) eqn:E; [|done]. apply (inv_next _ _ Hi) in E. lia. }
  set (w' := mkWorld _ _ _ _ _ _ _ _ _ _ _ _ _ _).
  assert (Hact : forall e' o', active w' e' o' <-> active w e' o').
  { intros e' o'. unfold EventLoopSpec.active. simpl. rewrite lookup_insert_Some. split.
    - intros ([[<- <-]|[_ ?]] & ? & ?); [done|done].
    - intros (Hx & ? & ?). split_and!; [|done|done]. right. split; [congruence|done]. }
  assert (Hl : later w w').
  { split; [simpl; lia|]. intros e0 o0 H0. exists o0. split; [|done]. simpl.
    rewrite lookup_insert_ne; [done|congruence]. }
  split_and!; [|done|simpl; by rewrite lookup_insert_eq].
  destruct Hi as [A B C D E F G P]. split; simpl; try done.
  - intros i e' He'. destruct (A i e' He') as (o' & Ha & <-). exists o'. by rewrite Hact.
  - intros e' o' Ha%Hact. by apply B.
  - intros e' o' Ha%Hact. by apply (C e').
  - intros f i Hf. destruct (D f i Hf) as (e' & o' & Ha & Hr). exists e', o'. by rewrite Hact.
  - intros e' o'. rewrite lookup_insert_Some. intros [[_ <-]|[_ ?]]; [done|by eapply E].
  - intros e' o'. rewrite lookup_insert_Some. intros [[<- _]|[_ Hx]]; [lia|]. apply G in Hx. lia.
  - intros e' i He. destruct (P e' i He) as (? & o' & Ho' & Hneg). split; [done|].
    destruct (proj2 Hl _ _ Ho') as (o2 & H2 & Hf2). exists o2. split; [done|lia].
Qed.
End changes.

Section operations.
Context (this : positive).
Context (user_cb : positive -> eptr -> Z -> Z -> L unit) (user_task : positive -> L unit).
Context `{Hbe : !ReactorOps, Hlaws : !BackendLaws}.
#[local] Set Default Proof Using "Type*".

Abbreviation Inv := (Inv this).
Abbreviation keeps := (keeps this).

Lemma rest_same_refl w : rest_same w w.
Proof. by split_and!. Qed.

(** Calls of the reactor. *)
Lemma keeps_frame {A} (m : L A) :
  (forall w a w', m w = Ok (a, w') -> exists f, (forall r, events_ (f r) = events_ r /\ inverse_map_ (f r) = inverse_map_ r) /\
     w' = set_reactor (f (reactor w)) w) -> keeps m.
Proof.
  intros Hm w a w' Hi Hr. destruct (Hm w a w' Hr) as (f & Hf & ->). destruct (Hf (reactor w)) as [H1 H2].
  refine (keeps_neutral this (fun w0 => set_reactor (mkReactor (events_ (reactor w0)) (inverse_map_ (reactor w0))
            (ptimer_ (f (reactor w))) (active_events_ (f (reactor w))) (epoll_size (f (reactor w)))
            (poll_fds_ (f (reactor w))) (poll_inverse_ (f (reactor w)))) w0) _ w tt _ Hi _); [by intros w0; split_and!|].
  unfold puts. do 3 f_equal. rewrite <- H1, <- H2. by destruct (f (reactor w)).
Qed.

Lemma keeps_update e : keeps (be_EventUpdate e).
Proof. apply keeps_frame. apply update_frame. Qed.

Lemma keeps_remove e : keeps (be_EventRemove e).
Proof. apply keeps_frame. apply remove_frame. Qed.

Lemma keeps_fill inp : keeps (be_FillActiveEvents inp).
Proof. apply keeps_frame. intros w [] w'. apply fill_frame. Qed.

Lemma keeps_if {A} (b : bool) (m1 m2 : L A) : keeps m1 -> keeps m2 -> keeps (if b then m1 else m2).
Proof. by destruct b. Qed.

Lemma keeps_mod f :
  (forall r, events_ (f r) = events_ r /\ inverse_map_ (f r) = inverse_map_ r) -> keeps (mod_reactor f).
Proof.
  intros Hf. apply keeps_frame. intros w a w' H. apply mod_Ok in H as [_ ->]. eauto.
Qed.

Hint Resolve keeps_update keeps_remove keeps_fill keeps_if keeps_mod : loop.

Lemma keeps_update_in_loop e : keeps (update_in_loop this e).
Proof.
  intros w [] w' Hi H. unfold update_in_loop in H. inv_run.
  match goal with H : (if _ then be_EventUpdate e else _) _ = Ok _ |- _ => rename H into Hupd end.
  assert (Hu : Inv w1 /\ later w w1 /\ objs w1 = objs w /\ event_id w1 = event_id w /\
            (id a = -1 -> 0 <= fd a -> inverse_map_ (reactor w1) !! fd a = None)).
  { destruct (Z.geb_spec (fd a) 0) as [Hp|Hp].
    - destruct (keeps_update e w a0 w1 Hi Hupd) as [H1 H2]. split_and!; try done.
      + by destruct (update_frame e w a0 w1 Hupd) as (f & _ & ->).
      + by destruct (update_frame e w a0 w1 Hupd) as (f & _ & ->).
      + intros E _. destruct (update_frame e w a0 w1 Hupd) as (f & Hf & ->). simpl.
        rewrite (proj2 (Hf _)). by eapply update_new.
    - inv_run. split_and!; try done; [apply later_refl|lia]. }
  destruct Hu as (Hi1 & Hl1 & Hob1 & Hid1 & Hfree). destruct (negb a0); inv_run; [done|].
  match goal with H : (if id a =? -1 then _ else _) w1 = Ok (_, ?w2) |- _ => rename H into Hreg; rename w2 into w2' end.
  assert (H2 : Inv w2' /\ later w1 w2').
  { destruct (Z.eqb_spec (id a) (-1)) as [Hn|Hn]; inv_run; [|split; [done|apply later_refl]].
    unfold fetch_id in *. simplify_eq. unfold set_obj, gets in *. inv_run.
    apply (inv_register this w1 w2' e a (event_id w1)); try done.
    - by rewrite Hob1.
    - apply (inv_id _ _ Hi1).
    - auto.
    - destruct (Z.geb_spec (fd a) 0); inv_run; done.
    - destruct (Z.geb_spec (fd a) 0); inv_run; done.
    - destruct (Z.geb_spec (fd a) 0) as [Hp|Hp]; inv_run; [|done]. by rewrite Hfree by (done || lia).
    - destruct (Z.geb_spec (fd a) 0); inv_run; (split_and!; simpl; [lia|done|done]). }
  destruct H2 as [Hi2 Hl2].
  assert (H3 : Inv w' /\ later w2' w').
  { match goal with H : (if CHECK_EVENT _ _ then _ else _) _ = Ok _ |- _ =>
      refine (keeps_if _ _ _ _ _ _ _ _ Hi2 H) end; eauto 10 with loop. }
  destruct H3. split; [done|]. eauto using later_trans.
Qed.

Lemma keeps_remove_in_loop e : keeps (remove_in_loop e).
Proof.
  intros w [] w' Hi Hrun. unfold remove_in_loop in Hrun. inv_run.
  destruct (events_ (reactor w) !! id a) as [e'|] eqn:He; inv_run; [|split; [done|apply later_refl]].
  subst e'. destruct (inv_map _ _ Hi _ _ He) as (o & Ha & Hid). pose proof Ha as (Ho & _).
  assert (o = a) as -> by congruence. unfold set_obj in *. inv_run.
  apply (inv_unregister this w _ e a); try done.
  all: destruct (Z.geb_spec (fd a) 0); inv_run; try done;
    try match goal with Hf : be_EventRemove _ _ = Ok _ |- _ =>
      destruct (remove_frame _ _ _ _ Hf) as (f & Hfr & ->); simpl; rewrite ?(proj1 (Hfr _)), ?(proj2 (Hfr _)); done end.
Qed.

(** The timer lambda, for a timer object that is not in a reactor. *)
Lemma keeps_timer_in_loop e i w w' :
  Inv w -> 0 <= i -> (exists o, objs w !! e = Some o /\ fd o < 0) ->
  timer_in_loop this e i w = Ok (tt, w') -> Inv w' /\ later w w'.
Proof.
  intros Hi Hge (o & Ho & Hneg) Hrun. unfold timer_in_loop, set_obj in Hrun. inv_run.
  assert (a = o) as -> by congruence.
  match goal with Hx : (id _ =? -1) = true |- _ => apply Z.eqb_eq in Hx end.
  apply (inv_register this w _ e o i); try done; try (by split_and!); try lia.
  simpl. rewrite Z.geb_leb, (proj2 (Z.leb_gt _ _)) by done. done.
Qed.

Lemma keeps_cancel_in_loop i : keeps (cancel_in_loop i).
Proof.
  intros w [] w' Hi Hrun. unfold cancel_in_loop in Hrun. inv_run.
  destruct (events_ (reactor w) !! i) as [e|] eqn:He; inv_run; [|split; [done|apply later_refl]].
  destruct (Z.ltb_spec (fd a) 0) as [Hneg|Hpos]; inv_run; [|split; [done|apply later_refl]].
  destruct (inv_map _ _ Hi _ _ He) as (o & Ha & <-). pose proof Ha as (Ho & _).
  assert (a = o) as -> by congruence.
  unfold set_obj in *. inv_run. apply (inv_unregister this w _ e o); try done.
  simpl. rewrite Z.geb_leb, (proj2 (Z.leb_gt _ _)) by done. done.
Qed.

(** User code keeps the invariant. *)
Context (Hcb : forall k e f t, keeps (user_cb k e f t)) (Htask : forall k, keeps (user_task k)).

Definition task_ok (w : World) (t : Task) : Prop :=
  match t with TTimer e i => 0 <= i /\ exists o, objs w !! e = Some o /\ fd o < 0 | _ => True end.

Lemma task_ok_later w w' t : later w w' -> task_ok w t -> task_ok w' t.
Proof.
  intros [_ Hl]. destruct t; simpl; try done. intros (Hi & o & (o' & Ho' & Hf)%Hl & Hneg).
  split; [done|]. exists o'. split; [done|lia].
Qed.

Lemma keeps_run_task t w w' :
  Inv w -> task_ok w t -> run_task this user_task t w = Ok (tt, w') -> Inv w' /\ later w w'.
Proof.
  destruct t as [k|e|e|e i|i]; simpl; intros Hi Hok Hrun.
  - by eapply Htask.
  - by eapply keeps_update_in_loop.
  - by eapply keeps_remove_in_loop.
  - destruct Hok. by eapply keeps_timer_in_loop.
  - by eapply keeps_cancel_in_loop.
Qed.

Lemma keeps_RunInCycle b t : (forall w, task_ok w t) -> keeps (RunInCycle this user_task b t).
Proof.
  intros Hok w [] w' Hi Hrun. unfold RunInCycle, QueueInCycle, Notify in Hrun. destruct b.
  - by eapply keeps_run_task.
  - inv_run. destruct (keeps_neutral this (set_notified (notified w + 1)) ltac:(by intros ?; split_and!) w tt _ Hi eq_refl)
      as [Hi1 Hl1].
    split; [|exact Hl1]. destruct Hi1 as [A B C D E F G P]. split; try done. simpl in *.
    intros e i [He|Ht%list_elem_of_singleton]%elem_of_app; [by apply P|]. subst t. exact (Hok w).
Qed.

(** A task that waits in the queue. *)
Lemma keeps_QueueInCycle b t w w' :
  Inv w -> task_ok w t -> QueueInCycle b t w = Ok (tt, w') -> Inv w' /\ later w w'.
Proof.
  intros Hi Hok Hrun. unfold QueueInCycle, Notify in Hrun.
  assert (Hw' : objs w' = objs w /\ reactor w' = reactor w /\ event_id w' = event_id w /\ next_obj w' = next_obj w /\
                pending_functions w' = pending_functions w ++ [t]) by (destruct b; by inv_run).
  destruct Hw' as (H1 & H2 & H3 & H4 & H5). split.
  - destruct Hi as [A B C D E F G P]. split; unfold EventLoopSpec.active in *; rewrite ?H1, ?H2, ?H3, ?H4, ?H5; try done.
    intros e i [He|Ht%list_elem_of_singleton]%elem_of_app; [by apply P|]. subst t. exact Hok.
  - split; [lia|]. rewrite H1. eauto.
Qed.

Lemma keeps_EventUpdate b e : keeps (EventUpdate this user_task b e).
Proof.
  unfold EventUpdate. apply keeps_bind; [apply keeps_obj|]. intros o. apply keeps_if; [apply keeps_ret|].
  by apply keeps_RunInCycle.
Qed.

Lemma keeps_EventRemove b e : keeps (EventRemove this user_task b e).
Proof.
  unfold EventRemove. apply keeps_bind; [apply keeps_obj|]. intros o. apply keeps_if; [apply keeps_ret|].
  by apply keeps_RunInCycle.
Qed.

(** [EnableRead], [DisableRead], [EnableWrite], [DisableWrite]. *)
Lemma keeps_Event_change b e f :
  (forall o, flags_ok o -> flags_ok (Event_set_events o (f (events o)))) ->
  keeps (Event_change this user_task b e f).
Proof.
  intros Hf w [] w' Hi Hrun. unfold Event_change, set_obj in Hrun. inv_run.
  set (w1 := set_objs _ w) in *.
  destruct (inv_set_flags this w w1 e a (f (events a)) Hi) as [Hi1 Hl1]; try done; [|].
  { apply Hf. by eapply (inv_flags _ _ Hi). }
  destruct (cycle a); inv_run; [|done].
  match goal with Hu : EventUpdate _ _ _ _ _ = Ok _ |- _ => destruct (keeps_EventUpdate _ _ _ _ _ Hi1 Hu) end.
  split; [done|by eapply later_trans].
Qed.

Lemma keeps_HandleEvent e f t : keeps (HandleEvent user_cb user_task e f t).
Proof.
  unfold HandleEvent. apply keeps_bind; [apply keeps_obj|]. intros o.
  apply keeps_bind; [apply keeps_gets|]. intros w. do 2 (apply keeps_if; [|apply keeps_ret]).
  unfold run_callback, Timer_TimerCallback, EventNotify_EventCallback. destruct (callback o); auto with loop. apply keeps_if; [|apply keeps_lift]. apply keeps_neutral. by intros w0; split_and!.
Qed.

Lemma keeps_handle_active l t : keeps (handle_active this user_cb user_task l t).
Proof.
  induction l as [|[e r] l IH]; simpl; [apply keeps_ret|].
  apply keeps_bind; [apply keeps_HandleEvent|]. intros _. apply keeps_bind; [apply keeps_obj|]. intros o.
  apply keeps_bind; [|done]. apply keeps_if; [apply keeps_ret|apply keeps_EventRemove].
Qed.

Lemma keeps_NotifyTimer fuel t : keeps (NotifyTimer this user_cb user_task fuel t).
Proof.
  induction fuel as [|fuel IH]; simpl; [apply keeps_lift|].
  apply keeps_bind; [apply keeps_gets|]. intros w. destruct (ptimer_ (reactor w)) as [|top l]; [apply keeps_ret|].
  apply keeps_if; [apply keeps_ret|]. apply keeps_bind.
  - destruct (events_ (reactor w) !! t_id top) as [e|]; [|apply keeps_ret].
    apply keeps_bind; [apply keeps_HandleEvent|]. intros _. apply keeps_bind; [apply keeps_gets|]. intros w1.
    apply keeps_bind; [apply keeps_lift|]. intros e1. apply keeps_bind; [apply keeps_obj|]. intros o.
    apply keeps_if; [by apply keeps_mod|apply keeps_EventRemove].
  - intros _. apply keeps_bind; [by apply keeps_mod|done].
Qed.

Lemma keeps_run_all l :
  forall w w', Inv w -> Forall (task_ok w) l -> run_all this user_task l w = Ok (tt, w') -> Inv w' /\ later w w'.
Proof.
  induction l as [|t l IH]; intros w w' Hi Hok Hrun; simpl in Hrun.
  - inv_run. split; [done|apply later_refl].
  - apply Forall_cons in Hok as [Ht Hl]. apply ST_bind_Ok in Hrun as ([] & w1 & H1 & H2).
    destruct (keeps_run_task t w w1 Hi Ht H1) as [Hi1 Hl1].
    destruct (IH w1 w' Hi1) as [Hi2 Hl2]; [|done|].
    + eapply Forall_impl; [exact Hl|]. intros t'. by apply task_ok_later.
    + split; [done|by eapply later_trans].
Qed.

Lemma keeps_DoPendingFunctions : keeps (DoPendingFunctions this user_task).
Proof.
  intros w [] w' Hi Hrun. unfold DoPendingFunctions in Hrun. inv_run.
  match goal with Hr : run_all _ _ _ ?w0 = Ok (?u, ?w1) |- _ => destruct u; set (wa := w0) in *; rename w1 into wb;
    destruct (keeps_run_all (pending_functions w) wa wb) as [Hi1 Hl1] end; try done.
  - destruct Hi as [A B C D E F G P]. split; try done. simpl. intros e i Hx. by apply elem_of_nil in Hx.
  - apply Forall_forall. intros t Ht. destruct t; simpl; try done. by apply (inv_pending _ _ Hi).
  - destruct (keeps_neutral this (set_calling false) ltac:(by intros ?; split_and!) wb tt _ Hi1 eq_refl) as [Hi2 Hl2].
    split; [done|]. eapply later_trans; [|exact Hl2]. destruct Hl1 as [L1 L2]. by split.
Qed.

Lemma keeps_Deactivate b e : keeps (Deactivate this user_task b e).
Proof.
  unfold Deactivate. apply keeps_bind; [apply keeps_obj|]. intros o. destruct (cycle o); [apply keeps_EventRemove|apply keeps_ret].
Qed.

Lemma keeps_Cancel b i : keeps (Cancel this user_task b i).
Proof.
  unfold Cancel. apply keeps_bind; [apply keeps_gets|]. intros w. apply keeps_if; [apply keeps_ret|]. by apply keeps_RunInCycle.
Qed.

Lemma keeps_Exit b : keeps (Exit b).
Proof.
  unfold Exit. apply keeps_bind; [apply keeps_neutral; by intros w; split_and!|]. intros _.
  apply keeps_if; [apply keeps_ret|]. apply keeps_neutral. by intros w; split_and!.
Qed.

(** [RunAfter] and [RunEvery], from any thread. *)
Lemma keeps_Run_timer b task delay persist : keeps (Run_timer this user_task b task delay persist).
Proof.
  intros w a w' Hi Hrun. unfold Run_timer in Hrun. inv_run. destruct (negb (is_running w)); inv_run; [split; [done|apply later_refl]|].
  match goal with H : new_obj _ w = Ok (?x, ?y) |- _ => rename H into Hnew; rename x into e; rename y into wa end.
  assert (Hfd : fd (Timer_ctor task delay persist) = -1) by by destruct persist.
  destruct (inv_new_obj this w (Timer_ctor task delay persist) e wa Hi (Event_ctor_flags _ _ _ _) ltac:(by destruct persist) Hnew) as (Hi1 & Hl1 & Ho).
  match goal with H : fetch_id wa = Ok (?x, ?y) |- _ => injection H as <- <- end.
  assert (Hi2 : Inv (set_event_id (event_id wa + 1) wa) /\ later wa (set_event_id (event_id wa + 1) wa)).
  { split; [|split; [simpl; lia|eauto]]. destruct Hi1 as [A B C D E F G P]. split; simpl in *; try done. lia. }
  destruct Hi2 as [Hi2 Hl2].
  match goal with H : RunInCycle _ _ _ _ _ = Ok (?u, ?y) |- _ => destruct u; rename H into Hin; rename y into wb end.
  assert (Hfin : Inv wb /\ later (set_event_id (event_id wa + 1) wa) wb).
  { pose proof (inv_id _ _ Hi1). unfold RunInCycle in Hin. destruct b.
    - eapply keeps_timer_in_loop; [done| | |exact Hin]; [done|]. simpl. eexists. split; [exact Ho|lia].
    - eapply keeps_QueueInCycle; [done| |exact Hin]. simpl. split; [done|]. eexists. split; [exact Ho|lia]. }
  destruct Hfin. split; [done|]. eauto using later_trans.
Qed.

Lemma keeps_Tie e o : keeps (o' ← obj e; set_obj e (Event_Tie o' o)).
Proof.
  intros w [] w' Hi Hrun. unfold set_obj in Hrun. inv_run.
  apply (inv_set_obj this w _ e a (Event_Tie a o)); try done. exact (inv_flags _ _ Hi e a ltac:(done)).
Qed.

Lemma keeps_Exec_begin : keeps (Exec_begin this user_task).
Proof.
  unfold Exec_begin. apply keeps_bind; [apply keeps_gets|]. intros w. apply keeps_bind; [apply keeps_lift|]. intros _.
  apply keeps_bind; [apply keeps_neutral; by intros w0; split_and!|]. intros _.
  apply keeps_bind; [apply keeps_neutral; by intros w0; split_and!|]. intros _.
  apply keeps_bind; [apply keeps_EventUpdate|]. intros _. apply keeps_Tie.
Qed.

(** A turn of the loop keeps the maps and the objects in agreement. *)
Lemma keeps_Exec_turn fuel inp : keeps (Exec_turn this user_cb user_task fuel inp).
Proof.
  unfold Exec_turn. apply keeps_bind; [by apply keeps_mod|]. intros _.
  apply keeps_bind; [apply keeps_fill|]. intros _.
  apply keeps_bind; [apply keeps_neutral; by intros w; split_and!|]. intros _.
  apply keeps_bind; [apply keeps_neutral; by intros w; split_and!|]. intros _.
  apply keeps_bind; [apply keeps_gets|]. intros w. apply keeps_bind; [apply keeps_handle_active|]. intros _.
  apply keeps_bind; [apply keeps_neutral; by intros w'; split_and!|]. intros _.
  apply keeps_bind; [apply keeps_gets|]. intros w1. apply keeps_bind; [apply keeps_NotifyTimer|]. intros _.
  apply keeps_DoPendingFunctions.
Qed.

Lemma keeps_Exec_loop fuel inps : keeps (Exec_loop this user_cb user_task fuel inps).
Proof.
  induction inps as [|inp inps IH]; simpl; (apply keeps_bind; [apply keeps_gets|]); intros w;
    (apply keeps_if; [apply keeps_ret|]); [apply keeps_lift|].
  apply keeps_bind; [apply keeps_Exec_turn|done].
Qed.

(** The life of a cycle between [Exec] and its end: turns of the loop, and in between the
    calls other threads make. *)
Inductive reach (w0 : World) : World -> Prop :=
  | reach_begin w : Exec_begin this user_task w0 = Ok (tt, w) -> reach w0 w
  | reach_turn w fuel inp w' : reach w0 w -> Exec_turn this user_cb user_task fuel inp w = Ok (tt, w') -> reach w0 w'
  | reach_queue w t w' : reach w0 w -> task_ok w t -> QueueInCycle false t w = Ok (tt, w') -> reach w0 w'
  | reach_update w e w' : reach w0 w -> EventUpdate this user_task false e w = Ok (tt, w') -> reach w0 w'
  | reach_remove w e w' : reach w0 w -> EventRemove this user_task false e w = Ok (tt, w') -> reach w0 w'
  | reach_timer w k d p i w' : reach w0 w -> Run_timer this user_task false k d p w = Ok (i, w') -> reach w0 w'
  | reach_cancel w i w' : reach w0 w -> Cancel this user_task false i w = Ok (tt, w') -> reach w0 w'
  | reach_exit w w' : reach w0 w -> Exit false w = Ok (tt, w') -> reach w0 w'.

Lemma reach_Inv w0 w : Inv w0 -> reach w0 w -> Inv w.
Proof.
  intros Hi. induction 1 as [w H|w fuel inp w' _ IH H|w t w' _ IH Ht H|w e w' _ IH H|w e w' _ IH H|
    w k d p i w' _ IH H|w i w' _ IH H|w w' _ IH H].
  - exact (proj1 (keeps_Exec_begin _ _ _ Hi H)).
  - exact (proj1 (keeps_Exec_turn _ _ _ _ _ IH H)).
  - exact (proj1 (keeps_QueueInCycle _ _ _ _ IH Ht H)).
  - exact (proj1 (keeps_EventUpdate _ _ _ _ _ IH H)).
  - exact (proj1 (keeps_EventRemove _ _ _ _ _ IH H)).
  - exact (proj1 (keeps_Run_timer _ _ _ _ _ _ _ IH H)).
  - exact (proj1 (keeps_Cancel _ _ _ _ _ IH H)).
  - exact (proj1 (keeps_Exit _ _ _ _ IH H)).
Qed.
End operations.

(** A new cycle: no event is registered. *)
Lemma Cycle_ctor_Inv this evtfd now : Inv this (Cycle_ctor evtfd now).
Proof.
  assert (Hno : forall e o, ~ active this (Cycle_ctor evtfd now) e o).
  { intros e o (Ho & Hid & _). simpl in Ho. apply lookup_singleton_Some in Ho as [_ <-]. by apply Hid. }
  split; simpl; try done.
  - by intros e o ?%Hno.
  - by intros e o ?%Hno.
  - intros e o Ho. apply lookup_singleton_Some in Ho as [_ <-]. apply Event_ctor_flags.
  - intros e o Ho. by apply lookup_singleton_Some in Ho as [<- _].
  - intros e i Hx. by apply elem_of_nil in Hx.
Qed.

(** ** The reactor finds what the kernel reports *)

Section epoll_fill.
Context (this : positive).

(** The kernel reports events that are registered with it. *)
Definition reported (w : World) (l : list (eptr * Z)) : Prop :=
  Forall (fun ev => exists o, active this w (fst ev) o /\ 0 <= fd o) l.

Lemma reported_active w l a : reported w l -> reported (set_reactor (set_active a (reactor w)) w) l.
Proof. done. Qed.

Lemma Inv_active w a : Inv this w -> Inv this (set_reactor (set_active a (reactor w)) w).
Proof. intros [A B C D E F G P]. by split. Qed.

Lemma Epoll_fill_reported l : forall w,
  Inv this w -> reported w l ->
  Epoll_fill l w = Ok (tt, set_reactor (set_active (active_events_ (reactor w) ++
    ((fun ev => (fst ev, EncodeEpoll (snd ev))) <$> l)) (reactor w)) w).
Proof.
  induction l as [|[e r] l IH]; intros w Hi Hrep; simpl.
  - rewrite app_nil_r. by destruct w as [? ? []].
  - apply Forall_cons in Hrep as [(o & Ha & Hfd) Hrep]. simpl in Ha.
    rewrite (ST_bind_run (Epoll_fill_one (e, r)) _ w tt
      (set_reactor (set_active (active_events_ (reactor w) ++ [(e, EncodeEpoll r)]) (reactor w)) w)).
    + rewrite IH; [|by apply Inv_active|by apply reported_active]. simpl. by rewrite <- (assoc_L (++)).
    + unfold Epoll_fill_one, obj. simpl. unfold mbind, ST_bind. simpl. destruct Ha as (Ho & Hx).
      rewrite Ho. simpl. rewrite (inv_fd _ _ Hi e o) by done. simpl.
      rewrite (inv_obj _ _ Hi e o) by done. simpl. by rewrite bool_decide_true.
Qed.
End epoll_fill.
