(* ===== verification/EventLoopFacts.v ===== *)
(** * What the loop does with timers, tasks and registrations.

    Functional behaviour of the operations of cycle.cc: the wait time, the task queue, the
    timers, registration with epoll, and what the poll reactor and a second [Exec] do. *)

From S2P Require Import Prelude EventLoop EventLoopSpec.

(** ** The wait time *)

Lemma i32_id d : - 2 ^ 31 <= d < 2 ^ 31 -> i32 d = d.
Proof. intros. unfold i32. rewrite Z.mod_small by lia. lia. Qed.

Lemma i32_high d : 2 ^ 31 <= d < 2 ^ 32 -> i32 d = d - 2 ^ 32.
Proof.
  intros. unfold i32. replace (d + 2 ^ 31) with (d - 2 ^ 31 + 1 * 2 ^ 32) by lia.
  rewrite Z.mod_add, Z.mod_small by lia. lia.
Qed.

Lemma GetWaitTime_range l now : 1 <= GetWaitTime l now <= POLL_TIME_MICROSECONDS.
Proof. unfold GetWaitTime, POLL_TIME_MICROSECONDS. destruct l; [lia|]. zbool; lia. Qed.

Lemma GetWaitTime_exact top l now :
  - 2 ^ 31 <= stamp top - now < 2 ^ 31 ->
  GetWaitTime (top :: l) now = Z.max 1 (Z.min (stamp top - now) POLL_TIME_MICROSECONDS).
Proof. intros. unfold GetWaitTime. rewrite i32_id by done. unfold POLL_TIME_MICROSECONDS. zbool; lia. Qed.

(** The difference is cut to 32 bits: a timer between 36 and 72 minutes ahead makes the
    loop wait for a single microsecond. *)
Lemma GetWaitTime_cut top l now :
  2 ^ 31 <= stamp top - now < 2 ^ 32 -> GetWaitTime (top :: l) now = 1.
Proof. intros. unfold GetWaitTime. rewrite i32_high by done. zbool; lia. Qed.

(** ** The queue of timers *)

Definition later_first (x y : TimerElem) : Prop := stamp y <= stamp x.

Lemma pq_emplace_perm t l : pq_emplace t l ≡ₚ t :: l.
Proof.
  induction l as [|u l IH]; simpl; [done|]. destruct (TimerPriority u t); [done|].
  rewrite IH. apply Permutation_swap.
Qed.

Lemma pq_emplace_sorted t l : StronglySorted later_first l -> StronglySorted later_first (pq_emplace t l).
Proof.
  induction 1 as [|u l Hs IH Hf]; simpl; [repeat constructor|].
  unfold TimerPriority, later_first in *. destruct (Z.ltb_spec (stamp u) (stamp t)) as [Hlt|Hge].
  - constructor; [by constructor|]. constructor; [lia|]. eapply Forall_impl; [exact Hf|]. simpl. lia.
  - constructor; [done|]. rewrite pq_emplace_perm. by constructor.
Qed.

(** ** Tasks, events and timers *)

Section facts.
Context (this : positive).
Context (user_cb : positive -> eptr -> Z -> Z -> L unit) (user_task : positive -> L unit).
Context {Hbe : ReactorOps}.

(** A task of user code: what it does to the world and which tasks it queues. *)
Lemma run_all_user (eff : positive -> World -> World) ks : forall w,
  (forall k w, user_task k w = Ok (tt, eff k w)) ->
  run_all this user_task (TUser <$> ks) w = Ok (tt, foldl (fun w k => eff k w) w ks).
Proof.
  induction ks as [|k ks IH]; intros w Heff; simpl; [done|].
  rewrite (ST_bind_run _ _ w tt (eff k w)) by apply Heff. by apply IH.
Qed.

Lemma foldl_queued (eff : positive -> World -> World) (q : positive -> list Task) ks : forall w,
  (forall k w, pending_functions (eff k w) = pending_functions w ++ q k) ->
  pending_functions (foldl (fun w k => eff k w) w ks) = pending_functions w ++ concat (q <$> ks).
Proof.
  induction ks as [|k ks IH]; intros w Hq; simpl; [by rewrite app_nil_r|].
  rewrite IH, Hq by done. by rewrite <- (assoc_L (++)).
Qed.

Lemma DoPending_user (eff : positive -> World -> World) (q : positive -> list Task) ks w :
  (forall k w, user_task k w = Ok (tt, eff k w)) ->
  (forall k w, pending_functions (eff k w) = pending_functions w ++ q k) ->
  pending_functions w = TUser <$> ks ->
  exists w', DoPendingFunctions this user_task w = Ok (tt, w') /\
    w' = set_calling false (foldl (fun w k => eff k w) (set_pending [] (set_calling true w)) ks) /\
    pending_functions w' = concat (q <$> ks).
Proof.
  intros Heff Hq Hp. eexists. split_and!; [|done|].
  - unfold DoPendingFunctions.
    rewrite (ST_bind_run _ _ w tt (set_calling true w)) by done.
    rewrite (ST_bind_run _ _ _ (TUser <$> ks) (set_calling true w)) by (unfold gets; by rewrite <- Hp).
    rewrite (ST_bind_run _ _ _ tt (set_pending [] (set_calling true w))) by done.
    erewrite ST_bind_run by (apply run_all_user, Heff). done.
  - simpl. by rewrite (foldl_queued eff q) by done.
Qed.

Lemma HandleEvent_untied e o f t w :
  objs w !! e = Some o -> tied o = false -> HandleEvent user_cb user_task e f t w = Ok (tt, w).
Proof.
  intros Ho Ht. unfold HandleEvent. rewrite (ST_bind_run _ _ w o w) by (unfold obj; by rewrite Ho).
  rewrite (ST_bind_run _ _ w w w) by done. by rewrite Ht.
Qed.

(** Nothing fires while the greatest stamp is not due. *)
Lemma NotifyTimer_waits fuel t w :
  (forall top l, ptimer_ (reactor w) = top :: l -> reactor_time w < stamp top) ->
  NotifyTimer this user_cb user_task (S fuel) t w = Ok (tt, w).
Proof.
  intros Hp. simpl. rewrite (ST_bind_run _ _ w w w) by done.
  destruct (ptimer_ (reactor w)) as [|top l] eqn:E; [done|].
  rewrite (proj2 (Z.ltb_lt _ _)) by by eapply Hp. done.
Qed.

(** A timer that is in the queue while an earlier one is due. *)
Lemma timer_starved fuel t w a b :
  stamp a < stamp b -> stamp a <= reactor_time w < stamp b ->
  ptimer_ (reactor w) = pq_emplace a (pq_emplace b []) ->
  NotifyTimer this user_cb user_task (S fuel) t w = Ok (tt, w).
Proof.
  intros Hab Hw Hp. apply NotifyTimer_waits. intros top l E. rewrite Hp in E. simpl in E.
  unfold TimerPriority in E. rewrite (proj2 (Z.ltb_ge _ _)) in E by lia. simplify_eq. lia.
Qed.

(** A timer made by [RunEvery] has lost its timeout. *)
Lemma timer_in_loop_persist e i task delay w :
  objs w !! e = Some (Timer_ctor task delay true) -> timer_in_loop this e i w = Abort.
Proof.
  intros Ho. unfold timer_in_loop. rewrite (ST_bind_run _ _ w (Timer_ctor task delay true) w) by (unfold obj; by rewrite Ho).
  unfold lift, mbind, ST_bind, set_obj, puts, gets. simpl.
  by destruct (bool_decide _).
Qed.

Lemma RunEvery_aborts task delay w :
  is_running w = true -> RunEvery this user_task true task delay w = Abort.
Proof.
  intros Hr. unfold RunEvery, Run_timer. rewrite (ST_bind_run _ _ w w w) by done. rewrite Hr. simpl.
  erewrite ST_bind_run by done. erewrite ST_bind_run by done.
  unfold mbind at 1, ST_bind at 1. simpl.
  erewrite timer_in_loop_persist; [done|]. simpl. by rewrite lookup_insert_eq.
Qed.

(** The world after [RunAfter] in the thread of the cycle. *)
Definition timer_set (task : positive) (delay : Z) (w : World) : World :=
  let i := event_id w in
  let o := Event_Active (Timer_ctor task delay false) this i in
  mkWorld (<[next_obj w := o]> (<[next_obj w := Timer_ctor task delay false]> (objs w))) (Pos.succ (next_obj w))
    (set_ptimer (pq_emplace (mkTimer i (now w + delay)) (ptimer_ (reactor w)))
       (set_events (<[i := next_obj w]> (events_ (reactor w))) (reactor w)))
    (reactor_time w) (is_running w) (quit w) (event_handling w) (calling_pending_functions w)
    (i + 1) (pending_functions w) (notify_event w) (notified w) (now w) (owner_alive w).

Lemma RunAfter_sets task delay w :
  is_running w = true -> events_ (reactor w) !! event_id w = None ->
  RunAfter this user_task true task delay w = Ok (event_id w, timer_set task delay w).
Proof.
  intros Hr Hn. unfold RunAfter, Run_timer. rewrite (ST_bind_run _ _ w w w) by done. rewrite Hr. simpl.
  erewrite ST_bind_run by done. erewrite ST_bind_run by done.
  erewrite ST_bind_run; [done|]. simpl. unfold timer_in_loop.
  erewrite ST_bind_run by (unfold obj; simpl; by rewrite lookup_insert_eq).
  erewrite ST_bind_run by done. erewrite ST_bind_run by done. erewrite ST_bind_run by done.
  erewrite ST_bind_run; [|simpl; rewrite Hn, bool_decide_true by done; done].
  erewrite ST_bind_run by done. erewrite ST_bind_run by done. by erewrite ST_bind_run by done.
Qed.
End facts.

(** A timer of [RunAfter] runs out: whatever user code is, it is not called, and the timer
    leaves the reactor. *)
Lemma timer_expires `{Hbe : !ReactorOps} this task delay w t n :
  0 <= event_id w -> events_ (reactor w) !! event_id w = None -> ptimer_ (reactor w) = [] ->
  now w + delay <= t ->
  exists w', (forall user_cb user_task fuel,
      NotifyTimer this user_cb user_task (S (S fuel)) n (set_time t n (timer_set this task delay w)) = Ok (tt, w')) /\
    events_ (reactor w') = events_ (reactor w) /\ inverse_map_ (reactor w') = inverse_map_ (reactor w) /\
    ptimer_ (reactor w') = [] /\ pending_functions w' = pending_functions w.
Proof.
  intros Hid Hn Hp Hdue. eexists. split.
  - intros user_cb user_task fuel. cbn [NotifyTimer]. erewrite ST_bind_run by done.
    simpl. rewrite Hp. simpl. rewrite (proj2 (Z.ltb_ge _ _)) by done. rewrite lookup_insert_eq.
    erewrite ST_bind_run; cycle 1.
    { erewrite ST_bind_run; [|eapply HandleEvent_untied; [simpl; by rewrite lookup_insert_eq|done]].
      erewrite ST_bind_run by done.
      erewrite ST_bind_run; [|apply lift_run; simpl; by rewrite lookup_insert_eq].
      erewrite ST_bind_run; [|unfold obj; simpl; by rewrite lookup_insert_eq]. simpl.
      unfold EventRemove. erewrite ST_bind_run; [|unfold obj; simpl; by rewrite lookup_insert_eq]. simpl.
      rewrite bool_decide_false by (intros Hx; by apply Hx).
      rewrite (proj2 (Z.eqb_neq _ _)) by lia. simpl. unfold remove_in_loop.
      erewrite ST_bind_run; [|unfold obj; simpl; by rewrite lookup_insert_eq].
      erewrite ST_bind_run by done. simpl. rewrite lookup_insert_eq.
      erewrite ST_bind_run; [|rewrite bool_decide_true by done; done].
      erewrite ST_bind_run by done. by erewrite ST_bind_run by done. }
    erewrite ST_bind_run by done. erewrite ST_bind_run by done. simpl. by rewrite Hp.
  - simpl. split_and!; try done. by rewrite delete_insert_id.
Qed.

(** ** Registration with epoll *)

Section epoll_registration.
Context (this : positive) (epoll_ctl : Z -> Z -> Z -> bool).
Abbreviation update_in_loop := (update_in_loop this (H := EpollBackend epoll_ctl)).
Abbreviation remove_in_loop := (remove_in_loop (H := EpollBackend epoll_ctl)).

(** The world with [e] registered. *)
Definition registered (e : eptr) (o : EventImpl) (w : World) : World :=
  let i := event_id w in
  set_reactor (set_inverse (<[fd o := i]> (inverse_map_ (reactor w)))
                 (set_events (<[i := e]> (events_ (reactor w))) (reactor w)))
    (set_objs (<[e := Event_Active o this i]> (objs w)) (set_event_id (i + 1) w)).

Lemma update_registers e o w :
  objs w !! e = Some o -> id o = -1 -> 0 <= fd o -> CHECK_EVENT (events o) EVENT_TIMEOUT = false ->
  inverse_map_ (reactor w) !! fd o = None -> events_ (reactor w) !! event_id w = None ->
  epoll_ctl EPOLL_CTL_ADD (fd o) (DecodeEpoll (events o)) = true ->
  update_in_loop e w = Ok (tt, registered e o w).
Proof.
  intros Ho Hid Hfd Hto Hinv Hev Hctl. unfold EventLoop.update_in_loop.
  assert (Hfd' : (fd o >=? 0) = true) by (rewrite Z.geb_leb; by apply Z.leb_le).
  erewrite ST_bind_run by (unfold obj; by rewrite Ho). rewrite Hfd'.
  rewrite (ST_bind_run _ _ w true w).
  2:{ simpl. unfold Epoll_EventUpdate, UpdateEpoll. erewrite ST_bind_run by (unfold obj; by rewrite Ho).
      erewrite ST_bind_run by done. rewrite Hid. simpl.
      erewrite ST_bind_run by (rewrite bool_decide_true by done; done).
      erewrite ST_bind_run by (unfold obj; by rewrite Ho). by rewrite Hctl. }
  simpl. rewrite Hid. simpl.
  erewrite ST_bind_run.
  2:{ erewrite ST_bind_run by done. erewrite ST_bind_run by done. erewrite ST_bind_run by done.
      simpl. rewrite Hev. erewrite ST_bind_run by (rewrite bool_decide_true by done; done).
      by erewrite ST_bind_run by done. }
  erewrite ST_bind_run by (unfold obj; simpl; by rewrite lookup_insert_eq). simpl.
  rewrite Hto. unfold registered. simpl. by rewrite Hinv.
Qed.

(** Removing a registered event undoes the registration of the maps. *)
Lemma remove_unregisters e o w :
  objs w !! e = Some o -> 0 <= fd o ->
  inverse_map_ (reactor w) !! fd o = None -> events_ (reactor w) !! event_id w = None ->
  exists w', remove_in_loop e (registered e o w) = Ok (tt, w') /\
    events_ (reactor w') = events_ (reactor w) /\ inverse_map_ (reactor w') = inverse_map_ (reactor w) /\
    objs w' !! e = Some (Event_Reset o).
Proof.
  intros Ho Hfd Hinv Hev. unfold EventLoop.remove_in_loop.
  assert (Hfd' : (fd o >=? 0) = true) by (rewrite Z.geb_leb; by apply Z.leb_le).
  eexists. split.
  - erewrite ST_bind_run by (unfold obj; simpl; by rewrite lookup_insert_eq).
    erewrite ST_bind_run by done. simpl. rewrite lookup_insert_eq.
    erewrite ST_bind_run by (rewrite bool_decide_true by done; done).
    erewrite ST_bind_run by done. rewrite Hfd'.
    erewrite ST_bind_run; [done|]. erewrite ST_bind_run; [done|].
    simpl. unfold Epoll_EventRemove, UpdateEpoll.
    erewrite ST_bind_run by (unfold obj; simpl; by rewrite lookup_insert_eq).
    erewrite ST_bind_run by done. simpl. rewrite lookup_insert_eq.
    erewrite ST_bind_run by done. erewrite ST_bind_run by done.
    erewrite ST_bind_run by (unfold obj; simpl; by rewrite lookup_insert_eq). done.
  - simpl. rewrite !delete_insert_id, lookup_insert_eq by done. done.
Qed.

(** A descriptor that still has an entry is refused. *)
Lemma update_twice e o w i :
  objs w !! e = Some o -> id o = -1 -> 0 <= fd o -> inverse_map_ (reactor w) !! fd o = Some i ->
  update_in_loop e w = Abort.
Proof.
  intros Ho Hid Hfd Hinv. unfold EventLoop.update_in_loop.
  erewrite ST_bind_run by (unfold obj; by rewrite Ho).
  rewrite Z.geb_leb, (proj2 (Z.leb_le _ _)) by done.
  unfold mbind at 1, ST_bind at 1. simpl. unfold Epoll_EventUpdate.
  erewrite ST_bind_run by (unfold obj; by rewrite Ho). erewrite ST_bind_run by done. rewrite Hid. simpl.
  unfold mbind, ST_bind. by rewrite bool_decide_false by congruence.
Qed.
End epoll_registration.

(** ** The start of [Exec] *)

(** A new cycle that runs: the notifier is registered under id 0 and tied to itself. *)
Definition begun (this : positive) (evtfd now : Z) : World :=
  let w := registered this 1 (EventNotify_ctor evtfd) (set_quit false (set_running true (Cycle_ctor evtfd now))) in
  set_objs (<[1%positive := Event_Tie (Event_Active (EventNotify_ctor evtfd) this 0) (Some (OwnEvent 1))]> (objs w)) w.

Lemma Exec_begin_run this epoll_ctl user_task evtfd now :
  0 <= evtfd -> epoll_ctl EPOLL_CTL_ADD evtfd (DecodeEpoll (events (EventNotify_ctor evtfd))) = true ->
  Exec_begin this user_task (H := EpollBackend epoll_ctl) (Cycle_ctor evtfd now) = Ok (tt, begun this evtfd now).
Proof.
  intros Hfd Hctl. unfold Exec_begin. do 4 (erewrite ST_bind_run by done).
  rewrite (ST_bind_run _ _ _ tt (registered this 1 (EventNotify_ctor evtfd)
    (set_quit false (set_running true (Cycle_ctor evtfd now))))).
  - by erewrite ST_bind_run by (unfold obj; simpl; by rewrite lookup_insert_eq).
  - unfold EventUpdate. erewrite ST_bind_run by (unfold obj; simpl; by rewrite lookup_singleton_eq).
    simpl. apply update_registers; try done; simpl; by rewrite ?lookup_singleton_eq, ?lookup_empty.
Qed.

(** ** The end of [Exec] *)

Lemma reset_list (l : list (Z * eptr)) (os : gmap eptr EventImpl) e o :
  os !! e = Some o ->
  exists o', foldr (fun p os => alter Event_Reset (snd p) os) os l !! e = Some o' /\ fd o' = fd o /\
    (e ∈ l.*2 \/ id o = -1 -> id o' = -1) /\ (e ∈ l.*2 \/ cycle o = None -> cycle o' = None).
Proof.
  intros Ho. induction l as [|[i e'] l IH]; simpl.
  - exists o. split_and!; [done|done| |]; (intros [Hx|]; [by apply elem_of_nil in Hx|done]).
  - destruct IH as (o' & Ho' & Hfd & Hid & Hc). destruct (decide (e = e')) as [<-|Hne].
    + exists (Event_Reset o'). by rewrite lookup_alter_eq, Ho'.
    + exists o'. rewrite lookup_alter_ne by done. split_and!; [done|done| |];
        (intros [[?|?]%elem_of_cons|?]; [done|auto|auto]).
Qed.

Section exec_end.
Context (this : positive) (epoll_ctl : Z -> Z -> Z -> bool) (user_task : positive -> L unit).
Abbreviation remove_in_loop := (remove_in_loop (H := EpollBackend epoll_ctl)).
Abbreviation Exec_end := (Exec_end this user_task (H := EpollBackend epoll_ctl)).

Definition unregistered (e : eptr) (o : EventImpl) (w : World) : World :=
  set_reactor (set_events (delete (id o) (events_ (reactor w)))
                 (set_inverse (delete (fd o) (inverse_map_ (reactor w))) (reactor w)))
    (set_objs (<[e := Event_Reset o]> (objs w)) w).

Lemma Epoll_EventRemove_reset w e o :
  is_Some (inverse_map_ (reactor w) !! fd o) ->
  let w1 := set_objs (<[e := Event_Reset o]> (objs w)) w in
  be_EventRemove (ReactorOps := EpollBackend epoll_ctl) e w1 =
    Ok (epoll_ctl EPOLL_CTL_DEL (fd o) (DecodeEpoll (events o)), w1).
Proof.
  intros [i Hinv]. simpl. unfold Epoll_EventRemove, UpdateEpoll.
  erewrite ST_bind_run by (unfold obj; simpl; by rewrite lookup_insert_eq).
  erewrite ST_bind_run by done. simpl. rewrite Hinv.
  erewrite ST_bind_run by done. erewrite ST_bind_run by done.
  by erewrite ST_bind_run by (unfold obj; simpl; by rewrite lookup_insert_eq).
Qed.

Lemma remove_active w e o :
  Inv this w -> active this w e o -> 0 <= fd o -> remove_in_loop e w = Ok (tt, unregistered e o w).
Proof.
  intros Hi Ha Hfd. pose proof Ha as (Ho & Hid & _). unfold EventLoop.remove_in_loop.
  assert (Hfd' : (fd o >=? 0) = true) by (rewrite Z.geb_leb; by apply Z.leb_le).
  erewrite ST_bind_run by (unfold obj; by rewrite Ho). erewrite ST_bind_run by done.
  rewrite (inv_obj _ _ Hi e o) by done. erewrite ST_bind_run by (rewrite bool_decide_true by done; done).
  rewrite (ST_bind_run _ _ _ tt (set_objs (<[e := Event_Reset o]> (objs w)) w)) by done.
  rewrite Hfd'. unfold mbind at 1 2, ST_bind. rewrite Epoll_EventRemove_reset; [done|].
  by rewrite (inv_fd _ _ Hi e o).
Qed.

(** After [Exec] no event is in the map of events and every one is reset, yet every
    descriptor but the notifier's keeps its entry in [inverse_map_]. *)
Lemma Exec_end_spec w on :
  Inv this w -> active this w (notify_event w) on -> 0 <= fd on ->
  exists w', Exec_end w = Ok (tt, w') /\ events_ (reactor w') = ∅ /\ ptimer_ (reactor w') = [] /\
    is_running w' = false /\ notify_event w' = notify_event w /\
    inverse_map_ (reactor w') = delete (fd on) (inverse_map_ (reactor w)) /\
    forall e o, active this w e o -> exists o', objs w' !! e = Some o' /\ id o' = -1 /\ fd o' = fd o /\ cycle o' = None.
Proof.
  intros Hi Ha Hfd. pose proof Ha as (Ho & Hid & Hc). eexists. split.
  - unfold EventLoop.Exec_end, Deactivate, EventRemove. erewrite ST_bind_run by done.
    erewrite ST_bind_run.
    2:{ erewrite ST_bind_run by (unfold obj; by rewrite Ho). rewrite Hc.
        erewrite ST_bind_run by (unfold obj; by rewrite Ho). rewrite Hc.
        rewrite bool_decide_false by (intros Hx; by apply Hx). rewrite (proj2 (Z.eqb_neq _ _)) by done. simpl.
        by apply remove_active. }
    erewrite ST_bind_run by (unfold obj; simpl; by rewrite lookup_insert_eq).
    erewrite ST_bind_run by done. erewrite ST_bind_run by done. by erewrite ST_bind_run by done.
  - simpl. split_and!; try done. intros e o Hae. pose proof Hae as (Hoe & _).
    destruct (decide (e = notify_event w)) as [->|Hne].
    + simplify_eq. edestruct reset_list as (o' & Hx & Hf & Hy & Hz); [by rewrite lookup_insert_eq|].
      exists o'. split_and!; [exact Hx|by apply Hy; right|done|by apply Hz; right].
    + unfold reset_all. match goal with |- context [foldr _ ?os ?l] =>
        destruct (reset_list l os e o) as (o' & Hx & Hf & Hy & Hz) end; [by rewrite !lookup_insert_ne|].
      match type of Hy with ?P \/ _ -> _ => assert (Hl : P) end; [|exists o'; by split_and!; auto].
      apply list_elem_of_fmap. exists (id o, e). split; [done|]. apply elem_of_map_to_list. rewrite lookup_delete_ne; [by apply (inv_obj _ _ Hi)|].
      intros E. pose proof (inv_obj _ _ Hi _ _ Hae) as H1. pose proof (inv_obj _ _ Hi _ _ Ha) as H2.
      rewrite E in H2. congruence.
Qed.

(** So a second use of a descriptor with the same cycle stops the program. *)
Lemma Exec_again w on e o :
  Inv this w -> active this w (notify_event w) on -> 0 <= fd on ->
  active this w e o -> e <> notify_event w -> 0 <= fd o ->
  exists w', Exec_end w = Ok (tt, w') /\ update_in_loop this (H := EpollBackend epoll_ctl) e w' = Abort.
Proof.
  intros Hi Ha Hfd Hae Hne Hfde. destruct (Exec_end_spec w on Hi Ha Hfd) as (w' & Hw' & _ & _ & _ & _ & Hinv & Hobj).
  exists w'. split; [done|]. destruct (Hobj e o Hae) as (o' & Ho' & Hid & Hf & _).
  apply (update_twice this epoll_ctl e o' w' (id o)); try done; [lia|].
  rewrite Hinv, Hf, lookup_delete_ne; [by apply (inv_fd _ _ Hi e)|]. intros E.
  pose proof (inv_fd _ _ Hi _ _ Ha Hfd) as H1. pose proof (inv_fd _ _ Hi _ _ Hae Hfde) as H2.
  rewrite E in H1. rewrite H1 in H2. injection H2 as H2.
  pose proof (inv_obj _ _ Hi _ _ Ha) as H3. pose proof (inv_obj _ _ Hi _ _ Hae) as H4. congruence.
Qed.
End exec_end.

(** ** Changing and removing an event that is registered *)

Section registered_event.
Context (this : positive) (epoll_ctl : Z -> Z -> Z -> bool) (user_task : positive -> L unit).
Abbreviation update_in_loop := (update_in_loop this (H := EpollBackend epoll_ctl)).
Abbreviation Event_change := (Event_change this user_task (H := EpollBackend epoll_ctl)).
Abbreviation Deactivate := (Deactivate this user_task (H := EpollBackend epoll_ctl)).

(** A descriptor event in the reactor. *)
Record io_event (w : World) (e : eptr) (o : EventImpl) : Prop := {
  io_inv : Inv this w;
  io_active : active this w e o;
  io_fd : 0 <= fd o;
  io_timeout : CHECK_EVENT (events o) EVENT_TIMEOUT = false
}.

(** A new event on a descriptor that no event watches. *)
Record fresh_event (w : World) (e : eptr) (o : EventImpl) : Prop := {
  fe_inv : Inv this w;
  fe_obj : objs w !! e = Some o;
  fe_id : id o = -1;
  fe_fd : 0 <= fd o;
  fe_timeout : CHECK_EVENT (events o) EVENT_TIMEOUT = false;
  fe_free : inverse_map_ (reactor w) !! fd o = None;
  fe_next : events_ (reactor w) !! event_id w = None;
  fe_ctl : epoll_ctl EPOLL_CTL_ADD (fd o) (DecodeEpoll (events o)) = true
}.

(** The world [w'] is [w] with [e] registered, but for the object of [e]. *)
Record added (e : eptr) (o : EventImpl) (w w' : World) : Prop := {
  ad_id : event_id w' = event_id w + 1;
  ad_events : events_ (reactor w') = <[event_id w := e]> (events_ (reactor w));
  ad_inverse : inverse_map_ (reactor w') = <[fd o := event_id w]> (inverse_map_ (reactor w));
  ad_next : next_obj w' = next_obj w;
  ad_notify : notify_event w' = notify_event w;
  ad_running : is_running w' = is_running w;
  ad_others : forall x, x <> e -> objs w' !! x = objs w !! x
}.

Lemma register_new w e o :
  fresh_event w e o ->
  EventUpdate this user_task (H := EpollBackend epoll_ctl) true e w = Ok (tt, registered this e o w) /\
  io_event (registered this e o w) e (Event_Active o this (event_id w)) /\ added e o w (registered this e o w).
Proof.
  intros [Hi Ho Hid Hfd Hto Hfree Hnext Hctl].
  assert (Hrun : update_in_loop e w = Ok (tt, registered this e o w)) by by apply (update_registers this epoll_ctl).
  destruct (keeps_update_in_loop this (Hlaws := EpollLaws epoll_ctl) e w tt _ Hi Hrun) as [Hi' _].
  split_and!.
  - unfold EventUpdate. erewrite ST_bind_run by (unfold obj; by rewrite Ho). rewrite Hid, andb_false_r. exact Hrun.
  - split; [done| |done|done]. split_and!; [apply lookup_insert_eq| |done]. simpl. pose proof (inv_id _ _ Hi). lia.
  - split; try done. intros x Hx. simpl. by rewrite lookup_insert_ne.
Qed.

(** The object of a registered event may be tied. *)
Lemma io_event_tie w e o t :
  io_event w e o ->
  io_event (set_objs (<[e := Event_Tie o t]> (objs w)) w) e (Event_Tie o t).
Proof.
  intros [Hi (Ho & Hid & Hc) Hfd Hto]. destruct (inv_set_obj this w (set_objs (<[e := Event_Tie o t]> (objs w)) w) e o (Event_Tie o t)) as [Hi' _];
    try done.
  { exact (inv_flags _ _ Hi e o Ho). }
  split; [done| |done|done]. by split_and!; [apply lookup_insert_eq| |].
Qed.

Lemma added_set e o w w' o' : added e o w w' -> added e o w (set_objs (<[e := o']> (objs w')) w').
Proof. intros [A B C D E F G]. split; try done. intros x Hx. simpl. rewrite lookup_insert_ne by done. by apply G. Qed.

Lemma update_active w e o : io_event w e o -> update_in_loop e w = Ok (tt, w).
Proof.
  intros [Hi Ha Hfd Hto]. pose proof Ha as (Ho & Hid & _). unfold EventLoop.update_in_loop.
  erewrite ST_bind_run by (unfold obj; by rewrite Ho).
  rewrite Z.geb_leb, (proj2 (Z.leb_le _ _)) by done. rewrite (proj2 (Z.eqb_neq (id o) (-1))) by done.
  rewrite (ST_bind_run _ _ w (epoll_ctl EPOLL_CTL_MOD (fd o) (DecodeEpoll (events o))) w).
  - destruct (epoll_ctl _ _ _); simpl; [|done]. rewrite (ST_bind_run _ _ w tt w) by done.
    erewrite ST_bind_run by (unfold obj; by rewrite Ho). by rewrite Hto.
  - simpl. unfold Epoll_EventUpdate, UpdateEpoll. erewrite ST_bind_run by (unfold obj; by rewrite Ho).
    erewrite ST_bind_run by done. rewrite (proj2 (Z.eqb_neq _ _)) by done.
    rewrite (inv_fd _ _ Hi e o), (inv_obj _ _ Hi e o) by done. erewrite ST_bind_run by done.
    erewrite ST_bind_run by done. erewrite ST_bind_run by (rewrite bool_decide_true by done; done).
    by erewrite ST_bind_run by (unfold obj; by rewrite Ho).
Qed.

(** Only the bits of READ and WRITE change. *)
Definition rw_change (f : Z -> Z) : Prop :=
  (exists v, (v = EVENT_READ \/ v = EVENT_WRITE) /\ ((forall x, f x = SET_EVENT x v) \/ (forall x, f x = CLEAR_EVENT x v))).

Lemma rw_change_bit f k x : rw_change f -> 0 <= k -> k <> 1 -> k <> 2 -> CHECK_EVENT (f x) (2 ^ k) = CHECK_EVENT x (2 ^ k).
Proof.
  intros (v & Hv & Hf) Hk H1 H2.
  assert (Hb : Z.testbit v k = false) by (destruct Hv as [-> | ->]; [apply (Z.pow2_bits_false 1)|apply (Z.pow2_bits_false 2)]; lia).
  destruct Hf as [Hf|Hf]; rewrite Hf, ?check_set, ?check_clear by done; rewrite Hb; [apply orb_false_r|apply andb_true_r].
Qed.

Lemma rw_change_flags f o : rw_change f -> flags_ok o -> flags_ok (Event_set_events o (f (events o))).
Proof.
  intros (v & Hv & Hf) Ho. destruct (set_rw_flags o v Ho Hv) as [H1 H2]. by destruct Hf as [Hf|Hf]; rewrite Hf.
Qed.

Definition with_flags (e : eptr) (o : EventImpl) (f : Z -> Z) (w : World) : World :=
  set_objs (<[e := Event_set_events o (f (events o))]> (objs w)) w.

Lemma io_event_flags w e o f :
  rw_change f -> io_event w e o -> io_event (with_flags e o f w) e (Event_set_events o (f (events o))).
Proof.
  intros Hf [Hi Ha Hfd Hto]. pose proof Ha as (Ho & Hid & Hc). split; [| |done|].
  - eapply (inv_set_flags this w _ e o); try done.
    apply rw_change_flags; [done|]. by eapply (inv_flags _ _ Hi).
  - split; [|done]. simpl. by rewrite lookup_insert_eq.
  - simpl. by rewrite (rw_change_bit f 0) by (done || lia).
Qed.

(** [EnableRead] and its like on an event in the reactor. *)
Lemma Event_change_active w e o f :
  rw_change f -> io_event w e o -> Event_change true e f w = Ok (tt, with_flags e o f w).
Proof.
  intros Hf Hio. pose proof (io_event_flags w e o f Hf Hio) as Hio'. destruct Hio as [Hi (Ho & Hid & Hc) Hfd Hto].
  unfold EventLoop.Event_change. erewrite ST_bind_run by (unfold obj; by rewrite Ho).
  rewrite (ST_bind_run _ _ w tt (with_flags e o f w)) by done. rewrite Hc. unfold EventUpdate.
  erewrite ST_bind_run by (unfold obj; simpl; by rewrite lookup_insert_eq). simpl. rewrite Hc.
  rewrite bool_decide_false by (intros Hx; by apply Hx). simpl. by eapply update_active.
Qed.

(** ... and on one that is not. *)
Lemma Event_change_idle w e o f b :
  objs w !! e = Some o -> cycle o = None -> Event_change b e f w = Ok (tt, with_flags e o f w).
Proof.
  intros Ho Hc. unfold EventLoop.Event_change. erewrite ST_bind_run by (unfold obj; by rewrite Ho).
  rewrite (ST_bind_run _ _ w tt (with_flags e o f w)) by done. by rewrite Hc.
Qed.

Lemma Deactivate_active w e o :
  io_event w e o -> Deactivate true e w = Ok (tt, unregistered e o w) /\ Inv this (unregistered e o w).
Proof.
  intros [Hi Ha Hfd Hto]. pose proof Ha as (Ho & Hid & Hc). split.
  - unfold EventLoop.Deactivate, EventRemove. erewrite ST_bind_run by (unfold obj; by rewrite Ho). rewrite Hc.
    erewrite ST_bind_run by (unfold obj; by rewrite Ho). rewrite Hc.
    rewrite bool_decide_false by (intros Hx; by apply Hx). rewrite (proj2 (Z.eqb_neq _ _)) by done. simpl.
    by eapply remove_active.
  - eapply (inv_unregister this w _ e o); try done. simpl. rewrite Z.geb_leb, (proj2 (Z.leb_le _ _)) by done. done.
Qed.
End registered_event.

(** ** The poll reactor *)

(** The first notification of a new cycle: the notifier is entry 16 of the array, its id
    is 0, and [FillActiveEvents] takes the position for the id. *)
Definition poll_notified (now : Z) : PollInput := mkInput 1 [] (replicate 16 0 ++ [POLLIN]) now.

Section poll_notify.
Context (this : positive) (evtfd t : Z) (Hfd : 0 <= evtfd).
#[local] Set Default Proof Using "All".

Definition poll_begun : World :=
  let w := set_running true (Cycle_ctor evtfd t) in
  let o := Event_Active (EventNotify_ctor evtfd) this 0 in
  set_objs (<[1%positive := Event_Tie o (Some (OwnEvent 1%positive))]> (<[1%positive := o]> (objs w)))
    (set_event_id 1 (set_reactor
      (mkReactor (<[0 := 1%positive]> ∅) (<[evtfd := 0]> ∅) [] [] kInitEventsCnt
         (replicate 16 (mkPollfd 0 0 0) ++ [mkPollfd evtfd POLLIN 0]) (<[evtfd := 16]> ∅)) w)).

Lemma poll_begin user_task :
  Exec_begin this user_task (H := PollBackend) (Cycle_ctor evtfd t) = Ok (tt, poll_begun).
Proof.
  assert (Hfd' : (evtfd >=? 0) = true) by (rewrite Z.geb_leb; by apply Z.leb_le).
  unfold Exec_begin. erewrite ST_bind_run by done. erewrite ST_bind_run by done.
  erewrite ST_bind_run by done. erewrite ST_bind_run by done.
  rewrite (ST_bind_run _ _ _ tt (set_objs (<[1%positive := Event_Active (EventNotify_ctor evtfd) this 0]>
    (objs (Cycle_ctor evtfd t))) poll_begun)).
  - erewrite ST_bind_run by (unfold obj; simpl; by rewrite lookup_insert_eq). done.
  - unfold EventUpdate. erewrite ST_bind_run by (unfold obj; simpl; by rewrite lookup_singleton_eq).
    simpl. unfold update_in_loop.
    erewrite ST_bind_run by (unfold obj; simpl; by rewrite lookup_singleton_eq). simpl. rewrite Hfd'.
    erewrite ST_bind_run.
    2:{ unfold Poll_EventUpdate. erewrite ST_bind_run by (unfold obj; simpl; by rewrite lookup_singleton_eq).
        erewrite ST_bind_run by done. simpl. rewrite lookup_empty.
        erewrite ST_bind_run by done. by erewrite ST_bind_run by done. }
    simpl. erewrite ST_bind_run.
    2:{ erewrite ST_bind_run by done. erewrite ST_bind_run by done. erewrite ST_bind_run by done. simpl.
        erewrite ST_bind_run by done. by erewrite ST_bind_run by done. }
    erewrite ST_bind_run by (unfold obj; simpl; by rewrite lookup_insert_eq). simpl.
    by rewrite lookup_empty.
Qed.

Lemma poll_first_turn user_cb user_task fuel inps :
  Exec this user_cb user_task (H := PollBackend) fuel (poll_notified t :: inps) (Cycle_ctor evtfd t) = Abort.
Proof. unfold Exec. by rewrite (ST_bind_run _ _ _ tt poll_begun) by apply poll_begin. Qed.
End poll_notify.
