(* ===== verification/PollTable.v ===== *)
(** * The table of the poll reactor.

    Source: hare/base/io/reactor/reactor_poll.cc.  The array [poll_fds_] and the index of
    descriptors into it implement a finite map from descriptors to the events they are polled
    for.  On top of it: while events enter a cycle, change and leave it in its own thread,
    that map is exactly what the active events ask for, and no assertion of the reactor
    fails. *)

From S2P Require Import Prelude EventLoop EventLoopSpec EventLoopFacts.

(** ** The table *)

(** The constructor makes [kInitEventsCnt] entries that belong to no event. *)
Definition spares : Z := 16.

Record table_ok (r : Reactor) : Prop := {
  to_len : spares <= Zlen (poll_fds_ r) < 2 ^ 31;
  to_map : forall f i, poll_inverse_ r !! f = Some i <->
    spares <= i /\ exists p, poll_fds_ r !! Z.to_nat i = Some p /\ p_fd p = f
}.

(** The abstraction: what each descriptor is polled for. *)
Definition interest (r : Reactor) : gmap Z Z :=
  omap (fun i => p_events <$> poll_fds_ r !! Z.to_nat i) (poll_inverse_ r).

Lemma table_same r r' : poll_fds_ r' = poll_fds_ r -> poll_inverse_ r' = poll_inverse_ r -> table_ok r -> table_ok r'.
Proof. intros E1 E2 [Hl Hm]. by split; rewrite ?E1, ?E2. Qed.

Lemma table_new : table_ok Reactor_init.
Proof.
  split; [by vm_compute|]. intros f i. simpl. rewrite lookup_empty. split; [done|]. intros (Hi & p & Hp & _).
  apply lookup_lt_Some in Hp. simpl in Hp. unfold spares in Hi. lia.
Qed.

Lemma lookup_interest r f :
  interest r !! f = (i ← poll_inverse_ r !! f; p_events <$> poll_fds_ r !! Z.to_nat i).
Proof. apply lookup_omap. Qed.

Section table.
Context (r : Reactor) (Hok : table_ok r).
#[local] Set Default Proof Using "All".

Lemma table_at f i : poll_inverse_ r !! f = Some i ->
  spares <= i < Zlen (poll_fds_ r) /\ exists p, poll_fds_ r !! Z.to_nat i = Some p /\ p_fd p = f.
Proof.
  intros Hf. pose proof Hf as (Hi & p & Hp & Hfd)%(to_map _ Hok). split; [|by exists p].
  apply lookup_lt_Some in Hp. unfold Zlen, spares in *. lia.
Qed.

(** Two entries with the same descriptor are one. *)
Lemma table_unique i j p q :
  spares <= i -> spares <= j -> poll_fds_ r !! Z.to_nat i = Some p -> poll_fds_ r !! Z.to_nat j = Some q -> p_fd p = p_fd q -> i = j.
Proof.
  intros Hi Hj Hp Hq E.
  assert (H1 : poll_inverse_ r !! p_fd p = Some i) by (apply (to_map _ Hok); eauto).
  assert (H2 : poll_inverse_ r !! p_fd p = Some j) by (apply (to_map _ Hok); split; [done|]; exists q; by rewrite E). congruence.
Qed.

(** A new entry at the end. *)
Lemma table_push f ev :
  poll_inverse_ r !! f = None -> Zlen (poll_fds_ r) + 1 < 2 ^ 31 ->
  let r' := set_poll (poll_fds_ r ++ [mkPollfd f ev 0]) (<[f := Zlen (poll_fds_ r)]> (poll_inverse_ r)) r in
  table_ok r' /\ interest r' = <[f := ev]> (interest r).
Proof.
  intros Hf Hlen r'. pose proof (to_len _ Hok) as Hl.
  assert (Hend : poll_fds_ r' !! length (poll_fds_ r) = Some (mkPollfd f ev 0))
    by (simpl; by rewrite lookup_app_r, Nat.sub_diag by done).
  assert (Hold : forall i p, poll_fds_ r !! Z.to_nat i = Some p -> poll_fds_ r' !! Z.to_nat i = Some p)
    by (intros i p Hp; simpl; by apply lookup_app_l_Some).
  split.
  - split; simpl; [rewrite Zlen_app, Zlen_cons, Zlen_nil; lia|]. intros g i. rewrite lookup_insert_Some. split.
    + intros [[<- <-]|[Hne (Hi & p & Hp & Hg)%(to_map _ Hok)]].
      * split; [lia|]. exists (mkPollfd f ev 0). split; [|done]. unfold Zlen. rewrite Nat2Z.id. exact Hend.
      * split; [done|]. exists p. split; [by apply Hold|done].
    + intros (Hi & p & Hp & Hg). apply lookup_app_Some in Hp as [Hp|[Hge Hp]].
      * right. assert (Hx : poll_inverse_ r !! g = Some i) by (apply (to_map _ Hok); eauto). split; [congruence|done].
      * left. apply list_lookup_singleton_Some in Hp as [Hz <-]. unfold Zlen, spares in *. simpl in Hg. split; [done|lia].
  - apply map_eq. intros g. rewrite lookup_interest. simpl. destruct (decide (g = f)) as [->|Hne].
    + rewrite !lookup_insert_eq. simpl. unfold Zlen. rewrite Nat2Z.id. simpl in Hend. by rewrite Hend.
    + rewrite !lookup_insert_ne, lookup_interest by done. destruct (poll_inverse_ r !! g) as [i|] eqn:Eg; [|done]. simpl.
      destruct (table_at g i Eg) as (_ & p & Hp & _). specialize (Hold i p Hp). simpl in Hold. by rewrite Hold, Hp.
Qed.

(** An entry is changed where it is. *)
Lemma table_set f i ev :
  poll_inverse_ r !! f = Some i ->
  let r' := set_poll (<[Z.to_nat i := mkPollfd f ev 0]> (poll_fds_ r)) (poll_inverse_ r) r in
  table_ok r' /\ interest r' = <[f := ev]> (interest r).
Proof.
  intros Hf r'. destruct (table_at f i Hf) as (Hi & p0 & Hp0 & Hf0). pose proof (lookup_lt_Some _ _ _ Hp0) as Hlt.
  assert (Hsame : poll_fds_ r' !! Z.to_nat i = Some (mkPollfd f ev 0)) by (by apply list_lookup_insert_eq).
  assert (Hold : forall j, spares <= j -> j <> i -> poll_fds_ r' !! Z.to_nat j = poll_fds_ r !! Z.to_nat j).
  { intros j Hj Hne. apply list_lookup_insert_ne. unfold spares in *. lia. }
  split.
  - split; [simpl; unfold Zlen; rewrite length_insert; apply (to_len _ Hok)|]. intros g j.
    change (poll_inverse_ r') with (poll_inverse_ r). rewrite (to_map _ Hok g j). split; intros (Hj & p & Hp & Hg); (split; [done|]); destruct (decide (j = i)) as [->|Hne].
    + exists (mkPollfd f ev 0). split; [exact Hsame|]. simpl. congruence.
    + exists p. rewrite <- Hold in Hp by done. done.
    + rewrite Hsame in Hp. injection Hp as <-. exists p0. by subst g.
    + exists p. rewrite <- Hold by done. done.
  - apply map_eq. intros g. rewrite lookup_interest. simpl. destruct (decide (g = f)) as [->|Hne].
    + rewrite lookup_insert_eq, Hf. simpl. simpl in Hsame. by rewrite Hsame.
    + rewrite lookup_insert_ne, lookup_interest by done. destruct (poll_inverse_ r !! g) as [j|] eqn:Eg; [|done]. simpl.
      destruct (table_at g j Eg) as (Hj & q & Hq & Hg). simpl in Hold. rewrite Hold; [done|lia|]. intros ->. congruence.
Qed.

(** Entry [i], of [f], leaves, and the last one, [q], takes its place. *)
Record dropped (f i : Z) (q : pollfd) (r' : Reactor) : Prop := {
  dr_len : Zlen (poll_fds_ r') = Zlen (poll_fds_ r) - 1;
  dr_fds : forall j, spares <= j -> poll_fds_ r' !! Z.to_nat j =
    if decide (j < Zlen (poll_fds_ r) - 1) then if decide (j = i) then Some q else poll_fds_ r !! Z.to_nat j else None;
  dr_inverse : forall g j, poll_inverse_ r' !! g = Some j <-> g <> f /\
    ((g = p_fd q /\ j = i /\ i <> Zlen (poll_fds_ r) - 1) \/
     ((g <> p_fd q \/ i = Zlen (poll_fds_ r) - 1) /\ poll_inverse_ r !! g = Some j))
}.

Lemma table_last q :
  spares < Zlen (poll_fds_ r) -> last (poll_fds_ r) = Some q ->
  poll_fds_ r !! Z.to_nat (Zlen (poll_fds_ r) - 1) = Some q /\ poll_inverse_ r !! p_fd q = Some (Zlen (poll_fds_ r) - 1).
Proof.
  intros Hl Hq. assert (Hx : poll_fds_ r !! Z.to_nat (Zlen (poll_fds_ r) - 1) = Some q).
  { rewrite last_lookup in Hq. rewrite <- Hq. f_equal. unfold Zlen. lia. }
  split; [done|]. apply (to_map _ Hok). split; [lia|eauto].
Qed.

Lemma drop_pop f i q :
  i = Zlen (poll_fds_ r) - 1 -> spares <= i ->
  dropped f i q (set_poll (removelast (poll_fds_ r)) (delete f (poll_inverse_ r)) r).
Proof.
  intros E Hi. unfold spares in *. split; simpl.
  - rewrite removelast_firstn_len. unfold Zlen in *. rewrite length_take. lia.
  - intros j Hj. rewrite removelast_firstn_len. unfold Zlen in *. destruct (decide _) as [Hjn|Hjn].
    + rewrite lookup_take_lt, decide_False by lia. done.
    + apply lookup_take_ge. lia.
  - intros g j. rewrite lookup_delete_Some. naive_solver.
Qed.

Lemma drop_swap f i q :
  spares <= i < Zlen (poll_fds_ r) - 1 ->
  dropped f i q (set_poll (removelast (<[Z.to_nat i := q]> (poll_fds_ r))) (delete f (<[p_fd q := i]> (poll_inverse_ r))) r).
Proof.
  intros Hi. unfold spares in *. split; simpl.
  - rewrite removelast_firstn_len. unfold Zlen in *. rewrite length_take, length_insert. lia.
  - intros j Hj. rewrite removelast_firstn_len, length_insert. unfold Zlen in *. destruct (decide (j < _)) as [Hjn|Hjn].
    + rewrite lookup_take_lt by lia. case_decide as Hji; [subst; apply list_lookup_insert_eq; lia|]. apply list_lookup_insert_ne. lia.
    + apply lookup_take_ge. lia.
  - intros g j. rewrite lookup_delete_Some, lookup_insert_Some. assert (i <> Zlen (poll_fds_ r) - 1) by lia. naive_solver.
Qed.

Section dropping.
Context (f i : Z) (q : pollfd) (r' : Reactor).
Context (Hf : poll_inverse_ r !! f = Some i) (Hq : last (poll_fds_ r) = Some q) (Hd : dropped f i q r').

Lemma dropped_last : i = Zlen (poll_fds_ r) - 1 -> p_fd q = f.
Proof.
  intros E. destruct (table_at f i Hf) as (Hi & p & Hp & <-). destruct (table_last q) as [Hl _]; [lia|done|]. rewrite <- E in Hl. congruence.
Qed.

Lemma dropped_ok : table_ok r'.
Proof.
  destruct (table_at f i Hf) as (Hi & p0 & Hp0 & Hf0). destruct (table_last q) as [Hl Hlp]; [lia|done|].
  pose proof dropped_last as Hin. pose proof (to_len _ Hok) as Hlen. destruct Hd as [Hdl Hfds Hinv]. set (n := Zlen (poll_fds_ r)) in *.
  split; [rewrite Hdl; lia|]. intros g j. rewrite Hinv. split.
  - intros [Hg [(-> & -> & Hni)|[Hor Hgj]]].
    + split; [lia|]. exists q. rewrite Hfds, !decide_True by lia. done.
    + destruct (table_at g j Hgj) as (Hj & x & Hx & Hxg). split; [lia|]. exists x. split; [|done]. rewrite Hfds by lia.
      assert (j <> n - 1) by (intros ->; destruct Hor as [Hor|Hor]; [|specialize (Hin Hor)]; congruence).
      rewrite decide_True, decide_False by (lia || (intros ->; congruence)). done.
  - intros (Hj & x & Hx & Hxg). rewrite Hfds in Hx by done. case_decide as Hjn; [|done]. case_decide as Hji.
    + injection Hx as <-. subst j g. split; [|left; split_and!; [done|done|lia]]. intros E. rewrite E in Hlp. rewrite Hlp in Hf. simplify_eq. lia.
    + assert (Hgj : poll_inverse_ r !! g = Some j) by (apply (to_map _ Hok); eauto).
      split; [intros ->; congruence|]. right. split; [|done]. left. intros ->. rewrite Hlp in Hgj. injection Hgj as <-. lia.
Qed.

Lemma dropped_interest : interest r' = delete f (interest r).
Proof.
  destruct (table_at f i Hf) as (Hi & p0 & Hp0 & Hf0). destruct (table_last q) as [Hl Hlp]; [lia|done|].
  pose proof dropped_last as Hin. destruct Hd as [Hdl Hfds Hinv]. set (n := Zlen (poll_fds_ r)) in *.
  apply map_eq. intros g. rewrite lookup_interest. destruct (decide (g = f)) as [->|Hne].
  { rewrite lookup_delete_eq. destruct (poll_inverse_ r' !! f) as [j|] eqn:Ej; [|done]. by apply Hinv in Ej as []. }
  rewrite lookup_delete_ne, lookup_interest by done. destruct (poll_inverse_ r !! g) as [j|] eqn:Ej; simpl.
  - destruct (table_at g j Ej) as (Hj & x & Hx & Hxg). destruct (decide (j = n - 1)) as [->|Hjn].
    + assert (Hni : i <> n - 1) by (intros E; specialize (Hin E); congruence). assert (x = q) as -> by congruence.
      rewrite (proj2 (Hinv g i)); [|split; [done|]; left; by split_and!]. simpl. rewrite Hfds, !decide_True by lia. by rewrite Hx.
    + assert (Hgl : g <> p_fd q) by (intros ->; congruence).
      rewrite (proj2 (Hinv g j)); [|split; [done|]; right; split; [by left|done]]. simpl.
      rewrite Hfds, decide_True, decide_False by (lia || (intros ->; congruence)). done.
  - destruct (poll_inverse_ r' !! g) as [j|] eqn:Ej'; [|done]. apply Hinv in Ej' as [_ [(-> & _)|[_ ?]]]; congruence.
Qed.
End dropping.
End table.

(** ** The operations of the reactor *)

(** The run [m] leaves everything but the table alone, which then stands for [want]. *)
Definition polls (m : L bool) (w : World) (want : gmap Z Z) : Prop :=
  exists fds inv, m w = Ok (true, set_reactor (set_poll fds inv (reactor w)) w) /\
    table_ok (set_poll fds inv (reactor w)) /\ interest (set_poll fds inv (reactor w)) = want.

Section operations.
Context (w : World) (e : eptr) (o : EventImpl).
Context (Hok : table_ok (reactor w)) (Ho : objs w !! e = Some o).
#[local] Set Default Proof Using "All".

Lemma length_i32 : i32 (Zlen (poll_fds_ (reactor w))) = Zlen (poll_fds_ (reactor w)).
Proof. apply i32_small. pose proof (to_len _ Hok). unfold spares in *. lia. Qed.

Lemma table_index f i : poll_inverse_ (reactor w) !! f = Some i -> (0 <=? i) && (i <? Zlen (poll_fds_ (reactor w))) = true.
Proof. intros Hf. destruct (table_at _ Hok f i Hf) as [Hi _]. unfold spares in Hi. apply andb_true_iff. split; [apply Z.leb_le|apply Z.ltb_lt]; lia. Qed.

Lemma Poll_adds :
  id o = -1 -> poll_inverse_ (reactor w) !! fd o = None -> Zlen (poll_fds_ (reactor w)) + 1 < 2 ^ 31 ->
  polls (Poll_EventUpdate e) w (<[fd o := DecodePoll (events o)]> (interest (reactor w))).
Proof.
  intros Hid Hf Hlen. eexists _, _. split.
  - unfold Poll_EventUpdate. erewrite ST_bind_run by (unfold obj; by rewrite Ho). erewrite ST_bind_run by done.
    rewrite Hid. simpl. rewrite Hf. erewrite ST_bind_run by done. by erewrite ST_bind_run by done.
  - match goal with |- context [i32 ?n - 1] => replace (i32 n - 1) with (Zlen (poll_fds_ (reactor w))) end; [by apply table_push|].
    unfold Zlen in *. rewrite length_app, i32_small; simpl; lia.
Qed.

Lemma Poll_changes i :
  id o <> -1 -> events_ (reactor w) !! id o = Some e -> poll_inverse_ (reactor w) !! fd o = Some i ->
  polls (Poll_EventUpdate e) w (<[fd o := DecodePoll (events o)]> (interest (reactor w))).
Proof.
  intros Hid He Hf. eexists _, _. split; [|by apply table_set].
  destruct (table_at _ Hok _ _ Hf) as (_ & p & Hp & Hpf).
  unfold Poll_EventUpdate. erewrite ST_bind_run by (unfold obj; by rewrite Ho). erewrite ST_bind_run by done.
  rewrite (proj2 (Z.eqb_neq _ _)), He, Hf by done. erewrite ST_bind_run by done.
  erewrite ST_bind_run by (rewrite bool_decide_true by done; done). erewrite ST_bind_run by done.
  rewrite length_i32, (table_index _ _ Hf). erewrite ST_bind_run by done. rewrite Hp. erewrite ST_bind_run by done.
  rewrite Hpf, Z.eqb_refl. erewrite ST_bind_run by done. by erewrite ST_bind_run by done.
Qed.

Lemma Poll_removes :
  interest (reactor w) !! fd o = Some (DecodePoll (events o)) ->
  polls (Poll_EventRemove e) w (delete (fd o) (interest (reactor w))).
Proof.
  intros Hin. rewrite lookup_interest in Hin. apply bind_Some in Hin as (i & Hf & Hp). apply fmap_Some in Hp as (p & Hp & Hev).
  destruct (table_at _ Hok _ _ Hf) as (Hi & _). destruct (last (poll_fds_ (reactor w))) as [q|] eqn:Hq.
  2: { apply last_None in Hq. by rewrite Hq in Hp. }
  destruct (table_last _ Hok q) as [_ Hl]; [lia|done|].
  assert (Hrun : forall fds inv,
    (if i =? Zlen (poll_fds_ (reactor w)) - 1
     then fds = removelast (poll_fds_ (reactor w)) /\ inv = delete (fd o) (poll_inverse_ (reactor w))
     else fds = removelast (<[Z.to_nat i := q]> (poll_fds_ (reactor w))) /\
       inv = delete (fd o) (<[p_fd q := i]> (poll_inverse_ (reactor w)))) ->
    Poll_EventRemove e w = Ok (true, set_reactor (set_poll fds inv (reactor w)) w)).
  { intros fds inv Hx. unfold Poll_EventRemove. erewrite ST_bind_run by (unfold obj; by rewrite Ho). erewrite ST_bind_run by done.
    rewrite Hf. erewrite ST_bind_run by done. rewrite length_i32, (table_index _ _ Hf). erewrite ST_bind_run by done.
    rewrite Hp. erewrite ST_bind_run by done. rewrite Hev, Z.eqb_refl. erewrite ST_bind_run by done.
    destruct (i =? _); destruct Hx as [-> ->]; [by erewrite ST_bind_run by done|].
    rewrite Hq. erewrite ST_bind_run by done. rewrite Hl. erewrite ST_bind_run by done. by erewrite ST_bind_run by done. }
  destruct (Z.eqb_spec i (Zlen (poll_fds_ (reactor w)) - 1)) as [E|E]; eexists _, _; (split; [by apply Hrun|]).
  - assert (Hd := drop_pop (reactor w) Hok (fd o) i q E ltac:(lia)). split; [exact (dropped_ok _ Hok _ _ _ _ Hf Hq Hd)|exact (dropped_interest _ Hok _ _ _ _ Hf Hq Hd)].
  - assert (Hd := drop_swap (reactor w) Hok (fd o) i q ltac:(lia)). split; [exact (dropped_ok _ Hok _ _ _ _ Hf Hq Hd)|exact (dropped_interest _ Hok _ _ _ _ Hf Hq Hd)].
Qed.
End operations.

(** ** The table in a cycle *)

Section cycle.
Context (this : positive) (user_task : positive -> L unit).
Abbreviation EventUpdate := (EventUpdate this user_task (H := PollBackend)).
Abbreviation Event_change := (Event_change this user_task (H := PollBackend)).
Abbreviation Deactivate := (Deactivate this user_task (H := PollBackend)).
Abbreviation active := (active this).

(** The kernel is asked for what the active events want, and for nothing else. *)
Record poll_world (w : World) : Prop := {
  pw_inv : Inv this w;
  pw_table : table_ok (reactor w);
  pw_asks : forall e o, active w e o -> 0 <= fd o -> interest (reactor w) !! fd o = Some (DecodePoll (events o));
  pw_only : forall f ev, interest (reactor w) !! f = Some ev -> exists e o, active w e o /\ fd o = f /\ 0 <= f
}.

Lemma poll_world_new evtfd now : poll_world (Cycle_ctor evtfd now).
Proof.
  split; [apply Cycle_ctor_Inv|apply table_new| |].
  - intros e o (Ho & Hid & _). simpl in Ho. apply lookup_singleton_Some in Ho as [_ <-]. done.
  - intros f ev. rewrite lookup_interest. simpl. by rewrite lookup_empty.
Qed.

(** A descriptor that no event watches is not in the table, one that is watched is. *)
Lemma unpolled w f : poll_world w -> inverse_map_ (reactor w) !! f = None -> poll_inverse_ (reactor w) !! f = None.
Proof.
  intros [Hi Ht _ Hon] Hf. destruct (poll_inverse_ (reactor w) !! f) as [i|] eqn:E; [|done]. exfalso.
  destruct (table_at _ Ht f i E) as (_ & p & Hp & _).
  destruct (Hon f (p_events p)) as (e & o & Ha & <- & Hge); [by rewrite lookup_interest, E; simpl; rewrite Hp|].
  by rewrite (inv_fd _ _ Hi e o) in Hf.
Qed.

Lemma polled_at w e o : poll_world w -> active w e o -> 0 <= fd o -> exists i, poll_inverse_ (reactor w) !! fd o = Some i.
Proof.
  intros Hw Ha Hfd. pose proof (pw_asks _ Hw e o Ha Hfd) as Hin. rewrite lookup_interest in Hin.
  apply bind_Some in Hin as (i & Hi & _). eauto.
Qed.

Lemma fd_unique w e o e' o' : Inv this w -> active w e o -> active w e' o' -> 0 <= fd o -> fd o' = fd o -> e' = e /\ o' = o.
Proof.
  intros Hi Ha Ha' Hfd E. pose proof (inv_fd _ _ Hi _ _ Ha Hfd) as H1. pose proof (inv_fd _ _ Hi _ _ Ha' ltac:(lia)) as H2.
  rewrite E, H1 in H2. injection H2 as H2. pose proof (inv_obj _ _ Hi _ _ Ha) as H3. pose proof (inv_obj _ _ Hi _ _ Ha') as H4.
  rewrite <- H2, H3 in H4. simplify_eq. destruct Ha as (Ho & _), Ha' as (Ho' & _). by simplify_eq.
Qed.

(** An event enters the cycle. *)
Lemma poll_enters w e o :
  poll_world w -> objs w !! e = Some o -> id o = -1 -> 0 <= fd o -> CHECK_EVENT (events o) EVENT_TIMEOUT = false ->
  inverse_map_ (reactor w) !! fd o = None -> events_ (reactor w) !! event_id w = None -> Zlen (poll_fds_ (reactor w)) + 1 < 2 ^ 31 ->
  exists w', EventUpdate true e w = Ok (tt, w') /\ poll_world w' /\ active w' e (Event_Active o this (event_id w)) /\
    interest (reactor w') = <[fd o := DecodePoll (events o)]> (interest (reactor w)).
Proof.
  intros Hw Ho Hid Hfd Hto Hfree Hnext Hlen. pose proof Hw as [Hi Ht Has Hon].
  destruct (Poll_adds w e o Ht Ho Hid (unpolled w _ Hw Hfree) Hlen) as (fds & inv & Hrun & Ht' & Hin).
  set (i := event_id w). set (r1 := set_poll fds inv (reactor w)) in *.
  set (w' := set_reactor (set_inverse (<[fd o := i]> (inverse_map_ r1)) (set_events (<[i := e]> (events_ r1)) r1))
    (set_objs (<[e := Event_Active o this i]> (objs w)) (set_event_id (i + 1) w))).
  assert (Hfd' : (fd o >=? 0) = true) by (rewrite Z.geb_leb; by apply Z.leb_le).
  assert (Hi' : Inv this w').
  { refine (proj1 (inv_register this w w' e o i Hi Ho Hid (inv_id _ _ Hi) Hnext _ _ _ _ _)); try done; [by rewrite Hfd'|].
    split_and!; simpl; try done. lia. }
  exists w'. split_and!; [| | |exact Hin].
  - unfold EventLoop.EventUpdate. erewrite ST_bind_run by (unfold obj; by rewrite Ho). rewrite Hid, andb_false_r. simpl.
    unfold update_in_loop. erewrite ST_bind_run by (unfold obj; by rewrite Ho). rewrite Hfd', Hid. simpl.
    rewrite (ST_bind_run _ _ _ _ _ Hrun). cbn [negb]. erewrite ST_bind_run.
    2: { erewrite ST_bind_run by done. erewrite ST_bind_run by done. erewrite ST_bind_run by done. simpl.
         rewrite Hnext. erewrite ST_bind_run by done. by erewrite ST_bind_run by done. }
    erewrite ST_bind_run by (unfold obj; simpl; by rewrite lookup_insert_eq). simpl. rewrite Hto, Hfree. done.
  - split; [done|by apply (table_same r1)| |].
    + intros e' o' (Ho' & Hr) Hge. simpl in Ho'. change (interest (reactor w')) with (interest r1). rewrite Hin.
      apply lookup_insert_Some in Ho' as [[<- <-]|[Hne Ho']]; [by rewrite lookup_insert_eq|].
      assert (Ha : active w e' o') by (by split). rewrite lookup_insert_ne; [by apply (Has e')|]. intros E.
      by rewrite E, (inv_fd _ _ Hi e' o' Ha Hge) in Hfree.
    + intros f ev. change (interest (reactor w')) with (interest r1). rewrite Hin, lookup_insert_Some. intros [[<- _]|[Hne Hf]].
      * exists e, (Event_Active o this i). split; [|done]. split_and!; simpl; [apply lookup_insert_eq| |done]. pose proof (inv_id _ _ Hi). lia.
      * destruct (Hon f ev Hf) as (e' & o' & (Ho' & Hr) & <- & Hge). exists e', o'. split; [|done]. split; [|done]. simpl.
        rewrite lookup_insert_ne; [done|]. intros ->. simplify_eq.
  - split_and!; simpl; [apply lookup_insert_eq| |done]. pose proof (inv_id _ _ Hi). lia.
Qed.

(** An event of the cycle changes what it watches. *)
Lemma poll_changes w e o f :
  poll_world w -> active w e o -> 0 <= fd o -> CHECK_EVENT (events o) EVENT_TIMEOUT = false -> rw_change f ->
  exists w', Event_change true e f w = Ok (tt, w') /\ poll_world w' /\ active w' e (Event_set_events o (f (events o))) /\
    interest (reactor w') = <[fd o := DecodePoll (f (events o))]> (interest (reactor w)).
Proof.
  intros Hw Ha Hfd Hto Hf. pose proof Hw as [Hi Ht Has Hon]. pose proof Ha as (Ho & Hid & Hc).
  set (o1 := Event_set_events o (f (events o))). set (w1 := with_flags e o f w).
  assert (Ho1 : objs w1 !! e = Some o1) by apply lookup_insert_eq.
  destruct (polled_at w e o Hw Ha Hfd) as [i Hinv].
  destruct (Poll_changes w1 e o1 Ht Ho1 i Hid (inv_obj _ _ Hi _ _ Ha) Hinv) as (fds & inv & Hrun & Ht' & Hin).
  set (w' := set_reactor (set_poll fds inv (reactor w1)) w1) in *.
  assert (Hfd' : (fd o >=? 0) = true) by (rewrite Z.geb_leb; by apply Z.leb_le).
  assert (Hi' : Inv this w').
  { refine (proj1 (inv_set_flags this w w' e o (f (events o)) Hi Ho _ _ _ _ _)); try done.
    apply rw_change_flags; [done|]. by eapply (inv_flags _ _ Hi). }
  exists w'. split_and!; [| |by split|exact Hin].
  - unfold EventLoop.Event_change. erewrite ST_bind_run by (unfold obj; by rewrite Ho).
    rewrite (ST_bind_run _ _ w tt w1) by done. rewrite Hc. unfold EventLoop.EventUpdate.
    erewrite ST_bind_run by (unfold obj; by rewrite Ho1). unfold o1 at 1 2. simpl. rewrite Hc, bool_decide_false by (intros Hx; by apply Hx).
    simpl. unfold update_in_loop. erewrite ST_bind_run by (unfold obj; by rewrite Ho1). unfold o1 at 1. simpl. rewrite Hfd'.
    rewrite (ST_bind_run _ _ _ _ _ Hrun). cbn [negb]. rewrite (proj2 (Z.eqb_neq _ _)) by done. erewrite ST_bind_run by done.
    erewrite ST_bind_run by (unfold obj; by rewrite (Ho1 : objs w' !! e = Some o1)). unfold o1. simpl.
    assert (Hto' : CHECK_EVENT (f (events o)) EVENT_TIMEOUT = false) by (by rewrite (rw_change_bit f 0) by (done || lia)). by rewrite Hto'.
  - split; [done|exact Ht'| |].
    + intros e' o' (Ho' & Hr) Hge. change (interest (reactor w')) with (interest (set_poll fds inv (reactor w1))). rewrite Hin.
      simpl in Ho'. apply lookup_insert_Some in Ho' as [[<- <-]|[Hne Ho']]; [by rewrite lookup_insert_eq|].
      rewrite lookup_insert_ne; [apply (Has e'); [by split|done]|]. intros E.
      destruct (fd_unique w e o e' o' Hi Ha) as [? _]; [by split|done|by symmetry|done].
    + intros g ev. change (interest (reactor w')) with (interest (set_poll fds inv (reactor w1))). rewrite Hin, lookup_insert_Some.
      intros [[<- _]|[Hne Hg]]; [exists e, o1; by split|].
      destruct (Hon g ev Hg) as (e' & o' & (Ho' & Hr) & <- & Hge). exists e', o'. split; [|done]. split; [|done]. simpl.
      rewrite lookup_insert_ne; [done|]. intros ->. simplify_eq.
Qed.

(** An event leaves the cycle. *)
Lemma poll_leaves w e o :
  poll_world w -> active w e o -> 0 <= fd o ->
  exists w', Deactivate true e w = Ok (tt, w') /\ poll_world w' /\ objs w' !! e = Some (Event_Reset o) /\
    interest (reactor w') = delete (fd o) (interest (reactor w)).
Proof.
  intros Hw Ha Hfd. pose proof Hw as [Hi Ht Has Hon]. pose proof Ha as (Ho & Hid & Hc).
  set (w1 := set_objs (<[e := Event_Reset o]> (objs w)) w).
  assert (Ho1 : objs w1 !! e = Some (Event_Reset o)) by apply lookup_insert_eq.
  destruct (Poll_removes w1 e (Event_Reset o) Ht Ho1 (Has e o Ha Hfd)) as (fds & inv & Hrun & Ht' & Hin).
  set (r1 := set_poll fds inv (reactor w1)) in *.
  set (w' := set_reactor (set_events (delete (id o) (events_ r1)) (set_inverse (delete (fd o) (inverse_map_ r1)) r1)) w1).
  assert (Hfd' : (fd o >=? 0) = true) by (rewrite Z.geb_leb; by apply Z.leb_le).
  assert (Hi' : Inv this w') by (refine (proj1 (inv_unregister this w w' e o Hi Ha _ _ _ _)); try done; by rewrite Hfd').
  assert (Hold : forall e' o', active w' e' o' <-> e' <> e /\ active w e' o').
  { intros e' o'. unfold EventLoopSpec.active. simpl. destruct (decide (e' = e)) as [->|Hne].
    - rewrite lookup_insert_eq. split; [|naive_solver]. intros ([= <-] & Hx & _). done.
    - rewrite lookup_insert_ne by done. naive_solver. }
  exists w'. split_and!; [| |exact Ho1|exact Hin].
  - unfold EventLoop.Deactivate. erewrite ST_bind_run by (unfold obj; by rewrite Ho). rewrite Hc. unfold EventRemove.
    erewrite ST_bind_run by (unfold obj; by rewrite Ho). rewrite Hc, bool_decide_false by (intros Hx; by apply Hx).
    rewrite (proj2 (Z.eqb_neq _ _)) by done. simpl. unfold remove_in_loop. erewrite ST_bind_run by (unfold obj; by rewrite Ho).
    erewrite ST_bind_run by done. rewrite (inv_obj _ _ Hi _ _ Ha). erewrite ST_bind_run by (rewrite bool_decide_true by done; done).
    rewrite (ST_bind_run _ _ w tt w1) by done. rewrite Hfd'. erewrite ST_bind_run by (simpl; by rewrite (ST_bind_run _ _ _ _ _ Hrun)). done.
  - split; [done|by apply (table_same r1)| |].
    + intros e' o' [Hne Ha']%Hold Hge. change (interest (reactor w')) with (interest r1). rewrite Hin. simpl.
      rewrite lookup_delete_ne; [by apply (Has e')|]. intros E. destruct (fd_unique w e o e' o' Hi Ha Ha' Hfd) as [? _]; [by symmetry|done].
    + intros g ev. change (interest (reactor w')) with (interest r1). rewrite Hin. simpl. rewrite lookup_delete_Some. intros [Hne Hg].
      destruct (Hon g ev Hg) as (e' & o' & Ha' & <- & Hge). exists e', o'. split; [|done]. apply Hold. split; [|done].
      intros ->. destruct Ha' as (Ho' & _). simplify_eq.
Qed.

(** Another thread changes the flags at once and queues the update; an event that leaves the
    cycle before the update has run fails the assertion of [EventRemove]. *)
Lemma poll_race w e o f :
  poll_world w -> active w e o -> 0 <= fd o -> DecodePoll (f (events o)) <> DecodePoll (events o) ->
  exists w', Event_change false e f w = Ok (tt, w') /\ Deactivate true e w' = Abort.
Proof.
  intros Hw Ha Hfd Hne. pose proof Hw as [Hi Ht Has Hon]. pose proof Ha as (Ho & Hid & Hc).
  set (o1 := Event_set_events o (f (events o))). eexists. split.
  { unfold EventLoop.Event_change. erewrite ST_bind_run by (unfold obj; by rewrite Ho). erewrite ST_bind_run by done. rewrite Hc.
    unfold EventLoop.EventUpdate. erewrite ST_bind_run by (unfold obj; simpl; by rewrite lookup_insert_eq). simpl.
    rewrite Hc, bool_decide_false by (intros Hx; by apply Hx). done. }
  pose proof (Has e o Ha Hfd) as Hin. rewrite lookup_interest in Hin. apply bind_Some in Hin as (i & Hf & Hp).
  apply fmap_Some in Hp as (p & Hp & Hev).
  unfold EventLoop.Deactivate. erewrite ST_bind_run by (unfold obj; simpl; by rewrite lookup_insert_eq). simpl. rewrite Hc. unfold EventRemove.
  erewrite ST_bind_run by (unfold obj; simpl; by rewrite lookup_insert_eq). simpl. rewrite Hc, bool_decide_false by (intros Hx; by apply Hx).
  rewrite (proj2 (Z.eqb_neq _ _)) by done. simpl. unfold remove_in_loop.
  erewrite ST_bind_run by (unfold obj; simpl; by rewrite lookup_insert_eq). erewrite ST_bind_run by done. simpl.
  rewrite (inv_obj _ _ Hi _ _ Ha). erewrite ST_bind_run by (rewrite bool_decide_true by done; done).
  erewrite ST_bind_run by done. rewrite Z.geb_leb, (proj2 (Z.leb_le _ _)) by done.
  unfold mbind at 1 2, ST_bind. simpl. unfold Poll_EventRemove. erewrite ST_bind_run by (unfold obj; simpl; by rewrite lookup_insert_eq).
  erewrite ST_bind_run by done. simpl. rewrite Hf. erewrite ST_bind_run by done. rewrite (length_i32 w e o Ht Ho), (table_index w e o Ht Ho _ _ Hf).
  erewrite ST_bind_run by done. rewrite Hp. erewrite ST_bind_run by done. rewrite <- Hev, (proj2 (Z.eqb_neq (DecodePoll (events o)) _)) by congruence. done.
Qed.
End cycle.
