(* ===== verification/LoopLife.v ===== *)
(** * Creation and destruction of cycles, events and timers.

    Sources: hare/base/io/cycle.cc (notifier, constructor and destructor of [Cycle]),
    reactor.cc, event.cc and timer.cc (destructors), reactor/reactor_epoll.cc (constructor).

    The thread-local pointer to the cycle of a thread is passed along; whether the cycle
    holds the last reference to an event is the argument [last_ref]. *)

From S2P Require Import Prelude EventLoop EventLoopSpec EventLoopFacts.

(** ** Creation *)

Definition REACTOR_TYPE_EPOLL : Z := 0.
Definition REACTOR_TYPE_POLL : Z := 1.
Definition REACTOR_TYPE_NBRS : Z := 2.

(** [evtfd]: what [eventfd] returned. *)
Definition CreateNotifier (evtfd : Z) : outcome Z := if evtfd <? 0 then Throw Exception else Ok evtfd.

(** [epoll_fd]: what [epoll_create1] returned. *)
Definition ReactorEpoll_ctor (epoll_fd : Z) : outcome Reactor := if epoll_fd <? 0 then Throw Exception else Ok Reactor_init.
Definition ReactorPoll_ctor : outcome Reactor := Ok Reactor_init.

Definition CreateByType (type epoll_fd : Z) : outcome Reactor :=
  if type =? REACTOR_TYPE_EPOLL then ReactorEpoll_ctor epoll_fd
  else if type =? REACTOR_TYPE_POLL then ReactorPoll_ctor
  else Throw Exception.

(** The constructor; the pointer it gets is not null, [CHECK_NULL] looks all the same.  The
    second result is the new value of the thread's pointer. *)
Definition Cycle_new (this : positive) (type evtfd epoll_fd now : Z) (thread_cycle : option positive) :
    outcome (World * option positive) :=
  evtfd ← CreateNotifier evtfd;
  r ← CreateByType type epoll_fd;
  r ← CheckNotNull (Some r);
  match thread_cycle with
  | Some _ => Throw Exception
  | None => Ok (set_reactor r (Cycle_ctor evtfd now), Some this)
  end.

(** ** Destruction *)

Definition Event_dtor (o : EventImpl) : outcome unit := hare_assert (bool_decide (cycle o = None)).

Section timer.
Context (this : positive) (user_task : positive -> L unit).
Context `{!ReactorOps}.

(** [Timer::Cancel], and the destructor, which begins with it. *)
Definition Timer_Cancel (in_thread : bool) (o : EventImpl) : L unit :=
  match cycle o with Some _ => Cancel this user_task in_thread (id o) | None => mret tt end.

Definition Timer_dtor (in_thread : bool) (e : eptr) : L unit :=
  o ← obj e;
  _ ← Timer_Cancel in_thread o;
  o ← obj e;
  lift (Event_dtor o).
End timer.

(** The events a reactor lets go of. *)
Fixpoint release_events (last_ref : eptr -> bool) (l : list (Z * eptr)) (w : World) : outcome unit :=
  match l with
  | [] => Ok tt
  | (_, e) :: l =>
    o ← deref (objs w !! e);
    _ ← (if last_ref e then Event_dtor o else Ok tt);
    release_events last_ref l w
  end.

(** [AssertInCycleThread] throws; out of a destructor that ends the process. *)
Definition Cycle_dtor (in_thread : bool) (last_ref : eptr -> bool) (w : World) : outcome (option positive) :=
  if negb in_thread then Abort
  else
    n ← deref (objs w !! notify_event w);
    _ ← Event_dtor n;
    _ ← release_events last_ref (map_to_list (events_ (reactor w))) w;
    Ok None.

(** ** Facts *)

Section facts.
Context (this : positive) (epoll_ctl : Z -> Z -> Z -> bool) (user_task : positive -> L unit).
Abbreviation Exec_end := (Exec_end this user_task (H := EpollBackend epoll_ctl)).

(** A new cycle meets the invariant of the loop; a second one in the thread is refused. *)
Lemma Cycle_new_spec type evtfd epoll_fd now :
  (type = REACTOR_TYPE_EPOLL \/ type = REACTOR_TYPE_POLL) -> 0 <= evtfd -> 0 <= epoll_fd ->
  exists w, Cycle_new this type evtfd epoll_fd now None = Ok (w, Some this) /\ Inv this w /\
    forall p, Cycle_new this type evtfd epoll_fd now (Some p) = Throw Exception.
Proof.
  intros Ht He Hp. exists (Cycle_ctor evtfd now). pose proof (Cycle_ctor_Inv this evtfd now).
  unfold Cycle_new, CreateNotifier, CreateByType, ReactorEpoll_ctor, ReactorPoll_ctor.
  rewrite !(proj2 (Z.ltb_ge _ _)) by lia. by destruct Ht as [-> | ->].
Qed.

(** After [Exec] a cycle can be destroyed, whoever holds its events. *)
Lemma Cycle_dtor_after_Exec w on last_ref :
  Inv this w -> active this w (notify_event w) on -> 0 <= fd on ->
  exists w', Exec_end w = Ok (tt, w') /\ Cycle_dtor true last_ref w' = Ok None.
Proof.
  intros Hi Ha Hfd. destruct (Exec_end_spec this epoll_ctl user_task w on Hi Ha Hfd) as (w' & Hw & Hev & _ & _ & Hn & _ & Hobj).
  exists w'. split; [done|]. destruct (Hobj _ _ Ha) as (o' & Ho & _ & _ & Hc).
  unfold Cycle_dtor. rewrite Hn, Ho, Hev. simpl. unfold Event_dtor. rewrite Hc. simpl. by rewrite map_to_list_empty.
Qed.

Lemma release_aborts last_ref l w i e o :
  (forall i e, (i, e) ∈ l -> is_Some (objs w !! e)) ->
  (i, e) ∈ l -> objs w !! e = Some o -> cycle o <> None -> last_ref e = true -> release_events last_ref l w = Abort.
Proof.
  intros Hall Hin Ho Hc Hr. induction l as [|[j f] l IH]; [by apply elem_of_nil in Hin|]. simpl.
  destruct (Hall j f) as [og Hog]; [left|]. rewrite Hog. simpl.
  apply elem_of_cons in Hin as [[= <- <-]|Hin].
  - rewrite Hr. simplify_eq. unfold Event_dtor. by rewrite bool_decide_false.
  - assert (IH' : release_events last_ref l w = Abort) by (apply IH; [|done]; intros j' f' Hj; eapply Hall; by right).
    unfold Event_dtor. destruct (last_ref f); [|done]. simpl. unfold hare_assert. by destruct (bool_decide _).
Qed.

(** A cycle that dies with an event of its own still registered, because it never ran,
    takes the process with it. *)
Lemma Cycle_dtor_registered w last_ref e o :
  Inv this w -> active this w e o -> last_ref e = true -> is_Some (objs w !! notify_event w) ->
  Cycle_dtor true last_ref w = Abort.
Proof.
  intros Hi Ha Hr [n Hn]. unfold Cycle_dtor. rewrite Hn. simpl. unfold Event_dtor at 1.
  destruct (bool_decide (cycle n = None)); [|done]. simpl. pose proof Ha as (Ho & _ & Hc).
  rewrite (release_aborts last_ref _ w (id o) e o); try done.
  - intros i f Hf%elem_of_map_to_list. destruct (inv_map _ _ Hi _ _ Hf) as (og & (Hog & _) & _). by eexists.
  - apply elem_of_map_to_list. by apply (inv_obj _ _ Hi).
  - congruence.
Qed.

(** A timer that is let go of in the thread of its running cycle leaves the reactor before
    it dies. *)
Lemma Timer_dtor_spec w e o :
  Inv this w -> active this w e o -> fd o < 0 -> is_running w = true ->
  exists w', Timer_dtor this user_task (H := EpollBackend epoll_ctl) true e w = Ok (tt, w') /\
    events_ (reactor w') = delete (id o) (events_ (reactor w)).
Proof.
  intros Hi Ha Hfd Hrun. pose proof Ha as (Ho & Hid & Hc). pose proof (inv_obj _ _ Hi _ _ Ha) as Hm.
  eexists. split; [|shelve]. unfold Timer_dtor. erewrite ST_bind_run by (unfold obj; by rewrite Ho).
  erewrite ST_bind_run.
  2:{ unfold Timer_Cancel. rewrite Hc. unfold Cancel. erewrite ST_bind_run by done. rewrite Hrun. simpl.
      unfold cancel_in_loop. erewrite ST_bind_run by done. rewrite Hm.
      erewrite ST_bind_run by (unfold obj; by rewrite Ho). rewrite (proj2 (Z.ltb_lt _ _)) by done.
      by erewrite ST_bind_run by done. }
  erewrite ST_bind_run by (unfold obj; simpl; by rewrite lookup_insert_eq). done.
  Unshelve. done.
Qed.
End facts.
