(* ===== verification/Console.v ===== *)
(** * The console.

    Source: hare/base/io/console.cc.  The handlers are user tasks, named; the default
    handler is a hook (Util.v).  What [read] returned is an argument of [Process]; what it
    calls is its result. *)

From S2P Require Import Prelude Util EventLoop EventLoopSpec EventLoopFacts.

Definition STDIN_FILENO : Z := 0.
Definition NEWLINE : Z := 10.
Definition HARE_SMALL_BUFFER : Z := 4096.

Record ConsoleImpl := mkConsole {
  console_event : eptr;
  handlers : gmap (list Z) positive;
  default_handle : AtomicHook positive;
  attached : bool
}.

(** What [Process] calls: nothing, a registered task, or the default handler with the line. *)
Inductive ConsoleCall := CallNone | CallTask (t : positive) | CallDefault (fn : positive) (line : list Z).

Section console.
Context (asserts : bool) (GlobalConsoleHandle : positive).

(** The constructor: a new event object in the world of the cycle. *)
Definition Console_ctor (cb : positive) : L ConsoleImpl :=
  e ← new_obj (Event_ctor STDIN_FILENO (CbUser cb) (Z.lor (Z.lor EVENT_READ EVENT_PERSIST) EVENT_ET) 0);
  h ← lift (Hook_Store asserts (Hook_ctor GlobalConsoleHandle) GlobalConsoleHandle);
  mret (mkConsole e ∅ h false).

Definition RegisterDefaultHandle (c : ConsoleImpl) (fn : positive) : outcome ConsoleImpl :=
  h ← Hook_Store asserts (default_handle c) fn;
  Ok (mkConsole (console_event c) (handlers c) h (attached c)).

(** [std::map::emplace] keeps a handler that is there. *)
Definition RegisterHandle (c : ConsoleImpl) (mask : list Z) (t : positive) : outcome ConsoleImpl :=
  _ ← hare_assert (negb (attached c));
  Ok (mkConsole (console_event c)
        (match handlers c !! mask with Some _ => handlers c | None => <[mask := t]> (handlers c) end)
        (default_handle c) (attached c)).

(** [while (line.back() == '\n') line.pop_back();] on the reversed line: [back] of an empty
    string is undefined. *)
Fixpoint strip_rev (line : list Z) : outcome (list Z) :=
  match line with
  | [] => UB
  | b :: r => if b =? NEWLINE then strip_rev r else Ok line
  end.
Definition strip_newlines (line : list Z) : outcome (list Z) := r ← strip_rev (rev line); Ok (rev r).

(** [len], [bytes]: what [read] returned and stored. *)
Definition Console_Process (c : ConsoleImpl) (e : eptr) (events len : Z) (bytes : list Z) : outcome ConsoleCall :=
  _ ← hare_assert (bool_decide (console_event c = e));
  if negb (CHECK_EVENT events EVENT_READ) then Ok CallNone
  else if len <? 0 then Ok CallNone
  else
    line ← strip_newlines (take (Z.to_nat len) bytes);
    Ok (match handlers c !! line with
        | Some t => CallTask t
        | None => CallDefault (Hook_call (default_handle c)) line
        end).
End console.

Section attach.
Context (this : positive) (user_task : positive -> L unit) `{Hbe : !ReactorOps}.

(** [Attach]: on a running cycle the update runs in the thread of the cycle, and a caller in
    another thread waits for it; otherwise it is a call of [EventUpdate].  [given]: whether
    the cycle is not null. *)
Definition Console_Attach (c : ConsoleImpl) (given in_thread : bool) : L (bool * ConsoleImpl) :=
  if negb given then mret (false, c)
  else
    running ← gets is_running;
    _ ← EventUpdate this user_task (running || in_thread) (console_event c);
    o ← obj (console_event c);
    _ ← set_obj (console_event c) (Event_Tie o (Some (OwnEvent (console_event c))));
    mret (true, mkConsole (console_event c) (handlers c) (default_handle c) true).

Definition Console_dtor (c : ConsoleImpl) : L unit :=
  o ← obj (console_event c);
  set_obj (console_event c) (Event_Tie o None).
End attach.

(** ** Theorems *)

Lemma strip_rev_newlines k r : strip_rev (replicate k NEWLINE ++ r) = strip_rev r.
Proof. by induction k. Qed.

Lemma rev_replicate {A} k (x : A) : rev (replicate k x) = replicate k x.
Proof. induction k as [|k IH]; [done|]. simpl. rewrite IH. by rewrite <- replicate_cons_app. Qed.

(** The newlines at the end go, and nothing else. *)
Lemma strip_newlines_spec text b k :
  b <> NEWLINE -> strip_newlines (text ++ [b] ++ replicate k NEWLINE) = Ok (text ++ [b]).
Proof.
  intros Hb. unfold strip_newlines. rewrite !rev_app_distr, rev_replicate, <- (assoc_L (++)), strip_rev_newlines. simpl.
  rewrite (proj2 (Z.eqb_neq _ _)) by done. simpl. by rewrite rev_involutive.
Qed.

Lemma strip_newlines_empty k : strip_newlines (replicate k NEWLINE) = UB.
Proof.
  unfold strip_newlines. rewrite rev_replicate, <- (app_nil_r (replicate k NEWLINE)), strip_rev_newlines. done.
Qed.

(** A line goes to the first handler that was registered for it, any other line to the
    default handler. *)
Lemma Console_Process_spec c events text b k bytes :
  CHECK_EVENT events EVENT_READ = true -> b <> NEWLINE ->
  Console_Process c (console_event c) events (Zlen (text ++ [b] ++ replicate k NEWLINE))
      (text ++ [b] ++ replicate k NEWLINE ++ bytes) =
    Ok (match handlers c !! (text ++ [b]) with
        | Some t => CallTask t
        | None => CallDefault (Hook_call (default_handle c)) (text ++ [b])
        end).
Proof.
  intros He Hb. unfold Console_Process. rewrite bool_decide_true by done. simpl. rewrite He. simpl.
  rewrite (proj2 (Z.ltb_ge _ _)) by (apply Zlen_nonneg).
  replace (text ++ b :: replicate k NEWLINE ++ bytes) with ((text ++ [b] ++ replicate k NEWLINE) ++ bytes)
    by (rewrite <- !(assoc_L (++)); done).
  unfold Zlen. rewrite Nat2Z.id. rewrite take_app_length'; [|done]. by rewrite strip_newlines_spec.
Qed.

(** An empty line, or the end of the input, is undefined behaviour. *)
Lemma Console_Process_empty c events k bytes :
  CHECK_EVENT events EVENT_READ = true ->
  Console_Process c (console_event c) events (Z.of_nat k) (replicate k NEWLINE ++ bytes) = UB.
Proof.
  intros He. unfold Console_Process. rewrite bool_decide_true by done. simpl. rewrite He. simpl.
  rewrite (proj2 (Z.ltb_ge _ _)) by lia. rewrite Nat2Z.id, take_app_length' by (by rewrite length_replicate).
  by rewrite strip_newlines_empty.
Qed.

(** The first handler of a line stays; after [Attach] there are no more registrations. *)
Lemma RegisterHandle_spec c mask t t' :
  attached c = false -> handlers c !! mask = None ->
  exists c1 c2, RegisterHandle c mask t = Ok c1 /\ RegisterHandle c1 mask t' = Ok c2 /\ handlers c2 !! mask = Some t /\
    (forall other, other <> mask -> handlers c2 !! other = handlers c !! other).
Proof.
  intros Ha Hm. unfold RegisterHandle. rewrite Ha, Hm. simpl. eexists _, _. split; [done|]. simpl. split; [done|].
  rewrite lookup_insert_eq. split; simpl.
  - apply lookup_insert_eq.
  - intros other Ho. by rewrite lookup_insert_ne.
Qed.
