(* ===== verification/Sockets.v ===== *)
(** * Sockets: pairs of sockets, addresses as text, ownership of addresses.

    Sources: hare/base/io/operation.cc, hare/net/socket_op.cc and hare/net/host_address.cc.
    What a system call returns is an argument; [CreatePair] runs on the table of the
    descriptors that are open. *)

From S2P Require Import Prelude NetError.

(** ** [CreatePair] of operation.cc *)

Definition AF_UNIX : Z := 1.
Definition EINVAL : Z := 22.
Definition SOCKADDR_IN_SIZE : Z := 16.

(** What the calls return, in the order the code makes them: descriptors, results, and the
    size and address that [getsockname] and [accept] store; [c_errno]: [errno] when a call
    has failed. *)
Record PairCalls := mkPairCalls {
  c_listener : Z; c_bind : Z; c_listen : Z; c_connector : Z;
  c_name1 : Z; c_name1_size : Z; c_connect : Z;
  c_acceptor : Z; c_accept_size : Z; c_listen_addr : sockaddr;
  c_name2 : Z; c_name2_size : Z; c_connect_addr : sockaddr;
  c_errno : Z
}.

(** The descriptors of the process that are open, and the calls of [close] on others. *)
Record FdTable := mkFds { open_fds : gset Z; bad_closes : list Z }.

(** A call that returns a descriptor ([socket], [accept]) or, when it fails, -1. *)
Definition sys_open (ret : Z) : ST FdTable Z := fun s =>
  Ok (ret, if ret <? 0 then s else mkFds ({[ret]} ∪ open_fds s) (bad_closes s)).

Definition sys_close (fd : Z) : ST FdTable unit := fun s =>
  Ok (tt, if bool_decide (fd ∈ open_fds s) then mkFds (open_fds s ∖ {[fd]}) (bad_closes s)
          else mkFds (open_fds s) (bad_closes s ++ [fd])).

(** [ret]: the result; [fds]: what was stored in [_fd]. *)
Record PairResult := mkPairResult { ret : Z; fds : option (Z * Z); errno_after : Z }.

(** [if (fd != -1) close(fd);] *)
Definition close_valid (fd : Z) : ST FdTable unit := if negb (fd =? -1) then sys_close fd else mret tt.

(** [tidy_up_and_fail] and [abort_tidy_up_and_fail], with the values the three variables have
    there. *)
Definition tidy_up (abort : bool) (listener connector acceptor : Z) (errno : Z) : ST FdTable PairResult :=
  _ ← close_valid listener;
  _ ← close_valid connector;
  _ ← close_valid acceptor;
  mret (mkPairResult (-1) None (if abort then ECONNABORTED else errno)).

Definition CreatePair (c : PairCalls) (family type protocol : Z) (fd_given : bool) : ST FdTable PairResult :=
  let family_test := negb (family =? AF_INET) && negb (type =? AF_UNIX) in
  if negb (protocol =? 0) || family_test then mret (mkPairResult (-1) None EAFNOSUPPORT)
  else if negb fd_given then mret (mkPairResult (-1) None EINVAL)
  else
    listener ← sys_open (c_listener c);
    if listener <? 0 then mret (mkPairResult (-1) None (c_errno c))
    else if c_bind c =? 0 then tidy_up false listener (-1) (-1) (c_errno c)
    else if c_listen c =? -1 then tidy_up false listener (-1) (-1) (c_errno c)
    else
      connector ← sys_open (c_connector c);
      if connector <? 0 then tidy_up false listener connector (-1) (c_errno c)
      else if c_name1 c =? -1 then tidy_up false listener connector (-1) (c_errno c)
      else if negb (c_name1_size c =? SOCKADDR_IN_SIZE) then tidy_up true listener connector (-1) (c_errno c)
      else if c_connect c =? 0 then tidy_up false listener connector (-1) (c_errno c)
      else
        acceptor ← sys_open (c_acceptor c);
        if acceptor <? 0 then tidy_up false listener connector acceptor (c_errno c)
        else if negb (c_accept_size c =? SOCKADDR_IN_SIZE) then tidy_up true listener connector acceptor (c_errno c)
        else if c_name2 c =? -1 then tidy_up false listener connector acceptor (c_errno c)
        else if negb (c_name2_size c =? SOCKADDR_IN_SIZE) ||
                negb (sin_family (c_listen_addr c) =? sin_family (c_connect_addr c)) ||
                negb (s_addr (c_listen_addr c) =? s_addr (c_connect_addr c)) ||
                negb (sin_port (c_listen_addr c) =? sin_port (c_connect_addr c))
        then tidy_up true listener connector acceptor (c_errno c)
        else
          _ ← sys_close listener;
          mret (mkPairResult 0 (Some (connector, acceptor)) (c_errno c)).

(** [::socketpair] on Linux. *)
Definition Socketpair (socketpair_ret : Z) : Z := socketpair_ret.

(** ** Addresses as text *)

Definition INET_ADDRSTRLEN : Z := 16.
Definition INET6_ADDRSTRLEN : Z := 46.

Section text.
(** [inet_ntop] for the two families, and what [%u] prints. *)
Variable inet_ntop4 : Z -> list Z.
Variable inet_ntop6 : list Z -> list Z.
Variable decimal : Z -> list Z.

(** [ToIp] on a buffer of [size] bytes, all zero: the string that is in it afterwards.
    [inet_ntop] leaves the buffer alone when the text and its end do not fit. *)
Definition op_ToIp (size : Z) (a : sockaddr) : outcome (list Z) :=
  let store text := if Zlen text <? size then text else [] in
  if sin_family a =? AF_INET then
    _ ← hare_assert (size >=? INET_ADDRSTRLEN); Ok (store (inet_ntop4 (s_addr a)))
  else if sin_family a =? AF_INET6 then
    _ ← hare_assert (size >=? INET6_ADDRSTRLEN); Ok (store (inet_ntop6 (sin6_addr a)))
  else Ok [].

(** [snprintf(_buf + end, size - end, ...)]: the text is cut so that its end fits. *)
Definition snprintf (room : Z) (text : list Z) : list Z := take (Z.to_nat (room - 1)) text.

(** 91, 93 and 58 are the brackets and the colon. *)
Definition op_ToIpPort (size : Z) (a : sockaddr) : outcome (list Z) :=
  let port := decimal (NetworkToHost16 (sin_port a)) in
  if sin_family a =? AF_INET6 then
    ip ← op_ToIp (size - 1) a;
    let buf := 91 :: ip in
    _ ← hare_assert (size >? Zlen buf);
    Ok (buf ++ snprintf (size - Zlen buf) (93 :: 58 :: port))
  else
    buf ← op_ToIp size a;
    _ ← hare_assert (size >? Zlen buf);
    Ok (buf ++ snprintf (size - Zlen buf) (58 :: port)).

(** [HARE_SMALL_FIXED_SIZE * 2] *)
Definition ADDRESS_CACHE : Z := 64.

Definition ToIp (a : HostAddress) : outcome (list Z) := s ← deref (in_ a); op_ToIp ADDRESS_CACHE s.
Definition ToIpPort (a : HostAddress) : outcome (list Z) := s ← deref (in_ a); op_ToIpPort ADDRESS_CACHE s.
End text.

(** ** Calls whose result is passed on *)

Definition MAX_READ_DEFAULT : Z := 4096.

(** [FIONREAD]: the result of [ioctl] and the count it stores. *)
Definition GetBytesReadableOnSocket (ioctl_ret count : Z) : Z := if ioctl_ret <? 0 then 0 else u64 count.

Definition CreateNonblockingOrDie (fd : Z) : outcome Z := if fd <? 0 then Throw Exception else Ok fd.
Definition op_Close (close_ret : Z) : Z := close_ret.
Definition op_Write (write_ret : Z) : Z := write_ret.
Definition op_Read (read_ret : Z) : Z := read_ret.
Definition op_Bind (bind_ret : Z) : bool := negb (bind_ret =? -1).
Definition op_Listen (listen_ret : Z) : bool := listen_ret >=? 0.
Definition op_Connect (connect_ret : Z) : bool := connect_ret >=? 0.

(** ** Options of [Socket] *)

Definition SOL_SOCKET : Z := 1.
Definition SO_DEBUG : Z := 1.
Definition SO_REUSEADDR : Z := 2.
Definition SO_KEEPALIVE : Z := 9.
Definition SO_REUSEPORT : Z := 15.
Definition TCP_NODELAY : Z := 1.

Section options.
(** [setsockopt]: level, option and value give a result; [errno] if it fails. *)
Context (setsockopt : Z -> Z -> Z -> Z) (errno : Z).

Definition set_option (name value error : Z) : Error :=
  if negb (setsockopt SOL_SOCKET name value =? 0) then Error_ctor error errno else Error_ctor ERROR_SUCCESS errno.

Definition SetTcpNoDelay (no_delay : bool) : Error :=
  set_option TCP_NODELAY (if no_delay then 1 else 0) ERROR_SOCKET_TCP_NO_DELAY.
Definition SetReuseAddr (reuse : bool) : Error :=
  set_option SO_REUSEADDR (if reuse then 1 else 0) ERROR_SOCKET_REUSE_ADDR.
Definition SetReusePort (reuse : bool) : Error :=
  set_option SO_REUSEPORT (if reuse then 1 else 0) ERROR_SOCKET_REUSE_PORT.
Definition SetKeepAlive (keep_alive : bool) : Error :=
  set_option SO_KEEPALIVE (if keep_alive then 1 else 0) ERROR_SOCKET_KEEP_ALIVE.
End options.

(** The pending error of a socket is a number; its bytes are returned as a string. *)
Definition le_bytes4 (x : Z) : list Z :=
  (fun k => Z.land (Z.shiftr x (8 * k)) 255) <$> [0; 1; 2; 3].
Definition SocketErrorInfo (getsockopt_ret error : Z) : list Z :=
  if negb (getsockopt_ret =? -1) then c_str (le_bytes4 error) else [].

(** ** [HostAddress]: resolving and asking the kernel *)

(** [Resolve]: [getaddrinfo]'s result and the address of its first answer. *)
Definition Resolve (gai_ret : Z) (answer : Z) (result : HostAddress) : outcome (bool * HostAddress) :=
  f ← Family result;
  _ ← hare_assert (f =? AF_INET);
  if negb (gai_ret =? 0) then Ok (false, result)
  else
    s ← deref (in_ result);
    Ok (true, mkAddress (Some (mkSockaddr (sin_family s) (sin_port s) answer (sin6_addr s) (sin6_scope_id s)))).

(** [LocalAddress] and [PeerAddress]: [raw] is what [malloc] returned, [stored] what the
    kernel stores there. *)
Definition LocalAddress (getsockname_ret : Z) (raw stored : sockaddr) : HostAddress :=
  mkAddress (Some (if getsockname_ret <? 0 then raw else stored)).
Definition PeerAddress (getpeername_ret : Z) (raw stored : sockaddr) : HostAddress :=
  mkAddress (Some (if getpeername_ret <? 0 then raw else stored)).

(** ** [HostAddress]: who owns the memory *)

(** The blocks [malloc] has handed out. *)
Abbreviation AddrHeap := (gmap positive sockaddr).

(** [std::free] *)
Definition free (p : option positive) (h : AddrHeap) : outcome AddrHeap :=
  match p with
  | None => Ok h
  | Some p => match h !! p with Some _ => Ok (delete p h) | None => UB end
  end.

Definition HostAddress_dtor (this : option positive) (h : AddrHeap) : outcome AddrHeap := free this h.

(** Move assignment: (this, another, heap) afterwards.  The pointer of [another] is freed
    and kept. *)
Definition HostAddress_move_assign (this another : option positive) (h : AddrHeap) :
    outcome (option positive * option positive * AddrHeap) :=
  h ← free this h;
  Ok (another, this, h).

(** ** Theorems *)

(** What the kernel promises of the descriptors it hands out: a call fails with -1, and the
    descriptors are different from each other and from those that are open. *)
Record new_fds (c : PairCalls) (s : FdTable) : Prop := {
  nf_valid : -1 <= c_listener c /\ -1 <= c_connector c /\ -1 <= c_acceptor c;
  nf_fresh : (c_listener c ∉ open_fds s) /\ (c_connector c ∉ open_fds s) /\ (c_acceptor c ∉ open_fds s);
  nf_apart : 0 <= c_listener c -> c_connector c <> c_listener c /\ c_acceptor c <> c_listener c;
  nf_pair : 0 <= c_connector c -> c_acceptor c <> c_connector c
}.

Lemma sys_open_run fd s : sys_open fd s = Ok (fd, if fd <? 0 then s else mkFds ({[fd]} ∪ open_fds s) (bad_closes s)).
Proof. done. Qed.

(** Closing an open descriptor, or the -1 of a failed call. *)
Lemma close_valid_run fd s :
  fd = -1 \/ fd ∈ open_fds s ->
  close_valid fd s = Ok (tt, if fd =? -1 then s else mkFds (open_fds s ∖ {[fd]}) (bad_closes s)).
Proof. unfold close_valid, sys_close. intros [->|H]; [done|]. destruct (fd =? -1); [done|]. simpl. by rewrite bool_decide_true. Qed.

Definition opened (fd : Z) (X : gset Z) : gset Z := if fd <? 0 then X else {[fd]} ∪ X.
Definition without (fd : Z) (X : gset Z) : gset Z := if fd =? -1 then X else X ∖ {[fd]}.

(** Everything that was opened is closed again, and nothing else. *)
Lemma tidy_up_run abort l c a errno (X : gset Z) s :
  -1 <= l -> -1 <= c -> -1 <= a -> (0 <= l -> l ∉ X) -> (0 <= c -> c ∉ X) -> (0 <= a -> a ∉ X) ->
  (0 <= l -> c <> l /\ a <> l) -> (0 <= c -> a <> c) ->
  open_fds s = opened a (opened c (opened l X)) ->
  exists s', tidy_up abort l c a errno s = Ok (mkPairResult (-1) None (if abort then ECONNABORTED else errno), s') /\
    open_fds s' = X /\ bad_closes s' = bad_closes s.
Proof.
  intros Hl Hc Ha Fl Fc Fa Hx Hy Ho. unfold opened in Ho. eexists. split; [|split].
  - unfold tidy_up. erewrite ST_bind_run; [|apply close_valid_run].
    2: { destruct (Z.ltb_spec l 0); [left; lia|right]. rewrite Ho. destruct (a <? 0), (c <? 0); set_solver. }
    erewrite ST_bind_run; [|apply close_valid_run].
    2: { destruct (Z.ltb_spec c 0); [left; lia|right]. destruct (Z.eqb_spec l (-1)); simpl; rewrite Ho;
           rewrite ?elem_of_difference, ?elem_of_singleton; destruct (a <? 0); repeat split; try set_solver; lia. }
    erewrite ST_bind_run; [|apply close_valid_run].
    2: { destruct (Z.ltb_spec a 0); [left; lia|right].
         destruct (Z.eqb_spec l (-1)), (Z.eqb_spec c (-1)); simpl; rewrite Ho; rewrite ?elem_of_difference, ?elem_of_singleton;
           repeat split; try set_solver; lia. }
    done.
  - apply set_eq. intros x.
    destruct (Z.eqb_spec l (-1)), (Z.eqb_spec c (-1)), (Z.eqb_spec a (-1)); simpl; rewrite Ho;
      destruct (Z.ltb_spec a 0), (Z.ltb_spec c 0), (Z.ltb_spec l 0); try lia; set_solver.
  - by destruct (l =? -1), (c =? -1), (a =? -1).
Qed.

(** What the caller finds: the table as it was, or with the pair. *)
Definition closed_up (c : PairCalls) (s : FdTable) (m : outcome (PairResult * FdTable)) : Prop :=
  exists r s', m = Ok (r, s') /\ bad_closes s' = bad_closes s /\
    ((ret r = -1 /\ fds r = None /\ open_fds s' = open_fds s) \/
     (ret r = 0 /\ fds r = Some (c_connector c, c_acceptor c) /\ c_connector c <> c_acceptor c /\
      open_fds s' = {[c_connector c; c_acceptor c]} ∪ open_fds s)).

Lemma failed_closed_up c s s1 b l x a e :
  -1 <= l -> -1 <= x -> -1 <= a -> (0 <= l -> l ∉ open_fds s) -> (0 <= x -> x ∉ open_fds s) -> (0 <= a -> a ∉ open_fds s) ->
  (0 <= l -> x <> l /\ a <> l) -> (0 <= x -> a <> x) ->
  open_fds s1 = opened a (opened x (opened l (open_fds s))) -> bad_closes s1 = bad_closes s ->
  closed_up c s (tidy_up b l x a e s1).
Proof.
  intros H1 H2 H3 H4 H5 H6 H7 H8 H9 Hb.
  destruct (tidy_up_run b l x a e (open_fds s) s1 H1 H2 H3 H4 H5 H6 H7 H8 H9) as (s' & Hr & Ho & Hb').
  eexists _, s'. split; [exact Hr|]. split; [congruence|]. by left.
Qed.

#[local] Ltac apply_failed :=
  apply failed_closed_up; try lia; try done; unfold opened; simpl;
  repeat match goal with H : 0 <= ?x |- context [?x <? 0] => rewrite (proj2 (Z.ltb_ge x 0) H) end;
  try match goal with H : ?x < 0 |- context [?x <? 0] => rewrite (proj2 (Z.ltb_lt x 0) H) end; done.
#[local] Ltac failed :=
  repeat (match goal with |- closed_up _ _ ((if ?b then _ else _) _) => destruct b eqn:? end; [apply_failed|]).

(** A failing [CreatePair] has closed everything it opened; a successful one leaves the pair. *)
Lemma CreatePair_no_leak c family type protocol given s :
  new_fds c s -> closed_up c s (CreatePair c family type protocol given s).
Proof.
  intros [(Vl & Vc & Va) (Fl & Fc & Fa) Hx Hy].
  assert (Hearly : forall e, closed_up c s (Ok (mkPairResult (-1) None e, s))) by (intros e; eexists _, s; by split_and!; [|..|left]).
  unfold CreatePair. cbv zeta. destruct (negb (protocol =? 0) || _); [apply Hearly|].
  destruct (negb given); [apply Hearly|]. rewrite (ST_bind_run _ _ _ _ _ (sys_open_run _ _)).
  destruct (Z.ltb_spec (c_listener c) 0) as [Hl|Hl]; [apply Hearly|].
  failed. rewrite (ST_bind_run _ _ _ _ _ (sys_open_run _ _)). destruct (Z.ltb_spec (c_connector c) 0) as [Hc|Hc]; [apply_failed|].
  failed. rewrite (ST_bind_run _ _ _ _ _ (sys_open_run _ _)). destruct (Z.ltb_spec (c_acceptor c) 0) as [Ha|Ha]; [apply_failed|].
  failed. eexists _, _. split; [reflexivity|]. destruct (Hx Hl) as [H1 H2]. specialize (Hy Hc).
  simpl. rewrite bool_decide_true by set_solver. split; [done|]. right. split_and!; [done|done|congruence|].
  apply set_eq. intros x. simpl. set_solver.
Qed.

Lemma tidy_up_ret abort l c a e s r s' : tidy_up abort l c a e s = Ok (r, s') -> ret r = -1.
Proof.
  unfold tidy_up, close_valid. intros H.
  destruct (negb (l =? -1)), (negb (c =? -1)), (negb (a =? -1)); injection H as <- _; done.
Qed.

(** When [bind] succeeds the pair is given up; it can only succeed when [bind] fails. *)
Lemma CreatePair_bind c family type protocol given s r s' :
  c_bind c = 0 -> CreatePair c family type protocol given s = Ok (r, s') -> ret r = -1.
Proof.
  intros Hb. unfold CreatePair. rewrite Hb. cbv zeta.
  destruct (_ || _); [intros H; injection H as <- _; done|]. destruct (negb given); [intros H; injection H as <- _; done|].
  rewrite (ST_bind_run _ _ _ _ _ (sys_open_run _ _)).
  destruct (c_listener c <? 0); [intros H; injection H as <- _; done|]. apply tidy_up_ret.
Qed.

(** The text of an address always fits its buffer. *)
Lemma ToIpPort_spec inet_ntop4 inet_ntop6 decimal s :
  (forall a, Zlen (inet_ntop4 a) < INET_ADDRSTRLEN) -> (forall a, Zlen (inet_ntop6 a) < INET6_ADDRSTRLEN) ->
  (forall p, 0 <= p < 2 ^ 16 -> Zlen (decimal p) <= 5) -> 0 <= NetworkToHost16 (sin_port s) < 2 ^ 16 ->
  let port := decimal (NetworkToHost16 (sin_port s)) in
  (sin_family s = AF_INET ->
     ToIpPort inet_ntop4 inet_ntop6 decimal (mkAddress (Some s)) = Ok (inet_ntop4 (s_addr s) ++ 58 :: port)) /\
  (sin_family s = AF_INET6 ->
     ToIpPort inet_ntop4 inet_ntop6 decimal (mkAddress (Some s)) =
       Ok (91 :: inet_ntop6 (sin6_addr s) ++ 93 :: 58 :: port)).
Proof.
  intros H4 H6 Hd Hp port. unfold INET_ADDRSTRLEN, INET6_ADDRSTRLEN in *. specialize (Hd _ Hp). fold port in Hd.
  split; intros Hf; unfold ToIpPort, op_ToIpPort, op_ToIp; simpl; rewrite Hf; simpl.
  - specialize (H4 (s_addr s)). pose proof (Zlen_nonneg (inet_ntop4 (s_addr s))). unfold ADDRESS_CACHE.
    rewrite (proj2 (Z.ltb_lt _ _)) by lia. rewrite (proj2 (Z.gtb_lt _ _)) by lia. simpl. unfold snprintf.
    fold port. rewrite take_ge; [done|]. simpl. unfold Zlen in *. lia.
  - specialize (H6 (sin6_addr s)). pose proof (Zlen_nonneg (inet_ntop6 (sin6_addr s))). unfold ADDRESS_CACHE.
    rewrite (proj2 (Z.ltb_lt _ _)) by lia. rewrite (proj2 (Z.gtb_lt _ _)) by (rewrite Zlen_cons; lia). simpl.
    unfold snprintf. fold port. rewrite take_ge; [done|]. simpl. rewrite Zlen_cons. unfold Zlen in *. lia.
Qed.

(** Assigning over an address leaves the source with memory that was freed: its destructor
    frees it again. *)
Lemma move_assign_double_free p q h this another h' :
  h !! p <> None -> HostAddress_move_assign (Some p) (Some q) h = Ok (this, another, h') ->
  HostAddress_dtor another h' = UB.
Proof.
  intros Hp. unfold HostAddress_move_assign, free. destruct (h !! p) eqn:E; [|done]. simpl.
  intros [= <- <- <-]. unfold HostAddress_dtor, free. by rewrite lookup_delete_eq.
Qed.

(** Assigning over an empty address moves it. *)
Lemma move_assign_empty q h :
  HostAddress_move_assign None q h = Ok (q, None, h) /\ HostAddress_dtor None h = Ok h.
Proof. done. Qed.

(** [TCP_NODELAY] at the level of the socket is [SO_DEBUG]: a kernel that refuses that
    option (it needs a privilege) makes [SetTcpNoDelay] fail, whatever it would do at the
    level of TCP. *)
Lemma SetTcpNoDelay_debug setsockopt errno b :
  setsockopt SOL_SOCKET SO_DEBUG (if b : bool then 1 else 0) <> 0 ->
  error_code (SetTcpNoDelay setsockopt errno b) = ERROR_SOCKET_TCP_NO_DELAY.
Proof. intros H. unfold SetTcpNoDelay, set_option. by rewrite (proj2 (Z.eqb_neq _ _)). Qed.
