(* ===== verification/Session.v ===== *)
(** * TCP sessions.

    Source: hare/net/tcp/session.cc and include/hare/net/tcp/session.h.

    A session runs in the thread of its owner cycle: the state of its model holds that
    cycle (the [World] of EventLoop.v, in which the session's event is an object), the
    session and the tasks the session has put into the queue of the cycle.  The session
    uses its buffers through the interface [BufferOps]; here it has the byte sequences that
    the contract of [net::Buffer] speaks of ([Append] joins, [Read] adds at the end, [Write]
    takes from the front), in SessionHeap.v the objects of NetBuffer.v on their heap.  User
    callbacks and system calls are parameters. *)

From S2P Require Import Prelude Cache EventLoop NetError.

Definition SESSION_READ : Z := EVENT_READ.
Definition SESSION_WRITE : Z := EVENT_WRITE.
Definition SESSION_CLOSED : Z := EVENT_CLOSED.
Definition SESSION_ERROR : Z := 0x40.
Definition SESSION_CONNECTED : Z := 0x80.

Inductive SessionState := STATE_CONNECTING | STATE_CONNECTED | STATE_DISCONNECTING | STATE_DISCONNECTED.

#[export] Instance SessionState_dec : EqDecision SessionState.
Proof. solve_decision. Defined.

Definition DEFAULT_HIGH_WATER : Z := 64 * 1024 * 1024.

(** ** The buffers a session uses *)

(** What the session calls of [net::Buffer]: [B] is the object, [H] the memory it lives in.
    [buf_Read] is given the number of the system call and what [readv] delivers; [buf_Write]
    is given what [writev] answers to the bytes it is offered, and tells the bytes it took. *)
Class BufferOps (B H : Type) := {
  buf_new : ST H B;
  buf_Size : B -> Z;
  buf_Append : B -> B -> ST H (B * B);
  buf_Add : B -> list cell -> ST H (bool * B);
  buf_Read : nat -> Z * list cell -> B -> ST H (Z * B);
  buf_Write : (list cell -> Z) -> B -> ST H (Z * list cell * B);
  buf_dtor : B -> ST H unit
}.

(** Byte sequences: the contract of the buffer. *)
#[export] Instance ByteBuffers : BufferOps (list cell) unit := {|
  buf_new := mret [];
  buf_Size b := Zlen b;
  buf_Append b other := mret (b ++ other, []);
  buf_Add b bytes := mret (if Zlen b + Zlen bytes >? MAX_SIZE then (false, b) else (true, b ++ bytes));
  buf_Read _ r b := mret (if fst r <=? 0 then (0, b) else (fst r, b ++ snd r));
  buf_Write w b :=
    mret (if decide (b = []) then (0, [], b)
          else let r := w b in
               if r <=? 0 then (0, [], b) else (r, take (Z.to_nat r) b, drop (Z.to_nat r) b));
  buf_dtor _ := mret tt
|}.

(** ** The session *)

Record TcpSessionImpl {B : Type} := mkSession {
  event : eptr; socket : Z;
  reading : bool; state : SessionState;
  out_buffer : B; in_buffer : B;
  high_water_mark : Z;
  write : option positive; high_water : option positive; read : option positive;
  connect : option positive; destroy : option positive
}.
Arguments TcpSessionImpl : clear implicits.
Arguments mkSession {B}.

(** The tasks a session queues: the lambda of [Append] and [Send], the one of [HandleWrite]. *)
Inductive STask {B : Type} := SAppend (buffer : B) | SWritten.
Arguments STask : clear implicits.

(** What the session tells the outside. *)
Inductive Obs :=
  | ObsConnect (flag : Z)
  | ObsRead
  | ObsWritten
  | ObsHighWater
  | ObsDestroy
  | ObsShutdown.

Record GEnv {B H : Type} := mkEnv {
  loop : World;
  sess : TcpSessionImpl B;
  stasks : list (STask B);
  calls : nat;
  wire : list cell;
  trace : list Obs;
  store : H
}.
Arguments GEnv : clear implicits.
Arguments mkEnv {B H}.

Section state.
Context {B H : Type}.
Implicit Types s : GEnv B H.

Definition set_loop (w : World) s : GEnv B H := mkEnv w (sess s) (stasks s) (calls s) (wire s) (trace s) (store s).
Definition set_sess (x : TcpSessionImpl B) s : GEnv B H := mkEnv (loop s) x (stasks s) (calls s) (wire s) (trace s) (store s).
Definition set_stasks (l : list (STask B)) s : GEnv B H := mkEnv (loop s) (sess s) l (calls s) (wire s) (trace s) (store s).
Definition set_calls (n : nat) s : GEnv B H := mkEnv (loop s) (sess s) (stasks s) n (wire s) (trace s) (store s).
Definition set_wire (l : list cell) s : GEnv B H := mkEnv (loop s) (sess s) (stasks s) (calls s) l (trace s) (store s).
Definition set_trace (l : list Obs) s : GEnv B H := mkEnv (loop s) (sess s) (stasks s) (calls s) (wire s) l (store s).

Definition set_store (h : H) s : GEnv B H := mkEnv (loop s) (sess s) (stasks s) (calls s) (wire s) (trace s) h.

Definition with_state (x : SessionState) (s : TcpSessionImpl B) : TcpSessionImpl B :=
  mkSession (event s) (socket s) (reading s) x (out_buffer s) (in_buffer s) (high_water_mark s)
    (write s) (high_water s) (read s) (connect s) (destroy s).
Definition with_reading (x : bool) (s : TcpSessionImpl B) : TcpSessionImpl B :=
  mkSession (event s) (socket s) x (state s) (out_buffer s) (in_buffer s) (high_water_mark s)
    (write s) (high_water s) (read s) (connect s) (destroy s).
Definition with_out (x : B) (s : TcpSessionImpl B) : TcpSessionImpl B :=
  mkSession (event s) (socket s) (reading s) (state s) x (in_buffer s) (high_water_mark s)
    (write s) (high_water s) (read s) (connect s) (destroy s).
Definition with_in (x : B) (s : TcpSessionImpl B) : TcpSessionImpl B :=
  mkSession (event s) (socket s) (reading s) (state s) (out_buffer s) x (high_water_mark s)
    (write s) (high_water s) (read s) (connect s) (destroy s).

(** [SetHighWaterMark], [SetReadCallback], [SetWriteCallback], [SetHighWaterCallback],
    [SetConnectCallback] and [SetDestroy]: a callback is named by the number it is called
    with. *)
Definition SetHighWaterMark (hwm : Z) (s : TcpSessionImpl B) : TcpSessionImpl B :=
  mkSession (event s) (socket s) (reading s) (state s) (out_buffer s) (in_buffer s) hwm
    (write s) (high_water s) (read s) (connect s) (destroy s).
Definition SetReadCallback (k : positive) (s : TcpSessionImpl B) : TcpSessionImpl B :=
  mkSession (event s) (socket s) (reading s) (state s) (out_buffer s) (in_buffer s) (high_water_mark s)
    (write s) (high_water s) (Some k) (connect s) (destroy s).
Definition SetWriteCallback (k : positive) (s : TcpSessionImpl B) : TcpSessionImpl B :=
  mkSession (event s) (socket s) (reading s) (state s) (out_buffer s) (in_buffer s) (high_water_mark s)
    (Some k) (high_water s) (read s) (connect s) (destroy s).
Definition SetHighWaterCallback (k : positive) (s : TcpSessionImpl B) : TcpSessionImpl B :=
  mkSession (event s) (socket s) (reading s) (state s) (out_buffer s) (in_buffer s) (high_water_mark s)
    (write s) (Some k) (read s) (connect s) (destroy s).
Definition SetConnectCallback (k : positive) (s : TcpSessionImpl B) : TcpSessionImpl B :=
  mkSession (event s) (socket s) (reading s) (state s) (out_buffer s) (in_buffer s) (high_water_mark s)
    (write s) (high_water s) (read s) (Some k) (destroy s).
Definition SetDestroy (k : positive) (s : TcpSessionImpl B) : TcpSessionImpl B :=
  mkSession (event s) (socket s) (reading s) (state s) (out_buffer s) (in_buffer s) (high_water_mark s)
    (write s) (high_water s) (read s) (connect s) (Some k).

Definition sget {A} (f : GEnv B H -> A) : ST (GEnv B H) A := fun s => Ok (f s, s).
Definition sput (f : GEnv B H -> GEnv B H) : ST (GEnv B H) unit := fun s => Ok (tt, f s).
Definition smod (f : TcpSessionImpl B -> TcpSessionImpl B) : ST (GEnv B H) unit :=
  sput (fun s => set_sess (f (sess s)) s).
Definition emit (o : Obs) : ST (GEnv B H) unit := sput (fun s => set_trace (trace s ++ [o]) s).

(** A call of the cycle or of the event, in the thread of the cycle. *)
Definition in_loop {A} (m : L A) : ST (GEnv B H) A := fun s =>
  match m (loop s) with
  | Ok (a, w) => Ok (a, set_loop w s)
  | Abort => Abort
  | Throw e => Throw e
  | UB => UB
  | NoFuel => NoFuel
  end.

(** A call of a buffer. *)
Definition in_store {A} (m : ST H A) : ST (GEnv B H) A := fun s =>
  match m (store s) with
  | Ok (a, h) => Ok (a, set_store h s)
  | Abort => Abort
  | Throw e => Throw e
  | UB => UB
  | NoFuel => NoFuel
  end.

Definition queue (t : STask B) : ST (GEnv B H) unit := sput (fun s => set_stasks (stasks s ++ [t]) s).
End state.

(** A session on byte sequences. *)
Abbreviation Env := (GEnv (list cell) unit).
Abbreviation SM := (ST Env).

(** The operations of a session. *)
Inductive op {B : Type} :=
  | OpCallback (events time : Z) | OpTask | OpShutdown | OpForceClose | OpStartRead | OpStopRead
  | OpAppend (b : B) | OpSend (b : list cell) | OpEstablished (p : positive).
Arguments op : clear implicits.

Section session.
Context {B H : Type} `{Hbuf : !BufferOps B H}.
#[local] Abbreviation SM := (ST (GEnv B H)).
Context (this : positive) (user_task : positive -> L unit).
Context `{Hbe : !ReactorOps}.
(** The callbacks of the user, and the function [SetDestroy] was given. *)
Context (user_connect : positive -> Z -> SM unit) (user_read : positive -> Z -> SM unit)
        (user_write user_high_water user_destroy : positive -> SM unit).
(** The [n]th system call: [readv] gives a result and bytes, [writev] is offered some
    bytes and gives a result, [shutdown] gives a result; [errno] at that point. *)
Context (sys_readv : nat -> Z * list cell) (sys_writev : nat -> list cell -> Z) (sys_shutdown errno : nat -> Z).

Definition SetState (x : SessionState) : SM unit := smod (with_state x).

(** [event->Reading()], [event->Writing()] *)
Definition Reading : SM bool :=
  s ← sget sess; o ← in_loop (obj (event s)); mret (Event_Reading o).
Definition Writing : SM bool :=
  s ← sget sess; o ← in_loop (obj (event s)); mret (Event_Writing o).

Definition event_EnableRead : SM unit := s ← sget sess; in_loop (EnableRead this user_task true (event s)).
Definition event_DisableRead : SM unit := s ← sget sess; in_loop (DisableRead this user_task true (event s)).
Definition event_EnableWrite : SM unit := s ← sget sess; in_loop (EnableWrite this user_task true (event s)).
Definition event_DisableWrite : SM unit := s ← sget sess; in_loop (DisableWrite this user_task true (event s)).
Definition event_Deactivate : SM unit := s ← sget sess; in_loop (Deactivate this user_task true (event s)).

(** [if (IMPL->connect) IMPL->connect(shared_from_this(), flag);] *)
Definition call_connect (flag : Z) : SM unit :=
  s ← sget sess;
  match connect s with
  | Some k => _ ← emit (ObsConnect flag); user_connect k flag
  | None => mret tt
  end.

(** [in_buffer.Read(Fd(), -1)]: the number of bytes, 0 for the end of the stream and for
    an error alike. *)
Definition in_buffer_Read : SM Z :=
  s ← sget (fun s => s);
  _ ← sput (set_calls (S (calls s)));
  r ← in_store (buf_Read (calls s) (sys_readv (calls s)) (in_buffer (sess s)));
  _ ← smod (with_in (snd r));
  mret (fst r).

(** [out_buffer.Write(Fd(), -1)]: no system call for an empty buffer. *)
Definition out_buffer_Write : SM Z :=
  s ← sget (fun s => s);
  _ ← (if buf_Size (out_buffer (sess s)) =? 0 then mret tt else sput (set_calls (S (calls s))));
  r ← in_store (buf_Write (sys_writev (calls s)) (out_buffer (sess s)));
  _ ← sput (set_wire (wire s ++ snd (fst r)));
  _ ← smod (with_out (snd r));
  mret (fst (fst r)).

Definition HandleClose : SM unit :=
  s ← sget sess;
  _ ← lift (hare_assert (bool_decide (state s = STATE_CONNECTED) || bool_decide (state s = STATE_DISCONNECTING)));
  _ ← SetState STATE_DISCONNECTED;
  _ ← event_DisableRead;
  _ ← event_DisableWrite;
  _ ← call_connect SESSION_CLOSED;
  _ ← event_Deactivate;
  s ← sget sess;
  match destroy s with
  | None => lift Abort
  | Some k => _ ← emit ObsDestroy; user_destroy k
  end.

Definition HandleError : SM unit := call_connect SESSION_ERROR.

Definition HandleRead (time : Z) : SM unit :=
  read_n ← in_buffer_Read;
  s ← sget sess;
  if read_n =? 0 then HandleClose
  else match read s with
       | Some k => if read_n >? 0 then _ ← emit ObsRead; user_read k time else HandleError
       | None => HandleError
       end.

(** [write_n] is unsigned: the branch for an error is never taken. *)
Definition HandleWrite : SM unit :=
  b ← Writing;
  if negb b then mret tt
  else
    write_n ← out_buffer_Write;
    if write_n >=? 0 then
      s ← sget sess;
      _ ← (if buf_Size (out_buffer s) =? 0 then _ ← event_DisableWrite; queue SWritten else mret tt);
      s ← sget sess;
      if bool_decide (state s = STATE_DISCONNECTING) then HandleClose else mret tt
    else mret tt.

Definition HandleCallback (events time : Z) : SM unit :=
  _ ← (if CHECK_EVENT events SESSION_READ then HandleRead time else mret tt);
  _ ← (if CHECK_EVENT events SESSION_WRITE then HandleWrite else mret tt);
  if CHECK_EVENT events SESSION_CLOSED then HandleClose else mret tt.

(** The tasks the session queues.  The buffer of [Append] and [Send] dies with its task. *)
Definition run_stask (t : STask B) : SM unit :=
  match t with
  | SAppend buffer =>
    s ← sget sess;
    let out_buffer_size := buf_Size (out_buffer s) in
    r ← in_store (buf_Append (out_buffer s) buffer);
    _ ← smod (with_out (fst r));
    _ ← (if out_buffer_size =? 0 then _ ← event_EnableWrite; HandleWrite
         else if (out_buffer_size >? high_water_mark s) && negb (high_water_mark s =? 0) then
           match high_water s with
           | Some k => _ ← emit ObsHighWater; user_high_water k
           | None => lift (Throw BadFunctionCall)
           end
         else mret tt);
    in_store (buf_dtor (snd r))
  | SWritten =>
    s ← sget sess;
    match write s with Some k => _ ← emit ObsWritten; user_write k | None => mret tt end
  end.

(** The cycle takes the oldest task of the session. *)
Definition run_next : SM unit :=
  s ← sget (fun s => s);
  match stasks s with
  | [] => mret tt
  | t :: l => _ ← sput (set_stasks l); run_stask t
  end.

Definition Shutdown : SM Error :=
  s ← sget (fun s => s);
  if bool_decide (state (sess s) = STATE_CONNECTED) then
    _ ← SetState STATE_DISCONNECTING;
    b ← Writing;
    if negb b then
      _ ← emit ObsShutdown;
      _ ← sput (set_calls (S (calls s)));
      mret (Socket_ShutdownWrite (sys_shutdown (calls s)) (errno (calls s)))
    else mret (Error_ctor ERROR_SOCKET_WRITING (errno (calls s)))
  else mret (Error_ctor ERROR_SESSION_ALREADY_DISCONNECT (errno (calls s))).

Definition ForceClose : SM Error :=
  s ← sget (fun s => s);
  if bool_decide (state (sess s) = STATE_CONNECTED) || bool_decide (state (sess s) = STATE_DISCONNECTING) then
    _ ← HandleClose;
    s ← sget (fun s => s);
    mret (Error_ctor ERROR_SUCCESS (errno (calls s)))
  else mret (Error_ctor ERROR_SESSION_ALREADY_DISCONNECT (errno (calls s))).

Definition StartRead : SM unit :=
  s ← sget sess; b ← Reading;
  if negb (reading s) || negb b then _ ← event_EnableRead; smod (with_reading true) else mret tt.

Definition StopRead : SM unit :=
  s ← sget sess; b ← Reading;
  if reading s || b then _ ← event_DisableRead; smod (with_reading false) else mret tt.

(** [Append] moves the bytes of the caller's buffer to a new one, [Send] copies them as far
    as [Buffer::Add] takes them. *)
Definition Append (buffer : B) : SM (bool * B) :=
  s ← sget sess;
  if bool_decide (state s = STATE_CONNECTED) then
    tmp ← in_store buf_new;
    r ← in_store (buf_Append tmp buffer);
    _ ← queue (SAppend (fst r));
    mret (true, snd r)
  else mret (false, buffer).

Definition Send (bytes : list cell) : SM bool :=
  s ← sget sess;
  if bool_decide (state s = STATE_CONNECTED) then
    tmp ← in_store buf_new;
    r ← in_store (buf_Add tmp bytes);
    _ ← queue (SAppend (snd r));
    mret true
  else mret false.

Definition ConnectEstablished (obj_id : positive) : SM unit :=
  s ← sget sess;
  _ ← lift (hare_assert (bool_decide (state s = STATE_CONNECTING)));
  _ ← SetState STATE_CONNECTED;
  _ ← call_connect SESSION_CONNECTED;
  s ← sget sess;
  o ← in_loop (obj (event s));
  _ ← in_loop (set_obj (event s) (Event_Tie o (Some (OwnUser obj_id))));
  _ ← in_loop (EventUpdate this user_task true (event s));
  event_EnableRead.

(** What the user and the cycle call, in any order. *)
Definition run_op (o : op B) : SM unit :=
  match o with
  | OpCallback ev t => HandleCallback ev t
  | OpTask => run_next
  | OpShutdown => _ ← Shutdown; mret tt
  | OpForceClose => _ ← ForceClose; mret tt
  | OpStartRead => StartRead
  | OpStopRead => StopRead
  | OpAppend b => _ ← Append b; mret tt
  | OpSend b => _ ← Send b; mret tt
  | OpEstablished p => ConnectEstablished p
  end.

Fixpoint run_ops (l : list (op B)) : SM unit :=
  match l with [] => mret tt | o :: l => _ ← run_op o; run_ops l end.

(** [delete impl_] of the destructor: the members go in the reverse order of their
    declaration. *)
Definition TcpSession_dtor : SM unit :=
  s ← sget sess;
  _ ← lift (hare_assert (bool_decide (state s = STATE_DISCONNECTED)));
  _ ← in_store (buf_dtor (in_buffer s));
  in_store (buf_dtor (out_buffer s)).
End session.

(** The constructor: a cycle that is not null, a new event object with the flags for reading
    and writing, and two buffers. *)
Definition TcpSession_ctor {B H} `{Hbuf : !BufferOps B H} (cb : positive) (fd : Z) (cycle : option World) (h : H) :
    outcome (TcpSessionImpl B * World * H) :=
  w ← CheckNotNull cycle;
  x ← new_obj (Event_ctor fd (CbUser cb) (Z.lor (Z.lor SESSION_READ SESSION_WRITE) EVENT_PERSIST) 0) w;
  y ← (o ← buf_new; i ← buf_new; mret (o, i)) h;
  let '((o, i), h) := y in
  Ok (mkSession (fst x) fd false STATE_CONNECTING o i DEFAULT_HIGH_WATER None None None None None, snd x, h).
