(* ===== verification/Texts.v ===== *)
(** * Texts for flags, operations and states.

    Sources: hare/base/io/event.cc, reactor/reactor_epoll.cc and reactor/reactor_poll.cc
    ([EventsToString], [EpollToString], [OperationToString]), hare/net/tcp/session.cc
    ([StateToString]).  [pretty] is the decimal text an output stream gives an integer. *)

From stdpp Require Import pretty.
From S2P Require Import Prelude EventLoop Session.

(** [if ((events & flag) != 0) oss << name;] *)
Definition flag_text (events flag : Z) (name : string) : string := if CHECK_EVENT events flag then name else "".

(** The part behind the descriptor. *)
Definition events_text (events : Z) : string :=
  if events =? EVENT_DEFAULT then "DEFAULT"
  else flag_text events EVENT_TIMEOUT "TIMEOUT " +:+ flag_text events EVENT_READ "READ " +:+
       flag_text events EVENT_WRITE "WRITE " +:+ flag_text events EVENT_PERSIST "PERSIST " +:+
       flag_text events EVENT_ET "ET " +:+ flag_text events EVENT_CLOSED "CLOSED ".

Definition EventsToString (fd events : Z) : string := pretty fd +:+ ": " +:+ events_text events.

Definition EventToString (o : EventImpl) : string := EventsToString (fd o) (events o).

(** The names of epoll and of poll are the same, and so are the values of their flags. *)
Definition EpollToString (ev : Z) : string :=
  flag_text ev EPOLLIN "IN " +:+ flag_text ev EPOLLPRI "PRI " +:+ flag_text ev EPOLLOUT "OUT " +:+
  flag_text ev EPOLLHUP "HUP " +:+ flag_text ev EPOLLRDHUP "RDHUP " +:+ flag_text ev EPOLLERR "ERR ".

Definition POLLPRI : Z := 0x002.
Definition PollToString (ev : Z) : string :=
  flag_text ev POLLIN "IN " +:+ flag_text ev POLLPRI "PRI " +:+ flag_text ev POLLOUT "OUT " +:+
  flag_text ev POLLHUP "HUP " +:+ flag_text ev POLLRDHUP "RDHUP " +:+ flag_text ev POLLERR "ERR ".

(** Any other operation is refused by [HARE_ASSERT]. *)
Definition OperationToString (op : Z) : outcome string :=
  if op =? EPOLL_CTL_ADD then Ok "ADD"
  else if op =? EPOLL_CTL_DEL then Ok "DEL"
  else if op =? EPOLL_CTL_MOD then Ok "MOD"
  else Abort.

Definition StateToString (x : SessionState) : string :=
  match x with
  | STATE_CONNECTING => "STATE_CONNECTING"
  | STATE_CONNECTED => "STATE_CONNECTED"
  | STATE_DISCONNECTING => "STATE_DISCONNECTING"
  | STATE_DISCONNECTED => "STATE_DISCONNECTED"
  end.

(** ** The texts tell their values apart *)

Lemma StateToString_inj : Inj (=) (=) StateToString.
Proof. by intros [] []. Qed.

(** The values the six flags of an event can have together. *)
Definition all_flags : list Z := Z.of_nat <$> seq 0 64.

Lemma elem_of_all_flags e : 0 <= e < 64 -> e ∈ all_flags.
Proof. intros He. apply list_elem_of_fmap. exists (Z.to_nat e). split; [lia|]. apply elem_of_seq. lia. Qed.

Lemma events_text_check : Forall (fun x => Forall (fun y => events_text x = events_text y -> x = y) all_flags) all_flags.
Proof. apply (bool_decide_unpack _). vm_compute. exact I. Qed.

(** The text of an event determines its flags. *)
Lemma EventsToString_flags fd e1 e2 :
  0 <= e1 < 64 -> 0 <= e2 < 64 -> EventsToString fd e1 = EventsToString fd e2 -> e1 = e2.
Proof.
  intros H1 H2 H. apply (inj (String.app (pretty fd))), (inj (String.app ": ")) in H. revert H.
  pose proof events_text_check as Hc. rewrite Forall_forall in Hc.
  specialize (Hc e1 (elem_of_all_flags e1 H1)). rewrite Forall_forall in Hc. exact (Hc e2 (elem_of_all_flags e2 H2)).
Qed.
