(* ===== verification/SessionSpec.v ===== *)
(** * What a TCP session promises.

    The life cycle of a session, the bytes it was given against the bytes on the wire, and
    the way it closes.  The life cycle and the byte stream are proved for any callbacks that
    keep them; the closing is proved with the epoll reactor, on top of the invariant of the
    event loop. *)

From S2P Require Import Prelude Cache EventLoop EventLoopSpec EventLoopFacts NetError Session.

(** ** The buffers as byte sequences *)

Lemma with_out_same {B} (x : TcpSessionImpl B) : with_out (out_buffer x) x = x.
Proof. by destruct x. Qed.
Lemma with_in_same {B} (x : TcpSessionImpl B) : with_in (in_buffer x) x = x.
Proof. by destruct x. Qed.

(** The state of a session on byte sequences has nothing in [store]. *)
Lemma set_store_same (s : Env) h : set_store h s = s.
Proof. destruct s as [? ? ? ? ? ? []], h. done. Qed.

Lemma in_store_ret {A} (a : A) (s : Env) : in_store (mret a) s = Ok (a, s).
Proof. unfold in_store. simpl. by rewrite set_store_same. Qed.

Lemma in_buffer_Read_bytes sys_readv (s : Env) :
  in_buffer_Read sys_readv s =
  let r := sys_readv (calls s) in
  if fst r <=? 0 then Ok (0, set_calls (S (calls s)) s)
  else Ok (fst r, set_sess (with_in (in_buffer (sess s) ++ snd r) (sess s)) (set_calls (S (calls s)) s)).
Proof.
  unfold in_buffer_Read. erewrite ST_bind_run by done. erewrite ST_bind_run by done.
  erewrite ST_bind_run by apply in_store_ret. unfold smod. simpl.
  destruct (_ <=? 0); erewrite ST_bind_run by done; simpl; [|done].
  rewrite with_in_same. by destruct s as [? ? ? ? ? ? []].
Qed.

Lemma out_buffer_Write_bytes sys_writev (s : Env) :
  out_buffer_Write sys_writev s =
  let out := out_buffer (sess s) in
  let r := sys_writev (calls s) out in
  if decide (out = []) then Ok (0, s)
  else if r <=? 0 then Ok (0, set_calls (S (calls s)) s)
  else Ok (r, set_sess (with_out (drop (Z.to_nat r) out) (sess s))
                (set_wire (wire s ++ take (Z.to_nat r) out) (set_calls (S (calls s)) s))).
Proof.
  unfold out_buffer_Write. erewrite ST_bind_run by done. cbv zeta.
  assert (Hsize : forall b : list cell, buf_Size b = 0 <-> b = []).
  { intros b. simpl. split; [apply Zlen_0_nil|by intros ->]. }
  destruct (decide (out_buffer (sess s) = [])) as [E|E].
  - rewrite (proj2 (Z.eqb_eq _ _)) by (by apply Hsize). erewrite ST_bind_run by done.
    erewrite ST_bind_run by apply in_store_ret. rewrite decide_True by done.
    unfold smod. erewrite ST_bind_run by done. erewrite ST_bind_run by done. simpl.
    rewrite with_out_same, app_nil_r. by destruct s as [? ? ? ? ? ? []].
  - rewrite (proj2 (Z.eqb_neq _ _)) by (by rewrite Hsize). erewrite ST_bind_run by done.
    erewrite ST_bind_run by apply in_store_ret. rewrite decide_False by done.
    unfold smod. destruct (_ <=? 0); erewrite ST_bind_run by done; erewrite ST_bind_run by done; simpl; [|done].
    rewrite with_out_same, app_nil_r. by destruct s as [? ? ? ? ? ? []].
Qed.

(** The same without the cases: [n] bytes go. *)
Lemma out_buffer_Write_count sys_writev (s : Env) :
  out_buffer_Write sys_writev s =
  let out := out_buffer (sess s) in
  let n := if decide (out = []) then 0 else Z.max 0 (sys_writev (calls s) out) in
  Ok (n, set_sess (with_out (drop (Z.to_nat n) out) (sess s))
           (set_wire (wire s ++ take (Z.to_nat n) out)
              (set_calls (if decide (out = []) then calls s else S (calls s)) s))).
Proof.
  rewrite out_buffer_Write_bytes. cbv zeta. destruct s as [lo se st ca wi tr []]. simpl. case_decide as E.
  - rewrite E. simpl. rewrite app_nil_r. unfold set_sess, set_wire, set_calls. simpl. rewrite <- E, with_out_same. done.
  - destruct (Z.leb_spec (sys_writev ca (out_buffer se)) 0).
    + rewrite Z.max_l by lia. simpl. rewrite app_nil_r, drop_0, with_out_same. done.
    + by rewrite Z.max_r by lia.
Qed.

Lemma in_buffer_Read_count sys_readv (s : Env) :
  Zlen (snd (sys_readv (calls s))) = Z.max 0 (fst (sys_readv (calls s))) ->
  in_buffer_Read sys_readv s =
  Ok (Z.max 0 (fst (sys_readv (calls s))),
      set_sess (with_in (in_buffer (sess s) ++ snd (sys_readv (calls s))) (sess s)) (set_calls (S (calls s)) s)).
Proof.
  intros Hr. rewrite in_buffer_Read_bytes. cbv zeta. destruct (Z.leb_spec (fst (sys_readv (calls s))) 0).
  - rewrite Z.max_l in * by lia. apply Zlen_0_nil in Hr. rewrite Hr, app_nil_r.
    destruct s as [lo se st ca wi tr []]. simpl. by rewrite with_in_same.
  - by rewrite Z.max_r by lia.
Qed.

Lemma Append_bytes b (s : Env) :
  Append b s = if bool_decide (state (sess s) = STATE_CONNECTED)
               then Ok ((true, []), set_stasks (stasks s ++ [SAppend b]) s) else Ok ((false, b), s).
Proof.
  unfold Append. erewrite ST_bind_run by done. case_bool_decide; [|done].
  erewrite ST_bind_run by apply in_store_ret. by erewrite ST_bind_run by apply in_store_ret.
Qed.

Lemma Send_bytes b (s : Env) :
  Send b s = if bool_decide (state (sess s) = STATE_CONNECTED)
             then Ok (true, set_stasks (stasks s ++ [SAppend (if Zlen b >? MAX_SIZE then [] else b)]) s)
             else Ok (false, s).
Proof.
  unfold Send. erewrite ST_bind_run by done. case_bool_decide; [|done].
  erewrite ST_bind_run by apply in_store_ret. erewrite ST_bind_run by apply in_store_ret.
  simpl. by destruct (_ >? _).
Qed.

(** ** A relation on the states that every operation respects *)

Section respects.
Context (R : Env -> Env -> Prop) `{Hrefl : !Reflexive R, Htrans : !Transitive R}.
#[local] Set Default Proof Using "Type*".

Definition respects {A} (m : SM A) : Prop := forall s a s', m s = Ok (a, s') -> R s s'.

Lemma respects_ret {A} (a : A) : respects (mret a).
Proof. intros s a' s' [= _ <-]. done. Qed.

Lemma respects_lift {A} (m : outcome A) : respects (lift m).
Proof. intros s a s' H. unfold lift in H. destruct m; simplify_eq. done. Qed.

Lemma respects_sget {A} (f : Env -> A) : respects (sget f).
Proof. intros s a s' [= _ <-]. done. Qed.

Lemma respects_bind {A B} (m : SM A) (f : A -> SM B) :
  respects m -> (forall a, respects (f a)) -> respects (m ≫= f).
Proof. intros Hm Hf s b s' (a & s1 & H1 & H2)%ST_bind_Ok. etrans; [by eapply Hm|by eapply Hf]. Qed.

Lemma respects_if {A} (b : bool) (m1 m2 : SM A) : respects m1 -> respects m2 -> respects (if b then m1 else m2).
Proof. by destruct b. Qed.

Lemma respects_option {A X} (o : option X) (f : X -> SM A) (m : SM A) :
  (forall x, respects (f x)) -> respects m -> respects (match o with Some x => f x | None => m end).
Proof. by destruct o. Qed.

(** The value a first [sget] reads is that of the state it starts in. *)
Lemma respects_get {A B} (f : Env -> A) (m : A -> SM B) :
  (forall s b s', m (f s) s = Ok (b, s') -> R s s') -> respects (sget f ≫= m).
Proof. intros Hm s b s' H. by apply Hm in H. Qed.

Lemma respects_in_store {A} (m : ST unit A) : respects (in_store m).
Proof.
  intros s a s' H. unfold in_store in H. destruct (m (store s)) as [[x h]| | | |]; simplify_eq.
  by rewrite set_store_same.
Qed.

Context (Hloop : forall s w, R s (set_loop w s)) (Hcalls : forall s n, R s (set_calls n s))
        (Htrace : forall s o, o <> ObsDestroy -> R s (set_trace (trace s ++ [o]) s)).

Lemma respects_in_loop {A} (m : L A) : respects (in_loop m).
Proof using Hloop. intros s a s' H. unfold in_loop in H. destruct (m (loop s)) as [[x w]| | | |]; simplify_eq. done. Qed.

Lemma respects_emit o : o <> ObsDestroy -> respects (emit o).
Proof using Htrace. intros Ho s a s' [= _ <-]. auto. Qed.

Lemma respects_calls n : respects (sput (set_calls n)).
Proof using Hcalls. intros s a s' [= _ <-]. done. Qed.
End respects.

Create HintDb sess.
#[export] Hint Resolve respects_ret respects_lift respects_sget respects_bind respects_if respects_option
  respects_in_store respects_in_loop respects_emit respects_calls : sess.
#[export] Hint Extern 1 (_ <> ObsDestroy) => discriminate : sess.

(** ** The life cycle *)

Definition rank (x : SessionState) : Z :=
  match x with
  | STATE_CONNECTING => 0 | STATE_CONNECTED => 1 | STATE_DISCONNECTING => 2 | STATE_DISCONNECTED => 3
  end.

(** The state of a session never goes back. *)
Definition forward (s s' : Env) : Prop := rank (state (sess s)) <= rank (state (sess s')).

#[export] Instance forward_refl : Reflexive forward.
Proof. intros s. unfold forward. lia. Qed.
#[export] Instance forward_trans : Transitive forward.
Proof. intros s1 s2 s3. unfold forward. lia. Qed.

(** ** The stream of bytes *)

Definition task_bytes (t : STask (list cell)) : list cell := match t with SAppend b => b | SWritten => [] end.

(** What has been accepted for sending: on the wire, in the buffer, in the queue. *)
Definition stream (s : Env) : list cell :=
  wire s ++ out_buffer (sess s) ++ concat (task_bytes <$> stasks s).

(** Accepted bytes stay, in their order, and what is on the wire stays on it. *)
Definition extends (s s' : Env) : Prop := stream s `prefix_of` stream s' /\ wire s `prefix_of` wire s'.

#[export] Instance extends_refl : Reflexive extends.
Proof. intros s. unfold extends. done. Qed.
#[export] Instance extends_trans : Transitive extends.
Proof. intros s1 s2 s3 [] []. split; by etrans. Qed.

Lemma extends_same s s' : stream s' = stream s -> wire s `prefix_of` wire s' -> extends s s'.
Proof. intros Hs Hw. split; [by rewrite Hs|done]. Qed.

Section any_callbacks.
Context (this : positive) (user_task : positive -> L unit).
Context `{Hbe : !ReactorOps}.
Context (user_connect : positive -> Z -> SM unit) (user_read : positive -> Z -> SM unit)
        (user_write user_high_water user_destroy : positive -> SM unit).
Context (sys_readv : nat -> Z * list cell) (sys_writev : nat -> list cell -> Z) (sys_shutdown errno : nat -> Z).

#[local] Abbreviation run_op :=
  (run_op this user_task user_connect user_read user_write user_high_water user_destroy
     sys_readv sys_writev sys_shutdown errno).
#[local] Abbreviation run_ops :=
  (run_ops this user_task user_connect user_read user_write user_high_water user_destroy
     sys_readv sys_writev sys_shutdown errno).

(** The end of a session, for a relation that its parts respect. *)
Section closing_relation.
Context (R : Env -> Env -> Prop) `{Hrefl : !Reflexive R, Htrans : !Transitive R}.
Context (Hloop : forall s w, R s (set_loop w s))
        (Htrace : forall s o, o <> ObsDestroy -> R s (set_trace (trace s ++ [o]) s)).
Context (Hconnect : forall k f, respects R (user_connect k f)).
#[local] Set Default Proof Using "Type*".

Lemma respects_call_connect f : respects R (call_connect user_connect f).
Proof.
  unfold call_connect. apply (respects_bind R); [auto with sess|]. intros s. apply (respects_option R); [|auto with sess].
  intros k. apply (respects_bind R); [by apply respects_emit|auto].
Qed.

Context (Hdestroy : forall k, respects R (user_destroy k)).
Context (Hended : forall s, R s (set_trace (trace s ++ [ObsDestroy]) s)).
Context (Hclosed : forall s, R s (set_sess (with_state STATE_DISCONNECTED (sess s)) s)).

Lemma respects_HandleClose : respects R (HandleClose this user_task user_connect user_destroy).
Proof.
  unfold HandleClose, event_DisableRead, event_DisableWrite, event_Deactivate.
  apply (respects_bind R); [auto with sess|]. intros s.
  apply (respects_bind R); [auto with sess|]. intros _.
  apply (respects_bind R); [by intros ? ? ? [= _ <-]|]. intros _.
  repeat (apply (respects_bind R); [eauto using respects_call_connect with sess|]; intros ?).
  apply (respects_option R); [|auto with sess]. intros k. apply (respects_bind R); [by intros ? ? ? [= _ <-]|auto].
Qed.
End closing_relation.

(** Every operation respects a relation that the primitive changes and [HandleClose] respect. *)
Section lift_relation.
Context (R : Env -> Env -> Prop) `{Hrefl : !Reflexive R, Htrans : !Transitive R}.
Context (Hloop : forall s w, R s (set_loop w s)) (Hcalls : forall s n, R s (set_calls n s))
        (Htrace : forall s o, o <> ObsDestroy -> R s (set_trace (trace s ++ [o]) s)).
Context (Hconnect : forall k f, respects R (user_connect k f)).
Context (Hclose : respects R (HandleClose this user_task user_connect user_destroy)).
#[local] Set Default Proof Using "All".

Lemma respects_Writing : respects R Writing.
Proof. unfold Writing. eauto 10 with sess. Qed.

(** What the write handler changes. *)
Context (Hout : forall s n, R s (set_sess (with_out (drop n (out_buffer (sess s))) (sess s))
                                   (set_wire (wire s ++ take n (out_buffer (sess s))) s))).
Context (Hwritten : forall s, R s (set_stasks (stasks s ++ [SWritten]) s)).

Lemma respects_out_Write : respects R (out_buffer_Write sys_writev).
Proof.
  intros s b s' H. rewrite out_buffer_Write_bytes in H. cbv zeta in H.
  destruct (decide (out_buffer (sess s) = [])); [by injection H as _ <-|].
  destruct (_ <=? 0); injection H as _ <-; [done|].
  etrans; [apply (Hcalls s (S (calls s)))|]. apply (Hout (set_calls (S (calls s)) s)).
Qed.

Lemma respects_queue_written : respects R (queue SWritten).
Proof. intros s a s' [= _ <-]. apply Hwritten. Qed.

Lemma respects_HandleWrite : respects R (HandleWrite this user_task user_connect user_destroy sys_writev).
Proof.
  unfold HandleWrite, event_DisableWrite. apply (respects_bind R); [apply respects_Writing|]. intros b.
  apply (respects_if R); [auto with sess|]. apply (respects_bind R); [apply respects_out_Write|]. intros n.
  apply (respects_if R); [|auto with sess]. apply (respects_bind R); [auto with sess|]. intros s.
  apply (respects_bind R); [ |].
  - apply (respects_if R); eauto 10 using respects_queue_written with sess.
  - intros _. apply (respects_bind R); [auto with sess|]. intros s1.
    apply (respects_if R); auto with sess.
Qed.

(** What a task of the session changes. *)
Context (Hwrite : forall k, respects R (user_write k)) (Hhigh : forall k, respects R (user_high_water k)).

Lemma respects_appended b s a s' :
  run_stask this user_task user_connect user_write user_high_water user_destroy sys_writev (SAppend b) s = Ok (a, s') ->
  R (set_sess (with_out (out_buffer (sess s) ++ b) (sess s)) s) s'.
Proof.
  unfold run_stask, event_EnableWrite. erewrite ST_bind_run by done. erewrite ST_bind_run by apply in_store_ret.
  unfold smod. erewrite ST_bind_run by done. apply (respects_bind R); [|auto with sess]. apply (respects_if R).
  - eauto 10 using respects_HandleWrite with sess.
  - apply (respects_if R); [|auto with sess]. apply (respects_option R); [|auto with sess].
    intros k. apply (respects_bind R); [by apply respects_emit|auto].
Qed.

Lemma respects_written :
  respects R (run_stask this user_task user_connect user_write user_high_water user_destroy sys_writev SWritten).
Proof.
  unfold run_stask. apply (respects_bind R); [auto with sess|]. intros s. apply (respects_option R); [|auto with sess].
  intros k. apply (respects_bind R); [by apply respects_emit|auto].
Qed.

(** What calls of the user change that neither read nor queue bytes. *)
Context (Hreading : forall s b, R s (set_sess (with_reading b (sess s)) s)).
Context (Hclosing : forall s, state (sess s) = STATE_CONNECTED ->
           R s (set_sess (with_state STATE_DISCONNECTING (sess s)) s))
        (Hconnected : forall s, state (sess s) = STATE_CONNECTING ->
           R s (set_sess (with_state STATE_CONNECTED (sess s)) s)).

(** The operations that neither take a task, nor read, nor are given bytes. *)
Definition still (o : op (list cell)) : Prop :=
  match o with OpTask | OpCallback _ _ | OpAppend _ | OpSend _ => False | _ => True end.

Lemma respects_still o : still o -> respects R (run_op o).
Proof.
  destruct o as [ev t| | | | | |b|b|p]; simpl; try (by intros []); intros _.
  - apply (respects_bind R); [ |auto with sess]. unfold Shutdown. apply (respects_get R). intros s e s' H.
    case_bool_decide as Hs; [|by injection H as _ <-].
    unfold SetState, smod, sput in H. unfold mbind at 1, ST_bind at 1 in H.
    etrans; [by apply (Hclosing s)|]. revert H. apply (respects_bind R); [apply respects_Writing|]. intros w.
    apply (respects_if R); eauto 10 with sess.
  - apply (respects_bind R); [ |auto with sess]. unfold ForceClose. apply (respects_bind R); [auto with sess|]. intros s.
    apply (respects_if R); eauto 10 with sess.
  - unfold StartRead, Reading, event_EnableRead, smod. apply (respects_bind R); [auto with sess|]. intros s.
    apply (respects_bind R); [eauto 10 with sess|]. intros w. apply (respects_if R); [|auto with sess].
    apply (respects_bind R); [eauto with sess|]. by intros _ ? ? ? [= _ <-].
  - unfold StopRead, Reading, event_DisableRead, smod. apply (respects_bind R); [auto with sess|]. intros s.
    apply (respects_bind R); [eauto 10 with sess|]. intros w. apply (respects_if R); [|auto with sess].
    apply (respects_bind R); [eauto with sess|]. by intros _ ? ? ? [= _ <-].
  - unfold ConnectEstablished, event_EnableRead. apply (respects_get R). intros s u s' H.
    apply ST_bind_Ok in H as (u1 & s1 & H1 & H). unfold lift, hare_assert in H1.
    case_bool_decide as Hs; simplify_eq. unfold SetState, smod, sput in H. unfold mbind at 1, ST_bind at 1 in H.
    etrans; [by apply (Hconnected s1)|]. revert H. apply (respects_bind R); [by apply respects_call_connect|]. intros _.
    eauto 15 with sess.
Qed.

Section taking.
Context (Htake : forall s b l, stasks s = SAppend b :: l ->
           R s (set_sess (with_out (out_buffer (sess s) ++ b) (sess s)) (set_stasks l s)))
        (Hdone : forall s l, stasks s = SWritten :: l -> R s (set_stasks l s)).

Lemma respects_run_next :
  respects R (run_next this user_task user_connect user_write user_high_water user_destroy sys_writev).
Proof.
  unfold run_next. apply (respects_get R). intros s b s' H. destruct (stasks s) as [|[buf|] l] eqn:E.
  - by injection H as _ <-.
  - erewrite ST_bind_run in H by done. etrans; [by apply (Htake s buf l)|]. by apply respects_appended in H.
  - erewrite ST_bind_run in H by done. etrans; [by apply (Hdone s l)|]. by apply respects_written in H.
Qed.

(** The operations that neither read nor are given bytes. *)
Definition quiet (o : op (list cell)) : Prop :=
  match o with OpCallback _ _ | OpAppend _ | OpSend _ => False | _ => True end.

Lemma respects_quiet o : quiet o -> respects R (run_op o).
Proof. destruct o; intros Ho; try done; try (by apply respects_still). apply respects_run_next. Qed.
End taking.

(** Reading and queueing bytes. *)
Context (Hread : forall k t, respects R (user_read k t)) (Hin : forall s l, R s (set_sess (with_in l (sess s)) s)).
Context (Hqueue : forall s t, R s (set_stasks (stasks s ++ [t]) s)).

Lemma respects_queue t : respects R (queue t).
Proof. intros s a s' [= _ <-]. done. Qed.

Lemma respects_HandleRead t :
  respects R (HandleRead this user_task user_connect user_read user_destroy sys_readv t).
Proof.
  unfold HandleRead, HandleError. apply (respects_bind R); [ |].
  - intros s b s' H. rewrite in_buffer_Read_bytes in H. cbv zeta in H.
    destruct (_ <=? 0); injection H as _ <-; [done|].
    etrans; [apply (Hcalls s (S (calls s)))|]. apply (Hin (set_calls (S (calls s)) s)).
  - intros n. apply (respects_bind R); [auto with sess|]. intros s.
    apply (respects_if R); [done|].
    apply (respects_option R); [|by apply respects_call_connect]. intros k. apply (respects_if R); [|by apply respects_call_connect].
    eauto with sess.
Qed.

Lemma respects_wake ev t : respects R (run_op (OpCallback ev t)).
Proof.
  simpl. unfold HandleCallback. repeat (apply (respects_bind R); [ |intros _]); apply (respects_if R);
    auto using respects_HandleRead, respects_HandleWrite with sess.
Qed.

Context (Htake : forall s b l, stasks s = SAppend b :: l ->
           R s (set_sess (with_out (out_buffer (sess s) ++ b) (sess s)) (set_stasks l s)))
        (Hdone : forall s l, stasks s = SWritten :: l -> R s (set_stasks l s)).

Lemma respects_op o : respects R (run_op o).
Proof.
  destruct o as [ev t| | | | | |b|b|p] eqn:E; try by apply respects_quiet.
  - apply respects_wake.
  - apply (respects_bind R); [|auto with sess]. intros s x s' H. rewrite Append_bytes in H.
    case_bool_decide; by simplify_eq.
  - apply (respects_bind R); [|auto with sess]. intros s x s' H. rewrite Send_bytes in H.
    case_bool_decide; by simplify_eq.
Qed.

Lemma respects_ops l : respects R (run_ops l).
Proof.
  induction l as [|o l IH]; simpl; [auto with sess|]. apply (respects_bind R); [apply respects_op|done].
Qed.
End lift_relation.

(** No operation takes the state back, whatever the callbacks do to it. *)
Lemma forward_ops l :
  (forall k f, respects forward (user_connect k f)) -> (forall k t, respects forward (user_read k t)) ->
  (forall k, respects forward (user_write k)) -> (forall k, respects forward (user_high_water k)) ->
  (forall k, respects forward (user_destroy k)) -> respects forward (run_ops l).
Proof.
  intros. apply respects_ops; try done; try apply _; try (unfold forward; simpl; intros; lia).
  - apply respects_HandleClose; try done; try apply _; unfold forward; simpl; intros; try lia.
    destruct (state (sess s)); simpl; lia.
  - intros s Hx. unfold forward. simpl. by rewrite Hx.
  - intros s Hx. unfold forward. simpl. by rewrite Hx.
Qed.

(** No operation loses, repeats or reorders bytes that were accepted. *)
Lemma extends_ops l :
  (forall k f, respects extends (user_connect k f)) -> (forall k t, respects extends (user_read k t)) ->
  (forall k, respects extends (user_write k)) -> (forall k, respects extends (user_high_water k)) ->
  (forall k, respects extends (user_destroy k)) -> respects extends (run_ops l).
Proof.
  intros. apply respects_ops; try done; try apply _;
    [apply respects_HandleClose; try done; try apply _; intros; by apply extends_same|..];
    intros; try by apply extends_same.
  - apply extends_same; unfold stream; simpl; [|by apply prefix_app_r].
    rewrite <- (assoc_L (++)), (assoc_L (++) (take _ _)). by rewrite take_drop.
  - split; [|done]. unfold stream. simpl. rewrite fmap_app, concat_app, !(assoc_L (++)). by apply prefix_app_r.
  - split; [|done]. unfold stream. simpl. rewrite fmap_app, concat_app, !(assoc_L (++)). by apply prefix_app_r.
  - apply extends_same; [|done]. unfold stream. simpl.
    match goal with Hx : stasks _ = _ |- _ => rewrite Hx end. simpl. by rewrite !(assoc_L (++)).
  - apply extends_same; [|done]. unfold stream. simpl.
    by match goal with Hx : stasks _ = _ |- _ => rewrite Hx end.
Qed.
End any_callbacks.

(** [Send] and [Append] on a connected session accept all bytes, on any other none. *)
Lemma Send_spec b s :
  Zlen b <= MAX_SIZE ->
  exists r s', Send b s = Ok (r, s') /\ r = bool_decide (state (sess s) = STATE_CONNECTED) /\
    stream s' = (if r then stream s ++ b else stream s).
Proof.
  intros Hb. rewrite Send_bytes. case_bool_decide as Hs.
  - eexists _, _. split_and!; [done|done|].
    unfold stream. simpl. rewrite Z.gtb_ltb, (proj2 (Z.ltb_ge _ _)) by done.
    rewrite fmap_app, concat_app. simpl. by rewrite app_nil_r, !(assoc_L (++)).
  - eexists _, _. by split_and!.
Qed.

Lemma Append_spec b s :
  exists r s', Append b s = Ok (r, s') /\ fst r = bool_decide (state (sess s) = STATE_CONNECTED) /\
    stream s' ++ snd r = stream s ++ b.
Proof.
  rewrite Append_bytes. case_bool_decide as Hs.
  - eexists _, _. split_and!; [done|done|]. unfold stream. simpl.
    rewrite fmap_app, concat_app. simpl. by rewrite !app_nil_r, !(assoc_L (++)).
  - eexists _, _. by split_and!.
Qed.

(** ** Closing *)

Lemma in_loop_run {B H A} (m : L A) (s : GEnv B H) a w : m (loop s) = Ok (a, w) -> in_loop m s = Ok (a, set_loop w s).
Proof. unfold in_loop. by intros ->. Qed.

(** A callback that returns, and at most queues more tasks. *)
Definition calm (m : SM unit) : Prop := forall s, exists q, m s = Ok (tt, set_stasks (stasks s ++ q) s).

Section closing.
Context (this : positive) (user_task : positive -> L unit) (epoll_ctl : Z -> Z -> Z -> bool).
Context (user_connect : positive -> Z -> SM unit) (user_read : positive -> Z -> SM unit)
        (user_write user_high_water user_destroy : positive -> SM unit).
Context (sys_readv : nat -> Z * list cell) (sys_writev : nat -> list cell -> Z).

Abbreviation be := (EpollBackend epoll_ctl).
Abbreviation HandleClose := (HandleClose this user_task (Hbe := be) user_connect user_destroy).
Abbreviation HandleWrite := (HandleWrite this user_task (Hbe := be) user_connect user_destroy sys_writev).
Abbreviation HandleRead := (HandleRead this user_task (Hbe := be) user_connect user_read user_destroy sys_readv).
Abbreviation HandleCallback :=
  (HandleCallback this user_task (Hbe := be) user_connect user_read user_destroy sys_readv sys_writev).

(** The session's event is in the reactor. *)
Definition registered_session (s : Env) (o : EventImpl) : Prop := io_event this (loop s) (event (sess s)) o.

Record closed_from (s : Env) (o : EventImpl) (s1 : Env) : Prop := {
  cf_state : state (sess s1) = STATE_DISCONNECTED;
  cf_event : event (sess s1) = event (sess s);
  cf_out : out_buffer (sess s1) = out_buffer (sess s) /\ wire s1 = wire s;
  cf_trace : trace s1 = trace s ++ [ObsConnect SESSION_CLOSED; ObsDestroy];
  cf_inv : Inv this (loop s1);
  cf_maps : events_ (reactor (loop s1)) = delete (id o) (events_ (reactor (loop s))) /\
            inverse_map_ (reactor (loop s1)) = delete (fd o) (inverse_map_ (reactor (loop s)));
  cf_obj : exists o', objs (loop s1) !! event (sess s1) = Some o' /\ cycle o' = None /\
             Event_Reading o' = false /\ Event_Writing o' = false
}.

Lemma HandleClose_twice s :
  state (sess s) = STATE_DISCONNECTED \/ state (sess s) = STATE_CONNECTING -> HandleClose s = Abort.
Proof.
  intros Hs. unfold Session.HandleClose. erewrite ST_bind_run by done.
  unfold mbind at 1, ST_bind at 1. simpl. by destruct Hs as [-> | ->].
Qed.

Lemma clear_rw f : f = (fun v => CLEAR_EVENT v EVENT_READ) \/ f = (fun v => CLEAR_EVENT v EVENT_WRITE) -> rw_change f.
Proof. intros [-> | ->]; [exists EVENT_READ|exists EVENT_WRITE]; (split; [by auto|by right]). Qed.

Lemma HandleClose_spec s o kc kd :
  registered_session s o -> state (sess s) = STATE_CONNECTED \/ state (sess s) = STATE_DISCONNECTING ->
  connect (sess s) = Some kc -> destroy (sess s) = Some kd -> calm (user_connect kc SESSION_CLOSED) ->
  exists s1, HandleClose s = user_destroy kd s1 /\ closed_from s o s1.
Proof.
  intros Hio Hst Hkc Hkd Hcalm.
  pose proof (clear_rw _ (or_introl eq_refl)) as Hr. pose proof (clear_rw _ (or_intror eq_refl)) as Hw.
  pose proof (Event_change_active this epoll_ctl user_task _ _ _ _ Hr Hio) as H1.
  pose proof (io_event_flags this _ _ _ _ Hr Hio) as Hio1.
  pose proof (Event_change_active this epoll_ctl user_task _ _ _ _ Hw Hio1) as H2.
  pose proof (io_event_flags this _ _ _ _ Hw Hio1) as Hio2.
  destruct (Deactivate_active this epoll_ctl user_task _ _ _ Hio2) as [H3 Hinv3].
  unfold Session.HandleClose. erewrite ST_bind_run by done.
  rewrite (ST_bind_run _ _ s tt s) by (apply lift_run; by destruct Hst as [-> | ->]).
  erewrite ST_bind_run by done.
  erewrite ST_bind_run; [|unfold event_DisableRead; erewrite ST_bind_run by done; apply in_loop_run; exact H1].
  erewrite ST_bind_run; [|unfold event_DisableWrite; erewrite ST_bind_run by done; apply in_loop_run; exact H2].
  match goal with |- exists s1, (_ ≫= _) ?x = _ /\ _ =>
    destruct (Hcalm (set_trace (trace x ++ [ObsConnect SESSION_CLOSED]) x)) as (q & Hq) end.
  erewrite ST_bind_run; [|unfold call_connect; erewrite ST_bind_run by done; simpl; rewrite Hkc;
                          erewrite ST_bind_run by done; exact Hq].
  erewrite ST_bind_run; [|unfold event_Deactivate; erewrite ST_bind_run by done; apply in_loop_run; exact H3].
  erewrite ST_bind_run by done. simpl. rewrite Hkd. erewrite ST_bind_run by done.
  eexists. split; [done|]. split; simpl; try done.
  - by rewrite <- (assoc_L (++)).
  - eexists. rewrite lookup_insert_eq. split_and!; try done; unfold Event_Reading, Event_Writing; simpl.
    + change EVENT_READ with (2 ^ 1). change EVENT_WRITE with (2 ^ 2). rewrite !check_clear by lia. simpl.
      by rewrite andb_false_r.
    + change EVENT_READ with (2 ^ 1). change EVENT_WRITE with (2 ^ 2). rewrite !check_clear by lia. simpl.
      by rewrite andb_false_r.
Qed.

(** The end of the stream, and any error of [readv] (a spurious wake-up with EAGAIN too),
    closes the session. *)
Lemma HandleRead_end s o kc kd t :
  registered_session s o -> state (sess s) = STATE_CONNECTED \/ state (sess s) = STATE_DISCONNECTING ->
  connect (sess s) = Some kc -> destroy (sess s) = Some kd -> calm (user_connect kc SESSION_CLOSED) ->
  fst (sys_readv (calls s)) <= 0 ->
  exists s1, HandleRead t s = user_destroy kd s1 /\ closed_from s o s1.
Proof.
  intros Hio Hst Hkc Hkd Hcalm Hr. unfold Session.HandleRead.
  rewrite (ST_bind_run _ _ s 0 (set_calls (S (calls s)) s)).
  - destruct (HandleClose_spec (set_calls (S (calls s)) s) o kc kd) as (s1 & Hrun & [A B C D E F G]); try done.
    exists s1. by split.
  - rewrite in_buffer_Read_bytes. cbv zeta. by rewrite (proj2 (Z.leb_le _ _)).
Qed.

(** A wake-up for reading at the end of the stream, with or without one for writing: closed
    once, and the write handler does nothing more. *)
Lemma HandleCallback_end s o kc kd ev t :
  registered_session s o -> state (sess s) = STATE_CONNECTED \/ state (sess s) = STATE_DISCONNECTING ->
  connect (sess s) = Some kc -> destroy (sess s) = Some kd -> calm (user_connect kc SESSION_CLOSED) ->
  calm (user_destroy kd) -> fst (sys_readv (calls s)) <= 0 ->
  CHECK_EVENT ev SESSION_READ = true -> CHECK_EVENT ev SESSION_CLOSED = false ->
  exists s', HandleCallback ev t s = Ok (tt, s') /\ closed_from s o s'.
Proof.
  intros Hio Hst Hkc Hkd Hcalm Hcalmd Hr He1 He2.
  destruct (HandleRead_end s o kc kd t) as (s1 & Hrun & [A B C D E F G]); try done.
  destruct (Hcalmd s1) as (q & Hq). rewrite Hq in Hrun.
  exists (set_stasks (stasks s1 ++ q) s1). split; [|by split].
  unfold Session.HandleCallback. rewrite He1, He2. rewrite (ST_bind_run _ _ s tt (set_stasks (stasks s1 ++ q) s1)) by exact Hrun.
  destruct G as (o' & Ho' & Hc & Hrd & Hwr).
  erewrite ST_bind_run; [done|]. destruct (CHECK_EVENT ev SESSION_WRITE); [|done]. unfold Session.HandleWrite.
  rewrite (ST_bind_run _ _ _ false (set_stasks (stasks s1 ++ q) s1)); [done|].
  unfold Writing. erewrite ST_bind_run by done.
  erewrite ST_bind_run; [|apply in_loop_run; unfold obj; simpl; by rewrite Ho'].
  unfold mret, ST_ret. rewrite Hwr. by destruct s1.
Qed.

(** The conditions of epoll that a socket at the end of its stream reports: an error, a
    hang-up, or that it is readable; [EPOLLRDHUP] has to be asked for, which the reactor does
    not do. *)
Definition end_reported (ev : Z) : Prop :=
  CHECK_EVENT ev EPOLLERR = true \/
  CHECK_EVENT ev EPOLLRDHUP = false /\ (CHECK_EVENT ev EPOLLHUP = true \/ CHECK_EVENT ev EPOLLIN = true).

Lemma EncodeEpoll_end ev :
  end_reported ev -> CHECK_EVENT (EncodeEpoll ev) SESSION_READ = true /\ CHECK_EVENT (EncodeEpoll ev) SESSION_CLOSED = false.
Proof.
  unfold end_reported, EncodeEpoll.
  destruct (CHECK_EVENT ev EPOLLERR), (CHECK_EVENT ev EPOLLRDHUP), (CHECK_EVENT ev EPOLLHUP), (CHECK_EVENT ev EPOLLIN),
    (CHECK_EVENT ev EPOLLOUT); intros [Hx|[Hx [Hy|Hy]]]; try discriminate Hx; try discriminate Hy; split; reflexivity.
Qed.

Lemma Writing_run s o :
  registered_session s o -> Writing s = Ok (Event_Writing o, s).
Proof.
  intros [Hi (Ho & _) Hfd Hto]. unfold Writing. erewrite ST_bind_run by done.
  erewrite ST_bind_run; [|apply in_loop_run; unfold obj; by rewrite Ho]. by destruct s.
Qed.

(** Bytes that the socket does not take yet are lost when the session is being shut down:
    the write handler closes it with the bytes still in the buffer. *)
Lemma HandleWrite_drops s o kc kd :
  registered_session s o -> Event_Writing o = true -> state (sess s) = STATE_DISCONNECTING ->
  connect (sess s) = Some kc -> destroy (sess s) = Some kd -> calm (user_connect kc SESSION_CLOSED) ->
  out_buffer (sess s) <> [] -> sys_writev (calls s) (out_buffer (sess s)) <= 0 ->
  exists s1, HandleWrite s = user_destroy kd s1 /\ closed_from s o s1 /\ out_buffer (sess s1) <> [].
Proof.
  intros Hio Hwr Hst Hkc Hkd Hcalm Hout Hr. unfold Session.HandleWrite.
  rewrite (ST_bind_run _ _ s true s) by (rewrite (Writing_run s o) by done; by rewrite Hwr). simpl.
  rewrite (ST_bind_run _ _ s 0 (set_calls (S (calls s)) s)).
  2:{ rewrite out_buffer_Write_bytes. cbv zeta. rewrite decide_False by done. by rewrite (proj2 (Z.leb_le _ _)). }
  simpl. erewrite ST_bind_run by done. simpl.
  rewrite (proj2 (Z.eqb_neq _ _)).
  2:{ destruct (out_buffer (sess s)); [done|]. unfold Zlen. simpl. lia. }
  erewrite ST_bind_run by done. erewrite ST_bind_run by done. simpl. rewrite Hst. simpl.
  destruct (HandleClose_spec (set_calls (S (calls s)) s) o kc kd) as (s1 & Hrun & [A B C D E F G]); try done; [by right|].
  exists s1. split; [done|]. split; [by split|]. destruct C as [C _]. rewrite C. done.
Qed.

(** A writable session that is connected sends what the socket takes; when that is
    everything, it stops watching for writability and queues the write callback. *)
Lemma HandleWrite_sends s o :
  registered_session s o -> Event_Writing o = true -> state (sess s) = STATE_CONNECTED ->
  out_buffer (sess s) <> [] -> 0 < sys_writev (calls s) (out_buffer (sess s)) <= Zlen (out_buffer (sess s)) ->
  let r := sys_writev (calls s) (out_buffer (sess s)) in
  exists s' o', HandleWrite s = Ok (tt, s') /\
    wire s' = wire s ++ take (Z.to_nat r) (out_buffer (sess s)) /\
    out_buffer (sess s') = drop (Z.to_nat r) (out_buffer (sess s)) /\ state (sess s') = STATE_CONNECTED /\
    registered_session s' o' /\ Event_Writing o' = negb (r =? Zlen (out_buffer (sess s))) /\
    stasks s' = stasks s ++ (if r =? Zlen (out_buffer (sess s)) then [SWritten] else []).
Proof.
  intros Hio Hwr Hst Hout Hr r. unfold Session.HandleWrite.
  rewrite (ST_bind_run _ _ s true s) by (rewrite (Writing_run s o) by done; by rewrite Hwr). simpl.
  set (s1 := set_sess (with_out (drop (Z.to_nat r) (out_buffer (sess s))) (sess s))
               (set_wire (wire s ++ take (Z.to_nat r) (out_buffer (sess s))) (set_calls (S (calls s)) s))).
  rewrite (ST_bind_run _ _ s r s1).
  2:{ rewrite out_buffer_Write_bytes. cbv zeta. rewrite decide_False by done.
      rewrite (proj2 (Z.leb_gt _ _)) by lia. done. }
  rewrite Z.geb_leb, (proj2 (Z.leb_le _ _)) by lia. erewrite ST_bind_run by done.
  assert (Hlen : Zlen (out_buffer (sess s1)) = Zlen (out_buffer (sess s)) - r).
  { simpl. unfold Zlen in *. rewrite length_drop. lia. }
  assert (Hio1 : registered_session s1 o) by done.
  destruct (Z.eqb_spec r (Zlen (out_buffer (sess s)))) as [Hall|Hpart].
  - rewrite (proj2 (Z.eqb_eq _ _)) by lia.
    pose proof (clear_rw _ (or_intror eq_refl)) as Hw.
    pose proof (Event_change_active this epoll_ctl user_task _ _ _ _ Hw Hio1) as H1.
    pose proof (io_event_flags this _ _ _ _ Hw Hio1) as Hio2.
    erewrite ST_bind_run.
    2:{ erewrite ST_bind_run; [|unfold event_DisableWrite; erewrite ST_bind_run by done; apply in_loop_run; exact H1]. done. }
    erewrite ST_bind_run by done. simpl. rewrite Hst. simpl.
    eexists _, _. split_and!; [done|done|done|done|exact Hio2| |done].
    unfold Event_Writing. simpl. change EVENT_WRITE with (2 ^ 2). rewrite check_clear by lia. apply andb_false_r.
  - rewrite (proj2 (Z.eqb_neq _ _)) by lia. erewrite ST_bind_run by done. erewrite ST_bind_run by done. simpl.
    rewrite Hst. simpl. exists s1, o. rewrite app_nil_r. by split_and!.
Qed.
End closing.

(** A task that finds more than the high-water mark in the buffer calls the high-water
    callback without looking whether there is one. *)
Lemma high_water_unset this user_task `{Hbe : !ReactorOps} user_connect user_write user_high_water user_destroy sys_writev s b l :
  stasks s = SAppend b :: l -> high_water (sess s) = None -> 0 < high_water_mark (sess s) ->
  high_water_mark (sess s) < Zlen (out_buffer (sess s)) ->
  run_next this user_task user_connect user_write user_high_water user_destroy sys_writev s = Throw BadFunctionCall.
Proof.
  intros Hs Hh Hm Hlen. unfold run_next. erewrite ST_bind_run by done. rewrite Hs.
  erewrite ST_bind_run by done. unfold run_stask. erewrite ST_bind_run by done.
  erewrite ST_bind_run by apply in_store_ret. unfold smod. erewrite ST_bind_run by done. simpl.
  unfold mbind at 1, ST_bind at 1.
  rewrite (proj2 (Z.eqb_neq _ _)) by lia. rewrite Z.gtb_ltb, (proj2 (Z.ltb_lt _ _)) by done.
  rewrite (proj2 (Z.eqb_neq _ _)) by lia. simpl. by rewrite Hh.
Qed.
