(* ===== verification/Echo.v ===== *)
(** * The echo server.

    Source: samples/echo/echo_serve.cc.

    The callbacks [NewSession] gives to a session, as code on the state of Session.v, and
    what follows for a session that has them: it sends back what it has received.  The
    records the callbacks write to the log are a function of what the session reports
    ([echo_records]); the logger is the subject of Log.v. *)

From S2P Require Import Prelude Cache EventLoop EventLoopSpec EventLoopFacts NetError Session SessionSpec.

(** ** The callbacks *)

Inductive EchoRecord := RecConnected | RecDisconnected | RecOffline.

(** What the connect and the high-water callback log. *)
Definition echo_records (o : Obs) : list EchoRecord :=
  match o with
  | ObsConnect flag =>
    (if CHECK_EVENT flag SESSION_CONNECTED then [RecConnected] else []) ++
    (if CHECK_EVENT flag SESSION_CLOSED then [RecDisconnected] else [])
  | ObsHighWater => [RecOffline]
  | _ => []
  end.

(** [NewSession]: the four callbacks, by number. *)
Definition Echo_NewSession {B} (ses : TcpSessionImpl B) : TcpSessionImpl B :=
  SetHighWaterCallback 4 (SetWriteCallback 3 (SetReadCallback 2 (SetConnectCallback 1 ses))).

Section callbacks.
Context {B H : Type} `{Hbuf : !BufferOps B H}.
#[local] Abbreviation SM := (ST (GEnv B H)).
Context (this : positive) (user_task : positive -> L unit).
Context `{Hbe : !ReactorOps}.
Context (user_destroy : positive -> SM unit).
Context (sys_readv : nat -> Z * list cell) (sys_writev : nat -> list cell -> Z) (sys_shutdown errno : nat -> Z).

Definition echo_connect (k : positive) (flag : Z) : SM unit := mret tt.

(** [_session->Append(_buffer)], where [_buffer] is the in-buffer of the session. *)
Definition echo_read (k : positive) (time : Z) : SM unit :=
  s ← sget sess;
  r ← Append (in_buffer s);
  smod (with_in (snd r)).

Definition echo_write (k : positive) : SM unit := mret tt.

Definition echo_high_water (k : positive) : SM unit :=
  _ ← ForceClose this user_task echo_connect user_destroy errno; mret tt.

(** An operation on a session of the server, and a sequence of them. *)
Definition echo_op (o : op B) : SM unit :=
  run_op this user_task echo_connect echo_read echo_write echo_high_water user_destroy
    sys_readv sys_writev sys_shutdown errno o.
Definition echo_ops (l : list (op B)) : SM unit :=
  run_ops this user_task echo_connect echo_read echo_write echo_high_water user_destroy
    sys_readv sys_writev sys_shutdown errno l.
End callbacks.

Section echo.
Context (this : positive) (user_task : positive -> L unit).
Context `{Hbe : !ReactorOps}.
Context (user_destroy : positive -> SM unit).
Context (sys_readv : nat -> Z * list cell) (sys_writev : nat -> list cell -> Z) (sys_shutdown errno : nat -> Z).

#[local] Abbreviation echo_op := (echo_op this user_task user_destroy sys_readv sys_writev sys_shutdown errno).
#[local] Abbreviation echo_ops := (echo_ops this user_task user_destroy sys_readv sys_writev sys_shutdown errno).

(** The bytes an operation reads from the socket, and those a sequence of operations reads. *)
Definition received_by (o : op (list cell)) (s : Env) : list cell :=
  match o with
  | OpCallback ev _ =>
    let r := sys_readv (calls s) in
    if CHECK_EVENT ev SESSION_READ && (0 <? fst r) then snd r else []
  | _ => []
  end.

Fixpoint received (l : list (op (list cell))) (s : Env) : list cell :=
  match l with
  | [] => []
  | o :: l => received_by o s ++ match echo_op o s with Ok (_, s1) => received l s1 | _ => [] end
  end.

(** The server gives a session no bytes of its own. *)
Definition no_send {B} (o : op B) : Prop := match o with OpAppend _ | OpSend _ => False | _ => True end.

(** ** What is received is sent back *)

Definition total (s : Env) : list cell := stream s ++ in_buffer (sess s).

(** What everything but reading respects. *)
Record carries (s s' : Env) : Prop := {
  k_stream : stream s' = stream s;
  k_in : in_buffer (sess s') = in_buffer (sess s);
  k_read : read (sess s') = read (sess s);
  k_forward : forward s s'
}.

#[export] Instance carries_refl : Reflexive carries.
Proof. by intros s. Qed.
#[export] Instance carries_trans : Transitive carries.
Proof. intros s1 s2 s3 [] []. split; [congruence|congruence|congruence|by etrans]. Qed.

Lemma carries_stream s s' :
  sess s' = sess s -> stream s' = stream s -> carries s s'.
Proof. intros Hs Hst. split; [done|by rewrite Hs|by rewrite Hs|unfold forward; rewrite Hs; lia]. Qed.

(** A connected session holds nothing back. *)
Definition ready (s : Env) : Prop :=
  state (sess s) <> STATE_CONNECTING /\ is_Some (read (sess s)) /\
  (state (sess s) = STATE_CONNECTED -> in_buffer (sess s) = []).

(** From [s] to [s'] the bytes [b] have arrived and are sent back. *)
Definition echoes (s : Env) (b : list cell) (s' : Env) : Prop :=
  total s' = total s ++ b /\ (ready s -> ready s').

Lemma echoes_trans s b s1 b1 s2 : echoes s b s1 -> echoes s1 b1 s2 -> echoes s (b ++ b1) s2.
Proof. intros [H1 H2] [H3 H4]. split; [by rewrite H3, H1, (assoc_L (++))|auto]. Qed.

Lemma carries_echoes s s' : carries s s' -> echoes s [] s'.
Proof.
  intros [Hs Hi Hr Hf]. split; [unfold total; by rewrite Hs, Hi, app_nil_r|].
  intros (H1 & H2 & H3). unfold forward in Hf. unfold ready. rewrite Hr, Hi. split_and!; [|done|].
  - intros Hx. rewrite Hx in Hf. by destruct (state (sess s)).
  - intros Hx. apply H3. rewrite Hx in Hf. by destruct (state (sess s)).
Qed.

Context (Hdestroy : forall k, respects carries (user_destroy k)).
#[local] Set Default Proof Using "All".

Lemma carries_connect k f : respects carries (echo_connect k f).
Proof. apply (respects_ret carries). Qed.

Lemma carries_state s : carries s (set_sess (with_state STATE_DISCONNECTED (sess s)) s).
Proof. split; [done|done|done|]. unfold forward. simpl. destruct (state (sess s)); simpl; lia. Qed.

Lemma carries_out s n :
  carries s (set_sess (with_out (drop n (out_buffer (sess s))) (sess s)) (set_wire (wire s ++ take n (out_buffer (sess s))) s)).
Proof.
  split; [|done|done|unfold forward; simpl; lia]. unfold stream. simpl.
  rewrite <- (assoc_L (++)), (assoc_L (++) (take _ _)). by rewrite take_drop.
Qed.

Lemma carries_written s : carries s (set_stasks (stasks s ++ [SWritten]) s).
Proof. apply carries_stream; [done|]. unfold stream. simpl. by rewrite fmap_app, concat_app, app_nil_r. Qed.

Lemma carries_close : respects carries (HandleClose this user_task echo_connect user_destroy).
Proof.
  apply respects_HandleClose; try apply _; try done; try (by intros; apply carries_stream);
    auto using carries_connect, carries_state.
Qed.

Lemma carries_error : respects carries (HandleError echo_connect).
Proof.
  apply respects_call_connect; try apply _; try done; try (by intros; apply carries_stream); auto using carries_connect.
Qed.

Lemma carries_write : respects carries (HandleWrite this user_task echo_connect user_destroy sys_writev).
Proof.
  apply respects_HandleWrite; try apply _; try done; try (by intros; apply carries_stream);
    auto using carries_connect, carries_close, carries_out, carries_written.
Qed.

Lemma carries_force : respects carries (ForceClose this user_task echo_connect user_destroy errno).
Proof.
  unfold ForceClose. apply (respects_bind carries); [apply (respects_sget carries)|]. intros s.
  apply (respects_if carries); [|apply (respects_ret carries)].
  apply (respects_bind carries); [apply carries_close|]. intros _.
  apply (respects_bind carries); [apply (respects_sget carries)|]. intros ?. apply (respects_ret carries).
Qed.

Lemma carries_quiet o : quiet o -> respects carries (echo_op o).
Proof.
  intros Ho. apply respects_quiet; try apply _; try done; try (by intros; apply carries_stream);
    auto using carries_connect, carries_close, carries_out, carries_written.
  - intros k. apply (respects_ret carries).
  - intros k. apply (respects_bind carries); [apply carries_force|intros _; apply (respects_ret carries)].
  - intros s b. split; [done|done|done|unfold forward; simpl; lia].
  - intros s Hs. split; [done|done|done|]. unfold forward. simpl. rewrite Hs. simpl. lia.
  - intros s Hs. split; [done|done|done|]. unfold forward. simpl. rewrite Hs. simpl. lia.
  - intros s b l Hl. split; [|done|done|unfold forward; simpl; lia]. unfold stream. simpl. rewrite Hl. simpl. by rewrite !(assoc_L (++)).
  - intros s l Hl. apply carries_stream; [done|]. unfold stream. simpl. by rewrite Hl.
Qed.

(** Reading: what arrives goes to the queue of a connected session, and stays in its
    in-buffer otherwise. *)
Lemma echo_read_spec k t s s' :
  echo_read k t s = Ok (tt, s') ->
  total s' = total s /\ state (sess s') = state (sess s) /\ read (sess s') = read (sess s) /\
  (state (sess s) = STATE_CONNECTED -> in_buffer (sess s') = []).
Proof.
  unfold echo_read. erewrite ST_bind_run by done. unfold mbind, ST_bind. rewrite Append_bytes. case_bool_decide as Hs.
  - intros [= <-]. split_and!; [|done|done|done]. unfold total, stream. simpl.
    rewrite fmap_app, concat_app. simpl. by rewrite !app_nil_r, !(assoc_L (++)).
  - intros [= <-]. by split_and!.
Qed.

Lemma echo_HandleRead t s s' :
  HandleRead this user_task echo_connect echo_read user_destroy sys_readv t s = Ok (tt, s') ->
  echoes s (if 0 <? fst (sys_readv (calls s)) then snd (sys_readv (calls s)) else []) s'.
Proof.
  unfold HandleRead. intros (n & s1 & H1 & H)%ST_bind_Ok. rewrite in_buffer_Read_bytes in H1. cbv zeta in H1.
  rewrite Z.ltb_antisym.
  destruct (Z.leb_spec (fst (sys_readv (calls s))) 0) as [Hr|Hr]; injection H1 as <- <-; simpl.
  - apply carries_echoes. etrans; [apply (carries_stream s (set_calls (S (calls s)) s)); done|].
    by apply carries_close in H.
  - apply ST_bind_Ok in H as (x & s2 & [= <- <-] & H). simpl in H. rewrite (proj2 (Z.eqb_neq _ _)) in H by lia.
    rewrite Z.gtb_ltb, (proj2 (Z.ltb_lt _ _)) in H by lia.
    set (s1' := set_sess (with_in (in_buffer (sess s) ++ snd (sys_readv (calls s))) (sess s)) (set_calls (S (calls s)) s)) in H.
    assert (Ht : total s1' = total s ++ snd (sys_readv (calls s))) by (unfold total; simpl; by rewrite (assoc_L (++))).
    destruct (read (sess s)) as [k|] eqn:Hk; simpl in H.
    + apply ST_bind_Ok in H as (u & s2 & [= _ <-] & H). apply echo_read_spec in H as (Htot & Hst & Hrd & Hin).
      split; [rewrite Htot; exact Ht|]. intros (Ha & Hb & Hc). unfold ready. rewrite Hst, Hrd. split_and!; auto.
    + apply carries_error in H as [A B C D].
      split; [unfold total in *; by rewrite A, B|].
      intros (_ & [x Hx] & _). congruence.
Qed.

Lemma echo_op_spec o s s' :
  no_send o -> echo_op o s = Ok (tt, s') -> echoes s (received_by o s) s'.
Proof.
  intros Ho H. destruct o as [ev t| | | | | |b|b|p]; try done; try (apply carries_echoes; by refine (carries_quiet _ _ _ _ _ H)).
  simpl in H. unfold HandleCallback in H. apply ST_bind_Ok in H as (u1 & s1 & H1 & H).
  apply ST_bind_Ok in H as (u2 & s2 & H2 & H3). simpl.
  match goal with |- echoes _ ?b _ => rewrite <- (app_nil_r b) end. apply (echoes_trans _ _ s1).
  - destruct (CHECK_EVENT ev SESSION_READ); simpl; [|injection H1 as _ <-; by apply carries_echoes].
    destruct u1. by apply echo_HandleRead in H1.
  - apply carries_echoes. trans s2.
    + destruct (CHECK_EVENT ev SESSION_WRITE); [by apply carries_write in H2|by injection H2 as _ <-].
    + destruct (CHECK_EVENT ev SESSION_CLOSED); [by apply carries_close in H3|by injection H3 as <-].
Qed.

Lemma echo_ops_spec l : forall s s',
  Forall no_send l -> echo_ops l s = Ok (tt, s') -> echoes s (received l s) s'.
Proof.
  induction l as [|o l IH]; intros s s' Hl H; simpl in *.
  - injection H as <-. by apply carries_echoes.
  - inversion Hl as [|? ? Ho Hl']; subst. apply ST_bind_Ok in H as (u & s1 & H1 & H2). destruct u.
    unfold echo_op. rewrite H1. eapply echoes_trans; [by apply echo_op_spec|by apply IH].
Qed.
End echo.

(** ** The answer gets out *)

Section progress.
Context (this : positive) (user_task : positive -> L unit) (epoll_ctl : Z -> Z -> Z -> bool).
Context (user_destroy : positive -> SM unit).
Context (sys_readv : nat -> Z * list cell) (sys_writev : nat -> list cell -> Z) (sys_shutdown errno : nat -> Z).

Abbreviation be := (EpollBackend epoll_ctl).
Abbreviation ops :=
  (echo_ops this user_task (Hbe := be) user_destroy sys_readv sys_writev sys_shutdown errno).

(** A connected session with nothing to do. *)
Definition idle (s : Env) : Prop :=
  (exists o, registered_session this s o) /\ state (sess s) = STATE_CONNECTED /\ is_Some (read (sess s)) /\
  out_buffer (sess s) = [] /\ in_buffer (sess s) = [] /\ stasks s = [].

(** A step that meets the conditions of SessionHeapSpec.v by what the buffers hold: a session
    that reads is open and its in-buffer has room, and a task finds an empty out-buffer. *)
Definition calm (o : op (list cell)) (s : Env) : Prop :=
  match o with
  | OpCallback ev _ =>
    CHECK_EVENT ev SESSION_READ = true ->
    state (sess s) <> STATE_DISCONNECTED /\ Zlen (in_buffer (sess s)) + MAX_TO_ALLOC <= MAX_SIZE
  | OpTask =>
    match stasks s with
    | SAppend b :: _ => out_buffer (sess s) = [] /\ Zlen b <= MAX_SIZE
    | _ => True
    end
  | _ => True
  end.

Fixpoint calm_run (l : list (op (list cell))) (s : Env) : Prop :=
  match l with
  | [] => True
  | o :: l => calm o s /\ forall s1, ops [o] s = Ok (tt, s1) -> calm_run l s1
  end.

Lemma ops_cons o l s : ops (o :: l) s = (ops [o] ≫= fun _ => ops l) s.
Proof.
  simpl. unfold mbind, ST_bind. by match goal with |- match ?x with _ => _ end = _ => destruct x as [[[] ?]| | | |] end.
Qed.

Lemma calm_app l1 : forall l2 s s1,
  calm_run l1 s -> ops l1 s = Ok (tt, s1) -> calm_run l2 s1 -> calm_run (l1 ++ l2) s.
Proof.
  induction l1 as [|o l1 IH]; intros l2 s s1 H1 Hrun H2; [by injection Hrun as <-|].
  destruct H1 as [Ho H1]. split; [done|]. intros s2 Hs2.
  rewrite ops_cons, (ST_bind_run _ _ _ _ _ Hs2) in Hrun. apply (IH l2 s2 s1); auto.
Qed.

Lemma calm_writes t n : forall s, calm_run (replicate n (OpCallback EVENT_WRITE t)) s.
Proof. induction n as [|n IH]; intros s; split; [by intros ?|auto]. Qed.

Lemma ops_app l1 l2 s s1 : ops l1 s = Ok (tt, s1) -> ops (l1 ++ l2) s = ops l2 s1.
Proof.
  revert s. induction l1 as [|o l1 IH]; intros s H; simpl in *; [by injection H as <-|].
  apply ST_bind_Ok in H as (u & s2 & H1 & H2). rewrite (ST_bind_run _ _ _ _ _ H1). by apply IH.
Qed.

(** A socket that takes at least one byte of what it is offered. *)
Context (Htakes : forall n b, b <> [] -> 0 < sys_writev n b <= Zlen b).
Context (Hdestroy : forall k, respects carries (user_destroy k)).
#[local] Set Default Proof Using "All".

(** What a write handler of a connected session leaves. *)
Definition sent_all (s s' : Env) : Prop :=
  (exists o, registered_session this s' o) /\ state (sess s') = STATE_CONNECTED /\
  wire s' = wire s ++ out_buffer (sess s) /\ out_buffer (sess s') = [] /\ stasks s' = stasks s ++ [SWritten] /\
  in_buffer (sess s') = in_buffer (sess s) /\ read (sess s') = read (sess s).

Lemma write_drains t k : forall s o,
  (length (out_buffer (sess s)) <= S k)%nat -> registered_session this s o -> Event_Writing o = true ->
  state (sess s) = STATE_CONNECTED -> out_buffer (sess s) <> [] ->
  exists n s1 s', (n <= k)%nat /\
    HandleWrite this user_task (Hbe := be) echo_connect user_destroy sys_writev s = Ok (tt, s1) /\
    ops (replicate n (OpCallback EVENT_WRITE t)) s1 = Ok (tt, s') /\ sent_all s s'.
Proof.
  induction k as [|k IH]; intros s o Hlen Hreg Hwr Hst Hout;
    destruct (HandleWrite_sends this user_task epoll_ctl echo_connect user_destroy sys_writev s o Hreg Hwr Hst Hout
      (Htakes (calls s) _ Hout)) as (s1 & o1 & H1 & Hw1 & Ho1 & Hst1 & Hreg1 & Hwr1 & Ht1);
    pose proof (carries_write this user_task user_destroy sys_readv sys_writev sys_shutdown errno Hdestroy _ _ _ H1) as [_ Hi Hr _];
    pose proof (Htakes (calls s) _ Hout) as Htk;
    destruct (Z.eqb_spec (sys_writev (calls s) (out_buffer (sess s))) (Zlen (out_buffer (sess s)))) as [Hall|Hpart].
  1,3: exists 0%nat, s1, s1; split_and!; [lia|done|done|]; unfold sent_all; rewrite Hw1, Ho1, Hall;
    unfold Zlen; rewrite Nat2Z.id, take_ge, drop_ge by lia; split_and!; try done; by exists o1.
  - unfold Zlen in *. lia.
  - destruct (IH s1 o1) as (n & s2 & s' & Hn & H2 & Hops & Ha & Hb & Hc & Hd & He & Hf & Hg); try done.
    { rewrite Ho1, length_drop. lia. }
    { rewrite Ho1. intros Hx%(f_equal length). rewrite length_drop in Hx. simpl in Hx. unfold Zlen in *. lia. }
    exists (S n), s1, s'. split_and!; [lia|done| |].
    + simpl. rewrite (ST_bind_run _ _ s1 tt s2); [done|]. unfold HandleCallback.
      rewrite (ST_bind_run _ _ s1 tt s1) by done. by rewrite (ST_bind_run _ _ s1 tt s2).
    + unfold sent_all. rewrite Hc, Hw1, Ho1, <- (assoc_L (++)), take_drop, He, Ht1, app_nil_r.
      split_and!; congruence.
Qed.

(** The task [SWritten] only reports. *)
Lemma written_task s :
  stasks s = [SWritten] -> exists tr, ops [OpTask] s = Ok (tt, set_trace tr (set_stasks [] s)).
Proof.
  intros Hs. unfold echo_ops, run_ops, run_op, run_next.
  unfold mbind, ST_bind, sget, sput. rewrite Hs. unfold run_stask, mbind, ST_bind, sget. simpl.
  destruct (write (sess s)); simpl; by eexists.
Qed.

(** A readable socket: the bytes wait in a task of the cycle. *)
Lemma read_queues s k t b :
  state (sess s) = STATE_CONNECTED -> read (sess s) = Some k -> in_buffer (sess s) = [] ->
  sys_readv (calls s) = (Zlen b, b) -> b <> [] ->
  exists s1, ops [OpCallback EVENT_READ t] s = Ok (tt, s1) /\ loop s1 = loop s /\
    sess s1 = sess s /\ stasks s1 = stasks s ++ [SAppend b] /\ wire s1 = wire s.
Proof.
  intros Hst Hrd Hin Hr Hb.
  assert (Hlen : 0 < Zlen b) by (destruct b; [done|unfold Zlen; simpl; lia]).
  eexists. split.
  - unfold echo_ops, run_ops, run_op, HandleCallback, HandleRead, in_buffer_Read.
    unfold mbind, ST_bind, sget, smod, sput. simpl. rewrite Hr. simpl.
    rewrite (proj2 (Z.leb_gt _ _)) by done. simpl. rewrite (proj2 (Z.eqb_neq _ _)) by lia. rewrite Hrd.
    rewrite Z.gtb_ltb, (proj2 (Z.ltb_lt _ _)) by done. simpl.
    unfold echo_read, Append, mbind, ST_bind, sget, smod, sput, emit, queue. simpl. rewrite Hst. simpl. done.
  - simpl. rewrite Hin. simpl. split_and!; try done. destruct (sess s); simpl in *. by subst.
Qed.

(** The task that appends to an empty out-buffer, and the wake-ups for writing that drain it. *)
Lemma append_drains s t b o :
  registered_session this s o -> state (sess s) = STATE_CONNECTED -> out_buffer (sess s) = [] ->
  stasks s = [SAppend b] -> b <> [] ->
  exists n s4 s5, (n < length b)%nat /\ ops [OpTask] s = Ok (tt, s4) /\
    ops (replicate n (OpCallback EVENT_WRITE t)) s4 = Ok (tt, s5) /\
    sent_all (set_sess (with_out b (sess s)) (set_stasks [] s)) s5.
Proof.
  intros Hreg Hst Hout Hq Hb.
  assert (Hset : rw_change (fun v => SET_EVENT v EVENT_WRITE)) by (exists EVENT_WRITE; split; [by right|by left]).
  set (s2 := set_sess (with_out b (sess s)) (set_stasks [] s)).
  assert (Hreg2 : registered_session this s2 o) by exact Hreg.
  pose proof (Event_change_active this epoll_ctl user_task _ _ _ _ Hset Hreg2) as H2.
  pose proof (io_event_flags this _ _ _ _ Hset Hreg2) as Hreg3.
  set (s3 := set_loop (with_flags (event (sess s2)) o (fun v => SET_EVENT v EVENT_WRITE) (loop s2)) s2).
  destruct (write_drains t (length b - 1) s3 (Event_set_events o (SET_EVENT (events o) EVENT_WRITE)))
    as (n & s4 & s5 & Hn & H4 & H5 & Hsent); try done.
  { simpl. lia. }
  { unfold Event_Writing. simpl. change EVENT_WRITE with (2 ^ 2). rewrite check_set by lia. apply orb_true_r. }
  exists n, s4, s5. split_and!; try done.
  - destruct b; [done|]. simpl in *. lia.
  - simpl. rewrite (ST_bind_run _ _ s tt s4); [done|].
    unfold run_next. erewrite ST_bind_run by done. rewrite Hq. erewrite ST_bind_run by done.
    unfold run_stask. erewrite ST_bind_run by done. erewrite ST_bind_run by apply in_store_ret.
    unfold smod. erewrite ST_bind_run by done. cbn [sess set_stasks]. rewrite Hout. simpl.
    erewrite ST_bind_run; [apply in_store_ret|]. erewrite ST_bind_run; [exact H4|].
    unfold event_EnableWrite. erewrite ST_bind_run by done. apply (in_loop_run _ s2). exact H2.
Qed.

(** One round: what has arrived is on the wire after at most as many wake-ups of the writer
    as there are bytes, and the session is idle again. *)
Lemma echo_round s t b :
  idle s -> sys_readv (calls s) = (Zlen b, b) -> b <> [] ->
  exists n s', (n < length b)%nat /\
    let l := [OpCallback EVENT_READ t; OpTask] ++ replicate n (OpCallback EVENT_WRITE t) ++ [OpTask] in
    ops l s = Ok (tt, s') /\ wire s' = wire s ++ b /\ idle s' /\ (Zlen b <= MAX_SIZE -> calm_run l s).
Proof.
  intros ([o Hreg] & Hst & [k Hk] & Hout & Hin & Hq) Hr Hb.
  destruct (read_queues s k t b) as (s1 & H1 & Hl1 & Hs1 & Hq1 & Hw1); try done. rewrite Hq in Hq1. simpl in Hq1.
  destruct (append_drains s1 t b o) as (n & s4 & s5 & Hn & H4 & H5 & ([o5 Hreg5] & Hst5 & Hw5 & Ho5 & Hq5 & Hi5 & Hr5));
    try by rewrite ?Hs1. { unfold registered_session in *. by rewrite Hl1, Hs1. }
  destruct (written_task s5 Hq5) as [tr H6].
  exists n, (set_trace tr (set_stasks [] s5)). split; [done|]. split_and!.
  - etrans; [exact (ops_app [OpCallback EVENT_READ t] _ _ _ H1)|].
    etrans; [exact (ops_app [OpTask] _ _ _ H4)|]. by rewrite (ops_app _ _ _ _ H5).
  - simpl. rewrite Hw5. simpl. by rewrite Hw1.
  - unfold idle. simpl. rewrite Hr5, Hi5. simpl. rewrite Hs1. split_and!; try done. by exists o5.
  - intros Hlen. split; [intros _; rewrite Hst, Hin, Zlen_nil; by split|]. intros s1' E.
    assert (s1' = s1) as -> by congruence. split; [simpl; rewrite Hq1, Hs1; by split|]. intros s4' E4.
    assert (s4' = s4) as -> by congruence. apply (calm_app (replicate n (OpCallback EVENT_WRITE t)) [OpTask] s4 s5); [apply calm_writes|done|].
    split; [simpl; by rewrite Hq5|done].
Qed.
End progress.
