(* ===== verification/SessionHeap.v ===== *)
(** * Sessions on the buffers of the program.

    Session.v gives a session byte sequences for buffers.  Here the same code runs on the
    buffers of NetBuffer.v, whose blocks live in a heap that all buffers of the session share,
    and is related to the session on byte sequences: [sim] says that a step of the latter is
    matched by the same step of the former; its rules follow the code, connective by
    connective.  SessionHeapSpec.v uses them. *)

From S2P Require Import Prelude Cache CacheList CacheRing CacheListSpec CacheListMove CacheListGrow.
From S2P Require Import NetBuffer NetBufferSpec NetBufferIO BufferSep.
From S2P Require Import EventLoop EventLoopSpec NetError Session SessionSpec Echo.

(** ** The buffers *)

(** [-1] as a [size_t]. *)
Definition SIZE_MAX : Z := 2 ^ 64 - 1.

(** [readv] with what is waiting in the socket: no more than the vectors hold. *)
Definition kernel_readv (r : Z * list cell) (lens : list Z) : Z * list cell :=
  let room := foldr Z.add 0 lens in
  if fst r <=? room then r else (room, take (Z.to_nat room) (snd r)).

(** The bytes [Write] offers to [writev]. *)
Definition Buffer_offered (b : BufferImpl) : M (list cell) :=
  iov ← write_vecs NUM_WRITE_IOVEC (CacheList_Begin (cache_chain b)) (write_amount b SIZE_MAX);
  bytes ← gather iov;
  mret (concat bytes).

Section heap_buffers.
(** What [FIONREAD] tells before the [n]th system call; fuel beyond the number of nodes. *)
Context (sys_readable : nat -> Z) (extra : nat).

Definition with_fuel {A} (m : nat -> M A) : M A := fun h => m (2 + extra + Pos.to_nat (brk h))%nat h.

Definition HeapBuffers : BufferOps BufferImpl Heap := {|
  buf_new := Buffer_ctor HARE_MAX_READ_DEFAULT;
  buf_Size := Buffer_Size;
  buf_Append b other := with_fuel (fun k => Buffer_Append k false b other);
  buf_Add b bytes := with_fuel (fun k => Buffer_Add k b bytes);
  buf_Read n r b := with_fuel (fun k => Buffer_Read (sys_readable n) (kernel_readv r) k b SIZE_MAX);
  buf_Write w b :=
    bytes ← Buffer_offered b;
    r ← with_fuel (fun k => Buffer_Write (fun bss => w (concat bss)) k b SIZE_MAX);
    mret (fst r, take (Z.to_nat (fst r)) bytes, snd r);
  buf_dtor b := with_fuel (fun k => Buffer_dtor k b)
|}.
End heap_buffers.

Section buffer_facts.
Context (sys_readable : nat -> Z) (extra : nat).
Implicit Types (h : Heap) (b : BufferImpl) (L : layout) (l : list placed_buffer).

Lemma write_amount_all b : 0 <= total_len b <= MAX_SIZE -> write_amount b SIZE_MAX = total_len b.
Proof.
  intros Hb. unfold write_amount, SIZE_MAX, MAX_SIZE in *. simpl. destruct (Z.gtb_spec (2 ^ 64 - 1) (total_len b)); lia.
Qed.

Lemma total_len_range h b L : Buffer_ok h b L -> 0 <= total_len b <= MAX_SIZE.
Proof. intros [_ Hl Hm _]. pose proof (Zlen_nonneg (bytes_of L)). lia. Qed.

Lemma total_len_nil h b L : Buffer_ok h b L -> total_len b = 0 <-> bytes_of L = [].
Proof. intros [_ Hl _ _]. rewrite Hl. split; [apply Zlen_0_nil|by intros ->]. Qed.

(** A chain that fits the vectors is offered as a whole. *)
Lemma Buffer_offered_all h b L :
  Buffer_ok h b L -> (length (front L) < NUM_WRITE_IOVEC)%nat -> Buffer_offered b h = Ok (bytes_of L, h).
Proof.
  intros Hb Hlen. pose proof (total_len_range _ _ _ Hb) as Hr. unfold Buffer_offered. rewrite write_amount_all by done.
  destruct (Z.eqb_spec (total_len b) 0) as [Hz|Hz].
  { rewrite (proj1 (total_len_nil _ _ _ Hb) Hz), Hz. done. }
  destruct (nonempty_cache h b L Hb Hz) as [c Hc]. pose proof Hb as [[[_ Hring Hrd _ Hf Hwc _] _] Hl _ _].
  unfold CacheList_Begin, MAX_SIZE in *. unfold bytes_of in *. rewrite Hc in *.
  destruct (write_vecs_spec (front L ++ [(wnode L, Some c)]) NUM_WRITE_IOVEC h [] (spare L) nullptr (total_len b))
    as (vecs & bss & m & Hrun & Hg & Hcon & Hmt & Hfull & _); try done; try lia.
  { simpl. by rewrite <- (assoc_L (++)). }
  { apply Forall_app. split; [done|]. constructor; [by exists c|done]. }
  rewrite fstp_app in Hrun. simpl fstp in Hrun. rewrite <- Hrd in Hrun. hrun Hrun. hrun Hg.
  rewrite Hcon, (Hfull ltac:(rewrite length_app; simpl; lia)), take_ge; [done|]. unfold Zlen in Hl. lia.
Qed.

Lemma buf_Write_run h b L l (w : list cell -> Z) :
  holds h ((b, L) :: l) -> head_placed b L -> (length (front L) < NUM_WRITE_IOVEC)%nat ->
  (forall bytes, w bytes <= Zlen bytes) ->
  let n := if decide (bytes_of L = []) then 0 else Z.max 0 (w (bytes_of L)) in
  exists b' h' L', @buf_Write _ _ (HeapBuffers sys_readable extra) w b h =
      Ok ((n, take (Z.to_nat n) (bytes_of L), b'), h') /\
    holds h' ((b', L') :: l) /\ bytes_of L' = drop (Z.to_nat n) (bytes_of L) /\
    head_placed b' L' /\ (length (front L') < NUM_WRITE_IOVEC)%nat.
Proof.
  intros Hh Hhd Hlen Hw n. pose proof (holds_first _ _ _ _ Hh) as Hb. pose proof (total_len_range _ _ _ Hb) as Hr.
  pose proof (holds_length _ _ _ _ Hh) as Hfuel.
  assert (Hsafe : drain_safe b L).
  { right. unfold head_placed, placed in Hhd.
    pose proof (ring_NoDup _ _ (sh_ring _ _ _ _ _ _ (proj1 (bo_wf _ _ _ Hb)))) as Hnd. rewrite fmap_app in Hnd. simpl in Hnd.
    destruct (front L) as [|[x cx] fr]; [set_solver|]. simpl in *. apply NoDup_cons in Hnd as [Hx Hnd].
    destruct Hhd as [-> | Hs]; [set_solver|]. apply NoDup_app in Hnd as (_ & Hd & _). intros Hin.
    apply (Hd _ Hin). by right. }
  destruct (Buffer_Write_spec h b L (fun bss => w (concat bss)) SIZE_MAX (2 + extra + Pos.to_nat (brk h)) Hb
              ltac:(unfold SIZE_MAX; lia) Hsafe ltac:(lia) (fun bss => Hw (concat bss)))
    as (bss & m & n' & b' & h' & L' & Hcon & Hm & Hfull & Hn & Hrun & Hb' & Hbs & Hown & Hle & Hhd').
  rewrite write_amount_all in * by done.
  assert (Hall : concat bss = bytes_of L).
  { rewrite Hcon, (Hfull Hlen), take_ge; [done|]. pose proof (bo_len _ _ _ Hb). unfold Zlen in *. lia. }
  assert (Hnn : n' = n).
  { subst n n'. rewrite Hall. pose proof (total_len_nil _ _ _ Hb). destruct (Z.eqb_spec (total_len b) 0); case_decide; tauto. }
  exists b', h', L'. rewrite <- Hnn. split_and!; [|by eapply holds_step|done|by apply Hhd'|lia].
  simpl. rewrite (ST_bind_run _ _ _ _ _ (Buffer_offered_all h b L Hb Hlen)). etrans; [apply ST_bind_run; exact Hrun|done].
Qed.
(** The room [FastExpand] makes for [n] bytes in a chain that has none. *)
Definition read_room (n : Z) : Z :=
  match round_up n with Ok m => Z.min m MAX_TO_ALLOC | _ => 0 end.

(** What [Read] asks for before the [k]th system call. *)
Definition to_read (k : nat) : Z := if sys_readable k =? 0 then HARE_MAX_READ_DEFAULT else sys_readable k.

Lemma roomy_room L n : 0 <= n <= MAX_SIZE -> roomy L -> expand_room (wcache L) (spare L) n = read_room n.
Proof.
  intros Hn [Hs Hw]. unfold expand_room, next_state, read_room. destruct (round_up_bounds n Hn) as (m & Hm & _).
  rewrite Hs, Hm. destruct (wcache L) as [c|] eqn:E; [rewrite (Hw c eq_refl)|];
    unfold room, tails; simpl; rewrite Zlen_nil; lia.
Qed.

Lemma kernel_readv_ok r : Zlen (snd r) = Z.max 0 (fst r) -> readv_ok (kernel_readv r).
Proof.
  intros Hr lens. unfold kernel_readv. destruct (Z.leb_spec (fst r) (foldr Z.add 0 lens)); [done|]. simpl.
  split; [lia|]. unfold Zlen in *. rewrite length_take. lia.
Qed.

Lemma buf_Read_run h b L l k (r : Z * list cell) :
  holds h ((b, L) :: l) -> roomy L -> max_read b = HARE_MAX_READ_DEFAULT ->
  0 <= sys_readable k <= MAX_TO_ALLOC -> Zlen (snd r) = Z.max 0 (fst r) -> fst r <= read_room (to_read k) ->
  total_len b + MAX_TO_ALLOC <= MAX_SIZE ->
  exists b' h' L', @buf_Read _ _ (HeapBuffers sys_readable extra) k r b h = Ok ((Z.max 0 (fst r), b'), h') /\
    holds h' ((b', L') :: l) /\ bytes_of L' = bytes_of L ++ snd r /\ max_read b' = max_read b /\
    (0 < fst r -> roomy L') /\ (single L -> wcache L = None -> single L').
Proof.
  intros Hh Hroomy Hmax Hn Hr Hfit Htot. pose proof (holds_first _ _ _ _ Hh) as Hb.
  pose proof (holds_length _ _ _ _ Hh) as Hfuel. unfold MAX_TO_ALLOC, MAX_SIZE in *.
  assert (Hamount : read_amount (sys_readable k) b SIZE_MAX = to_read k).
  { unfold read_amount, to_read. rewrite Hmax. unfold SIZE_MAX, HARE_MAX_READ_DEFAULT. simpl.
    destruct (Z.eqb_spec (sys_readable k) 0); [done|].
    destruct (Z.gtb_spec (2 ^ 64 - 1) (sys_readable k)); lia. }
  assert (Hto : 0 <= to_read k <= 65536).
  { unfold to_read, HARE_MAX_READ_DEFAULT. destruct (Z.eqb_spec (sys_readable k) 0); lia. }
  pose proof (roomy_room L (to_read k) ltac:(unfold MAX_SIZE; lia) Hroomy) as Hroom.
  assert (Henough : to_read k <= read_room (to_read k) <= 65536).
  { unfold read_room, MAX_TO_ALLOC. destruct (round_up_bounds (to_read k)) as (m & Hm & Hle & _); [unfold MAX_SIZE; lia|].
    rewrite Hm. lia. }
  destruct (Buffer_Read_spec h b L (sys_readable k) (kernel_readv r) SIZE_MAX (2 + extra + Pos.to_nat (brk h)) Hb)
    as (lens & r' & b' & h' & L' & Hrun & Hb' & Hr' & Hlens & Hbs & Hown & Hm' & Hro & Hsi);
    try rewrite Hamount; unfold MAX_SIZE; try (by apply kernel_readv_ok); try lia.
  { intros lens. unfold kernel_readv. destruct (Z.leb_spec (fst r) (foldr Z.add 0 lens)); simpl; lia. }
  rewrite Hamount, Hroom in Hlens.
  assert (Hk : kernel_readv r lens = r).
  { unfold kernel_readv. by rewrite (proj2 (Z.leb_le _ _)) by lia. }
  rewrite Hk in *. subst r'. exists b', h', L'. split_and!; try done; [by eapply holds_step|].
  intros Hpos. apply Hro; [done|lia].
Qed.
End buffer_facts.

(** ** The two views of a session *)

Definition map_sess {B C} (f : B -> C) (x : TcpSessionImpl B) : TcpSessionImpl C :=
  mkSession (event x) (socket x) (reading x) (state x) (f (out_buffer x)) (f (in_buffer x)) (high_water_mark x)
    (write x) (high_water x) (read x) (connect x) (destroy x).

Definition map_task {B C} (f : B -> C) (t : STask B) : STask C :=
  match t with SAppend b => SAppend (f b) | SWritten => SWritten end.

Definition map_env {B C H H'} (f : B -> C) (h : H') (g : GEnv B H) : GEnv C H' :=
  mkEnv (loop g) (map_sess f (sess g)) (map_task f <$> stasks g) (calls g) (wire g) (trace g) h.

Definition map_op {B C} (f : B -> C) (o : op B) : op C :=
  match o with
  | OpCallback ev t => OpCallback ev t | OpTask => OpTask | OpShutdown => OpShutdown | OpForceClose => OpForceClose
  | OpStartRead => OpStartRead | OpStopRead => OpStopRead
  | OpAppend b => OpAppend (f b) | OpSend b => OpSend b | OpEstablished p => OpEstablished p
  end.

(** A session whose buffers come with the chains they stand for. *)
Abbreviation HEnv := (GEnv BufferImpl Heap).
Abbreviation PEnv := (GEnv placed_buffer Heap).

Definition heap_view (g : PEnv) : HEnv := map_env fst (store g) g.
Definition bytes_view (g : PEnv) : Env := map_env (fun x => bytes_of (snd x)) tt g.

Lemma in_store_run {A} (m : M A) (s : HEnv) a h : m (store s) = Ok (a, h) -> in_store m s = Ok (a, set_store h s).
Proof. unfold in_store. by intros ->. Qed.

Definition task_buffers {B} (l : list (STask B)) : list B :=
  concat ((fun t => match t with SAppend b => [b] | SWritten => [] end) <$> l).

Lemma task_buffers_app {B} (l1 l2 : list (STask B)) : task_buffers (l1 ++ l2) = task_buffers l1 ++ task_buffers l2.
Proof. unfold task_buffers. by rewrite fmap_app, concat_app. Qed.

Definition buffers_of (g : PEnv) : list placed_buffer :=
  out_buffer (sess g) :: in_buffer (sess g) :: task_buffers (stasks g).

(** The buffers of the session, and [extra] ones that the code holds in local variables, are
    in the heap; the out-buffer can be drained and fits the vectors of [writev]; a queued
    buffer is one block. *)
Record good (local : list placed_buffer) (g : PEnv) : Prop := {
  gd_holds : holds (store g) (buffers_of g ++ local);
  gd_head : head_placed (fst (out_buffer (sess g))) (snd (out_buffer (sess g)));
  gd_short : (length (front (snd (out_buffer (sess g)))) < NUM_WRITE_IOVEC)%nat;
  gd_tasks : Forall (fun x => single (snd x)) (task_buffers (stasks g));
  gd_max : max_read (fst (in_buffer (sess g))) = HARE_MAX_READ_DEFAULT;
  gd_read : is_Some (read (sess g))
}.

(** The in-buffer of a session that still reads has room for what may arrive. *)
Definition in_ready (g : PEnv) : Prop :=
  let L := snd (in_buffer (sess g)) in
  match state (sess g) with
  | STATE_CONNECTING => False
  | STATE_CONNECTED => single L /\ wcache L = None
  | STATE_DISCONNECTING => roomy L
  | STATE_DISCONNECTED => True
  end.

Definition open_ok (local : list placed_buffer) (g : PEnv) : Prop := good local g /\ in_ready g.
Definition closed_ok (local : list placed_buffer) (g : PEnv) : Prop :=
  good local g /\ state (sess g) = STATE_DISCONNECTED.

Lemma closed_open local g : closed_ok local g -> open_ok local g.
Proof. intros [Hg Hs]. split; [done|]. unfold in_ready. by rewrite Hs. Qed.

(** ** Simulation *)

Section sim.
Implicit Types (I J K : PEnv -> Prop).

(** From a state that satisfies [I], what the session on byte sequences does the session on
    the heap does too, [J] holds afterwards, and the tasks that were queued are left alone. *)
Definition sim {A} I J (mh : ST HEnv A) (mb : SM A) : Prop :=
  forall g, I g -> forall a s', mb (bytes_view g) = Ok (a, s') ->
  exists g', mh (heap_view g) = Ok (a, heap_view g') /\ s' = bytes_view g' /\ J g' /\ stasks g `prefix_of` stasks g'.

Lemma sim_weaken {A} I I' J J' (mh : ST HEnv A) mb :
  sim I' J' mh mb -> (forall g, I g -> I' g) -> (forall g, J' g -> J g) -> sim I J mh mb.
Proof. intros H HI HJ g Hg a s' Hr. destruct (H g (HI g Hg) a s' Hr) as (g' & ? & ? & ? & ?). eauto 10. Qed.

Lemma sim_from {A} I J (mh : ST HEnv A) mb g0 : I g0 -> sim I J mh mb -> sim (fun g => g = g0) J mh mb.
Proof. intros H0 H. eapply sim_weaken; [exact H|by intros ? ->|done]. Qed.

Lemma sim_ret {A} I (a : A) : sim I I (mret a) (mret a).
Proof. intros g Hg x s' [= <- <-]. by exists g. Qed.

Lemma sim_lift {A} I (m : outcome A) : sim I I (lift m) (lift m).
Proof. intros g Hg x s' H. unfold lift in *. destruct m; simplify_eq. by exists g. Qed.

Lemma sim_bind {A X} I J K (mh : ST HEnv A) mb (fh : A -> ST HEnv X) fb :
  sim I K mh mb -> (forall a, sim K J (fh a) (fb a)) -> sim I J (mh ≫= fh) (mb ≫= fb).
Proof.
  intros Hm Hf g Hg x s' (a & s1 & H1 & H2)%ST_bind_Ok.
  destruct (Hm g Hg a s1 H1) as (g1 & Hr1 & -> & Hk & Hp1). destruct (Hf a g1 Hk x s' H2) as (g2 & Hr2 & -> & Hj & Hp2).
  exists g2. rewrite (ST_bind_run _ _ _ _ _ Hr1). split_and!; try done. by etrans.
Qed.

Lemma sim_get {A X Y} I J (f : HEnv -> A) (f' : Env -> X) (k : A -> ST HEnv Y) k' :
  (forall g0, I g0 -> sim (fun g => g = g0) J (k (f (heap_view g0))) (k' (f' (bytes_view g0)))) ->
  sim I J (sget f ≫= k) (sget f' ≫= k').
Proof. intros H g Hg a s' Hr. by apply (H g Hg g eq_refl). Qed.

Lemma sim_if {A} I J (b : bool) (m1 m2 : ST HEnv A) m1' m2' :
  (b = true -> sim I J m1 m1') -> (b = false -> sim I J m2 m2') -> sim I J (if b then m1 else m2) (if b then m1' else m2').
Proof. destruct b; auto. Qed.

(** What the code tests is part of what is known. *)
Lemma sim_at {A} I J (mh : ST HEnv A) mb :
  (forall g0, I g0 -> sim (fun g => g = g0) J mh mb) -> sim I J mh mb.
Proof. intros H g Hg. by apply (H g Hg g). Qed.

Lemma sim_emit I o : (forall g l, I g -> I (set_trace l g)) -> sim I I (emit o) (emit o).
Proof. intros HI g Hg a s' [= <- <-]. exists (set_trace (trace g ++ [o]) g). split_and!; [done|done|by apply HI|done]. Qed.

Lemma sim_in_loop {A} I (m : L A) : (forall g w, I g -> I (set_loop w g)) -> sim I I (in_loop m) (in_loop m).
Proof.
  intros HI g Hg a s' Hr. unfold in_loop in *. simpl in *. destruct (m (loop g)) as [[x w]| | | |]; simplify_eq.
  exists (set_loop w g). split_and!; [done|done|by apply HI|done].
Qed.

Lemma sim_put I J (fh : HEnv -> HEnv) fb (fg : PEnv -> PEnv) :
  (forall g, I g -> fh (heap_view g) = heap_view (fg g) /\ fb (bytes_view g) = bytes_view (fg g) /\ J (fg g) /\
     stasks g `prefix_of` stasks (fg g)) ->
  sim I J (sput fh) (sput fb).
Proof.
  intros H g Hg a s' [= <- <-]. destruct (H g Hg) as (Hh & Hb & Hj & Hp). exists (fg g).
  split_and!; [unfold sput; by rewrite Hh|done|done|done].
Qed.
End sim.
