(* ===== verification/SessionHeapSpec.v ===== *)
(** * The echo server on the buffers of the program.

    The simulation of SessionHeap.v for the handlers and tasks of a session with the callbacks
    of the echo server, for any sequence of operations; the destruction of a session; and what
    happens where the conditions of the simulation do not hold. *)

From S2P Require Import Prelude Cache CacheList CacheRing CacheListSpec CacheListMove CacheListGrow.
From S2P Require Import NetBuffer NetBufferSpec NetBufferIO BufferSep.
From S2P Require Import EventLoop EventLoopSpec NetError Session SessionSpec Echo SessionHeap.

(** ** What does not touch the buffers *)

(** A condition on the session that does not look at its event loop nor at what it reported. *)
Definition aloof (I : PEnv -> Prop) : Prop :=
  (forall g w, I g -> I (set_loop w g)) /\ (forall g l, I g -> I (set_trace l g)).

Lemma aloof_good local : aloof (good local).
Proof. split; intros g x []; by split. Qed.
Lemma aloof_open local : aloof (open_ok local).
Proof. split; intros g x [Hg Hi]; (split; [by apply aloof_good|done]). Qed.
Lemma aloof_closed local : aloof (closed_ok local).
Proof. split; intros g x [Hg Hi]; (split; [by apply aloof_good|done]). Qed.
Lemma aloof_and I J : aloof I -> aloof J -> aloof (fun g => I g /\ J g).
Proof. intros [A B] [C D]. split; intros g x []; auto. Qed.

Create HintDb sim.
#[export] Hint Resolve aloof_good aloof_open aloof_closed aloof_and sim_ret sim_lift : sim.

(** Changing the state of the session moves nothing. *)
Lemma good_state local x g : good local g -> good local (set_sess (with_state x (sess g)) g).
Proof. intros []. by split. Qed.

Lemma head_single h b L : Buffer_ok h b L -> single L -> head_placed b L.
Proof.
  intros Hb [Hf Hs]. pose proof (ct_head _ _ (proj2 (bo_wf _ _ _ Hb))) as Hh. left. rewrite Hf, Hs in *. simpl in *. set_solver.
Qed.

Section handlers.
Context (this : positive) (user_task : positive -> L unit) `{Hbe : !ReactorOps}.
Context (sys_readable : nat -> Z) (extra : nat).
#[local] Instance heap_buffers : BufferOps BufferImpl Heap := HeapBuffers sys_readable extra.
Context (destroy_h : positive -> ST HEnv unit) (destroy_b : positive -> SM unit).
Context (Hdestroy : forall local k, sim (closed_ok local) (closed_ok local) (destroy_h k) (destroy_b k)).
#[local] Set Default Proof Using "All".

Lemma sim_event {A} I (f : eptr -> L A) :
  aloof I -> sim I I (s ← sget sess; in_loop (f (event s))) (s ← sget sess; in_loop (f (event s))).
Proof.
  intros [HI _]. apply sim_get. intros g0 Hg0. cbn. apply (sim_from I); [done|]. by apply sim_in_loop.
Qed.

Lemma sim_Writing I : aloof I -> sim I I Writing Writing.
Proof.
  intros HI. unfold Writing. apply sim_get. intros g0 Hg0. cbn.
  apply (sim_from I); [done|]. eapply sim_bind; [apply (sim_in_loop I), HI|intros o; apply sim_ret].
Qed.

Lemma sim_Reading I : aloof I -> sim I I Reading Reading.
Proof.
  intros HI. unfold Reading. apply sim_get. intros g0 Hg0. cbn.
  apply (sim_from I); [done|]. eapply sim_bind; [apply (sim_in_loop I), HI|intros o; apply sim_ret].
Qed.

Lemma sim_connect I flag :
  aloof I -> sim I I (call_connect echo_connect flag) (call_connect echo_connect flag).
Proof.
  intros [_ HI]. unfold call_connect. apply sim_get. intros g0 Hg0. cbn.
  apply (sim_from I); [done|].
  destruct (connect (sess g0)); [|apply sim_ret]. apply (sim_bind _ _ I); [by apply sim_emit|intros _; apply sim_ret].
Qed.

Lemma sim_HandleClose local :
  sim (good local) (closed_ok local)
    (HandleClose this user_task echo_connect destroy_h) (HandleClose this user_task echo_connect destroy_b).
Proof.
  unfold HandleClose. apply sim_get. intros g0 Hg0. cbn.
  apply (sim_from (good local)); [done|].
  apply (sim_bind _ _ (good local)); [auto with sim|]. intros _.
  apply (sim_bind _ _ (closed_ok local)).
  { apply (sim_put _ _ _ _ (fun g => set_sess (with_state STATE_DISCONNECTED (sess g)) g)).
    intros g Hg. split_and!; [done|done| |done]. split; [by apply good_state|done]. }
  intros _. do 2 (apply (sim_bind _ _ (closed_ok local)); [apply sim_event; auto with sim|intros _]).
  apply (sim_bind _ _ (closed_ok local)); [apply sim_connect; auto with sim|intros _].
  apply (sim_bind _ _ (closed_ok local)); [apply sim_event; auto with sim|intros _].
  apply sim_get. intros g1 Hg1. cbn. apply (sim_from (closed_ok local)); [done|].
  destruct (destroy (sess g1)) as [k|]; [|auto with sim].
  apply (sim_bind _ _ (closed_ok local)); [apply sim_emit, aloof_closed|intros _; apply Hdestroy].
Qed.
Context (sys_readv : nat -> Z * list cell) (sys_writev : nat -> list cell -> Z) (sys_shutdown errno : nat -> Z).
Context (Hwritev : forall n b, sys_writev n b <= Zlen b).

Lemma sim_out_Write local :
  sim (open_ok local) (open_ok local) (out_buffer_Write sys_writev) (out_buffer_Write sys_writev).
Proof.
  intros g [[Hh Hhd Hsh Ht Hm Hrd] Hi] a s' Hr. rewrite out_buffer_Write_count in Hr. cbv zeta in Hr. injection Hr as <- <-.
  destruct (out_buffer (sess g)) as [b L] eqn:Eo. unfold buffers_of in Hh. rewrite Eo in Hh. cbn [fst snd app] in Hhd, Hsh, Hh.
  destruct (buf_Write_run sys_readable extra (store g) b L _ (sys_writev (calls g)) Hh Hhd Hsh (Hwritev _))
    as (b' & h' & L' & Hrun & Hh' & Hbs & Hhd' & Hsh').
  cbn [bytes_view map_env sess map_sess out_buffer calls wire]. cbn [snd].
  set (n := if decide (bytes_of L = []) then 0 else Z.max 0 (sys_writev (calls g) (bytes_of L))) in *.
  set (c := if decide (bytes_of L = []) then calls g else S (calls g)).
  exists (set_store h' (set_sess (with_out (b', L') (sess g)) (set_wire (wire g ++ take (Z.to_nat n) (bytes_of L)) (set_calls c g)))).
  split_and!.
  - unfold out_buffer_Write. erewrite ST_bind_run by done.
    assert (Hc : (if buf_Size (out_buffer (sess (heap_view g))) =? 0 then mret tt else sput (set_calls (S (calls (heap_view g)))))
                   (heap_view g) = Ok (tt, heap_view (set_calls c g))).
    { pose proof (total_len_nil _ _ _ (holds_first _ _ _ _ Hh)) as Hz. cbn. rewrite Eo. cbn. unfold Buffer_Size. subst c.
      destruct (Z.eqb_spec (total_len b) 0); case_decide; try tauto; by destruct g. }
    rewrite (ST_bind_run _ _ _ _ _ Hc). cbn [heap_view map_env sess map_sess out_buffer calls]. rewrite Eo. cbn [fst].
    rewrite (ST_bind_run _ _ _ _ _ (in_store_run _ (heap_view (set_calls c g)) _ _ Hrun)). done.
  - unfold bytes_view, map_env. cbn. unfold set_sess, set_wire, set_calls, with_out, map_sess. cbn. rewrite Hbs. done.
  - split; [|done]. split; done.
  - done.
Qed.
Lemma view_queue g t :
  set_stasks (stasks (heap_view g) ++ [map_task fst t]) (heap_view g) = heap_view (set_stasks (stasks g ++ [t]) g) /\
  set_stasks (stasks (bytes_view g) ++ [map_task (fun x => bytes_of (snd x)) t]) (bytes_view g) =
    bytes_view (set_stasks (stasks g ++ [t]) g).
Proof. unfold heap_view, bytes_view, map_env, set_stasks. simpl. by rewrite !fmap_app. Qed.

Lemma sim_queue_written local : sim (open_ok local) (open_ok local) (queue SWritten) (queue SWritten).
Proof.
  apply (sim_put _ _ _ _ (fun g => set_stasks (stasks g ++ [SWritten]) g)).
  intros g [[Hh Hhd Hsh Ht Hm Hrd] Hi]. destruct (view_queue g SWritten) as [Hv Hv']. split_and!; [exact Hv|exact Hv'| |by apply prefix_app_r].
  split; [|done]. split; try done; unfold buffers_of in *; simpl; rewrite task_buffers_app, app_nil_r; done.
Qed.

(** Both sides see the same size. *)
Lemma view_size local g :
  good local g -> total_len (fst (out_buffer (sess g))) = Zlen (bytes_of (snd (out_buffer (sess g)))).
Proof.
  intros [Hh _ _ _ _ _]. destruct (out_buffer (sess g)) as [b L] eqn:E. unfold buffers_of in Hh. rewrite E in Hh.
  apply (bo_len _ _ _ (holds_first _ _ _ _ Hh)).
Qed.

Lemma sim_HandleWrite local :
  sim (open_ok local) (open_ok local)
    (HandleWrite this user_task echo_connect destroy_h sys_writev)
    (HandleWrite this user_task echo_connect destroy_b sys_writev).
Proof.
  unfold HandleWrite. apply (sim_bind _ _ (open_ok local)); [apply sim_Writing; auto with sim|]. intros w.
  apply sim_if; intros _; [auto with sim|].
  apply (sim_bind _ _ (open_ok local)); [apply sim_out_Write|]. intros n. apply sim_if; intros _; [|auto with sim].
  apply sim_get. intros g0 Hg0. cbn. unfold Buffer_Size. rewrite (view_size local g0) by apply Hg0.
  apply (sim_from (open_ok local)); [done|]. apply (sim_bind _ _ (open_ok local)).
  - apply sim_if; intros _; [|auto with sim].
    apply (sim_bind _ _ (open_ok local)); [apply sim_event; auto with sim|intros _; apply sim_queue_written].
  - intros _. apply sim_get. intros g1 Hg1. cbn. apply (sim_from (open_ok local)); [done|].
    apply sim_if; intros _; [|auto with sim].
    eapply sim_weaken; [apply (sim_HandleClose local)|by intros g []|apply closed_open].
Qed.
(** What the system calls of reading do: [FIONREAD] announces no more than one block holds,
    and [readv] delivers no more than the block it was offered holds. *)
Context (Hreadable : forall k, 0 <= sys_readable k <= MAX_TO_ALLOC).
Context (Hreadv : forall k, Zlen (snd (sys_readv k)) = Z.max 0 (fst (sys_readv k)) /\
                            fst (sys_readv k) <= read_room (to_read sys_readable k)).

(** Between [Read] and the read callback. *)
Definition has_read (local : list placed_buffer) (n : Z) (g : PEnv) : Prop :=
  good local g /\
  (0 < n -> let L := snd (in_buffer (sess g)) in
     bytes_of L <> [] /\
     match state (sess g) with
     | STATE_CONNECTED => single L
     | STATE_DISCONNECTING => roomy L
     | _ => False
     end).

(** Still reading, and far from the limit of the buffer. *)
Definition reading_ok (g : PEnv) : Prop :=
  state (sess g) <> STATE_DISCONNECTED /\ total_len (fst (in_buffer (sess g))) + MAX_TO_ALLOC <= MAX_SIZE.

Lemma in_ready_roomy g : in_ready g -> state (sess g) <> STATE_DISCONNECTED -> roomy (snd (in_buffer (sess g))).
Proof.
  unfold in_ready. destruct (state (sess g)); try done. intros [[_ Hs] Hw] _. split; [done|]. intros c Hc. congruence.
Qed.

Lemma in_Read_run local g :
  open_ok local g -> reading_ok g ->
  exists n g', in_buffer_Read sys_readv (heap_view g) = Ok (n, heap_view g') /\
    in_buffer_Read sys_readv (bytes_view g) = Ok (n, bytes_view g') /\ 0 <= n /\ has_read local n g' /\ stasks g' = stasks g.
Proof.
  intros [[Hh Hhd Hsh Ht Hm Hrd] Hi] [Hst Hlim]. destruct (Hreadv (calls g)) as [Hlen Hfit].
  pose proof (in_ready_roomy g Hi Hst) as Hro. destruct (in_buffer (sess g)) as [b L] eqn:Ei.
  unfold buffers_of in Hh. rewrite Ei in Hh. cbn [fst snd app] in *. rewrite Permutation_swap in Hh.
  destruct (buf_Read_run sys_readable extra (store g) b L _ (calls g) (sys_readv (calls g)) Hh Hro Hm (Hreadable _) Hlen Hfit Hlim)
    as (b' & h' & L' & Hrun & Hh' & Hbs & Hm' & Hro' & Hsi').
  set (n := Z.max 0 (fst (sys_readv (calls g)))) in *.
  exists n, (set_store h' (set_sess (with_in (b', L') (sess g)) (set_calls (S (calls g)) g))).
  split_and!; [| |lia| |done].
  - unfold in_buffer_Read. erewrite ST_bind_run by done. erewrite ST_bind_run by done.
    cbn [heap_view map_env sess map_sess in_buffer calls]. rewrite Ei. cbn [fst].
    by rewrite (ST_bind_run _ _ _ _ _ (in_store_run _ (heap_view (set_calls (S (calls g)) g)) _ _ Hrun)).
  - rewrite in_buffer_Read_count by done. unfold bytes_view, map_env. cbn. rewrite Ei. cbn. rewrite <- Hbs. done.
  - split; [split; try done; [unfold buffers_of; cbn; by rewrite Permutation_swap|by rewrite <- Hm]|]. intros Hn. cbn. split.
    + rewrite Hbs. intros [_ He]%app_nil. rewrite He in Hlen. unfold Zlen in Hlen. simpl in Hlen. lia.
    + unfold in_ready in Hi. rewrite Ei in Hi. cbn in Hi. destruct (state (sess g)); try done.
      * by destruct Hi as [Hs Hw]; apply Hsi'.
      * apply Hro'. lia.
Qed.
(** The read callback of the echo server moves the block that was read to a task of the
    cycle, and the in-buffer gets a new chain. *)
Lemma sim_echo_read local n k t :
  0 < n -> sim (has_read local n) (open_ok local) (echo_read k t) (echo_read k t).
Proof.
  intros Hn g [[Hh Hhd Hsh Ht Hm Hrd] Hin] a s' Hr. destruct (Hin Hn) as [Hne Hst]. clear Hin.
  destruct (in_buffer (sess g)) as [b L] eqn:Ei. cbn [fst snd] in *.
  unfold echo_read in Hr. erewrite ST_bind_run in Hr by done. unfold mbind, ST_bind in Hr. rewrite Append_bytes in Hr.
  cbn [bytes_view map_env sess map_sess state in_buffer] in Hr. rewrite Ei in Hr. cbn [snd] in Hr.
  unfold echo_read. erewrite ST_bind_run by done. unfold Append at 1.
  unfold mbind at 1, ST_bind at 1. erewrite ST_bind_run by done. cbn [heap_view map_env sess map_sess state in_buffer].
  rewrite Ei. cbn [fst]. case_bool_decide as Hc.
  - rewrite Hc in Hst. injection Hr as <- <-.
    destruct (holds_ctor (store g) _ HARE_MAX_READ_DEFAULT Hh) as (tmp & h1 & T & Hnew & Hh1 & HT & _ & HsT & HwT).
    unfold buffers_of in Hh1. rewrite Ei in Hh1. cbn [app] in Hh1.
    assert (Hh1' : holds h1 ((tmp, T) :: (b, L) :: out_buffer (sess g) :: task_buffers (stasks g) ++ local)).
    { revert Hh1. apply holds_perm. solve_Permutation. }
    pose proof (holds_first _ _ _ _ Hh1') as Htmp. pose proof (proj2 (total_len_nil _ _ _ Htmp) HT) as Ht0.
    assert (Hb : Buffer_ok h1 b L).
    { apply (holds_first _ _ _ ((tmp, T) :: out_buffer (sess g) :: task_buffers (stasks g) ++ local)).
      revert Hh1'. apply holds_perm. solve_Permutation. }
    pose proof (total_len_nil _ _ _ Hb) as Hb0. pose proof (total_len_range _ _ _ Hb) as Hbr.
    destruct (holds_Append h1 tmp b T L _ (2 + extra + Pos.to_nat (brk h1)) Hh1' ltac:(lia) ltac:(by left) ltac:(lia))
      as (r & h2 & L' & K' & Happ & Hh2 & _ & _ & _ & Hmr & Hshape).
    destruct Hshape as [(? & _)|[(_ & _ & -> & -> & _)|(? & _)]]; [tauto| |done].
    exists (set_store h2 (set_sess (with_in (snd r, T) (sess g)) (set_stasks (stasks g ++ [SAppend (fst r, L)]) g))).
    split_and!.
    + rewrite (ST_bind_run _ _ _ _ _ (in_store_run _ (heap_view g) _ _ Hnew)).
      assert (Hrun : in_store (buf_Append tmp b) (set_store h1 (heap_view g)) = Ok (r, set_store h2 (set_store h1 (heap_view g))))
        by (apply in_store_run; exact Happ).
      rewrite (ST_bind_run _ _ _ _ _ Hrun).
      unfold queue, sput, mret, ST_ret, smod. cbn. unfold heap_view, map_env, set_store, set_sess, set_stasks. cbn.
      by rewrite fmap_app.
    + unfold smod, sput, bytes_view, map_env, set_store, set_sess, set_stasks. cbn. unfold with_in, map_sess. cbn. by rewrite fmap_app, HT.
    + split; [split; try done|].
      * change (holds h2 (out_buffer (sess g) :: (snd r, T) :: task_buffers (stasks g ++ [SAppend (fst r, L)]) ++ local)).
        rewrite task_buffers_app. revert Hh2. apply holds_perm. cbn. solve_Permutation.
      * change (Forall (fun x => single (snd x)) (task_buffers (stasks g ++ [SAppend (fst r, L)]))).
        rewrite task_buffers_app. apply Forall_app. by split; [|constructor].
      * change (max_read (snd r) = HARE_MAX_READ_DEFAULT). by rewrite Hmr.
      * unfold in_ready. cbn. by rewrite Hc.
    + by apply prefix_app_r.
  - injection Hr as <- <-. exists g. cbn. destruct (state (sess g)) eqn:Es; try done.
    split_and!.
    + unfold mret, ST_ret. cbn. unfold heap_view, map_env, smod, sput, set_sess. cbn. unfold map_sess, with_in. cbn. by rewrite Ei.
    + unfold smod, sput, set_sess, bytes_view, map_env, map_sess, with_in. cbn. by rewrite Ei.
    + split; [split; try done; by rewrite Ei|]. unfold in_ready. by rewrite Es, Ei.
    + done.
Qed.
Lemma has_read_aloof local n : aloof (has_read local n).
Proof. split; intros g x [Hg Hi]; (split; [by apply aloof_good|done]). Qed.

Lemma sim_HandleRead local t :
  sim (fun g => open_ok local g /\ reading_ok g) (open_ok local)
    (HandleRead this user_task echo_connect echo_read destroy_h sys_readv t)
    (HandleRead this user_task echo_connect echo_read destroy_b sys_readv t).
Proof.
  intros g [Hg Hro] a s' (n & s1 & H1 & H2)%ST_bind_Ok.
  destruct (in_Read_run local g Hg Hro) as (n' & g1 & Hrun & Hrun' & Hn & Hrd & Hsame).
  rewrite H1 in Hrun'. injection Hrun' as -> ->. unfold HandleRead. rewrite (ST_bind_run _ _ _ _ _ Hrun).
  rewrite <- Hsame. clear Hsame. revert g1 Hrun Hrd H1 a s' H2.
  assert (Hs : sim (has_read local n') (open_ok local)
    (s ← sget sess; if n' =? 0 then HandleClose this user_task echo_connect destroy_h
     else match read s with
          | Some k => if n' >? 0 then _ ← emit ObsRead; echo_read k t else HandleError echo_connect
          | None => HandleError echo_connect
          end)
    (s ← sget sess; if n' =? 0 then HandleClose this user_task echo_connect destroy_b
     else match read s with
          | Some k => if n' >? 0 then _ ← emit ObsRead; echo_read k t else HandleError echo_connect
          | None => HandleError echo_connect
          end)).
  - apply sim_get. intros g0 Hg0. cbn. apply (sim_from (has_read local n')); [done|]. apply sim_if; intros Hz.
    + eapply sim_weaken; [apply (sim_HandleClose local)|by intros ? []|apply closed_open].
    + destruct (gd_read _ _ (proj1 Hg0)) as [k Hk]. cbn in Hk. rewrite Hk. rewrite Z.eqb_neq in Hz.
      rewrite Z.gtb_ltb, (proj2 (Z.ltb_lt _ _)) by lia.
      apply (sim_bind _ _ (has_read local n')); [apply sim_emit, has_read_aloof|intros _; apply sim_echo_read; lia].
  - intros g1 _ Hrd _ a s' H2. by apply (Hs g1 Hrd).
Qed.

(** A wake-up.  When it says that there is something to read, the session still reads. *)
Lemma sim_HandleCallback local ev t :
  sim (fun g => open_ok local g /\ (CHECK_EVENT ev SESSION_READ = true -> reading_ok g)) (open_ok local)
    (HandleCallback this user_task echo_connect echo_read destroy_h sys_readv sys_writev ev t)
    (HandleCallback this user_task echo_connect echo_read destroy_b sys_readv sys_writev ev t).
Proof.
  unfold HandleCallback. apply (sim_bind _ _ (open_ok local)).
  - apply sim_if; intros Hev.
    + eapply sim_weaken; [apply (sim_HandleRead local t)|naive_solver|done].
    + eapply sim_weaken; [apply (sim_ret (open_ok local))|naive_solver|done].
  - intros _. apply (sim_bind _ _ (open_ok local)).
    + apply sim_if; intros _; [apply sim_HandleWrite|auto with sim].
    + intros _. apply sim_if; intros _; [|auto with sim].
      eapply sim_weaken; [apply (sim_HandleClose local)|by intros ? []|apply closed_open].
Qed.

Lemma sim_ForceClose local :
  sim (open_ok local) (open_ok local)
    (ForceClose this user_task echo_connect destroy_h errno) (ForceClose this user_task echo_connect destroy_b errno).
Proof.
  unfold ForceClose. apply sim_get. intros g0 Hg0. cbn. apply (sim_from (open_ok local)); [done|].
  apply sim_if; intros _; [|auto with sim]. apply (sim_bind _ _ (open_ok local)).
  - eapply sim_weaken; [apply (sim_HandleClose local)|by intros ? []|apply closed_open].
  - intros _. apply sim_get. intros g1 Hg1. cbn. apply (sim_from (open_ok local)); auto with sim.
Qed.

Lemma sim_calls local n : sim (open_ok local) (open_ok local) (sput (set_calls n)) (sput (set_calls n)).
Proof. apply (sim_put _ _ _ _ (set_calls n)). intros g [[] Hi]. by split_and!. Qed.

Lemma sim_Shutdown local :
  sim (open_ok local) (open_ok local) (Shutdown sys_shutdown errno) (Shutdown sys_shutdown errno).
Proof.
  unfold Shutdown. apply sim_get. intros g0 Hg0. cbn. apply sim_if; intros Hc.
  2: { apply (sim_from (open_ok local)); auto with sim. }
  apply bool_decide_eq_true in Hc. apply (sim_from (fun g => open_ok local g /\ state (sess g) = STATE_CONNECTED)); [done|].
  apply (sim_bind _ _ (open_ok local)).
  { apply (sim_put _ _ _ _ (fun g => set_sess (with_state STATE_DISCONNECTING (sess g)) g)).
    intros g [[Hg Hi] Hs]. split_and!; [done|done| |done]. split; [by apply good_state|].
    apply (in_ready_roomy g Hi). by rewrite Hs. }
  intros _. apply (sim_bind _ _ (open_ok local)); [apply sim_Writing; auto with sim|]. intros w.
  apply sim_if; intros _; [|auto with sim].
  apply (sim_bind _ _ (open_ok local)); [apply sim_emit, aloof_open|]. intros _.
  apply (sim_bind _ _ (open_ok local)); [apply sim_calls|]. intros _. auto with sim.
Qed.

Lemma sim_reading local v :
  sim (open_ok local) (open_ok local) (smod (with_reading v)) (smod (with_reading v)).
Proof.
  apply (sim_put _ _ _ _ (fun g => set_sess (with_reading v (sess g)) g)). intros g [[] Hi]. by split_and!.
Qed.

Lemma sim_StartRead local : sim (open_ok local) (open_ok local) (StartRead this user_task) (StartRead this user_task).
Proof.
  unfold StartRead. apply sim_get. intros g0 Hg0. cbn. apply (sim_from (open_ok local)); [done|].
  apply (sim_bind _ _ (open_ok local)); [apply sim_Reading; auto with sim|]. intros w.
  apply sim_if; intros _; [|auto with sim].
  apply (sim_bind _ _ (open_ok local)); [apply sim_event; auto with sim|intros _; apply sim_reading].
Qed.

Lemma sim_StopRead local : sim (open_ok local) (open_ok local) (StopRead this user_task) (StopRead this user_task).
Proof.
  unfold StopRead. apply sim_get. intros g0 Hg0. cbn. apply (sim_from (open_ok local)); [done|].
  apply (sim_bind _ _ (open_ok local)); [apply sim_Reading; auto with sim|]. intros w.
  apply sim_if; intros _; [|auto with sim].
  apply (sim_bind _ _ (open_ok local)); [apply sim_event; auto with sim|intros _; apply sim_reading].
Qed.

(** A new session becomes connected. *)
Definition fresh_ok (local : list placed_buffer) (g : PEnv) : Prop :=
  good local g /\ state (sess g) = STATE_CONNECTING /\
  single (snd (in_buffer (sess g))) /\ wcache (snd (in_buffer (sess g))) = None.

Lemma sim_Established local p :
  sim (fresh_ok local) (open_ok local) (ConnectEstablished this user_task echo_connect p) (ConnectEstablished this user_task echo_connect p).
Proof.
  unfold ConnectEstablished. apply sim_get. intros g0 Hg0. cbn. apply (sim_from (fresh_ok local)); [done|].
  apply (sim_bind _ _ (fresh_ok local)); [auto with sim|]. intros _. apply (sim_bind _ _ (open_ok local)).
  { apply (sim_put _ _ _ _ (fun g => set_sess (with_state STATE_CONNECTED (sess g)) g)).
    intros g (Hg & Hs & Hin). split_and!; [done|done| |done]. split; [by apply good_state|done]. }
  intros _. apply (sim_bind _ _ (open_ok local)); [apply sim_connect; auto with sim|]. intros _.
  apply sim_get. intros g1 Hg1. cbn. apply (sim_from (open_ok local)); [done|].
  repeat (apply (sim_bind _ _ (open_ok local)); [apply sim_in_loop, aloof_open|intros ?]). apply sim_event. auto with sim.
Qed.

(** ** The tasks *)

(** A buffer the code held dies. *)
Lemma sim_dtor local x :
  sim (open_ok (x :: local)) (open_ok local) (in_store (buf_dtor (fst x))) (in_store (buf_dtor (bytes_of (snd x)))).
Proof.
  intros g [[Hh Hhd Hsh Ht Hm Hrd] Hi] a s' Hr. change (in_store (mret tt) (bytes_view g) = Ok (a, s')) in Hr. rewrite in_store_ret in Hr. injection Hr as <- <-.
  destruct x as [b L]. rewrite <- Permutation_middle in Hh.
  destruct (holds_dtor (store g) b L _ (2 + extra + Pos.to_nat (brk (store g))) Hh ltac:(lia)) as (h' & Hrun & Hh').
  exists (set_store h' g). split_and!; [by apply (in_store_run _ (heap_view g))|by destruct g| |done].
  split; [|done]. by split.
Qed.

(** The buffer [x] can be appended to the out-buffer: that is empty, or it has no drained
    block and fits the vectors with one block more. *)
Definition can_append (x : placed_buffer) (g : PEnv) : Prop :=
  let out := out_buffer (sess g) in
  total_len (fst out) + total_len (fst x) <= MAX_SIZE /\
  (total_len (fst out) = 0 \/
   (spare (snd out) = [] /\ (length (front (snd out)) + 1 < NUM_WRITE_IOVEC)%nat)).

(** The out-buffer stays fit for [Write] when one block is appended. *)
Lemma append_fit h b x L K r L' K' :
  Buffer_ok h b L -> Buffer_ok h x K -> Buffer_Append_shape b x L K r L' K' -> single K -> head_placed b L ->
  (length (front L) < NUM_WRITE_IOVEC)%nat ->
  total_len b = 0 \/ (spare L = [] /\ (length (front L) + 1 < NUM_WRITE_IOVEC)%nat) ->
  head_placed (fst r) L' /\ (length (front L') < NUM_WRITE_IOVEC)%nat.
Proof.
  intros Hb Hx [(_ & -> & _ & ->)|[(_ & _ & -> & _ & Hc & _)|(Hne & Hf & Hs & Hhd)]] HK Hp Hlen Hcan; [done| |].
  - split; [|destruct HK as [-> _]; simpl; unfold NUM_WRITE_IOVEC; lia].
    pose proof (head_single _ _ _ Hx HK) as Hh. unfold head_placed in *. by rewrite Hc.
  - destruct Hcan as [?|[Hs0 Hl]]; [done|]. destruct HK as [HK _]. split.
    + left. rewrite Hhd, Hf, fstp_app. destruct Hp as [Hp|Hp]; [exact Hp|]. rewrite Hs0 in Hp. set_solver.
    + rewrite Hf, length_app, HK. simpl. lia.
Qed.
(** What a task does once the bytes are in the out-buffer. *)
Lemma sim_appended local g0 size :
  sim (open_ok local) (open_ok local)
    (if size =? 0 then _ ← event_EnableWrite this user_task; HandleWrite this user_task echo_connect destroy_h sys_writev
     else if (size >? high_water_mark (sess g0)) && negb (high_water_mark (sess g0) =? 0) then
       match high_water (sess g0) with
       | Some k => _ ← emit ObsHighWater; echo_high_water this user_task destroy_h errno k
       | None => lift (Throw BadFunctionCall)
       end
     else mret tt)
    (if size =? 0 then _ ← event_EnableWrite this user_task; HandleWrite this user_task echo_connect destroy_b sys_writev
     else if (size >? high_water_mark (sess (bytes_view g0))) && negb (high_water_mark (sess (bytes_view g0)) =? 0) then
       match high_water (sess (bytes_view g0)) with
       | Some k => _ ← emit ObsHighWater; echo_high_water this user_task destroy_b errno k
       | None => lift (Throw BadFunctionCall)
       end
     else mret tt).
Proof.
  cbn. apply sim_if; intros _.
  - apply (sim_bind _ _ (open_ok local)); [apply sim_event; auto with sim|intros _; apply sim_HandleWrite].
  - apply sim_if; intros _; [|auto with sim]. destruct (high_water (sess g0)); [|auto with sim].
    apply (sim_bind _ _ (open_ok local)); [apply sim_emit, aloof_open|intros _].
    apply (sim_bind _ _ (open_ok local)); [apply sim_ForceClose|intros _; auto with sim].
Qed.

Lemma append_task_run local g x :
  open_ok (x :: local) g -> single (snd x) -> can_append x g ->
  exists r h' L' K',
    in_store (buf_Append (fst (out_buffer (sess g))) (fst x)) (heap_view g) = Ok (r, set_store h' (heap_view g)) /\
    bytes_of L' = bytes_of (snd (out_buffer (sess g))) ++ bytes_of (snd x) /\
    open_ok ((snd r, K') :: local) (set_store h' (set_sess (with_out (fst r, L') (sess g)) g)).
Proof.
  intros [[Hh Hhd Hsh Ht Hm Hrd] Hi] HK [Hmax Hcan].
  destruct (out_buffer (sess g)) as [b L] eqn:Eo, x as [xb K]. unfold buffers_of in Hh. rewrite Eo in Hh. cbn [fst snd app] in *.
  assert (Hh1 : holds (store g) ((b, L) :: (xb, K) :: in_buffer (sess g) :: task_buffers (stasks g) ++ local)).
  { revert Hh. apply holds_perm. solve_Permutation. }
  pose proof (holds_first _ _ _ _ Hh1) as Hb.
  assert (Hx : Buffer_ok (store g) xb K).
  { apply (holds_first _ _ _ ((b, L) :: in_buffer (sess g) :: task_buffers (stasks g) ++ local)).
    revert Hh1. apply holds_perm. solve_Permutation. }
  destruct (holds_Append (store g) b xb L K _ (2 + extra + Pos.to_nat (brk (store g))) Hh1 Hmax ltac:(naive_solver) ltac:(lia))
    as (r & h' & L' & K' & Hrun & Hh' & Hbs & _ & _ & _ & Hshape).
  destruct (append_fit _ _ _ _ _ _ _ _ Hb Hx Hshape HK Hhd Hsh Hcan) as [Hhd' Hsh'].
  exists r, h', L', K'. split_and!; [by apply in_store_run|done|]. split; [|done]. split; try done.
  unfold buffers_of. cbn. revert Hh'. apply holds_perm. solve_Permutation.
Qed.

#[local] Abbreviation task_h :=
  (run_stask this user_task echo_connect echo_write (echo_high_water this user_task destroy_h errno) destroy_h sys_writev).
#[local] Abbreviation task_b :=
  (run_stask this user_task echo_connect echo_write (echo_high_water this user_task destroy_b errno) destroy_b sys_writev).

(** A task that has been taken from the queue, with the buffer it holds. *)
Lemma sim_append_task local x :
  sim (fun g => open_ok (x :: local) g /\ single (snd x) /\ can_append x g) (open_ok local)
    (task_h (SAppend (fst x))) (task_b (SAppend (bytes_of (snd x)))).
Proof.
  intros g (Hg & HK & Hcan) a s' Hr. destruct (append_task_run local g x Hg HK Hcan) as (r & h' & L' & K' & Hrun & Hbs & Hok).
  unfold run_stask in Hr. erewrite ST_bind_run in Hr by done.
  erewrite ST_bind_run in Hr by apply in_store_ret. unfold smod in Hr. erewrite ST_bind_run in Hr by done.
  unfold run_stask. erewrite ST_bind_run by done.
  rewrite (ST_bind_run _ _ _ _ _ Hrun). unfold smod. erewrite ST_bind_run by done.
  set (g1 := set_store h' (set_sess (with_out (fst r, L') (sess g)) g)) in *.
  cbn [fst snd] in Hr. pose proof (view_size _ g (proj1 Hg)) as Hsz.
  assert (Hb1 : set_sess (with_out (out_buffer (sess (bytes_view g)) ++ bytes_of (snd x)) (sess (bytes_view g))) (bytes_view g) =
                bytes_view g1).
  { subst g1. unfold bytes_view, map_env, set_sess, map_sess, with_out. cbn. by rewrite Hbs. }
  pose proof (sim_bind _ _ _ _ _ (fun _ => in_store (buf_dtor (snd r))) (fun _ => in_store (buf_dtor (bytes_of K')))
    (sim_appended ((snd r, K') :: local) g (total_len (fst (out_buffer (sess g))))) (fun _ => sim_dtor local (snd r, K'))) as Hsim.
  apply (Hsim g1 Hok). rewrite <- Hb1, Hsz. exact Hr.
Qed.

Lemma sim_written_task local : sim (open_ok local) (open_ok local) (task_h SWritten) (task_b SWritten).
Proof.
  unfold run_stask. apply sim_get. intros g1 Hg1. cbn. apply (sim_from (open_ok local)); [done|].
  destruct (write (sess g1)); [|auto with sim].
  apply (sim_bind _ _ (open_ok local)); [apply sim_emit, aloof_open|intros _; apply sim_ret].
Qed.

(** The state when the next task has been taken from the queue. *)
Lemma popped_ok local g t l :
  open_ok local g -> stasks g = t :: l ->
  match t with
  | SAppend x => open_ok (x :: local) (set_stasks l g) /\ single (snd x)
  | SWritten => open_ok local (set_stasks l g)
  end.
Proof.
  intros [[Hh Hhd Hsh Ht Hm Hrd] Hi] Hl. unfold buffers_of in Hh. rewrite Hl in *. destruct t as [x|].
  - cbn [task_buffers fmap list_fmap concat app] in *. inversion Ht as [|? ? HK Ht']; subst. split; [|done].
    split; [|done]. split; try done. unfold buffers_of. cbn. revert Hh. apply holds_perm. solve_Permutation.
  - split; [|done]. by split.
Qed.

(** ** Any sequence of operations *)

(** The cycle does not wake up a closed session to read, the buffers stay below their limit,
    and a task finds an out-buffer that is empty, or one without drained blocks that fits the
    vectors with one block more. *)
Definition orderly (o : op BufferImpl) (s : HEnv) : Prop :=
  match o with
  | OpCallback ev _ =>
    CHECK_EVENT ev SESSION_READ = true ->
    state (sess s) <> STATE_DISCONNECTED /\ total_len (in_buffer (sess s)) + MAX_TO_ALLOC <= MAX_SIZE
  | OpTask =>
    match stasks s with
    | SAppend b :: _ =>
      let out := out_buffer (sess s) in
      let chain := cache_chain out in
      total_len out + total_len b <= MAX_SIZE /\
      (total_len out = 0 \/
       (next <$> nodes (store s) !! CacheList.write chain = Some (CacheList.read chain) /\
        Z.of_nat NUM_WRITE_IOVEC > node_size_ chain))
    | _ => True
    end
  | _ => True
  end.

Abbreviation heap_op := (echo_op this user_task destroy_h sys_readv sys_writev sys_shutdown errno).
Abbreviation byte_op := (echo_op this user_task destroy_b sys_readv sys_writev sys_shutdown errno).

Lemma orderly_append local g x l :
  open_ok local g -> stasks g = SAppend x :: l -> orderly OpTask (heap_view g) -> can_append x g.
Proof.
  intros [[Hh Hhd Hsh Ht Hm Hrd] Hi] El. unfold orderly, can_append. cbn [heap_view map_env stasks sess map_sess out_buffer store].
  rewrite El. cbn [fmap list_fmap map_task]. intros [Hmax Hcan]. split; [done|].
  destruct Hcan as [?|[Hnext Hsize]]; [by left|right].
  destruct (out_buffer (sess g)) as [b L] eqn:Eo. unfold buffers_of in Hh. rewrite Eo in Hh. cbn [fst snd] in *.
  pose proof (holds_first _ _ _ _ Hh) as [[[Hok Hr Hrd' Hw _ _ _] [Hs _]] _ _ _].
  rewrite Hw, (ring_at _ _ _ _ _ Hr), Hrd' in Hnext. cbn in Hnext. injection Hnext as Hnext.
  assert (Hsp : spare L = []).
  { destruct (spare L) as [|[s cs] sp] eqn:Es; [done|]. exfalso.
    apply (next_is_read (nodes (store g)) (front L) (wnode L) (wcache L) ((s, cs) :: sp)) in Hnext; done. }
  split; [done|]. rewrite Hsp in Hs. rewrite Hs in Hsize. unfold Zlen in Hsize. rewrite length_app in Hsize. cbn in Hsize.
  assert (Hlen : Z.of_nat (length (front L) + 1) < 2 ^ 64) by (unfold NUM_WRITE_IOVEC in *; lia).
  rewrite u64_small in Hsize by lia. lia.
Qed.

(** The operations that take no task. *)
Lemma sim_call local o g :
  open_ok local g -> no_send o -> (match o with OpTask => False | _ => True end) -> orderly (map_op fst o) (heap_view g) ->
  sim (fun g' => g' = g) (open_ok local) (heap_op (map_op fst o)) (byte_op (map_op (fun x => bytes_of (snd x)) o)).
Proof.
  intros Hg Hno Hnt Ho. destruct o as [ev t| | | | | |b|b|p]; try done; unfold echo_op, run_op; cbn [map_op].
  - apply (sim_from (fun g => open_ok local g /\ (CHECK_EVENT ev SESSION_READ = true -> reading_ok g))); [by split|].
    apply sim_HandleCallback.
  - apply (sim_from (open_ok local)); [done|].
    apply (sim_bind _ _ (open_ok local)); [apply sim_Shutdown|intros _; auto with sim].
  - apply (sim_from (open_ok local)); [done|].
    apply (sim_bind _ _ (open_ok local)); [apply sim_ForceClose|intros _; auto with sim].
  - apply (sim_from (open_ok local)); [done|apply sim_StartRead].
  - apply (sim_from (open_ok local)); [done|apply sim_StopRead].
  - intros g' -> a s' Hr. exfalso. unfold ConnectEstablished in Hr. erewrite ST_bind_run in Hr by done.
    apply ST_bind_Ok in Hr as (u & s1 & H1 & _). destruct Hg as [_ Hi]. unfold in_ready in Hi. cbn in H1.
    unfold lift, hare_assert in H1. case_bool_decide as Hs; [|done]. by rewrite Hs in Hi.
Qed.

(** The next task, on the state without it. *)
Lemma task_refines local g t l a s' :
  open_ok local g -> stasks g = t :: l -> orderly OpTask (heap_view g) ->
  task_b (map_task (fun x => bytes_of (snd x)) t) (bytes_view (set_stasks l g)) = Ok (a, s') ->
  exists g', task_h (map_task fst t) (heap_view (set_stasks l g)) = Ok (a, heap_view g') /\
    s' = bytes_view g' /\ open_ok local g' /\ l `prefix_of` stasks g'.
Proof.
  intros Hg Hl Ho Hr. pose proof (popped_ok local g t l Hg Hl) as Hp. destruct t as [x|]; cbn [map_task] in *.
  - destruct Hp as [Hp HK]. refine (sim_append_task local x (set_stasks l g) _ a s' Hr). split_and!; [done|done|].
    exact (orderly_append local g x l Hg Hl Ho).
  - exact (sim_written_task local (set_stasks l g) Hp a s' Hr).
Qed.

Lemma op_refines local o g s' :
  open_ok local g -> no_send o -> orderly (map_op fst o) (heap_view g) ->
  byte_op (map_op (fun x => bytes_of (snd x)) o) (bytes_view g) = Ok (tt, s') ->
  exists g', heap_op (map_op fst o) (heap_view g) = Ok (tt, heap_view g') /\ s' = bytes_view g' /\ open_ok local g'.
Proof.
  intros Hg Hno Ho Hr. assert (Hcase : o = OpTask \/ match o with OpTask => False | _ => True end) by (destruct o; auto).
  destruct Hcase as [->|Hnt].
  2: { destruct (sim_call local o g Hg Hno Hnt Ho g eq_refl tt s' Hr) as (g' & ? & ? & ? & _). by exists g'. }
  unfold echo_op, run_op, run_next in Hr |- *. cbn [map_op] in Hr |- *. erewrite ST_bind_run in Hr by done.
  erewrite ST_bind_run by done. cbn [heap_view bytes_view map_env stasks] in Hr |- *.
  destruct (stasks g) as [|t l] eqn:El; cbn [fmap list_fmap] in Hr |- *.
  - injection Hr as <-. by exists g.
  - erewrite ST_bind_run in Hr by done. erewrite ST_bind_run by done.
    destruct (task_refines local g t l tt s' Hg El Ho Hr) as (g' & ? & ? & ? & _). by exists g'.
Qed.

Fixpoint orderly_run (l : list (op BufferImpl)) (s : HEnv) : Prop :=
  match l with
  | [] => True
  | o :: l => orderly o s /\ match heap_op o s with Ok (_, s1) => orderly_run l s1 | _ => True end
  end.

Lemma heap_refines local l : forall g s',
  open_ok local g -> Forall no_send l -> orderly_run (map_op fst <$> l) (heap_view g) ->
  echo_ops this user_task destroy_b sys_readv sys_writev sys_shutdown errno
    (map_op (fun x => bytes_of (snd x)) <$> l) (bytes_view g) = Ok (tt, s') ->
  exists g', echo_ops this user_task destroy_h sys_readv sys_writev sys_shutdown errno
      (map_op fst <$> l) (heap_view g) = Ok (tt, heap_view g') /\
    s' = bytes_view g' /\ open_ok local g'.
Proof.
  induction l as [|o l IH]; intros g s' Hg Hno Ho Hr; cbn in *.
  - injection Hr as <-. by exists g.
  - inversion Hno as [|? ? Hno1 Hno2]; subst. destruct Ho as [Ho1 Ho2].
    apply ST_bind_Ok in Hr as ([] & s1 & H1 & H2).
    destruct (op_refines local o g s1 Hg Hno1 Ho1 H1) as (g1 & Hr1 & -> & Hg1).
    rewrite Hr1 in Ho2. destruct (IH g1 s' Hg1 Hno2 Ho2 H2) as (g2 & Hr2 & -> & Hg2).
    exists g2. split_and!; try done; try apply Hg2. rewrite (ST_bind_run _ _ _ _ _ Hr1). exact Hr2.
Qed.

End handlers.

(** What the buffers hold is enough to see that a step is orderly. *)
Lemma calm_orderly local o g :
  open_ok local g -> calm (map_op (fun x => bytes_of (snd x)) o) (bytes_view g) -> orderly (map_op fst o) (heap_view g).
Proof.
  intros Hg. destruct o; cbn; try done.
  - intros H Hread. destruct (H Hread) as [Hs Hin]. split; [done|]. pose proof Hg as [[Hh _ _ _ _ _] _].
    unfold buffers_of in Hh. destruct (in_buffer (sess g)) as [b L]. cbn [fst snd app] in *. rewrite Permutation_swap in Hh.
    by rewrite (bo_len _ _ _ (holds_first _ _ _ _ Hh)).
  - destruct (stasks g) as [|[[x K]|] l] eqn:El; cbn; try done. intros [Hout Hb]. destruct Hg as [[Hh _ _ _ _ _] _].
    unfold buffers_of in Hh. rewrite El in Hh. destruct (out_buffer (sess g)) as [bo Lo]. cbn [fst snd] in *.
    rewrite (bo_len _ _ _ (holds_first _ _ _ _ Hh)), Hout, Zlen_nil.
    assert (Hx : Buffer_ok (store g) x K); [|rewrite (bo_len _ _ _ Hx); split; [lia|by left]].
    apply (holds_first _ _ _ ((bo, Lo) :: in_buffer (sess g) :: task_buffers l ++ local)).
    revert Hh. apply holds_perm. cbn. solve_Permutation.
Qed.

Lemma calm_refines this user_task epoll_ctl sys_readable extra destroy_h destroy_b sys_readv sys_writev sys_shutdown errno local l :
  (forall local k, sim (closed_ok local) (closed_ok local) (destroy_h k) (destroy_b k)) ->
  (forall n b, sys_writev n b <= Zlen b) ->
  (forall k, 0 <= sys_readable k <= MAX_TO_ALLOC) ->
  (forall k, Zlen (snd (sys_readv k)) = Z.max 0 (fst (sys_readv k)) /\
             fst (sys_readv k) <= read_room (to_read sys_readable k)) ->
  Forall no_send l -> forall g s',
  open_ok local g ->
  calm_run this user_task epoll_ctl destroy_b sys_readv sys_writev sys_shutdown errno
    (map_op (fun x => bytes_of (snd x)) <$> l) (bytes_view g) ->
  echo_ops this user_task (Hbe := EpollBackend epoll_ctl) destroy_b sys_readv sys_writev sys_shutdown errno
    (map_op (fun x => bytes_of (snd x)) <$> l) (bytes_view g) = Ok (tt, s') ->
  exists g', echo_ops (Hbuf := HeapBuffers sys_readable extra) this user_task (Hbe := EpollBackend epoll_ctl)
      destroy_h sys_readv sys_writev sys_shutdown errno (map_op fst <$> l) (heap_view g) = Ok (tt, heap_view g') /\
    s' = bytes_view g' /\ open_ok local g'.
Proof.
  intros Hd Hw Hr Hv. induction 1 as [|o l Hno Hl IH]; intros g s' Hg Hc Hrun; cbn in *.
  - injection Hrun as <-. by exists g.
  - destruct Hc as [Ho Hc]. apply ST_bind_Ok in Hrun as ([] & s1 & H1 & H2).
    destruct (op_refines this user_task sys_readable extra destroy_h destroy_b Hd sys_readv sys_writev sys_shutdown errno
      Hw Hr Hv local o g s1 Hg Hno (calm_orderly local o g Hg Ho) H1) as (g1 & Hr1 & -> & Hg1).
    destruct (IH g1 s' Hg1) as (g2 & Hr2 & -> & Hg2); [|done|].
    + apply Hc. by rewrite (ST_bind_run _ _ _ _ _ H1).
    + exists g2. split_and!; try done. rewrite (ST_bind_run _ _ _ _ _ Hr1). exact Hr2.
Qed.

(** A closed session can be destroyed: the chains of both its buffers are freed. *)
Lemma heap_dtor sys_readable extra local g :
  closed_ok local g ->
  exists h', TcpSession_dtor (Hbuf := HeapBuffers sys_readable extra) (heap_view g) = Ok (tt, set_store h' (heap_view g)) /\
    holds h' (task_buffers (stasks g) ++ local).
Proof.
  intros [[Hh _ _ _ _ _] Hs]. unfold buffers_of in Hh.
  destruct (out_buffer (sess g)) as [bo Lo] eqn:Eo, (in_buffer (sess g)) as [bi Li] eqn:Ei.
  cbn [app] in Hh. rewrite Permutation_swap in Hh.
  destruct (holds_dtor _ _ _ _ (2 + extra + Pos.to_nat (brk (store g))) Hh ltac:(lia)) as (h1 & Hr1 & Hh1).
  destruct (holds_dtor _ _ _ _ (2 + extra + Pos.to_nat (brk h1)) Hh1 ltac:(lia)) as (h2 & Hr2 & Hh2).
  exists h2. split; [|done]. unfold TcpSession_dtor. erewrite ST_bind_run by done. cbn. rewrite Hs, Eo, Ei. cbn.
  erewrite ST_bind_run by done.
  assert (Hd1 : in_store (@buf_dtor _ _ (HeapBuffers sys_readable extra) bi) (heap_view g) = Ok (tt, set_store h1 (heap_view g))) by (apply in_store_run; exact Hr1).
  rewrite (ST_bind_run _ _ _ _ _ Hd1). apply (in_store_run _ (set_store h1 (heap_view g))). exact Hr2.
Qed.


(** ** More than one block *)

(** When more is waiting than the largest block holds, the read handler does not return:
    [FastExpand] links one block after the other. *)
Lemma heap_read_spins this user_task `{!ReactorOps} sys_readable extra uc ur ud sys_readv local t g :
  open_ok local g -> state (sess g) = STATE_CONNECTED ->
  MAX_TO_ALLOC < sys_readable (calls g) <= MAX_SIZE ->
  HandleRead (Hbuf := HeapBuffers sys_readable extra) this user_task uc ur ud sys_readv t (heap_view g) = NoFuel.
Proof.
  intros [[Hh _ _ _ Hm _] Hi] Hs Hn. unfold in_ready in Hi. rewrite Hs in Hi. destruct Hi as [[Hf Hsp] Hw].
  destruct (in_buffer (sess g)) as [b L] eqn:Ei. unfold buffers_of in Hh. rewrite Ei in Hh. cbn [fst snd app] in *.
  rewrite Permutation_swap in Hh. pose proof (holds_first _ _ _ _ Hh) as Hb. unfold MAX_SIZE, MAX_TO_ALLOC in *.
  assert (Hamount : read_amount (sys_readable (calls g)) b SIZE_MAX = sys_readable (calls g)).
  { unfold read_amount, SIZE_MAX. simpl. destruct (Z.eqb_spec (sys_readable (calls g)) 0); [lia|].
    destruct (Z.gtb_spec (2 ^ 64 - 1) (sys_readable (calls g))); lia. }
  assert (Hspin : forall fuel, Buffer_Read (sys_readable (calls g)) (kernel_readv (sys_readv (calls g))) fuel b SIZE_MAX (store g) = NoFuel).
  { apply (Buffer_Read_spins (store g) b L); try done; rewrite Hamount; unfold MAX_SIZE; [lia|].
    rewrite roomy_room; [|unfold MAX_SIZE; lia|split; [done|congruence]].
    unfold read_room, MAX_TO_ALLOC. destruct (round_up _); lia. }
  unfold HandleRead, in_buffer_Read. unfold mbind at 1, ST_bind at 1. erewrite ST_bind_run by done. erewrite ST_bind_run by done.
  unfold mbind at 1, ST_bind at 1, in_store. cbn [heap_view map_env sess map_sess in_buffer calls]. rewrite Ei.
  unfold buf_Read, HeapBuffers, with_fuel. cbn. cbn in Hspin. by rewrite Hspin.
Qed.
