(* ===== verification/EchoServe.v ===== *)
(** * The echo server with any number of sessions.

    Sources: hare/net/tcp/serve.cc ([NewSession] and the functions it hands out),
    hare/net/io_pool.h ([PoolItem]), hare/net/tcp/session.cc and samples/echo/echo_serve.cc.

    One item of the pool: its cycle, the map of its sessions, and the session objects.  The
    sessions share the cycle, its queue of tasks and the memory of their buffers; what runs
    on one of them is the code of Session.v with the callbacks of Echo.v.  A session object
    lives as long as something refers to it: the map, or a task in the queue (the functions
    [Append], [Send] and [HandleWrite] queue hold a [shared_ptr]). *)

From S2P Require Import Prelude Cache EventLoop NetError Session Echo.

Record Conn {B : Type} := mkConn {
  c_sess : TcpSessionImpl B; c_calls : nat; c_wire : list cell; c_trace : list Obs
}.
Arguments Conn : clear implicits.
Arguments mkConn {B}.

(** [sessions]: descriptor and session object; [conns]: the objects. *)
Record Hub {B H : Type} := mkHub {
  hub_loop : World;
  sessions : gmap Z positive;
  conns : gmap positive (Conn B);
  hub_tasks : list (positive * STask B);
  hub_store : H;
  hub_next : positive
}.
Arguments Hub : clear implicits.
Arguments mkHub {B H}.

(** What happens to a session from outside: the cycle reports events, or the user calls. *)
Inductive call := CallWake (events time : Z) | CallShutdown | CallForceClose | CallStartRead | CallStopRead.

Definition op_of {B} (c : call) : op B :=
  match c with
  | CallWake ev t => OpCallback ev t
  | CallShutdown => OpShutdown | CallForceClose => OpForceClose
  | CallStartRead => OpStartRead | CallStopRead => OpStopRead
  end.

Inductive hub_op :=
  | HubAccept (fd : Z)
  | HubCall (k : positive) (c : call)
  | HubTask.

Section hub.
Context {B H : Type}.
Implicit Types hub : Hub B H.

Definition tasks_of (k : positive) (l : list (positive * STask B)) : list (STask B) :=
  snd <$> filter (fun x => fst x = k) l.

(** A session in its surroundings, as Session.v sees it. *)
Definition env_of (k : positive) (c : Conn B) hub : GEnv B H :=
  mkEnv (hub_loop hub) (c_sess c) (tasks_of k (hub_tasks hub)) (c_calls c) (c_wire c) (c_trace c) (hub_store hub).

Definition conn_of (s : GEnv B H) : Conn B := mkConn (sess s) (calls s) (wire s) (trace s).

(** The function of [SetDestroy]: in the thread of the item it runs at once; nothing else in
    a handler looks at the map, so that it is done here when the handler has returned. *)
Fixpoint settle (sfd : Z) (reported : list Obs) (m : gmap Z positive) : outcome (gmap Z positive) :=
  match reported with
  | [] => Ok m
  | ObsDestroy :: l =>
    _ ← hare_assert (bool_decide (is_Some (m !! sfd)));
    settle sfd l (delete sfd m)
  | _ :: l => settle sfd l m
  end.

(** The state after a handler of session [k] has left [s]. *)
Definition put_env (k : positive) (c : Conn B) (s : GEnv B H) hub : outcome (Hub B H) :=
  m ← settle (socket (sess s)) (drop (length (c_trace c)) (trace s)) (sessions hub);
  Ok (mkHub (loop s) m (<[k := conn_of s]> (conns hub))
        (hub_tasks hub ++ (pair k <$> drop (length (tasks_of k (hub_tasks hub))) (stasks s)))
        (store s) (hub_next hub)).

Definition referenced (k : positive) hub : bool :=
  bool_decide (k ∈ (map_to_list (sessions hub)).*2) || bool_decide (k ∈ (hub_tasks hub).*1).

(** The operations of the buffers of each session. *)
Context (bufs : positive -> BufferOps B H).

(** The last reference is gone. *)
Definition release (k : positive) hub : outcome (Hub B H) :=
  match conns hub !! k with
  | None => Ok hub
  | Some c =>
    if referenced k hub then Ok hub
    else
      r ← TcpSession_dtor (Hbuf := bufs k) (env_of k c hub);
      Ok (mkHub (hub_loop hub) (sessions hub) (delete k (conns hub)) (hub_tasks hub) (store (snd r)) (hub_next hub))
  end.

(** [m] runs on session [k]; nothing happens when the object is gone ([tie], [lock]). *)
Definition on (k : positive) (m : ST (GEnv B H) unit) hub : outcome (Hub B H) :=
  match conns hub !! k with
  | None => Ok hub
  | Some c =>
    r ← m (env_of k c hub);
    hub ← put_env k c (snd r) hub;
    release k hub
  end.

Context (this : positive) (user_task : positive -> L unit) `{Hbe : !ReactorOps}.
(** The system calls on the socket of each session. *)
Context (sys_readv : positive -> nat -> Z * list cell) (sys_writev : positive -> nat -> list cell -> Z)
        (sys_shutdown errno : positive -> nat -> Z).

Definition destroyed (k : positive) : ST (GEnv B H) unit := mret tt.

Definition hub_run (k : positive) (o : op B) : ST (GEnv B H) unit :=
  echo_op (Hbuf := bufs k) this user_task destroyed (sys_readv k) (sys_writev k) (sys_shutdown k) (errno k) o.

Definition hub_task (k : positive) (t : STask B) : ST (GEnv B H) unit :=
  run_stask (Hbuf := bufs k) this user_task echo_connect echo_write
    (echo_high_water this user_task destroyed (errno k)) destroyed (sys_writev k) t.

(** [NewSession] of the server for the descriptor [fd], in the thread of the item: the
    session object, the map, the callbacks of the user, [ConnectEstablished]. *)
Definition hub_accept (fd : Z) hub : outcome (Hub B H) :=
  r ← TcpSession_ctor (Hbuf := bufs (hub_next hub)) (hub_next hub) fd (Some (hub_loop hub)) (hub_store hub);
  let '(ses, w, h) := r in
  let k := hub_next hub in
  _ ← hare_assert (bool_decide (sessions hub !! fd = None));
  on k (hub_run k (OpEstablished k))
    (mkHub w (<[fd := k]> (sessions hub)) (<[k := mkConn (Echo_NewSession (SetDestroy k ses)) 0 [] []]> (conns hub))
       (hub_tasks hub) h (Pos.succ k)).

Definition hub_step (o : hub_op) hub : outcome (Hub B H) :=
  match o with
  | HubAccept fd => hub_accept fd hub
  | HubCall k c => on k (hub_run k (op_of c)) hub
  | HubTask =>
    match hub_tasks hub with
    | [] => Ok hub
    | (k, t) :: l =>
      on k (hub_task k t) (mkHub (hub_loop hub) (sessions hub) (conns hub) l (hub_store hub) (hub_next hub))
    end
  end.

Fixpoint hub_steps (l : list hub_op) hub : outcome (Hub B H) :=
  match l with [] => Ok hub | o :: l => hub ← hub_step o hub; hub_steps l hub end.

(** An item of the pool before the first session. *)
Definition hub_new (w : World) (h : H) : Hub B H := mkHub w ∅ ∅ [] h 1.
End hub.
