(* ===== verification/EchoServeSpec.v ===== *)
(** * The echo server with any number of sessions: proofs on byte sequences.

    What each session does to the map and to the queue ([lives]), the invariant of an item
    of the pool ([hub_ok]), and that every step keeps it. *)

From S2P Require Import Prelude Cache EventLoop EventLoopSpec NetError Session SessionSpec Echo EchoServe.

(** ** A handler and the reports of a session *)

Definition is_destroy (o : Obs) : bool := match o with ObsDestroy => true | _ => false end.
Definition destroys (l : list Obs) : Z := Zlen (filter (fun o => is_destroy o = true) l).
Definition is_closed (x : SessionState) : bool := bool_decide (x = STATE_DISCONNECTED).

(** Reports minus what the state of the session says about them: 0 for a session that
    reports its end when it ends. *)
Definition balance (s : Env) : Z := destroys (trace s) - Z.b2z (is_closed (state (sess s))).

Record lives (s s' : Env) : Prop := {
  lv_forward : forward s s';
  lv_socket : socket (sess s') = socket (sess s);
  lv_read : read (sess s') = read (sess s);
  lv_tasks : stasks s `prefix_of` stasks s';
  lv_trace : trace s `prefix_of` trace s';
  lv_balance : balance s' = balance s
}.

#[export] Instance lives_refl : Reflexive lives.
Proof. intros s. split; try done. Qed.
#[export] Instance lives_trans : Transitive lives.
Proof. intros s1 s2 s3 [] []. split; try congruence; by etrans. Qed.

Lemma destroys_app l1 l2 : destroys (l1 ++ l2) = destroys l1 + destroys l2.
Proof. unfold destroys, Zlen. rewrite filter_app, length_app. lia. Qed.

Lemma lives_same s s' :
  socket (sess s') = socket (sess s) -> state (sess s') = state (sess s) -> read (sess s') = read (sess s) ->
  stasks s `prefix_of` stasks s' -> trace s' = trace s -> lives s s'.
Proof. intros H1 H2 H3 H4 H5. split; try done; unfold forward, balance; rewrite ?H2, ?H5; done. Qed.

Lemma lives_trace s o : o <> ObsDestroy -> lives s (set_trace (trace s ++ [o]) s).
Proof.
  intros Ho. split; try done; cbn; [unfold forward; cbn; lia|by apply prefix_app_r|]. unfold balance. cbn.
  rewrite destroys_app. assert (destroys [o] = 0) by (by destruct o). lia.
Qed.

Section one_session.
Context (this : positive) (user_task : positive -> L unit) `{Hbe : !ReactorOps}.
Context (sys_readv : nat -> Z * list cell) (sys_writev : nat -> list cell -> Z) (sys_shutdown errno : nat -> Z).

#[local] Abbreviation destroyed := (@destroyed (list cell) unit).

Lemma lives_ret {A} (a : A) : respects lives (mret a).
Proof. apply (respects_ret lives). Qed.

Lemma lives_connect k f : respects lives (echo_connect k f).
Proof. apply lives_ret. Qed.

(** [HandleClose] ends the session and reports it, once. *)
Lemma lives_HandleClose : respects lives (HandleClose this user_task echo_connect destroyed).
Proof.
  intros s a s' H. unfold HandleClose in H. erewrite ST_bind_run in H by done.
  apply ST_bind_Ok in H as (u & s0 & H0 & H). unfold lift, hare_assert in H0.
  destruct (_ || _) eqn:Hst; [|done]. injection H0 as _ <-. erewrite ST_bind_run in H by done.
  set (s1 := set_sess (with_state STATE_DISCONNECTED (sess s)) s) in *.
  assert (Hev : forall f : eptr -> L unit, respects lives (e ← sget sess; in_loop (f (event e)))).
  { intros f. apply (respects_bind lives); [apply (respects_sget lives)|intros e].
    apply (respects_in_loop lives). intros. by apply lives_same. }
  apply ST_bind_Ok in H as (u1 & s2 & H2 & H). apply ST_bind_Ok in H as (u2 & s3 & H3 & H).
  apply ST_bind_Ok in H as (u3 & s4 & H4 & H). apply ST_bind_Ok in H as (u4 & s5 & H5 & H).
  assert (Hl : lives s1 s5).
  { trans s2; [by apply (Hev _ _ _ _ H2)|]. trans s3; [by apply (Hev _ _ _ _ H3)|]. trans s4; [|by apply (Hev _ _ _ _ H5)].
    revert H4. apply respects_call_connect; try apply _; [intros; by apply lives_same|apply lives_trace|apply lives_connect]. }
  erewrite ST_bind_run in H by done. destruct (destroy (sess s5)) as [k|]; [|done].
  apply ST_bind_Ok in H as (u5 & s6 & [= _ <-] & H).
  change (Ok (tt, set_trace (trace s5 ++ [ObsDestroy]) s5) = Ok (a, s')) in H. injection H as _ <-. destruct Hl as [Hf Hso Hrd Htk Htr Hb]. unfold forward, balance in *. cbn in Hf, Hso, Hrd, Htk, Htr, Hb.
  assert (Hs5 : state (sess s5) = STATE_DISCONNECTED) by (destruct (state (sess s5)); simpl in Hf; try lia; done).
  assert (Hs : is_closed (state (sess s)) = false).
  { unfold is_closed. apply bool_decide_eq_false. intros Hc. by rewrite Hc in Hst. }
  split; try done; cbn.
  - unfold forward. cbn. rewrite Hs5. destruct (state (sess s)); simpl; lia.
  - by apply prefix_app_r.
  - unfold balance. cbn. rewrite destroys_app, Hs. rewrite Hs5 in *. change (destroys [ObsDestroy]) with 1.
    change (is_closed STATE_DISCONNECTED) with true in *. cbn in *. lia.
Qed.

Lemma lives_ForceClose : respects lives (ForceClose this user_task echo_connect destroyed errno).
Proof.
  unfold ForceClose. apply (respects_bind lives); [apply (respects_sget lives)|]. intros s.
  apply (respects_if lives); [|apply lives_ret]. apply (respects_bind lives); [apply lives_HandleClose|]. intros _.
  apply (respects_bind lives); [apply (respects_sget lives)|]. intros ?. apply lives_ret.
Qed.

Lemma lives_high k : respects lives (echo_high_water this user_task destroyed errno k).
Proof. apply (respects_bind lives); [apply lives_ForceClose|intros _; apply lives_ret]. Qed.

Lemma lives_read k t : respects lives (echo_read k t).
Proof.
  intros s a s' H. unfold echo_read in H. erewrite ST_bind_run in H by done. unfold mbind, ST_bind in H. rewrite Append_bytes in H.
  case_bool_decide; injection H as _ <-; apply lives_same; try done. by apply prefix_app_r.
Qed.

(** The other primitive changes. *)
Lemma lives_queue s t : lives s (set_stasks (stasks s ++ [t]) s).
Proof. apply lives_same; try done. by apply prefix_app_r. Qed.

Lemma lives_state s x :
  state (sess s) <> STATE_DISCONNECTED -> x <> STATE_DISCONNECTED -> rank (state (sess s)) <= rank x ->
  lives s (set_sess (with_state x (sess s)) s).
Proof.
  intros Hs Hx Hr. split; try done. unfold balance, is_closed. cbn. by rewrite !bool_decide_eq_false_2.
Qed.

#[local] Ltac prims :=
  try apply _; try apply lives_trace; try apply lives_connect; try apply lives_HandleClose; try apply lives_queue;
  try apply lives_high; try apply lives_read; try (intros; apply lives_ret); try (intros; by apply lives_same);
  try (intros; apply lives_queue); try (by intros s Hs; apply lives_state; rewrite ?Hs).

Lemma lives_op (o : op (list cell)) :
  (match o with OpTask | OpAppend _ | OpSend _ => False | _ => True end) ->
  respects lives (echo_op this user_task destroyed sys_readv sys_writev sys_shutdown errno o).
Proof.
  intros Ho. assert (Hcase : still o \/ exists ev t, o = OpCallback ev t) by (destruct o; naive_solver).
  destruct Hcase as [Hst|(ev & t & ->)].
  - apply respects_still; prims; done.
  - apply respects_wake; prims; done.
Qed.

(** A task that has been taken from the queue. *)
Lemma lives_task t :
  respects lives (run_stask this user_task echo_connect echo_write (echo_high_water this user_task destroyed errno)
    destroyed sys_writev t).
Proof.
  destruct t as [b|].
  - intros s a s' H.
    apply (respects_appended _ _ _ echo_read _ _ _ (fun _ => (0, [])) _ errno errno lives) in H; prims.
    etrans; [|exact H]. by apply lives_same.
  - apply (respects_written _ _ _ echo_read _ _ _ (fun _ => (0, [])) _ errno errno lives); prims.
Qed.
End one_session.

(** ** The invariant of an item *)

Abbreviation ByteHub := (Hub (list cell) unit).
Abbreviation byte_bufs := (fun _ : positive => ByteBuffers).

Section item.
Implicit Types hub : ByteHub.

(** The objects, the map and the queue agree: an open session is in the map under its
    descriptor, and only open ones are; what is queued belongs to sessions that exist, and
    a session that exists is referred to, [x] excepted. *)
Record hub_wf (x : option positive) hub : Prop := {
  hw_map : forall fd k, sessions hub !! fd = Some k ->
    exists c, conns hub !! k = Some c /\ socket (c_sess c) = fd /\ state (c_sess c) <> STATE_DISCONNECTED;
  hw_open : forall k c, conns hub !! k = Some c -> state (c_sess c) <> STATE_DISCONNECTED ->
    sessions hub !! socket (c_sess c) = Some k;
  hw_tasks : forall k t, (k, t) ∈ hub_tasks hub -> is_Some (conns hub !! k);
  hw_refs : forall k c, conns hub !! k = Some c -> Some k <> x -> referenced k hub = true;
  hw_next : forall k, (hub_next hub <= k)%positive -> conns hub !! k = None;
  hw_ended : forall k c, conns hub !! k = Some c -> balance (env_of k c hub) = 0
}.

(** What the sessions have received: [got k] for session [k]. *)
Definition hub_bytes (got : positive -> list cell) hub : Prop :=
  (forall k c, conns hub !! k = Some c -> total (env_of k c hub) = got k /\ ready (env_of k c hub)) /\
  (forall k, (hub_next hub <= k)%positive -> got k = []).

Lemma tasks_of_app {B} k (l1 l2 : list (positive * STask B)) : tasks_of k (l1 ++ l2) = tasks_of k l1 ++ tasks_of k l2.
Proof. unfold tasks_of. by rewrite filter_app, fmap_app. Qed.

Lemma tasks_of_same {B} k (l : list (STask B)) : tasks_of k (pair k <$> l) = l.
Proof. unfold tasks_of. induction l as [|t l IH]; [done|]. rewrite fmap_cons, filter_cons_True by done. rewrite fmap_cons. by f_equal. Qed.

Lemma tasks_of_other {B} k j (l : list (STask B)) : j <> k -> tasks_of j (pair k <$> l) = [].
Proof.
  intros Hne. unfold tasks_of. induction l as [|t l IH]; [done|].
  rewrite fmap_cons, filter_cons_False by (simpl; congruence). exact IH.
Qed.

(** The queue after a handler of [k] that only appends. *)
Lemma tasks_of_put {B} k j (q : list (positive * STask B)) l :
  tasks_of k q `prefix_of` l ->
  tasks_of j (q ++ (pair k <$> drop (length (tasks_of k q)) l)) = if decide (j = k) then l else tasks_of j q.
Proof.
  intros [r ->]. rewrite tasks_of_app, drop_app_length. case_decide as Hj; [subst; by rewrite tasks_of_same|].
  by rewrite tasks_of_other, app_nil_r.
Qed.

(** The map after the reports of a handler. *)
Lemma settle_spec fd l m :
  destroys l = 0 \/ (destroys l = 1 /\ is_Some (m !! fd)) ->
  settle fd l m = Ok (if decide (destroys l = 0) then m else delete fd m).
Proof.
  assert (Hcons : forall o l, destroys (o :: l) = Z.b2z (is_destroy o) + destroys l).
  { intros o k. change (o :: k) with ([o] ++ k). rewrite destroys_app. by destruct o. }
  assert (Hnn : forall l, 0 <= destroys l) by (intros k; unfold destroys, Zlen; lia).
  assert (H0 : forall l m, destroys l = 0 -> settle fd l m = Ok m).
  { clear l m. induction l as [|o l IH]; intros m Hl; [done|]. rewrite Hcons in Hl. specialize (Hnn l).
    destruct o; simpl in *; try (apply IH; lia). lia. }
  intros [Hl|[Hl Hfd]]; [by rewrite decide_True, H0|]. rewrite decide_False by lia.
  induction l as [|o l IH]; [done|]. rewrite Hcons in Hl. destruct o; simpl in *; try (apply IH; lia).
  rewrite bool_decide_eq_true_2 by done. simpl. apply H0. lia.
Qed.

Lemma referenced_spec k hub :
  referenced k hub = true <-> (exists fd, sessions hub !! fd = Some k) \/ (exists t, (k, t) ∈ hub_tasks hub).
Proof.
  unfold referenced. rewrite orb_true_iff, !bool_decide_eq_true. f_equiv.
  - rewrite list_elem_of_fmap. split.
    + intros ([fd j] & -> & Hin%elem_of_map_to_list). by exists fd.
    + intros [fd Hfd]. exists (fd, k). by rewrite elem_of_map_to_list.
  - rewrite list_elem_of_fmap. split; [intros ([j t] & -> & Hin); by exists t|intros [t Ht]; by exists (k, t)].
Qed.

(** What the reports of a handler say. *)
Lemma lives_ends s s' :
  lives s s' -> balance s = 0 ->
  let d := drop (length (trace s)) (trace s') in
  (state (sess s) <> STATE_DISCONNECTED /\ state (sess s') = STATE_DISCONNECTED /\ destroys d = 1) \/
  ((state (sess s) = STATE_DISCONNECTED <-> state (sess s') = STATE_DISCONNECTED) /\ destroys d = 0).
Proof.
  intros [Hf _ _ _ [d Hd] Hb] H0. cbv zeta. rewrite Hd, drop_app_length. unfold balance in *. rewrite Hd, destroys_app in Hb.
  unfold forward, is_closed in *.
  destruct (decide (state (sess s) = STATE_DISCONNECTED)) as [Hs|Hs], (decide (state (sess s') = STATE_DISCONNECTED)) as [Hs'|Hs'].
  - right. rewrite Hs, Hs' in *. simpl in *. split; [done|lia].
  - exfalso. rewrite Hs in Hf. simpl in Hf. by destruct (state (sess s')).
  - left. rewrite (bool_decide_eq_false_2 _ Hs), Hs' in *. simpl in *. split_and!; [done|done|lia].
  - right. rewrite (bool_decide_eq_false_2 _ Hs), (bool_decide_eq_false_2 _ Hs') in *. simpl in *. split; [tauto|lia].
Qed.

Lemma put_env_spec x k c s hub :
  hub_wf x hub -> x = None \/ x = Some k -> conns hub !! k = Some c -> lives (env_of k c hub) s ->
  exists hub1, put_env k c s hub = Ok hub1 /\ hub_wf (Some k) hub1 /\ conns hub1 = <[k := conn_of s]> (conns hub) /\
    hub_next hub1 = hub_next hub /\ hub_loop hub1 = loop s /\
    (forall j, tasks_of j (hub_tasks hub1) = if decide (j = k) then stasks s else tasks_of j (hub_tasks hub)).
Proof.
  intros Hwf Hx Hc Hl. pose proof (lives_ends _ _ Hl (hw_ended _ _ Hwf _ _ Hc)) as Hend. cbv zeta in Hend.
  destruct Hl as [Hf Hso _ Htk Htr Hb]. cbn [env_of sess trace stasks] in *.
  set (d := drop (length (c_trace c)) (trace s)) in *.
  set (m := if decide (destroys d = 0) then sessions hub else delete (socket (c_sess c)) (sessions hub)).
  assert (Hset : settle (socket (sess s)) d (sessions hub) = Ok m).
  { rewrite Hso. apply settle_spec. destruct Hend as [(Ho & _ & H1)|[_ H1]]; [right|by left]. split; [done|].
    rewrite (hw_open _ _ Hwf _ _ Hc Ho). by eexists. }
  assert (Hm : forall fd j, m !! fd = Some j <->
    sessions hub !! fd = Some j /\ (j = k -> state (sess s) <> STATE_DISCONNECTED)).
  { intros fd j. subst m. destruct Hend as [(Ho & Hcl & H1)|[Hiff H1]].
    - rewrite decide_False by lia. rewrite lookup_delete_Some. pose proof (hw_open _ _ Hwf _ _ Hc Ho) as Hfd. split.
      + intros [Hne Hj]. split; [done|]. intros ->. destruct (hw_map _ _ Hwf _ _ Hj) as (c' & Hc' & Hs' & _). congruence.
      + intros [Hj Hk]. split; [|done]. intros <-. assert (j = k) by congruence. by apply Hk.
    - rewrite decide_True by done. split; [|naive_solver]. intros Hj. split; [done|]. intros ->.
      destruct (hw_map _ _ Hwf _ _ Hj) as (c' & Hc' & _ & Hopen). assert (c' = c) as -> by congruence. tauto. }
  eexists. split; [unfold put_env; fold d; by rewrite Hset|]. split; [|split; [done|split; [done|split; [done|intros j; by apply tasks_of_put]]]].
  split; cbn.
  - intros fd j [Hj Hk]%Hm. destruct (hw_map _ _ Hwf _ _ Hj) as (c' & Hc' & Hs' & Hopen).
    destruct (decide (j = k)) as [->|Hne]; [|exists c'; by rewrite lookup_insert_ne].
    exists (conn_of s). rewrite lookup_insert_eq. cbn. assert (c' = c) as -> by congruence. split_and!; [done|congruence|by apply Hk].
  - intros j c' [[<- <-]|[Hne Hj]]%lookup_insert_Some Hopen; apply Hm; cbn in *.
    + rewrite Hso. split; [|done]. apply (hw_open _ _ Hwf _ _ Hc). naive_solver.
    + split; [by apply (hw_open _ _ Hwf)|congruence].
  - intros j t [Hin|(u & [= -> ->] & _)%list_elem_of_fmap]%elem_of_app; [|by rewrite lookup_insert_eq].
    destruct (decide (j = k)) as [->|Hne]; [by rewrite lookup_insert_eq|]. rewrite lookup_insert_ne by done.
    exact (hw_tasks _ _ Hwf _ _ Hin).
  - intros j c' [[<- _]|[Hne Hj]]%lookup_insert_Some Hs; [done|].
    apply (hw_refs _ _ Hwf) in Hj; [|destruct Hx as [-> | ->]; congruence]. apply referenced_spec in Hj as [[fd Hfd]|[t Ht]];
      apply referenced_spec; cbn; [left; exists fd; apply Hm; split; [done|congruence]|right; exists t; apply elem_of_app; by left].
  - intros j Hj. apply lookup_insert_None. split; [by apply (hw_next _ _ Hwf)|]. intros ->.
    by rewrite (hw_next _ _ Hwf _ Hj) in Hc.
  - intros j c' [[<- <-]|[Hne Hj]]%lookup_insert_Some; [|exact (hw_ended _ _ Hwf _ _ Hj)].
    unfold balance in *. cbn in *. rewrite Hb. apply (hw_ended _ _ Hwf _ _ Hc).
Qed.

(** The last reference to a session goes away only when the session has been closed. *)
Lemma release_spec k hub :
  hub_wf (Some k) hub ->
  exists hub', release byte_bufs k hub = Ok hub' /\ hub_wf None hub' /\ hub_next hub' = hub_next hub /\ hub_loop hub' = hub_loop hub /\
    hub_tasks hub' = hub_tasks hub /\
    (forall j, conns hub' !! j = conns hub !! j \/ (j = k /\ conns hub' !! j = None)).
Proof.
  intros Hwf. unfold release. destruct (conns hub !! k) as [c|] eqn:Hc.
  2: { exists hub. split; [done|]. split; [|by split_and!; try done; left]. destruct Hwf as [H1 H2 H3 H4 H5 H6]. split; try done.
       intros j c Hj _. apply (H4 _ _ Hj). congruence. }
  destruct (referenced k hub) eqn:Hr.
  { exists hub. split; [done|]. split; [|by split_and!; try done; left]. destruct Hwf as [H1 H2 H3 H4 H5 H6]. split; try done.
    intros j c' Hj _. destruct (decide (j = k)) as [->|Hne]; [done|]. apply (H4 _ _ Hj). congruence. }
  assert (Hs : state (c_sess c) = STATE_DISCONNECTED).
  { destruct (decide (state (c_sess c) = STATE_DISCONNECTED)) as [|Hne]; [done|]. pose proof (hw_open _ _ Hwf _ _ Hc Hne) as Hfd.
    assert (referenced k hub = true) as Hx by (apply referenced_spec; left; by eexists). congruence. }
  assert (Hnk : forall fd, sessions hub !! fd <> Some k).
  { intros fd Hfd. assert (referenced k hub = true) as Hx by (apply referenced_spec; left; by eexists). congruence. }
  assert (Hnt : forall t, (k, t) ∉ hub_tasks hub).
  { intros t Ht. assert (referenced k hub = true) as Hx by (apply referenced_spec; right; by eexists). congruence. }
  eexists. split.
  { unfold TcpSession_dtor, mbind, ST_bind, sget. cbn. rewrite Hs. cbn. done. }
  split; [|split_and!; try done; cbn; intros j; destruct (decide (j = k)) as [->|Hne];
           [right; by rewrite lookup_delete_eq|left; by rewrite lookup_delete_ne]].
  destruct Hwf as [H1 H2 H3 H4 H5 H6]. split; cbn.
  - intros fd j Hj. destruct (H1 _ _ Hj) as (c' & Hc' & Hrest). exists c'. rewrite lookup_delete_ne; [done|]. intros <-. by destruct (Hnk fd).
  - intros j c' [_ Hj]%lookup_delete_Some. by apply H2.
  - intros j t Hin. destruct (H3 _ _ Hin) as [c' Hc']. exists c'. rewrite lookup_delete_ne; [done|]. intros <-. by apply (Hnt t).
  - intros j c' [Hne Hj]%lookup_delete_Some _. apply (H4 _ _ Hj). congruence.
  - intros j Hj. apply lookup_delete_None. right. by apply H5.
  - intros j c' [_ Hj]%lookup_delete_Some. exact (H6 _ _ Hj).
Qed.

(** A handler on one session of the item: it succeeds when the session's own code does, and
    the other sessions see the loop only. *)
Lemma on_spec x k m c s a hub :
  hub_wf x hub -> x = None \/ x = Some k -> conns hub !! k = Some c -> respects lives m ->
  m (env_of k c hub) = Ok (a, s) ->
  exists hub', on byte_bufs k m hub = Ok hub' /\ hub_wf None hub' /\ hub_next hub' = hub_next hub /\
    (forall j c', conns hub' !! j = Some c' ->
       if decide (j = k) then env_of j c' hub' = s
       else conns hub !! j = Some c' /\ env_of j c' hub' = set_loop (loop s) (env_of j c' hub)).
Proof.
  intros Hwf Hx Hc Hm Hr.
  destruct (put_env_spec x k c s hub Hwf Hx Hc (Hm _ _ _ Hr)) as (hub1 & H1 & Hwf1 & Hc1 & Hn1 & Hl1 & Ht1).
  destruct (release_spec k hub1 Hwf1) as (hub2 & H2 & Hwf2 & Hn2 & Hl2 & Ht2 & Hc2).
  exists hub2. split; [unfold on; rewrite Hc, Hr; simpl; by rewrite H1|]. split; [done|]. split; [congruence|].
  intros j c' Hj. destruct (Hc2 j) as [Hj1|[_ Hj1]]; [|congruence]. rewrite Hj1, Hc1 in Hj.
  assert (Hs : forall e e' : Env, loop e = loop e' -> sess e = sess e' -> stasks e = stasks e' -> calls e = calls e' ->
    wire e = wire e' -> trace e = trace e' -> e = e').
  { intros [] [] ? ? ? ? ? ?. simpl in *. subst. f_equal. by destruct store, store0. }
  case_decide as Hjk.
  - subst j. rewrite lookup_insert_eq in Hj. injection Hj as <-.
    apply Hs; try done; cbn; [by rewrite Hl2|]. by rewrite Ht2, Ht1, decide_True.
  - rewrite lookup_insert_ne in Hj by done. split; [done|].
    apply Hs; try done; cbn; [by rewrite Hl2|]. by rewrite Ht2, Ht1, decide_False.
Qed.
End item.

(** ** Steps *)

(** A session whose connection is established is connected. *)
Definition same_state (s s' : Env) : Prop := state (sess s') = state (sess s).
#[export] Instance same_state_preorder : PreOrder same_state.
Proof. split; [done|]. intros x y z H1 H2. unfold same_state in *. congruence. Qed.

Lemma established_connected this user_task `{Hbe : !ReactorOps} p (s : Env) a s' :
  ConnectEstablished this user_task echo_connect p s = Ok (a, s') -> state (sess s') = STATE_CONNECTED.
Proof.
  intros H. unfold ConnectEstablished in H. erewrite ST_bind_run in H by done. apply ST_bind_Ok in H as (u & s0 & _ & H).
  apply ST_bind_Ok in H as (u1 & s1 & [= _ <-] & H).
  assert (Hf : same_state (set_sess (with_state STATE_CONNECTED (sess s0)) s0) s'); [|exact Hf].
  revert H. apply (respects_bind same_state).
  - apply respects_call_connect; try apply _; try done. intros k f. apply (respects_ret same_state).
  - intros _. apply (respects_bind same_state); [apply (respects_sget same_state)|intros e].
    repeat (apply (respects_bind same_state); [by apply (respects_in_loop same_state)|intros ?]).
    apply (respects_bind same_state); [apply (respects_sget same_state)|intros ?].
    by apply (respects_in_loop same_state).
Qed.

Section steps.
Context (this : positive) (user_task : positive -> L unit) `{Hbe : !ReactorOps}.
Context (sys_readv : positive -> nat -> Z * list cell) (sys_writev : positive -> nat -> list cell -> Z)
        (sys_shutdown errno : positive -> nat -> Z).
Implicit Types hub : ByteHub.

#[local] Abbreviation hub_step := (hub_step byte_bufs this user_task sys_readv sys_writev sys_shutdown errno).
#[local] Abbreviation hub_steps := (hub_steps byte_bufs this user_task sys_readv sys_writev sys_shutdown errno).

(** The bytes session [k] reads in a step, and in a sequence of steps. *)
Definition hub_got (o : hub_op) hub (k : positive) : list cell :=
  match o with
  | HubCall j c =>
    match conns hub !! j with
    | Some x => if decide (j = k) then received_by (sys_readv j) (op_of c) (env_of j x hub) else []
    | None => []
    end
  | _ => []
  end.

Fixpoint hub_received (k : positive) (l : list hub_op) hub : list cell :=
  match l with
  | [] => []
  | o :: l => hub_got o hub k ++ match hub_step o hub with Ok hub1 => hub_received k l hub1 | _ => [] end
  end.

Lemma destroyed_carries k : respects carries (@destroyed (list cell) unit k).
Proof. apply (respects_ret carries). Qed.

(** What the sessions hold after a handler of one of them. *)
Lemma on_bytes x k m c s a hub hub' got b :
  hub_wf x hub -> x = None \/ x = Some k -> conns hub !! k = Some c -> respects lives m ->
  m (env_of k c hub) = Ok (a, s) -> on byte_bufs k m hub = Ok hub' ->
  (forall j c', j <> k -> conns hub !! j = Some c' -> total (env_of j c' hub) = got j /\ ready (env_of j c' hub)) ->
  (forall j, (hub_next hub <= j)%positive -> got j = []) -> total s = got k ++ b -> ready s ->
  hub_wf None hub' /\ hub_bytes (fun j => got j ++ if decide (k = j) then b else []) hub'.
Proof.
  intros Hwf Hx Hc Hm Hr Hon Hb Hn Htot Hrdy.
  destruct (on_spec x k m c s a hub Hwf Hx Hc Hm Hr) as (hub1 & Hon' & Hwf1 & Hn1 & He). assert (hub1 = hub') as -> by congruence.
  split; [done|]. split.
  - intros j c' Hj. specialize (He j c' Hj). destruct (decide (k = j)) as [<-|Hne].
    + rewrite decide_True in He by done. by rewrite He.
    + rewrite decide_False in He by done. destruct He as [Hj' ->]. rewrite app_nil_r. exact (Hb j c' (not_eq_sym Hne) Hj').
  - intros j Hj. rewrite Hn1 in Hj. rewrite Hn by done. rewrite decide_False; [done|]. intros <-.
    by rewrite (hw_next _ _ Hwf _ Hj) in Hc.
Qed.

(** Without the first task. *)
Lemma wf_popped hub k t l :
  hub_wf None hub -> hub_tasks hub = (k, t) :: l ->
  hub_wf (Some k) (mkHub (hub_loop hub) (sessions hub) (conns hub) l (hub_store hub) (hub_next hub)).
Proof.
  intros [H1 H2 H3 H4 H5 H6] Hl. split; try done; cbn.
  - intros j u Hin. apply (H3 j u). rewrite Hl. by right.
  - intros j c Hj Hne. specialize (H4 _ _ Hj ltac:(done)). apply referenced_spec in H4 as [[fd Hfd]|[u Hu]]; apply referenced_spec; cbn.
    + left. by exists fd.
    + right. exists u. rewrite Hl in Hu. apply elem_of_cons in Hu as [[= -> ->]|Hu]; [done|done].
Qed.

(** With a new session. *)
Lemma wf_accepted hub fd ses w h :
  hub_wf None hub -> sessions hub !! fd = None -> socket ses = fd -> state ses = STATE_CONNECTING ->
  hub_wf None (mkHub w (<[fd := hub_next hub]> (sessions hub)) (<[hub_next hub := mkConn ses 0 [] []]> (conns hub))
    (hub_tasks hub) h (Pos.succ (hub_next hub))).
Proof.
  intros [H1 H2 H3 H4 H5 H6] Hfd Hso Hst. pose proof (H5 _ (Pos.le_refl _)) as Hnew. split; cbn.
  - intros fd' k [[<- <-]|[Hne Hk]]%lookup_insert_Some.
    + eexists. rewrite lookup_insert_eq. split; [done|]. cbn. by rewrite Hst.
    + destruct (H1 _ _ Hk) as (c & Hc & Hrest). exists c. rewrite lookup_insert_ne; [done|]. congruence.
  - intros k c [[<- <-]|[Hne Hk]]%lookup_insert_Some Hopen; cbn in *; [by rewrite Hso, lookup_insert_eq|].
    specialize (H2 _ _ Hk Hopen). rewrite lookup_insert_ne; [done|]. congruence.
  - intros k t Hin. destruct (H3 _ _ Hin) as [c Hc]. exists c. rewrite lookup_insert_ne; [done|]. congruence.
  - intros k c [[<- _]|[Hne Hk]]%lookup_insert_Some _; apply referenced_spec; cbn; [left; exists fd; apply lookup_insert_eq|].
    specialize (H4 _ _ Hk ltac:(done)). apply referenced_spec in H4 as [[fd' Hf]|Ht]; [|by right].
    left. exists fd'. rewrite lookup_insert_ne; [done|]. congruence.
  - intros k Hk. apply lookup_insert_None. split; [apply H5; lia|lia].
  - intros k c [[<- <-]|[Hne Hk]]%lookup_insert_Some; [|exact (H6 _ _ Hk)].
    unfold balance, is_closed. cbn. by rewrite Hst.
Qed.

Lemma tasks_of_fresh hub k : hub_wf None hub -> conns hub !! k = None -> tasks_of k (hub_tasks hub) = [].
Proof.
  intros Hwf Hk. unfold tasks_of. destruct (filter _ _) as [|[j t] r] eqn:E; [done|]. exfalso.
  assert (Hin : (j, t) ∈ filter (fun x => fst x = k) (hub_tasks hub)) by (rewrite E; left).
  apply list_elem_of_filter in Hin as [Hj Hin]. cbn in Hj. subst j.
  destruct (hw_tasks _ _ Hwf _ _ Hin) as [c Hc]. congruence.
Qed.

(** A run of a handler that returned. *)
Lemma on_inv k m c hub hub' :
  on byte_bufs k m hub = Ok hub' -> conns hub !! k = Some c -> exists a s, m (env_of k c hub) = Ok (a, s).
Proof. unfold on. intros H Hc. rewrite Hc in H. destruct (m (env_of k c hub)) as [[a s]| | | |]; try done. by exists a, s. Qed.

Lemma call_step k c hub hub' got :
  hub_wf None hub -> hub_bytes got hub -> hub_step (HubCall k c) hub = Ok hub' ->
  hub_wf None hub' /\ hub_bytes (fun j => got j ++ hub_got (HubCall k c) hub j) hub'.
Proof.
  intros Hwf [Hb Hn] H. simpl in H. unfold hub_got. destruct (conns hub !! k) as [x|] eqn:Hk.
  2: { unfold on in H. rewrite Hk in H. injection H as <-. split; [done|]. split; [intros j y Hj|intros j Hj]; rewrite app_nil_r; auto. }
  destruct (on_inv _ _ _ _ _ H Hk) as ([] & s & Hr). destruct (Hb _ _ Hk) as [Htot Hrdy].
  destruct (echo_op_spec this user_task _ _ _ _ _ destroyed_carries (op_of c) _ s ltac:(by destruct c) Hr) as [Ht Hready].
  eapply (on_bytes None k); eauto; [|by rewrite Ht, Htot].
  apply lives_op. by destruct c.
Qed.

Lemma task_step hub hub' got :
  hub_wf None hub -> hub_bytes got hub -> hub_step HubTask hub = Ok hub' ->
  hub_wf None hub' /\ hub_bytes (fun j => got j ++ []) hub'.
Proof.
  intros Hwf [Hb Hn] H. simpl in H. destruct (hub_tasks hub) as [|[k t] l] eqn:El.
  { injection H as <-. split; [done|]. split; [intros j y Hj|intros j Hj]; rewrite app_nil_r; auto. }
  set (hub1 := mkHub _ _ _ _ _ _) in H. pose proof (wf_popped hub k t l Hwf El) as Hwf1. fold hub1 in Hwf1.
  destruct (hw_tasks _ _ Hwf k t) as [x Hk]; [rewrite El; by left|]. destruct (Hb _ _ Hk) as [Htot Hrdy].
  destruct (on_inv _ _ x _ _ H Hk) as ([] & s & Hr).
  assert (Htk : stasks (env_of k x hub) = t :: tasks_of k l).
  { cbn. rewrite El. unfold tasks_of. by rewrite filter_cons_True. }
  assert (Hop : echo_op this user_task destroyed (sys_readv k) (sys_writev k) (sys_shutdown k) (errno k) OpTask (env_of k x hub) = Ok (tt, s)).
  { unfold echo_op, run_op, run_next. erewrite ST_bind_run by done. rewrite Htk. erewrite ST_bind_run by done. exact Hr. }
  destruct (echo_op_spec this user_task _ _ _ _ _ destroyed_carries OpTask _ s ltac:(done) Hop) as [Ht Hready].
  destruct (on_bytes (Some k) k _ x s tt hub1 hub' got [] Hwf1 ltac:(by right) Hk (lives_task _ _ _ _ _) Hr H) as [Hw [Hb1 Hb2]].
  - intros j y Hne Hj. destruct (Hb _ _ Hj) as [H1 H2].
    assert (Hsame : env_of j y hub1 = env_of j y hub).
    { unfold env_of. cbn. f_equal. rewrite El. unfold tasks_of. by rewrite filter_cons_False by (cbn; congruence). }
    by rewrite Hsame.
  - exact Hn.
  - by rewrite Ht, Htot.
  - by apply Hready.
  - split; [done|]. split; [intros j y Hj; destruct (Hb1 _ _ Hj) as [H1 H2]|intros j Hj; specialize (Hb2 _ Hj)];
      destruct (decide (k = j)); done.
Qed.

(** The item with a new session, before [ConnectEstablished]. *)
Definition accepted (w : World) (fd : Z) (ses : TcpSessionImpl (list cell)) hub : ByteHub :=
  mkHub w (<[fd := hub_next hub]> (sessions hub)) (<[hub_next hub := mkConn ses 0 [] []]> (conns hub))
    (hub_tasks hub) (hub_store hub) (Pos.succ (hub_next hub)).

Lemma accept_inv fd hub hub' :
  hub_step (HubAccept fd) hub = Ok hub' ->
  exists w ses, sessions hub !! fd = None /\ socket ses = fd /\ state ses = STATE_CONNECTING /\
    out_buffer ses = [] /\ in_buffer ses = [] /\ is_Some (read ses) /\
    on byte_bufs (hub_next hub) (hub_run byte_bufs this user_task sys_readv sys_writev sys_shutdown errno (hub_next hub) (OpEstablished (hub_next hub)))
      (accepted w fd ses hub) = Ok hub'.
Proof.
  simpl. unfold hub_accept, TcpSession_ctor, new_obj. simpl. destruct (sessions hub !! fd) eqn:Hfd; [done|]. simpl. intros H.
  eexists _, _. split; [done|]. split; [|split; [|split; [|split; [|split; [|exact H]]]]]; try done.
Qed.

Lemma accept_step fd hub hub' got :
  hub_wf None hub -> hub_bytes got hub -> hub_step (HubAccept fd) hub = Ok hub' ->
  hub_wf None hub' /\ hub_bytes (fun j => got j ++ []) hub'.
Proof.
  intros Hwf [Hb Hn] (w & ses & Hfd & Hso & Hst & Hout & Hin & Hrd & H)%accept_inv. set (k := hub_next hub) in *.
  pose proof (wf_accepted hub fd ses w (hub_store hub) Hwf Hfd Hso Hst) as Hwf1. fold k in Hwf1. fold (accepted w fd ses hub) in Hwf1.
  assert (Hk : conns (accepted w fd ses hub) !! k = Some (mkConn ses 0 [] [])) by apply lookup_insert_eq.
  pose proof (tasks_of_fresh hub k Hwf (hw_next _ _ Hwf k (Pos.le_refl k))) as Hfresh.
  destruct (on_inv _ _ _ _ _ H Hk) as ([] & s & Hr).
  destruct (carries_quiet this user_task _ (sys_readv k) (sys_writev k) (sys_shutdown k) (errno k) destroyed_carries
    (OpEstablished k) ltac:(done) _ _ _ Hr) as [Hst' Hin' Hrd' _].
  cbn in Hin', Hrd'. assert (Htot : total s = []).
  { unfold total. rewrite Hst', Hin', Hin, app_nil_r. unfold stream.
    cbn [env_of accepted wire sess stasks c_wire c_sess hub_tasks]. by rewrite Hout, Hfresh. }
  assert (Hlv : respects lives (hub_run byte_bufs this user_task sys_readv sys_writev sys_shutdown errno k (OpEstablished k))) by (by apply lives_op).
  destruct (on_bytes None k _ _ s tt _ hub' got [] Hwf1 ltac:(by left) Hk Hlv Hr H) as [Hw [Hb1 Hb2]].
  - intros j y Hne Hj. cbn in Hj. rewrite lookup_insert_ne in Hj by done. exact (Hb _ _ Hj).
  - intros j Hj. apply Hn. cbn in Hj. fold k. lia.
  - by rewrite Htot, Hn.
  - split_and!; [by rewrite (established_connected _ _ _ _ _ _ Hr)|by rewrite Hrd'|intros _; by rewrite Hin'].
  - split; [done|]. split; [intros j y Hj; destruct (Hb1 _ _ Hj) as [H1 H2]|intros j Hj; specialize (Hb2 _ Hj)];
      destruct (decide (k = j)); done.
Qed.

Lemma release_sessions k hub hub' : release byte_bufs k hub = Ok hub' -> sessions hub' = sessions hub.
Proof.
  unfold release. destruct (conns hub !! k); [|by intros [= <-]]. destruct (referenced k hub); [by intros [= <-]|].
  intros (r & _ & [= <-])%bind_Ok. done.
Qed.

(** A connection that is taken leaves a session in the map. *)
Lemma accept_opens fd hub hub' :
  hub_wf None hub -> hub_step (HubAccept fd) hub = Ok hub' -> is_Some (sessions hub' !! fd).
Proof.
  intros Hwf (w & ses & Hfd & Hso & Hst & _ & _ & _ & H)%accept_inv. set (k := hub_next hub) in *.
  assert (Hwf1 : hub_wf None (accepted w fd ses hub)) by exact (wf_accepted hub fd ses w (hub_store hub) Hwf Hfd Hso Hst).
  assert (Hk : conns (accepted w fd ses hub) !! k = Some (mkConn ses 0 [] [])) by apply lookup_insert_eq.
  destruct (on_inv _ _ _ _ _ H Hk) as ([] & s & Hr).
  assert (Hlv : lives (env_of k (mkConn ses 0 [] []) (accepted w fd ses hub)) s).
  { assert (Hop : respects lives (hub_run byte_bufs this user_task sys_readv sys_writev sys_shutdown errno k (OpEstablished k))) by (by apply lives_op).
    exact (Hop _ _ _ Hr). }
  destruct (put_env_spec None k _ s _ Hwf1 ltac:(by left) Hk Hlv) as (hub1 & H1 & Hwf2 & Hc1 & _).
  unfold on in H. rewrite Hk, Hr in H. simpl in H. rewrite H1 in H. simpl in H. apply release_sessions in H. rewrite H.
  exists k. pose proof (lv_socket _ _ Hlv) as Hs. cbn in Hs. rewrite Hso in Hs. rewrite <- Hs.
  apply (hw_open _ _ Hwf2 k (conn_of s)); [by rewrite Hc1, lookup_insert_eq|]. cbn.
  by rewrite (established_connected _ _ _ _ _ _ Hr).
Qed.

Lemma hub_step_spec o hub hub' got :
  hub_wf None hub -> hub_bytes got hub -> hub_step o hub = Ok hub' ->
  hub_wf None hub' /\ hub_bytes (fun j => got j ++ hub_got o hub j) hub'.
Proof. destruct o; [apply accept_step|apply call_step|apply task_step]. Qed.

Lemma hub_steps_spec l : forall hub hub' got,
  hub_wf None hub -> hub_bytes got hub -> hub_steps l hub = Ok hub' ->
  hub_wf None hub' /\ hub_bytes (fun j => got j ++ hub_received j l hub) hub'.
Proof.
  induction l as [|o l IH]; intros hub hub' got Hwf Hb H; simpl in *.
  - injection H as <-. split; [done|]. destruct Hb as [H1 H2]. split; intros *; rewrite app_nil_r; auto.
  - destruct (hub_step o hub) as [hub1| | | |] eqn:E; try done. destruct (hub_step_spec o hub hub1 got Hwf Hb E) as [Hwf1 Hb1].
    destruct (IH hub1 hub' _ Hwf1 Hb1 H) as [Hwf2 [Hb2 Hb3]]. split; [done|].
    split; [intros j c Hj; rewrite (assoc_L (++)); by apply Hb2|intros j Hj; rewrite (assoc_L (++)); by apply Hb3].
Qed.

Lemma hub_new_spec w : hub_wf None (hub_new w tt) /\ hub_bytes (fun _ => []) (hub_new w tt).
Proof. split; split; cbn; intros *; rewrite ?lookup_empty; try done; set_solver. Qed.

(** Every session echoes what it has received. *)
Lemma hub_echoes w l hub k c :
  hub_steps l (hub_new w tt) = Ok hub -> conns hub !! k = Some c ->
  let s := env_of k c hub in let got := hub_received k l (hub_new w tt) in
  stream s ++ in_buffer (sess s) = got /\ wire s `prefix_of` got /\ (state (sess s) = STATE_CONNECTED -> stream s = got).
Proof.
  intros Hrun Hk s got. destruct (hub_new_spec w) as [Hwf0 Hb0]. destruct (hub_steps_spec l _ _ _ Hwf0 Hb0 Hrun) as [_ [Hb _]].
  destruct (Hb k c Hk) as [Ht (_ & _ & Hin)]. fold s in Ht, Hin. change (total s = got) in Ht. unfold total in Ht. split_and!.
  - exact Ht.
  - rewrite <- Ht. unfold stream. rewrite <- !(assoc_L (++)). by apply prefix_app_r.
  - intros Hc. by rewrite <- Ht, (Hin Hc), app_nil_r.
Qed.

(** The code of a session that a step runs: the session, the code, and the item in which it
    runs. *)
Definition session_code (o : hub_op) hub : option (positive * ST Env unit * ByteHub) :=
  match o with
  | HubAccept fd =>
    let k := hub_next hub in
    match TcpSession_ctor k fd (Some (hub_loop hub)) tt with
    | Ok (ses, w, _) =>
      Some (k, hub_run byte_bufs this user_task sys_readv sys_writev sys_shutdown errno k (OpEstablished k),
            accepted w fd (Echo_NewSession (SetDestroy k ses)) hub)
    | _ => None
    end
  | HubCall k c => Some (k, hub_run byte_bufs this user_task sys_readv sys_writev sys_shutdown errno k (op_of c), hub)
  | HubTask =>
    match hub_tasks hub with
    | [] => None
    | (k, t) :: l =>
      Some (k, hub_task byte_bufs this user_task sys_writev errno k t,
            mkHub (hub_loop hub) (sessions hub) (conns hub) l (hub_store hub) (hub_next hub))
    end
  end.

(** The kernel does not hand out a descriptor that a session still has. *)
Definition fd_unused (o : hub_op) hub : Prop :=
  match o with HubAccept fd => forall k c, conns hub !! k = Some c -> socket (c_sess c) <> fd | _ => True end.

(** A step fails only if the code of its session does on the session itself: no assertion of
    the map and none in the destructor of a session fails. *)
Lemma hub_step_progress o hub :
  hub_wf None hub -> fd_unused o hub ->
  (exists hub', hub_step o hub = Ok hub') \/
  exists k m hub1 c, session_code o hub = Some (k, m, hub1) /\ conns hub1 !! k = Some c /\ forall r, m (env_of k c hub1) <> Ok r.
Proof.
  intros Hwf Hfd. set (cd := session_code o hub).
  assert (H : forall x k m hub1 c, cd = Some (k, m, hub1) -> hub_wf x hub1 -> x = None \/ x = Some k -> conns hub1 !! k = Some c ->
    respects lives m -> (exists hub', on byte_bufs k m hub1 = Ok hub') \/
    exists k m hub1 c, cd = Some (k, m, hub1) /\ conns hub1 !! k = Some c /\ forall r, m (env_of k c hub1) <> Ok r).
  { intros x k m hub1 c Hcd Hw Hx Hc Hm. destruct (m (env_of k c hub1)) as [[a s]| | | |] eqn:E.
    - left. destruct (on_spec x k m c s a hub1 Hw Hx Hc Hm E) as (hub' & H & _). by exists hub'.
    - right. exists k, m, hub1, c. split_and!; try done. intros r. congruence.
    - right. exists k, m, hub1, c. split_and!; try done. intros r. congruence.
    - right. exists k, m, hub1, c. split_and!; try done. intros r. congruence.
    - right. exists k, m, hub1, c. split_and!; try done. intros r. congruence. }
  destruct o as [fd|k c|].
  - assert (Hno : sessions hub !! fd = None).
    { destruct (sessions hub !! fd) as [j|] eqn:E; [|done]. destruct (hw_map _ _ Hwf _ _ E) as (c & Hc & Hs & _). by destruct (Hfd j c Hc). }
    set (k := hub_next hub) in *.
    cbn [EchoServe.hub_step]. unfold hub_accept, TcpSession_ctor, new_obj. simpl. rewrite Hno. simpl.
    eapply (H None _ (hub_run byte_bufs this user_task sys_readv sys_writev sys_shutdown errno k (OpEstablished k)));
      [reflexivity|by apply wf_accepted|by left|apply lookup_insert_eq|by apply lives_op].
  - cbn [EchoServe.hub_step]. destruct (conns hub !! k) as [x|] eqn:Hk; [|left; exists hub; unfold on; by rewrite Hk].
    eapply (H None _ (hub_run byte_bufs this user_task sys_readv sys_writev sys_shutdown errno k (op_of c)));
      [reflexivity|done|by left|exact Hk|]. apply lives_op. by destruct c.
  - cbn [EchoServe.hub_step]. subst cd. unfold session_code in *. destruct (hub_tasks hub) as [|[k t] l] eqn:El; [left; by exists hub|].
    destruct (hw_tasks _ _ Hwf k t) as [x Hk]; [rewrite El; by left|].
    eapply (H (Some k)); [reflexivity|by eapply wf_popped|by right|exact Hk|apply lives_task].
Qed.

(** A handler fails only if the code of its session does: no assertion of the item and no
    destructor of a session fails. *)
Lemma on_fails x k m c hub :
  hub_wf x hub -> x = None \/ x = Some k -> conns hub !! k = Some c -> respects lives m ->
  (forall hub', on byte_bufs k m hub <> Ok hub') -> forall r, m (env_of k c hub) <> Ok r.
Proof.
  intros Hwf Hx Hc Hm Hno [a s] Hr. destruct (on_spec x k m c s a hub Hwf Hx Hc Hm Hr) as (hub' & H & _). by apply (Hno hub').
Qed.
End steps.
