(* ===== verification/EchoServeHeap.v ===== *)
(** * The echo server with any number of sessions, on the buffers of the program.

    The buffers of all sessions of an item and those in its queue live in one heap; what the
    item does on byte sequences it does on the heap, with all buffers well-formed and apart,
    and a session that dies gives its nodes back. *)

From S2P Require Import Prelude Cache CacheList CacheRing CacheListSpec CacheListMove CacheListGrow.
From S2P Require Import NetBuffer NetBufferSpec NetBufferIO BufferSep.
From S2P Require Import EventLoop EventLoopSpec NetError Session SessionSpec Echo SessionHeap SessionHeapSpec.
From S2P Require Import EchoServe EchoServeSpec.

(** ** Views of an item *)

Definition map_conn {B C} (f : B -> C) (c : Conn B) : Conn C :=
  mkConn (map_sess f (c_sess c)) (c_calls c) (c_wire c) (c_trace c).

Definition map_tagged {B C} (f : B -> C) (x : positive * STask B) : positive * STask C := (fst x, map_task f (snd x)).

Definition map_hub {B C H H'} (f : B -> C) (h : H') (hub : Hub B H) : Hub C H' :=
  mkHub (hub_loop hub) (sessions hub) (map_conn f <$> conns hub) (map_tagged f <$> hub_tasks hub) h (hub_next hub).

Abbreviation PHub := (Hub placed_buffer Heap).
Definition heap_hub (hub : PHub) : Hub BufferImpl Heap := map_hub fst (hub_store hub) hub.
Definition byte_hub (hub : PHub) : ByteHub := map_hub (fun x => bytes_of (snd x)) tt hub.

Lemma tasks_of_map {B C} (f : B -> C) k l : tasks_of k (map_tagged f <$> l) = map_task f <$> tasks_of k l.
Proof.
  induction l as [|[j t] l IH]; [done|]. rewrite fmap_cons. unfold tasks_of in *. rewrite !filter_cons. cbn.
  case_decide; [|done]. cbn. by f_equal.
Qed.

Lemma env_of_view {B C H H'} (f : B -> C) (h : H') k c (hub : Hub B H) :
  env_of k (map_conn f c) (map_hub f h hub) = map_env f h (env_of k c hub).
Proof.
  unfold env_of at 1. change (hub_tasks (map_hub f h hub)) with (map_tagged f <$> hub_tasks hub). by rewrite tasks_of_map.
Qed.

Lemma referenced_view {B C H H'} (f : B -> C) (h : H') k (hub : Hub B H) :
  referenced k (map_hub f h hub) = referenced k hub.
Proof. unfold referenced. cbn. by rewrite <- list_fmap_compose. Qed.

Lemma put_env_view {B C H H'} (f : B -> C) (h h' : H') k c g (hub : Hub B H) :
  put_env k (map_conn f c) (map_env f h g) (map_hub f h' hub) = (hub1 ← put_env k c g hub; Ok (map_hub f h hub1)).
Proof.
  unfold put_env. change (hub_tasks (map_hub f h' hub)) with (map_tagged f <$> hub_tasks hub). rewrite tasks_of_map, length_fmap.
  change (settle (socket (sess (map_env f h g))) _ _) with
    (settle (socket (sess g)) (drop (length (c_trace c)) (trace g)) (sessions hub)).
  destruct (settle _ _ _) as [m| | | |]; try done. cbn [mbind outcome_bind]. unfold map_hub.
  cbn [hub_loop sessions conns hub_tasks hub_store hub_next]. rewrite fmap_insert, fmap_app.
  cbn [stasks map_env]. rewrite <- fmap_drop, <- !list_fmap_compose. done.
Qed.

(** ** The buffers of an item *)

Definition conn_buffers (m : gmap positive (Conn placed_buffer)) : list placed_buffer :=
  map_to_list m ≫= (fun x => [out_buffer (c_sess (snd x)); in_buffer (c_sess (snd x))]).

Definition others {B} (k : positive) (l : list (positive * STask B)) : list (STask B) :=
  snd <$> filter (fun x => fst x <> k) l.

Definition all_buffers (hub : PHub) : list placed_buffer :=
  conn_buffers (conns hub) ++ task_buffers (snd <$> hub_tasks hub).

(** Those that are not session [k]'s. *)
Definition rest_of (k : positive) (hub : PHub) : list placed_buffer :=
  conn_buffers (delete k (conns hub)) ++ task_buffers (others k (hub_tasks hub)).

Lemma task_buffers_cons {B} (t : STask B) l : task_buffers (t :: l) = task_buffers [t] ++ task_buffers l.
Proof. apply (task_buffers_app [t] l). Qed.

Lemma task_buffers_split {B} k (l : list (positive * STask B)) :
  task_buffers (snd <$> l) ≡ₚ task_buffers (tasks_of k l) ++ task_buffers (others k l).
Proof.
  induction l as [|[j t] l IH]; [done|]. rewrite fmap_cons, task_buffers_cons, IH. unfold tasks_of, others. rewrite !filter_cons. cbn.
  destruct (decide (j = k)) as [->|Hne].
  - rewrite decide_False by tauto. rewrite fmap_cons, (task_buffers_cons t (snd <$> _)). by rewrite (assoc_L (++)).
  - rewrite decide_True by done. rewrite fmap_cons, (task_buffers_cons t (snd <$> _)). solve_Permutation.
Qed.

Lemma conn_buffers_delete m k c :
  m !! k = Some c ->
  conn_buffers m ≡ₚ out_buffer (c_sess c) :: in_buffer (c_sess c) :: conn_buffers (delete k m).
Proof. intros Hk. unfold conn_buffers. by rewrite <- (map_to_list_delete m k c Hk). Qed.

Lemma all_buffers_split hub k c :
  conns hub !! k = Some c -> all_buffers hub ≡ₚ buffers_of (env_of k c hub) ++ rest_of k hub.
Proof.
  intros Hk. unfold all_buffers, rest_of, buffers_of. cbn.
  rewrite (conn_buffers_delete _ _ _ Hk), (task_buffers_split k). cbn. solve_Permutation.
Qed.

(** The session can go on: [good] without the heap. *)
Record fit (g : PEnv) : Prop := {
  ft_head : head_placed (fst (out_buffer (sess g))) (snd (out_buffer (sess g)));
  ft_short : (length (front (snd (out_buffer (sess g)))) < NUM_WRITE_IOVEC)%nat;
  ft_tasks : Forall (fun x => single (snd x)) (task_buffers (stasks g));
  ft_max : max_read (fst (in_buffer (sess g))) = HARE_MAX_READ_DEFAULT;
  ft_read : is_Some (read (sess g));
  ft_ready : in_ready g
}.

Lemma open_fit local g : open_ok local g <-> holds (store g) (buffers_of g ++ local) /\ fit g.
Proof. split; [intros [[] ?]; by split|intros [? []]; by split]. Qed.

Record hub_good (hub : PHub) : Prop := {
  hg_holds : holds (hub_store hub) (all_buffers hub);
  hg_fit : forall k c, conns hub !! k = Some c -> fit (env_of k c hub)
}.

Lemma hub_good_open hub k c : hub_good hub -> conns hub !! k = Some c -> open_ok (rest_of k hub) (env_of k c hub).
Proof.
  intros [Hh Hf] Hk. apply open_fit. split; [|by apply Hf].
  change (store (env_of k c hub)) with (hub_store hub). by rewrite <- all_buffers_split.
Qed.

(** The item without session [k]. *)
Definition dropped (k : positive) (h : Heap) (hub : PHub) : PHub :=
  mkHub (hub_loop hub) (sessions hub) (delete k (conns hub)) (hub_tasks hub) h (hub_next hub).

Lemma unreferenced_tasks {B H} k (hub : Hub B H) : referenced k hub = false -> tasks_of k (hub_tasks hub) = [].
Proof.
  unfold referenced. intros [_ Hn]%orb_false_iff. apply bool_decide_eq_false in Hn. unfold tasks_of.
  destruct (filter _ _) as [|[j t] r] eqn:E; [done|]. exfalso. apply Hn.
  assert (Hin : (j, t) ∈ filter (fun x => fst x = k) (hub_tasks hub)) by (rewrite E; left).
  apply list_elem_of_filter in Hin as [Hj Hin]. cbn in Hj. subst j. apply list_elem_of_fmap. by exists (k, t).
Qed.

(** ** Steps *)

Section steps.
Context (this : positive) (user_task : positive -> L unit) `{Hbe : !ReactorOps}.
Context (sys_readable : positive -> nat -> Z) (extra : nat).
Context (sys_readv : positive -> nat -> Z * list cell) (sys_writev : positive -> nat -> list cell -> Z)
        (sys_shutdown errno : positive -> nat -> Z).

Definition heap_bufs (k : positive) : BufferOps BufferImpl Heap := HeapBuffers (sys_readable k) extra.

#[local] Abbreviation heap_step := (hub_step heap_bufs this user_task sys_readv sys_writev sys_shutdown errno).
#[local] Abbreviation byte_step := (hub_step byte_bufs this user_task sys_readv sys_writev sys_shutdown errno).
#[local] Abbreviation heap_steps := (hub_steps heap_bufs this user_task sys_readv sys_writev sys_shutdown errno).
#[local] Abbreviation byte_steps := (hub_steps byte_bufs this user_task sys_readv sys_writev sys_shutdown errno).

(** The item after a handler of session [k], on the buffers with their chains. *)
Lemma put_env_good hub k c g hub1 :
  conns hub !! k = Some c -> (forall j x, j <> k -> conns hub !! j = Some x -> fit (env_of j x hub)) ->
  open_ok (rest_of k hub) g -> tasks_of k (hub_tasks hub) `prefix_of` stasks g ->
  put_env k c g hub = Ok hub1 ->
  hub_good hub1 /\ conns hub1 !! k = Some (conn_of g) /\ env_of k (conn_of g) hub1 = g /\ rest_of k hub1 = rest_of k hub.
Proof.
  intros Hk Hfit Hg Hp Hput. unfold put_env in Hput. destruct (settle _ _ _) as [m| | | |]; try done. injection Hput as <-.
  set (hub1 := mkHub _ _ _ _ _ _).
  assert (Htk : forall j, tasks_of j (hub_tasks hub1) = if decide (j = k) then stasks g else tasks_of j (hub_tasks hub))
    by (intros j; by apply tasks_of_put).
  assert (Hc1 : conns hub1 !! k = Some (conn_of g)) by apply lookup_insert_eq.
  assert (He : env_of k (conn_of g) hub1 = g).
  { unfold env_of. rewrite Htk, decide_True by done. by destruct g. }
  assert (Hrest : rest_of k hub1 = rest_of k hub).
  { unfold rest_of. f_equal; [cbn; by rewrite delete_insert_eq|]. f_equal. unfold others. cbn. rewrite filter_app, fmap_app.
    rewrite <- (app_nil_r (snd <$> filter _ (hub_tasks hub))) at 2. f_equal. clear.
    induction (drop _ (stasks g)) as [|t l IH]; [done|]. rewrite fmap_cons, filter_cons_False by tauto. exact IH. }
  apply open_fit in Hg as [Hh Hf]. split; [|done]. split.
  - rewrite (all_buffers_split hub1 k (conn_of g) Hc1), He, Hrest. exact Hh.
  - intros j x Hj. change (conns hub1) with (<[k := conn_of g]> (conns hub)) in Hj.
    apply lookup_insert_Some in Hj as [[<- <-]|[Hne Hj]]; [by rewrite He|].
    assert (Henv : env_of j x hub1 = set_store (store g) (set_loop (loop g) (env_of j x hub))).
    { unfold env_of. by rewrite Htk, decide_False. }
    rewrite Henv. destruct (Hfit j x (not_eq_sym Hne) Hj). by split.
Qed.

(** The last reference goes away: the bytes of the session are gone, and so are its nodes. *)
Lemma release_refines hub k hubb :
  hub_good hub -> release byte_bufs k (byte_hub hub) = Ok hubb ->
  exists hub', release heap_bufs k (heap_hub hub) = Ok (heap_hub hub') /\ hubb = byte_hub hub' /\ hub_good hub'.
Proof.
  intros Hgood. unfold release. change (conns (byte_hub hub)) with (map_conn (fun x : placed_buffer => bytes_of (snd x)) <$> conns hub).
  change (conns (heap_hub hub)) with (map_conn (@fst BufferImpl layout) <$> conns hub). rewrite !lookup_fmap.
  destruct (conns hub !! k) as [c|] eqn:Hk; cbn [fmap option_fmap option_map]; [|intros [= <-]; by exists hub].
  unfold byte_hub, heap_hub. rewrite !referenced_view. destruct (referenced k hub) eqn:Hr; [intros [= <-]; by exists hub|].
  rewrite !env_of_view. intros H.
  assert (Hst : state (c_sess c) = STATE_DISCONNECTED).
  { destruct (decide (state (c_sess c) = STATE_DISCONNECTED)) as [|Hne]; [done|].
    unfold TcpSession_dtor, mbind, ST_bind, sget in H. cbn in H. by rewrite bool_decide_eq_false_2 in H. }
  assert (Hbyte : hubb = byte_hub (dropped k (hub_store hub) hub)).
  { unfold TcpSession_dtor, mbind, ST_bind, sget in H. cbn in H. rewrite bool_decide_eq_true_2 in H by done.
    injection H as <-. unfold byte_hub, dropped, map_hub. cbn. by rewrite fmap_delete. }
  assert (Hnt : tasks_of k (hub_tasks hub) = []) by (by apply unreferenced_tasks).
  destruct (heap_dtor (sys_readable k) extra (rest_of k hub) (env_of k c hub)) as (h' & Hrun & Hh').
  { split; [apply (hub_good_open hub k c Hgood Hk)|done]. }
  exists (dropped k h' hub). split_and!.
  - change (map_env fst (hub_store hub) (env_of k c hub)) with (heap_view (env_of k c hub)). unfold heap_bufs. rewrite Hrun.
    cbn [mbind outcome_bind]. unfold dropped, map_hub. cbn. by rewrite fmap_delete.
  - done.
  - split.
    + unfold dropped, all_buffers. cbn [conns hub_tasks hub_store]. rewrite (task_buffers_split k), Hnt. cbn in Hh'.
      change (stasks (env_of k c hub)) with (tasks_of k (hub_tasks hub)) in Hh'. rewrite Hnt in Hh'. exact Hh'.
    + intros j x Hj. change (delete k (conns hub) !! j = Some x) in Hj. apply lookup_delete_Some in Hj as [Hne Hj]. destruct (hg_fit _ Hgood j x Hj). by split.
Qed.

(** A handler of session [k]. *)
Lemma on_refines hub k c mh mb g hubb :
  conns hub !! k = Some c -> (forall j x, j <> k -> conns hub !! j = Some x -> fit (env_of j x hub)) ->
  mh (heap_view (env_of k c hub)) = Ok (tt, heap_view g) -> mb (bytes_view (env_of k c hub)) = Ok (tt, bytes_view g) ->
  open_ok (rest_of k hub) g -> tasks_of k (hub_tasks hub) `prefix_of` stasks g ->
  on byte_bufs k mb (byte_hub hub) = Ok hubb ->
  exists hub', on heap_bufs k mh (heap_hub hub) = Ok (heap_hub hub') /\ hubb = byte_hub hub' /\ hub_good hub'.
Proof.
  intros Hk Hfit Hmh Hmb Hg Hp. unfold on.
  change (conns (byte_hub hub)) with (map_conn (fun x : placed_buffer => bytes_of (snd x)) <$> conns hub).
  change (conns (heap_hub hub)) with (map_conn (@fst BufferImpl layout) <$> conns hub). rewrite !lookup_fmap, Hk.
  cbn [fmap option_fmap option_map]. unfold byte_hub at 1 2, heap_hub at 1 2. rewrite !env_of_view.
  change (map_env (fun x : placed_buffer => bytes_of (snd x)) tt (env_of k c hub)) with (bytes_view (env_of k c hub)).
  change (map_env fst (hub_store hub) (env_of k c hub)) with (heap_view (env_of k c hub)). rewrite Hmh, Hmb. cbn [mbind outcome_bind snd].
  unfold bytes_view, heap_view. rewrite !put_env_view. destruct (put_env k c g hub) as [hub1| | | |] eqn:Hput; try done.
  destruct (put_env_good hub k c g hub1 Hk Hfit Hg Hp Hput) as (Hgood & Hk1 & He & _). cbn [mbind outcome_bind].
  assert (Hs : store g = hub_store hub1) by (by rewrite <- He). rewrite Hs.
  change (map_hub (fun x : placed_buffer => bytes_of (snd x)) tt hub1) with (byte_hub hub1).
  change (map_hub fst (hub_store hub1) hub1) with (heap_hub hub1). by apply release_refines.
Qed.

(** ** The steps of the item *)

(** The condition of a step on the heap, as for a single session. *)
Definition orderly_hub (o : hub_op) (hub : Hub BufferImpl Heap) : Prop :=
  match o with
  | HubAccept _ => True
  | HubCall k c =>
    match conns hub !! k with Some x => orderly (op_of c) (env_of k x hub) | None => True end
  | HubTask =>
    match hub_tasks hub with
    | (k, _) :: _ => match conns hub !! k with Some x => orderly OpTask (env_of k x hub) | None => True end
    | [] => True
    end
  end.

Fixpoint orderly_steps (l : list hub_op) (hub : Hub BufferImpl Heap) : Prop :=
  match l with
  | [] => True
  | o :: l => orderly_hub o hub /\ match heap_step o hub with Ok hub1 => orderly_steps l hub1 | _ => True end
  end.

Context (Hwritev : forall k n b, sys_writev k n b <= Zlen b).
Context (Hreadable : forall k n, 0 <= sys_readable k n <= MAX_TO_ALLOC).
Context (Hreadv : forall k n, Zlen (snd (sys_readv k n)) = Z.max 0 (fst (sys_readv k n)) /\
                              fst (sys_readv k n) <= read_room (to_read (sys_readable k) n)).

Lemma sim_destroyed local (k : positive) : sim (closed_ok local) (closed_ok local) (destroyed k) (destroyed k).
Proof. apply sim_ret. Qed.

Lemma view_lookup hub k c :
  conns hub !! k = Some c ->
  conns (byte_hub hub) !! k = Some (map_conn (fun x => bytes_of (snd x)) c) /\
  conns (heap_hub hub) !! k = Some (map_conn fst c) /\
  env_of k (map_conn (fun x => bytes_of (snd x)) c) (byte_hub hub) = bytes_view (env_of k c hub) /\
  env_of k (map_conn fst c) (heap_hub hub) = heap_view (env_of k c hub).
Proof.
  intros Hk. unfold byte_hub, heap_hub. split_and!; [cbn; by rewrite lookup_fmap, Hk..|apply env_of_view|apply env_of_view].
Qed.

Lemma view_lookup_None hub k :
  conns hub !! k = None -> conns (byte_hub hub) !! k = None /\ conns (heap_hub hub) !! k = None.
Proof. intros Hk. unfold byte_hub, heap_hub. cbn. by rewrite !lookup_fmap, Hk. Qed.

Lemma call_refines k c hub hubb :
  hub_good hub -> orderly_hub (HubCall k c) (heap_hub hub) -> byte_step (HubCall k c) (byte_hub hub) = Ok hubb ->
  exists hub', heap_step (HubCall k c) (heap_hub hub) = Ok (heap_hub hub') /\ hubb = byte_hub hub' /\ hub_good hub'.
Proof using Hwritev Hreadable Hreadv.
  intros Hgood Ho H. cbn [hub_step] in *. destruct (conns hub !! k) as [x|] eqn:Hk.
  2: { destruct (view_lookup_None hub k Hk) as [Hb Hh]. unfold on in H. rewrite Hb in H. injection H as <-. exists hub.
       unfold on. by rewrite Hh. }
  destruct (view_lookup hub k x Hk) as (Hb & Hh & Eb & Eh). unfold orderly_hub in Ho. rewrite Hh, Eh in Ho.
  destruct (on_inv _ _ _ _ _ H Hb) as ([] & s & Hr). rewrite Eb in Hr.
  assert (Hop : forall {B C} (f : B -> C), map_op f (op_of c) = op_of c) by (intros; by destruct c).
  destruct (sim_call this user_task (sys_readable k) extra destroyed destroyed sim_destroyed (sys_readv k) (sys_writev k)
    (sys_shutdown k) (errno k) (Hwritev k) (Hreadable k) (Hreadv k) (rest_of k hub) (op_of c) (env_of k x hub)
    (hub_good_open hub k x Hgood Hk) ltac:(by destruct c) ltac:(by destruct c) ltac:(by rewrite Hop)
    (env_of k x hub) eq_refl tt s ltac:(by rewrite Hop)) as (g & Hg1 & -> & Hg2 & Hg3). rewrite Hop in Hg1.
  eapply (on_refines hub k x); [done| |exact Hg1|exact Hr|done|exact Hg3|exact H]. intros j y _ Hj. by apply (hg_fit _ Hgood).
Qed.

(** The item without its first task. *)
Definition popped (l : list (positive * STask placed_buffer)) (hub : PHub) : PHub :=
  mkHub (hub_loop hub) (sessions hub) (conns hub) l (hub_store hub) (hub_next hub).

Lemma popped_view hub k t l c :
  hub_tasks hub = (k, t) :: l ->
  stasks (env_of k c hub) = t :: tasks_of k l /\ env_of k c (popped l hub) = set_stasks (tasks_of k l) (env_of k c hub) /\
  rest_of k (popped l hub) = rest_of k hub /\
  (forall j x, j <> k -> env_of j x (popped l hub) = env_of j x hub).
Proof.
  intros El. split_and!.
  - cbn. rewrite El. unfold tasks_of. by rewrite filter_cons_True.
  - done.
  - unfold rest_of. cbn. f_equal. f_equal. rewrite El. unfold others. rewrite filter_cons_False; [done|]. intros Hc. by apply Hc.
  - intros j x Hne. unfold env_of. cbn. f_equal. rewrite El. unfold tasks_of. by rewrite filter_cons_False by (cbn; congruence).
Qed.

Lemma task_refines_hub hub hubb :
  hub_wf None (byte_hub hub) -> hub_good hub -> orderly_hub HubTask (heap_hub hub) -> byte_step HubTask (byte_hub hub) = Ok hubb ->
  exists hub', heap_step HubTask (heap_hub hub) = Ok (heap_hub hub') /\ hubb = byte_hub hub' /\ hub_good hub'.
Proof using Hwritev Hreadable Hreadv.
  intros Hwf Hgood Ho H. unfold orderly_hub, hub_step in *.
  change (hub_tasks (byte_hub hub)) with (map_tagged (fun x : placed_buffer => bytes_of (snd x)) <$> hub_tasks hub) in *.
  change (hub_tasks (heap_hub hub)) with (map_tagged (@fst BufferImpl layout) <$> hub_tasks hub) in *.
  revert Ho H. destruct (hub_tasks hub) as [|[k t] l] eqn:El; [intros _ [= <-]; by exists hub|].
  rewrite !fmap_cons. cbn [map_tagged fst snd]. intros Ho H.
  destruct (conns hub !! k) as [c|] eqn:Hk.
  2: { destruct (hw_tasks _ _ Hwf k (map_task (fun x : placed_buffer => bytes_of (snd x)) t)) as [y Hy].
       - cbn. rewrite El. by left.
       - by rewrite (proj1 (view_lookup_None hub k Hk)) in Hy. }
  destruct (view_lookup hub k c Hk) as (_ & Hh & _ & Eh). rewrite Hh, Eh in Ho.
  destruct (view_lookup (popped l hub) k c Hk) as (Hb & _ & Eb & _).
  destruct (popped_view hub k t l c El) as (Htk & Hpop & Hrest & Hother).
  destruct (on_inv _ _ _ _ _ H Hb) as ([] & s & Hr).
  change (env_of k _ _) with (env_of k (map_conn (fun x => bytes_of (snd x)) c) (byte_hub (popped l hub))) in Hr. rewrite Eb, Hpop in Hr.
  destruct (task_refines this user_task (sys_readable k) extra destroyed destroyed sim_destroyed (sys_readv k) (sys_writev k)
    (sys_shutdown k) (errno k) (Hwritev k) (Hreadable k) (Hreadv k) (rest_of k hub) (env_of k c hub) t (tasks_of k l) tt s
    (hub_good_open hub k c Hgood Hk) Htk Ho Hr) as (g & Hg1 & -> & Hg2 & Hg3).
  eapply (on_refines (popped l hub) k c); [done| |by rewrite Hpop; exact Hg1|by rewrite Hpop; exact Hr|by rewrite Hrest|exact Hg3|exact H].
  intros j y Hne Hj. rewrite Hother by done. by apply (hg_fit _ Hgood).
Qed.

(** A new session: two new buffers in the heap. *)
Lemma session_ctor_run k fd w h l :
  holds h l ->
  exists ses w' h', TcpSession_ctor (Hbuf := heap_bufs k) k fd (Some w) h = Ok (map_sess (@fst BufferImpl layout) ses, w', h') /\
    TcpSession_ctor k fd (Some w) tt = Ok (map_sess (fun x => bytes_of (snd x)) ses, w', tt) /\
    holds h' (out_buffer ses :: in_buffer ses :: l) /\ state ses = STATE_CONNECTING /\
    single (snd (out_buffer ses)) /\ single (snd (in_buffer ses)) /\ wcache (snd (in_buffer ses)) = None /\
    max_read (fst (in_buffer ses)) = HARE_MAX_READ_DEFAULT.
Proof.
  intros Hh. destruct (holds_ctor h l HARE_MAX_READ_DEFAULT Hh) as (o & h1 & Lo & Ho & Hh1 & Bo & _ & So & _).
  destruct (holds_ctor h1 _ HARE_MAX_READ_DEFAULT Hh1) as (i & h2 & Li & Hi & Hh2 & Bi & Mi & Si & Wi).
  eexists (mkSession _ fd false STATE_CONNECTING (o, Lo) (i, Li) DEFAULT_HIGH_WATER None None None None None), _, h2.
  split_and!; try done.
  - unfold TcpSession_ctor. cbn [new_obj]. unfold mbind, ST_bind. unfold buf_new, heap_bufs, HeapBuffers. rewrite Ho, Hi. done.
  - unfold TcpSession_ctor, map_sess. cbn. by rewrite Bo, Bi.
  - by rewrite Permutation_swap.
Qed.

Lemma accepted_fresh hub fd ses w h nxt k :
  hub_wf None (byte_hub hub) -> conns hub !! k = None ->
  holds h (out_buffer ses :: in_buffer ses :: all_buffers hub) -> state ses = STATE_CONNECTING ->
  single (snd (out_buffer ses)) -> single (snd (in_buffer ses)) -> wcache (snd (in_buffer ses)) = None ->
  max_read (fst (in_buffer ses)) = HARE_MAX_READ_DEFAULT ->
  let c := mkConn (Echo_NewSession (SetDestroy k ses)) 0 [] [] in
  let hub1 := mkHub w (<[fd := k]> (sessions hub)) (<[k := c]> (conns hub)) (hub_tasks hub) h nxt in
  fresh_ok (rest_of k hub1) (env_of k c hub1).
Proof.
  intros Hwf Hk Hh Hst So Si Wi Mi c hub1.
  assert (Hnt : tasks_of k (hub_tasks hub) = []).
  { pose proof (tasks_of_fresh (byte_hub hub) k Hwf (proj1 (view_lookup_None hub k Hk))) as Ht. cbn [byte_hub map_hub hub_tasks] in Ht.
    rewrite tasks_of_map in Ht. by destruct (tasks_of k (hub_tasks hub)). }
  assert (Hall : all_buffers hub1 ≡ₚ out_buffer ses :: in_buffer ses :: all_buffers hub).
  { unfold all_buffers. cbn [hub1 conns hub_tasks]. rewrite (conn_buffers_delete _ k c) by apply lookup_insert_eq.
    by rewrite delete_insert_id. }
  assert (Hho : holds (hub_store hub1) (buffers_of (env_of k c hub1) ++ rest_of k hub1)).
  { rewrite <- all_buffers_split, Hall by apply lookup_insert_eq. exact Hh. }
  assert (Hsb : stasks (env_of k c hub1) = []) by exact Hnt.
  split; [|done]. split; try done.
  - destruct (out_buffer ses) as [b L] eqn:Eo. cbn. rewrite Eo. apply (head_single h); [exact (holds_first _ _ _ _ Hh)|done].
  - cbn. destruct So as [-> _]. simpl. unfold NUM_WRITE_IOVEC. lia.
  - by rewrite Hsb.
Qed.

Lemma accept_refines fd hub hubb :
  hub_wf None (byte_hub hub) -> hub_good hub -> byte_step (HubAccept fd) (byte_hub hub) = Ok hubb ->
  exists hub', heap_step (HubAccept fd) (heap_hub hub) = Ok (heap_hub hub') /\ hubb = byte_hub hub' /\ hub_good hub'.
Proof using Hwritev Hreadable Hreadv.
  intros Hwf Hgood H. cbn [hub_step] in *. unfold hub_accept in *.
  change (hub_loop (byte_hub hub)) with (hub_loop hub) in H. change (hub_next (byte_hub hub)) with (hub_next hub) in H.
  change (hub_store (byte_hub hub)) with tt in H. change (hub_loop (heap_hub hub)) with (hub_loop hub).
  change (hub_next (heap_hub hub)) with (hub_next hub). change (hub_store (heap_hub hub)) with (hub_store hub).
  set (k := hub_next hub) in *.
  destruct (session_ctor_run k fd (hub_loop hub) (hub_store hub) _ (hg_holds _ Hgood)) as (ses & w & h & Hh & Hb & Hho & Hst & So & Si & Wi & Mi).
  rewrite Hb in H. rewrite Hh. cbn [mbind outcome_bind] in *.
  change (sessions (byte_hub hub)) with (sessions hub) in H. change (sessions (heap_hub hub)) with (sessions hub).
  destruct (hare_assert _); try done. cbn [mbind outcome_bind] in *.
  set (ses1 := Echo_NewSession (SetDestroy k ses)).
  set (hub1 := mkHub w (<[fd := k]> (sessions hub)) (<[k := mkConn ses1 0 [] []]> (conns hub)) (hub_tasks hub) h (Pos.succ k)).
  assert (Hbh : byte_hub hub1 = mkHub w (<[fd := k]> (sessions hub))
      (<[k := mkConn (Echo_NewSession (SetDestroy k (map_sess (fun x => bytes_of (snd x)) ses))) 0 [] []]> (conns (byte_hub hub)))
      (hub_tasks (byte_hub hub)) tt (Pos.succ k)).
  { unfold byte_hub, map_hub, hub1. cbn. by rewrite fmap_insert. }
  assert (Hhh : heap_hub hub1 = mkHub w (<[fd := k]> (sessions hub))
      (<[k := mkConn (Echo_NewSession (SetDestroy k (map_sess (@fst BufferImpl layout) ses))) 0 [] []]> (conns (heap_hub hub)))
      (hub_tasks (heap_hub hub)) h (Pos.succ k)).
  { unfold heap_hub, map_hub, hub1. cbn. by rewrite fmap_insert. }
  rewrite <- Hbh in H. rewrite <- Hhh.
  assert (Hk : conns hub1 !! k = Some (mkConn ses1 0 [] [])) by apply lookup_insert_eq.
  assert (Hnone : conns hub !! k = None).
  { pose proof (hw_next _ _ Hwf k (Pos.le_refl k)) as Hn. cbn in Hn. rewrite lookup_fmap in Hn. by destruct (conns hub !! k). }
  assert (Hfresh : fresh_ok (rest_of k hub1) (env_of k (mkConn ses1 0 [] []) hub1)) by (by apply accepted_fresh).
  destruct (view_lookup hub1 k _ Hk) as (Hb1 & _ & Eb & _).
  destruct (on_inv _ _ _ _ _ H Hb1) as ([] & s & Hr). rewrite Eb in Hr.
  destruct (sim_Established this user_task (sys_readable k) extra destroyed destroyed sim_destroyed (sys_readv k) (sys_writev k)
    (sys_shutdown k) (errno k) (Hwritev k) (Hreadable k) (Hreadv k) (rest_of k hub1) k _ Hfresh tt s Hr) as (g & Hg1 & -> & Hg2 & Hg3).
  eapply (on_refines hub1 k); [exact Hk| |exact Hg1|exact Hr|done|exact Hg3|exact H].
  intros j x Hne Hj. change (conns hub1) with (<[k := mkConn ses1 0 [] []]> (conns hub)) in Hj.
  rewrite lookup_insert_ne in Hj by done. destruct (hg_fit _ Hgood j x Hj). by split.
Qed.

(** Any step, and any sequence of steps. *)
Lemma hub_step_refines o hub hubb :
  hub_wf None (byte_hub hub) -> hub_good hub -> orderly_hub o (heap_hub hub) -> byte_step o (byte_hub hub) = Ok hubb ->
  exists hub', heap_step o (heap_hub hub) = Ok (heap_hub hub') /\ hubb = byte_hub hub' /\ hub_good hub'.
Proof using Hwritev Hreadable Hreadv.
  intros Hwf Hgood Ho. destruct o; [by apply accept_refines|by apply call_refines|by apply task_refines_hub].
Qed.

Lemma hub_steps_refine l got : forall hub hubb,
  hub_wf None (byte_hub hub) -> hub_bytes got (byte_hub hub) -> hub_good hub -> orderly_steps l (heap_hub hub) ->
  byte_steps l (byte_hub hub) = Ok hubb ->
  exists hub', heap_steps l (heap_hub hub) = Ok (heap_hub hub') /\ hubb = byte_hub hub' /\ hub_good hub'.
Proof using Hwritev Hreadable Hreadv.
  revert got. induction l as [|o l IH]; intros got hub hubb Hwf Hby Hgood Ho H; cbn in *.
  - injection H as <-. by exists hub.
  - destruct Ho as [Ho Hl]. destruct (byte_step o (byte_hub hub)) as [hubb1| | | |] eqn:E; try done. cbn in H.
    destruct (hub_step_refines o hub hubb1 Hwf Hgood Ho E) as (hub1 & H1 & -> & Hgood1).
    destruct (hub_step_spec this user_task sys_readv sys_writev sys_shutdown errno o _ _ got Hwf Hby E) as [Hwf1 Hby1].
    rewrite H1 in Hl |- *. exact (IH _ hub1 hubb Hwf1 Hby1 Hgood1 Hl H).
Qed.
End steps.
