(* ===== verification/Server.v ===== *)
(** * Acceptor, pool of cycles, server and client.

    Sources: hare/net/tcp/acceptor.cc, hare/net/io_pool.h, hare/net/tcp/serve.cc and
    hare/net/tcp/client.cc.  What system calls return is an argument.  A session in the
    map of a pool item is represented by its state; a task for the thread of an item waits
    in [posted] until that thread runs it. *)

From S2P Require Import Prelude Cache EventLoop NetError Session.

(** ** [Acceptor] *)

Section acceptor.
Context {S : Type}.
(** The callback: it gets the descriptor and the address object of the acceptor, which
    it may move from; the result is that object afterwards. *)
Context (new_session : option (Z -> HostAddress -> ST S HostAddress)).
(** [socket_op::Close] *)
Context (close_fd : Z -> ST S unit).

(** [while ((conn_fd = IMPL->socket.Accept(peer_addr)) >= 0)]: [pending] is what the calls
    of [accept4] return; then nothing is left to accept. *)
Fixpoint accept_loop (pending : list accepted) (peer_addr : HostAddress) (acc : bool) : ST S (bool * Z) :=
  match pending with
  | [] => mret (acc, EAGAIN)
  | r :: pending =>
    x ← lift (Socket_Accept peer_addr r);
    match fst x with
    | AcErr errno => mret (acc, errno)
    | AcFd conn_fd _ =>
      match new_session with
      | Some f => peer_addr ← f conn_fd (snd x); accept_loop pending peer_addr true
      | None => _ ← close_fd conn_fd; accept_loop pending (snd x) true
      end
    end
  end.

(** [spare]: what the second [accept4] returns when the descriptors have run out, and
    what [open("/dev/null")] returns then. *)
Definition Acceptor_EventCallback (events idle_fd : Z) (pending : list accepted) (spare : accepted * Z) : ST S Z :=
  if negb (CHECK_EVENT events EVENT_READ) then mret idle_fd
  else
    r ← accept_loop pending (HostAddress_port 0 false false) false;
    if negb (fst r) && (snd r =? EMFILE) then
      _ ← close_fd idle_fd;
      a ← lift (op_Accept (fst spare));
      _ ← close_fd (match a with AcFd fd _ => fd | AcErr _ => -1 end);
      mret (snd spare)
    else mret idle_fd.
End acceptor.

(** [Acceptor::Listen]: what it needs, and the code of its error.  On success the event is
    tied and watches for reading. *)
Definition Acceptor_Listen (has_cycle : bool) (bind_ret listen_ret : Z) : Z :=
  if negb has_cycle then ERROR_ACCEPTOR_ACTIVED
  else
    let ret := Socket_Bind bind_ret 0 in
    if negb (Error_bool ret) then error_code ret
    else error_code (Socket_Listen listen_ret 0).

(** The destructor of a session asserts that it is disconnected. *)
Definition session_dies (x : SessionState) : outcome unit := hare_assert (bool_decide (x = STATE_DISCONNECTED)).

(** ** [IOPool] *)

Record PoolItem := mkItem { sessions : gmap Z SessionState }.

Record IOPool := mkPool { last_ : Z; thread_nbr_ : Z; is_running_ : bool; items_ : list PoolItem }.

Definition IOPool_ctor : IOPool := mkPool 0 0 false [].

(** [items_.resize(_thread_nbr)] takes the number as a [size_t]. *)
Definition IOPool_Start (p : IOPool) (thread_nbr : Z) : outcome (bool * IOPool) :=
  if (thread_nbr =? 0) || is_running_ p then Ok (false, p)
  else if thread_nbr <? 0 then Throw LengthError
  else Ok (true, mkPool (last_ p) thread_nbr true (replicate (Z.to_nat thread_nbr) (mkItem ∅))).

(** The index of the item, [None] for a null pointer. *)
Definition GetNextItem (p : IOPool) : outcome (option nat * IOPool) :=
  if negb (is_running_ p) then Ok (None, p)
  else
    let index := last_ p in
    last ← int32 (last_ p + 1);
    if thread_nbr_ p =? 0 then UB
    else
      let p' := mkPool (Z.rem last (thread_nbr_ p)) (thread_nbr_ p) true (items_ p) in
      if (0 <=? index) && (index <? Zlen (items_ p)) then Ok (Some (Z.to_nat index), p') else UB.

Definition GetItemByHash (p : IOPool) (hash_code : Z) : outcome nat :=
  if u64 (thread_nbr_ p) =? 0 then UB
  else let i := hash_code mod u64 (thread_nbr_ p) in
       if i <? Zlen (items_ p) then Ok (Z.to_nat i) else UB.

Definition is_open (x : SessionState) : bool :=
  bool_decide (x = STATE_CONNECTED) || bool_decide (x = STATE_DISCONNECTING).

(** The range-for of [Stop] over the sessions of an item.  [ForceClose] of an open session
    ends in the function of [SetDestroy], which erases the very element the loop stands on
    (it runs at once, in the thread of the item). *)
Fixpoint stop_loop (l : list (Z * SessionState)) : outcome unit :=
  match l with
  | [] => Ok tt
  | (_, x) :: l => if is_open x then UB else stop_loop l
  end.

(** [item->sessions.clear()]: the sessions die. *)
Fixpoint drop_sessions (l : list (Z * SessionState)) : outcome unit :=
  match l with
  | [] => Ok tt
  | (_, x) :: l => _ ← session_dies x; drop_sessions l
  end.

Definition stop_item (i : PoolItem) : outcome unit :=
  _ ← stop_loop (map_to_list (sessions i));
  drop_sessions (map_to_list (sessions i)).

Fixpoint stop_items (l : list PoolItem) : outcome unit :=
  match l with [] => Ok tt | i :: l => _ ← stop_item i; stop_items l end.

Definition IOPool_Stop (p : IOPool) : outcome IOPool :=
  _ ← stop_items (items_ p);
  Ok (mkPool (last_ p) 0 false []).

(** ** [TcpServe] *)

(** The lambda [NewSession] hands to the cycle of the item. *)
Record posted_session := mkPosted { ps_item : nat; ps_fd : Z; ps_id : Z }.

Record TcpServe := mkServe {
  io_pool : option IOPool; session_id : Z; started : bool;
  new_session_set : bool; posted : list posted_session
}.

Definition Serve_ctor (cb : bool) : TcpServe := mkServe None 0 false cb [].
Definition Serve_dtor (s : TcpServe) : outcome unit := hare_assert (negb (started s)).

(** [NewSession] up to the lambda; the address of the caller is moved into the session. *)
Definition Serve_NewSession (fd : Z) (address : HostAddress) : ST TcpServe HostAddress := fun s =>
  if negb (started s) then Abort
  else match io_pool s with
       | None => UB
       | Some p =>
         match GetNextItem p with
         | Ok (item, p) =>
           if fd =? -1 then Abort
           else match item with
                | None => UB
                | Some i =>
                  Ok (snd (HostAddress_move address),
                      mkServe (Some p) (u64 (session_id s + 1)) true (new_session_set s)
                        (posted s ++ [mkPosted i fd (session_id s)]))
                end
         | Abort => Abort | Throw e => Throw e | UB => UB | NoFuel => NoFuel
         end
       end.

(** The lambda, in the thread of the item.  Without a callback the descriptor is closed and
    the session, still connecting, dies with the lambda. *)
Definition run_posted : ST TcpServe unit := fun s =>
  match posted s, io_pool s with
  | [], _ => Ok (tt, s)
  | _ :: _, None => UB
  | t :: l, Some p =>
    match items_ p !! ps_item t with
    | None => UB
    | Some item =>
      if negb (bool_decide (sessions item !! ps_fd t = None)) then Abort
      else if negb (new_session_set s) then
        match session_dies STATE_CONNECTING with
        | Ok _ => Ok (tt, mkServe (io_pool s) (session_id s) (started s) (new_session_set s) l)
        | _ => Abort
        end
      else
        Ok (tt, mkServe (Some (mkPool (last_ p) (thread_nbr_ p) (is_running_ p)
                           (<[ps_item t := mkItem (<[ps_fd t := STATE_CONNECTED]> (sessions item))]> (items_ p))))
                  (session_id s) (started s) (new_session_set s) l)
    end
  end.

(** The function of [SetDestroy], for the session of item [i] with descriptor [sfd]. *)
Definition Serve_destroy (i : nat) (sfd : Z) : ST TcpServe unit := fun s =>
  match io_pool s with
  | None => UB
  | Some p =>
    match items_ p !! i with
    | None => UB
    | Some item =>
      if negb (bool_decide (is_Some (sessions item !! sfd))) then Abort
      else Ok (tt, mkServe (Some (mkPool (last_ p) (thread_nbr_ p) (is_running_ p)
                                    (<[i := mkItem (delete sfd (sessions item))]> (items_ p))))
                     (session_id s) (started s) (new_session_set s) (posted s))
    end
  end.

(** [Exec] around the run of the main cycle, [main]. *)
Definition Serve_Exec (thread_nbr : Z) (main : ST TcpServe unit) : ST TcpServe Z := fun s =>
  match IOPool_Start IOPool_ctor thread_nbr with
  | Ok (false, p) => Ok (ERROR_INIT_IO_POOL, mkServe (Some p) (session_id s) (started s) (new_session_set s) (posted s))
  | Ok (true, p) =>
    match main (mkServe (Some p) (session_id s) true (new_session_set s) (posted s)) with
    | Ok (_, s) =>
      match io_pool s with
      | None => UB
      | Some p => _ ← IOPool_Stop p; Ok (ERROR_SUCCESS, mkServe None (session_id s) false (new_session_set s) (posted s))
      end
    | Abort => Abort | Throw e => Throw e | UB => UB | NoFuel => NoFuel
    end
  | Abort => Abort | Throw e => Throw e | UB => UB | NoFuel => NoFuel
  end.

(** ** [TcpClient] *)

(** What the lambda of [ConnectTo] does for the [errno] of [connect] (0: success). *)
Inductive connect_action := Established | Retry (times : Z) | Failed.

Definition connect_switch (saved_errno : Z) (retry : bool) (retry_times : Z) : connect_action :=
  if bool_decide (saved_errno ∈ [0; EINPROGRESS; EINTR; EISCONN]) then Established
  else if bool_decide (saved_errno ∈ [EAGAIN; EADDRINUSE; EADDRNOTAVAIL; ECONNREFUSED; ENETUNREACH]) then
    if retry && (retry_times >? 0) then Retry (retry_times - 1) else Failed
  else Failed.

(** A task of [Close] refers to the latch on the stack of its caller. *)
Inductive client_task := CtConnect (retry : bool) (times delay : Z) | CtClose (latch_alive : bool).

Record TcpClient := mkClient {
  c_session : option SessionState; connect_cb : bool; retry_id : Z;
  c_tasks : list client_task; c_timers : list (Z * client_task); c_closed : list Z; next_id : Z
}.

Definition Client_ctor (cb : bool) : TcpClient := mkClient None cb (-1) [] [] [] 0.

Definition with_session (x : option SessionState) (c : TcpClient) : TcpClient :=
  mkClient x (connect_cb c) (retry_id c) (c_tasks c) (c_timers c) (c_closed c) (next_id c).

Definition Connected (cycle_running : bool) (c : TcpClient) : bool :=
  cycle_running && match c_session c with Some x => bool_decide (x = STATE_CONNECTED) | None => false end.

Definition ConnectTo (cycle_running retry : bool) (times delay : Z) (c : TcpClient) : TcpClient :=
  if Connected cycle_running c then c
  else mkClient (c_session c) (connect_cb c) (retry_id c) (c_tasks c ++ [CtConnect retry times delay])
         (c_timers c) (c_closed c) (next_id c).

(** [session.reset(...)]: a session that was there dies. *)
Definition reset_session (c : TcpClient) : outcome unit :=
  match c_session c with
  | Some x => session_dies x
  | None => Ok tt
  end.

(** The lambda of [ConnectTo]; [fd]: the new socket, [saved_errno]: what [connect] gave.
    The session is established by [ConnectEstablished] (Session.v) unless the callback is
    missing. *)
Definition connect_task (fd saved_errno : Z) (retry : bool) (times delay : Z) (c : TcpClient) : outcome TcpClient :=
  match connect_switch saved_errno retry times with
  | Established =>
    _ ← reset_session c;
    if connect_cb c then Ok (mkClient (Some STATE_CONNECTED) true (-1) (c_tasks c) (c_timers c) (c_closed c) (next_id c))
    else Throw BadFunctionCall
  | Retry times' =>
    Ok (mkClient (c_session c) (connect_cb c) (next_id c) (c_tasks c)
          (c_timers c ++ [(delay, CtConnect retry times' delay)]) (c_closed c ++ [fd]) (next_id c + 1))
  | Failed =>
    (* without _retry the id of an earlier retry stays *)
    Ok (mkClient (c_session c) (connect_cb c)
          (if bool_decide (saved_errno ∈ [EAGAIN; EADDRINUSE; EADDRNOTAVAIL; ECONNREFUSED; ENETUNREACH]) && negb retry
           then retry_id c else -1)
          (c_tasks c) (c_timers c) (c_closed c ++ [fd]) (next_id c))
  end.

(** [session->ForceClose()] closes an open session, whose destroy function is
    [DestroySession]. *)
Definition DestroySession (c : TcpClient) : TcpClient := with_session None c.

Definition close_body (c : TcpClient) : TcpClient :=
  match c_session c with
  | Some x => if is_open x then DestroySession c else c
  | None => c
  end.

(** [Close]: [cdl.Await()] only in the thread of the cycle, where the task has already run. *)
Definition Client_Close (in_thread : bool) (c : TcpClient) : TcpClient :=
  if in_thread then close_body c
  else mkClient (c_session c) (connect_cb c) (retry_id c) (c_tasks c ++ [CtClose false]) (c_timers c) (c_closed c) (next_id c).

(** The cycle takes a task of the client. *)
Definition run_client_task (fd saved_errno : Z) (c : TcpClient) : outcome TcpClient :=
  match c_tasks c with
  | [] => Ok c
  | t :: l =>
    let c := mkClient (c_session c) (connect_cb c) (retry_id c) l (c_timers c) (c_closed c) (next_id c) in
    match t with
    | CtConnect retry times delay => connect_task fd saved_errno retry times delay c
    | CtClose alive => if alive then Ok (close_body c) else UB
    end
  end.

(** [Send] and [Append] hand the bytes to the session (Session.v), if it is connected. *)
Definition Client_Send (cycle_running : bool) (bytes : list cell) (c : TcpClient) : bool :=
  if negb (Connected cycle_running c) then false
  else if Zlen bytes >? MAX_SIZE then false
  else match c_session c with Some x => bool_decide (x = STATE_CONNECTED) | None => false end.

Definition Client_Append (cycle_running : bool) (c : TcpClient) : bool :=
  if negb (Connected cycle_running c) then false
  else match c_session c with Some x => bool_decide (x = STATE_CONNECTED) | None => false end.

(** ** Theorems *)

Section pool.
(** [k] calls of [GetNextItem] in a row. *)
Fixpoint next_items (k : nat) (p : IOPool) : outcome (list nat * IOPool) :=
  match k with
  | O => Ok ([], p)
  | S k =>
    match GetNextItem p with
    | Ok (Some i, p) => match next_items k p with Ok (l, p) => Ok (i :: l, p) | r => r end
    | Ok (None, p) => UB
    | Abort => Abort | Throw e => Throw e | UB => UB | NoFuel => NoFuel
    end
  end.

Definition pool_ok (p : IOPool) : Prop :=
  is_running_ p = true /\ 0 < thread_nbr_ p < 2 ^ 31 /\ Zlen (items_ p) = thread_nbr_ p /\ 0 <= last_ p < thread_nbr_ p.

Lemma Start_ok n : 0 < n < 2 ^ 31 -> exists p, IOPool_Start IOPool_ctor n = Ok (true, p) /\ pool_ok p /\ last_ p = 0 /\ thread_nbr_ p = n.
Proof.
  intros Hn. unfold IOPool_Start. simpl. rewrite (proj2 (Z.eqb_neq _ _)), (proj2 (Z.ltb_ge _ _)) by lia.
  eexists. split; [done|]. unfold pool_ok. simpl. split_and!; try done; try lia.
  unfold Zlen. rewrite length_replicate. lia.
Qed.

Lemma GetNextItem_ok p :
  pool_ok p -> exists p', GetNextItem p = Ok (Some (Z.to_nat (last_ p)), p') /\ pool_ok p' /\
    thread_nbr_ p' = thread_nbr_ p /\ items_ p' = items_ p /\ last_ p' = (last_ p + 1) mod thread_nbr_ p.
Proof.
  intros (Hr & Hn & Hlen & Hl). unfold GetNextItem. rewrite Hr. simpl. unfold int32.
  rewrite decide_True by lia. simpl.
  rewrite (proj2 (Z.eqb_neq _ _)) by lia.
  rewrite (proj2 (Z.leb_le 0 (last_ p))), (proj2 (Z.ltb_lt (last_ p) _)) by lia. simpl.
  eexists. split; [done|]. unfold pool_ok. simpl. rewrite Z.rem_mod_nonneg by lia.
  pose proof (Z.mod_pos_bound (last_ p + 1) (thread_nbr_ p)). split_and!; (done || lia).
Qed.

(** Round robin: the calls go through the items in turn. *)
Lemma next_items_round_robin k : forall p, pool_ok p ->
  exists p', next_items k p = Ok ((fun j => Z.to_nat ((last_ p + Z.of_nat j) mod thread_nbr_ p)) <$> seq 0 k, p') /\ pool_ok p'.
Proof.
  induction k as [|k IH]; intros p Hp; simpl; [by eexists|].
  destruct (GetNextItem_ok p Hp) as (p1 & -> & Hp1 & Hn & _ & Hl). destruct (IH p1 Hp1) as (p2 & -> & Hp2).
  exists p2. split; [|done]. destruct Hp as (_ & Hnr & _ & Hlr). do 3 f_equal.
  - rewrite Z.add_0_r, Z.mod_small by lia. done.
  - rewrite <- fmap_S_seq, <- list_fmap_compose. apply list_fmap_ext. intros _ j _. unfold compose. f_equal.
    rewrite Hn, Hl. rewrite Z.add_mod_idemp_l by lia. f_equal. lia.
Qed.

(** Within one round every item is taken exactly once. *)
Lemma next_items_fair p :
  pool_ok p -> last_ p = 0 ->
  exists p', next_items (Z.to_nat (thread_nbr_ p)) p = Ok (seq 0 (Z.to_nat (thread_nbr_ p)), p') /\ pool_ok p'.
Proof.
  intros Hp H0. destruct (next_items_round_robin (Z.to_nat (thread_nbr_ p)) p Hp) as (p' & -> & Hp').
  exists p'. split; [|done]. do 2 f_equal. destruct Hp as (_ & Hn & _).
  rewrite <- (list_fmap_id (seq 0 _)) at 2. apply list_fmap_ext. intros i j [-> Hj]%lookup_seq.
  rewrite H0, Z.mod_small by lia. simpl. lia.
Qed.

(** [Stop] does not reset [last_]: a restart with fewer threads reads past the items. *)
Lemma GetNextItem_stale p p1 p2 n :
  0 < n < 2 ^ 31 -> n <= last_ p < 2 ^ 31 - 1 -> IOPool_Stop p = Ok p1 -> IOPool_Start p1 n = Ok (true, p2) ->
  GetNextItem p2 = UB.
Proof.
  intros Hn Hl Hstop Hstart. unfold IOPool_Stop in Hstop. apply bind_Ok in Hstop as (u & _ & Hstop). simplify_eq.
  unfold IOPool_Start in Hstart. simpl in Hstart.
  rewrite (proj2 (Z.eqb_neq _ _)), (proj2 (Z.ltb_ge _ _)) in Hstart by lia. simpl in Hstart. simplify_eq.
  unfold GetNextItem, int32. cbn [is_running_ last_ negb]. rewrite decide_True by lia. simpl.
  rewrite (proj2 (Z.eqb_neq _ _)) by lia. unfold Zlen. rewrite length_replicate.
  rewrite (proj2 (Z.ltb_ge (last_ p) _)) by lia. by rewrite andb_false_r.
Qed.

Lemma stop_loop_open l fd x : (fd, x) ∈ l -> is_open x = true -> stop_loop l = UB.
Proof.
  induction l as [|[f y] l IH]; simpl; intros Hin Hx; [by apply elem_of_nil in Hin|].
  apply elem_of_cons in Hin as [[= <- <-]|Hin]; [by rewrite Hx|]. destruct (is_open y); auto.
Qed.

Lemma stop_closed l :
  Forall (fun p => snd p = STATE_DISCONNECTED) l -> stop_loop l = Ok tt /\ drop_sessions l = Ok tt.
Proof. induction 1 as [|[f y] l Hy Hl [IH1 IH2]]; simpl; [done|]. simpl in Hy. by rewrite Hy, IH1, IH2. Qed.

Definition closed_item (i : PoolItem) : Prop := map_Forall (fun _ x => x = STATE_DISCONNECTED) (sessions i).

Lemma stop_item_closed i : closed_item i -> stop_item i = Ok tt.
Proof.
  intros Hi. unfold stop_item. destruct (stop_closed (map_to_list (sessions i))) as [-> E]; [|exact E].
  apply Forall_forall. intros [f x] Hin%elem_of_map_to_list. by apply (Hi f).
Qed.

Lemma Stop_closed p : Forall closed_item (items_ p) -> IOPool_Stop p = Ok (mkPool (last_ p) 0 false []).
Proof.
  intros H. unfold IOPool_Stop. assert (E : stop_items (items_ p) = Ok tt); [|by rewrite E].
  induction H as [|i l Hi Hl IH]; simpl; [done|]. by rewrite stop_item_closed.
Qed.

(** [Stop] while a session is open. *)
Lemma Stop_open p l1 item l2 fd x :
  items_ p = l1 ++ item :: l2 -> Forall closed_item l1 -> sessions item !! fd = Some x -> is_open x = true ->
  IOPool_Stop p = UB.
Proof.
  intros Hi Hl Hs Hx. unfold IOPool_Stop. rewrite Hi. clear Hi.
  induction Hl as [|i l1 Hc Hl IH]; simpl; [|by rewrite stop_item_closed]. unfold stop_item.
  rewrite (stop_loop_open _ fd x); [done|by apply elem_of_map_to_list|done].
Qed.
End pool.

Section serve.
(** A second connection in the same wake-up: the address object of the acceptor has been
    moved into the session of the first. *)
Lemma accept_second close_fd a pa b pb rest s s1 addr :
  Serve_NewSession a (mkAddress (Some pa)) s = Ok (addr, s1) ->
  accept_loop (Some Serve_NewSession) close_fd (AcFd a pa :: AcFd b pb :: rest) (HostAddress_port 0 false false) false s = Abort.
Proof.
  intros H1.
  assert (Haddr : addr = mkAddress None).
  { unfold Serve_NewSession in H1. destruct (started s); simpl in H1; [|done]. destruct (io_pool s) as [p|]; [|done].
    destruct (GetNextItem p) as [[item p']| | | |]; try done. destruct (a =? -1); [done|].
    destruct item; [|done]. by injection H1. }
  subst addr. cbn [accept_loop]. erewrite ST_bind_run by done. cbn [fst snd].
  rewrite (ST_bind_run _ _ s (mkAddress None) s1) by exact H1. done.
Qed.

(** A callback that leaves the address object alone gets every connection, in order. *)
Lemma accept_all {S} (f : Z -> HostAddress -> ST S HostAddress) (g : Z -> S -> S) close_fd l : forall addr acc s,
  is_Some (in_ addr) -> (forall fd a s, f fd a s = Ok (a, g fd s)) ->
  accept_loop (Some f) close_fd ((fun x => AcFd (fst x) (snd x)) <$> l) addr acc s =
    Ok ((acc || negb (bool_decide (l = [])), EAGAIN), foldl (fun s x => g (fst x) s) s l).
Proof.
  induction l as [|[fd p] l IH]; intros addr acc s Ha Hf; simpl; [by rewrite orb_false_r|].
  rewrite (ST_bind_run _ _ s (AcFd fd p, mkAddress (Some p)) s).
  - simpl. rewrite (ST_bind_run _ _ s (mkAddress (Some p)) (g fd s)) by apply Hf.
    rewrite IH by done. by rewrite orb_true_r.
  - apply lift_run. unfold Socket_Accept. simpl. by rewrite bool_decide_true.
Qed.

(** The path of a new connection through the server: an id of its own, the next item in
    turn, a place in the map of the item; and the place is free again in the end. *)
Lemma NewSession_spec s p fd addr :
  started s = true -> io_pool s = Some p -> pool_ok p -> fd <> -1 -> 0 <= session_id s < 2 ^ 64 - 1 ->
  exists p', GetNextItem p = Ok (Some (Z.to_nat (last_ p)), p') /\
    Serve_NewSession fd addr s = Ok (mkAddress None,
      mkServe (Some p') (session_id s + 1) true (new_session_set s)
        (posted s ++ [mkPosted (Z.to_nat (last_ p)) fd (session_id s)])).
Proof.
  intros Hs Hp Hok Hfd Hid. destruct (GetNextItem_ok p Hok) as (p' & Hrun & _). exists p'. split; [done|].
  unfold Serve_NewSession. rewrite Hs, Hp, Hrun. simpl. rewrite (proj2 (Z.eqb_neq _ _)) by done.
  by rewrite u64_small by lia.
Qed.

Lemma run_posted_spec s p t l item :
  posted s = t :: l -> io_pool s = Some p -> items_ p !! ps_item t = Some item ->
  sessions item !! ps_fd t = None -> new_session_set s = true ->
  exists s', run_posted s = Ok (tt, s') /\ posted s' = l /\
    exists s'', Serve_destroy (ps_item t) (ps_fd t) s' = Ok (tt, s'') /\ io_pool s'' = Some p.
Proof.
  intros Ht Hp Hi Hn Hcb. unfold run_posted. rewrite Ht, Hp, Hi, Hcb, Hn. simpl. eexists. split_and!; [done|done|].
  unfold Serve_destroy. simpl. rewrite list_lookup_insert_eq by by eapply lookup_lt_Some. simpl.
  rewrite lookup_insert_eq. simpl. eexists. split; [done|]. simpl. do 2 f_equal.
  rewrite list_insert_insert_eq, delete_insert_id by done. destruct item as [m]. simpl in *.
  rewrite list_insert_id by done. by destruct p.
Qed.

(** Without a callback for new sessions the first connection stops the server. *)
Lemma run_posted_unset s p t l item :
  posted s = t :: l -> io_pool s = Some p -> items_ p !! ps_item t = Some item -> new_session_set s = false ->
  run_posted s = Abort.
Proof.
  intros Ht Hp Hi Hcb. unfold run_posted. rewrite Ht, Hp, Hi, Hcb. simpl. by destruct (bool_decide _).
Qed.
End serve.

Section client.
(** The attempts of [ConnectTo] against a peer that always refuses: the numbers of
    retries left, attempt by attempt. *)
Fixpoint attempts (fuel : nat) (errno : Z) (retry : bool) (times : Z) : list Z :=
  match fuel with
  | O => []
  | S fuel =>
    times :: match connect_switch errno retry times with
             | Retry times' => attempts fuel errno retry times'
             | _ => []
             end
  end.

Lemma connect_switch_refused errno times :
  errno ∈ [EAGAIN; EADDRINUSE; EADDRNOTAVAIL; ECONNREFUSED; ENETUNREACH] ->
  connect_switch errno true times = if times >? 0 then Retry (times - 1) else Failed.
Proof. intros He. set_unfold in He. by destruct_or! He; subst errno. Qed.

Lemma attempts_refused n : forall fuel errno,
  errno ∈ [EAGAIN; EADDRINUSE; EADDRNOTAVAIL; ECONNREFUSED; ENETUNREACH] -> (n < fuel)%nat ->
  length (attempts fuel errno true (Z.of_nat n)) = S n.
Proof.
  induction n as [|n IH]; intros [|fuel] errno He Hf; try lia; cbn [attempts];
    rewrite connect_switch_refused by done; [done|].
  rewrite Z.gtb_ltb, (proj2 (Z.ltb_lt _ _)) by lia. simpl length. f_equal.
  replace (Z.of_nat (S n) - 1) with (Z.of_nat n) by lia. apply IH; [done|lia].
Qed.

(** [Close] from another thread leaves a task that counts down a latch that is gone. *)
Lemma Client_Close_dangling c fd errno :
  c_tasks c = [] -> run_client_task fd errno (Client_Close false c) = UB.
Proof. intros Hc. unfold Client_Close, run_client_task. simpl. by rewrite Hc. Qed.

Lemma Client_Close_spec c x :
  c_session c = Some x -> is_open x = true -> c_session (Client_Close true c) = None.
Proof. intros Hc Hx. unfold Client_Close, close_body. by rewrite Hc, Hx. Qed.

(** No descriptor is lost when a connection attempt fails. *)
Lemma connect_task_failed fd errno retry times delay c :
  connect_switch errno retry times <> Established ->
  exists c', connect_task fd errno retry times delay c = Ok c' /\ c_session c' = c_session c /\
    c_closed c' = c_closed c ++ [fd].
Proof.
  intros Hs. unfold connect_task. destruct (connect_switch errno retry times); [done| |]; eexists; by split_and!.
Qed.
End client.
