(* ===== verification/PoolStart.v ===== *)
(** * The threads of the pool of cycles.

    Source: hare/net/io_pool.h ([Start] and its thread function, [Stop], [GetNextItem]) and
    the use of the pool in [NewSession] of hare/net/tcp/serve.cc.

    Server.v has the pool without its threads.  Here each item has the pointer to its cycle,
    which its own thread sets when it gets to run, and the functions that were handed to that
    cycle; the steps of the main thread and of the workers are interleaved in any way.  What
    an item does with a connection is behind an interface, [ItemOps]; the instance below is
    the map of sessions of Server.v, another one, in EchoPool.v, has the sessions themselves. *)

From S2P Require Import Prelude Session Server.

(** What the pool needs of an item: [it_new i] is the item with index [i] when its cycle has
    been made, [it_accept] the lambda of [NewSession], [it_run] what else happens in its
    thread, [it_stop] the lambda of [Stop] up to [Exit]. *)
Class ItemOps (I O : Type) := {
  it_new : nat -> I;
  it_accept : nat -> Z -> I -> outcome I;
  it_run : nat -> O -> I -> outcome I;
  it_stop : nat -> I -> outcome I
}.

(** What the main thread hands to the cycle of an item: the lambda of [NewSession] for a
    descriptor, or the one of [Stop], the last function a cycle is given. *)
Inductive job := JSession (fd : Z) | JStop.

(** [TStarting]: the thread has been created and has not run yet. *)
Inductive thread_state := TStarting | TRunning | TDone.
#[export] Instance thread_state_dec : EqDecision thread_state.
Proof. solve_decision. Defined.

(** An item of the pool: the functions its cycle has been given (the pointer to the cycle is
    null at first and at the end), its thread, its contents, and, as a record of what
    happened, the connections it has taken and the operations it has run. *)
Record PoolThread {I O : Type} := mkThread {
  w_cycle : option (list job); w_thread : thread_state; w_item : I; w_done : list (Z + O)
}.
Arguments PoolThread : clear implicits.
Arguments mkThread {I O}.

Record ThreadedPool {I O : Type} := mkThreaded { p_last : Z; p_running : bool; workers : list (PoolThread I O) }.
Arguments ThreadedPool : clear implicits.
Arguments mkThreaded {I O}.

Inductive pool_event {O : Type} := MSession (fd : Z) | WStep (i : nat) | WItem (i : nat) (o : O).
Arguments pool_event : clear implicits.

Section pool.
Context {I O : Type} {Hops : ItemOps I O}.
Abbreviation PoolThread := (PoolThread I O).
Abbreviation ThreadedPool := (ThreadedPool I O).
Abbreviation pool_event := (pool_event O).

Definition pool_new : ThreadedPool := mkThreaded 0 false [].

(** The thread function: the cycle is made, its loop runs what it is given, and at the end
    the cycle goes away.  [None]: there is nothing to do.  The server has its callback. *)
Definition worker_step (i : nat) (w : PoolThread) : outcome (option PoolThread) :=
  match w_thread w, w_cycle w with
  | TStarting, _ => Ok (Some (mkThread (Some []) TRunning (it_new i) (w_done w)))
  | TRunning, Some (JSession fd :: q) =>
    x ← it_accept i fd (w_item w);
    Ok (Some (mkThread (Some q) TRunning x (w_done w ++ [inl fd])))
  | TRunning, Some (JStop :: _) =>
    x ← it_stop i (w_item w);
    Ok (Some (mkThread None TDone x (w_done w)))
  | _, _ => Ok None
  end.

(** Something happens in the thread of an item. *)
Definition worker_run (i : nat) (o : O) (w : PoolThread) : outcome PoolThread :=
  match w_thread w with
  | TRunning => x ← it_run i o (w_item w); Ok (mkThread (w_cycle w) TRunning x (w_done w ++ [inr o]))
  | _ => Ok w
  end.

(** [item->cycle->RunInCycle(job)] from the main thread. *)
Definition post (j : job) (w : PoolThread) : outcome PoolThread :=
  q ← deref (w_cycle w); Ok (mkThread (Some (q ++ [j])) (w_thread w) (w_item w) (w_done w)).

Fixpoint post_all (j : job) (l : list PoolThread) : outcome (list PoolThread) :=
  match l with [] => Ok [] | w :: l => w ← post j w; l ← post_all j l; Ok (w :: l) end.

Definition starting (i : nat) : PoolThread := mkThread None TStarting (it_new i) [].
Definition started_thread (i : nat) : PoolThread := mkThread (Some []) TRunning (it_new i) [].

Definition Threaded_Start (n : Z) (p : ThreadedPool) : outcome (bool * ThreadedPool) :=
  if (n =? 0) || p_running p then Ok (false, p)
  else if n <? 0 then Throw LengthError
  else Ok (true, mkThreaded (p_last p) true (starting <$> seq 0 (Z.to_nat n))).

(** [GetNextItem] and the use [NewSession] makes of it: the constructor of the session refuses
    a null cycle with an exception, then the lambda is handed to the cycle. *)
Definition Threaded_NewSession (fd : Z) (p : ThreadedPool) : outcome ThreadedPool :=
  if negb (p_running p) then UB
  else
    let index := p_last p in
    w ← deref (if 0 <=? index then workers p !! Z.to_nat index else None);
    _ ← CheckNotNull (w_cycle w);
    w ← post (JSession fd) w;
    Ok (mkThreaded (Z.rem (p_last p + 1) (Zlen (workers p))) true (<[Z.to_nat index := w]> (workers p))).

(** [Stop]: up to joining the threads, and from there on, which waits for all of them. *)
Definition Threaded_Stop (p : ThreadedPool) : outcome ThreadedPool :=
  l ← post_all JStop (workers p); Ok (mkThreaded (p_last p) (p_running p) l).

Definition Threaded_join (p : ThreadedPool) : option ThreadedPool :=
  if forallb (fun w => bool_decide (w_thread w = TDone)) (workers p) then Some (mkThreaded (p_last p) false []) else None.

(** ** Interleavings *)

Definition put_worker (i : nat) (w : PoolThread) (p : ThreadedPool) : ThreadedPool :=
  mkThreaded (p_last p) (p_running p) (<[i := w]> (workers p)).

Definition pool_step (e : pool_event) (p : ThreadedPool) : outcome ThreadedPool :=
  match e with
  | MSession fd => Threaded_NewSession fd p
  | WStep i =>
    match workers p !! i with
    | Some w => w' ← worker_step i w; Ok (put_worker i (default w w') p)
    | None => Ok p
    end
  | WItem i o =>
    match workers p !! i with
    | Some w => w' ← worker_run i o w; Ok (put_worker i w' p)
    | None => Ok p
    end
  end.

Fixpoint pool_run (l : list pool_event) (p : ThreadedPool) : outcome ThreadedPool :=
  match l with [] => Ok p | e :: l => p ← pool_step e p; pool_run l p end.

Definition job_fds (j : job) : list Z := match j with JSession fd => [fd] | JStop => [] end.

(** Connections that wait to be made sessions, that have been, and all of a worker. *)
Definition pending_fds (w : PoolThread) : list Z := concat (job_fds <$> default [] (w_cycle w)).
Definition served (l : list (Z + O)) : list Z := omap (fun x => match x with inl fd => Some fd | inr _ => None end) l.
Definition connections (w : PoolThread) : list Z := served (w_done w) ++ pending_fds w.

(** What an item has been through, on its own. *)
Fixpoint item_runs (i : nat) (l : list (Z + O)) (x : I) : outcome I :=
  match l with
  | [] => Ok x
  | inl fd :: l => x ← it_accept i fd x; item_runs i l x
  | inr o :: l => x ← it_run i o x; item_runs i l x
  end.

(** The connections worker [i] of [n] should get when [last] is next. *)
Fixpoint assigned (i last n : Z) (fds : list Z) : list Z :=
  match fds with
  | [] => []
  | fd :: fds => (if last =? i then [fd] else []) ++ assigned i (Z.rem (last + 1) n) n fds
  end.

Definition accepted_fds (l : list pool_event) : list Z :=
  concat ((fun e => match e with MSession fd => [fd] | _ => [] end) <$> l).

(** A worker that can be given jobs, and whose item is what its own operations make of it. *)
Record worker_ready (i : nat) (w : PoolThread) : Prop := {
  wr_thread : w_thread w = TRunning;
  wr_cycle : w_cycle w = Some (JSession <$> pending_fds w);
  wr_item : item_runs i (w_done w) (it_new i) = Ok (w_item w)
}.

Record pool_ready (p : ThreadedPool) : Prop := {
  pr_running : p_running p = true;
  pr_last : 0 <= p_last p < Zlen (workers p);
  pr_workers : forall i w, workers p !! i = Some w -> worker_ready i w
}.

(** ** Facts *)

Lemma pending_jobs fds : concat (job_fds <$> (JSession <$> fds)) = fds.
Proof. induction fds as [|fd fds IH]; [done|]. simpl. by f_equal. Qed.

Lemma served_app l l' : served (l ++ l') = served l ++ served l'.
Proof. apply omap_app. Qed.

Lemma item_runs_app i l l' : forall x y, item_runs i l x = Ok y -> item_runs i (l ++ l') x = item_runs i l' y.
Proof.
  induction l as [|[fd|o] l IH]; intros x y H; simpl in *; [by injection H as <-| |];
    apply bind_Ok in H as (z & -> & H); simpl; by apply IH.
Qed.

(** A worker whose thread has not run yet has no cycle: a connection that falls to it ends in
    an exception. *)
Lemma NewSession_early p w fd :
  p_running p = true -> workers p !! Z.to_nat (p_last p) = Some w -> 0 <= p_last p -> w_cycle w = None ->
  Threaded_NewSession fd p = Throw Exception.
Proof.
  intros Hr Hi Hl Hc. unfold Threaded_NewSession. rewrite Hr. simpl.
  rewrite (proj2 (Z.leb_le _ _) Hl), Hi. simpl. by rewrite Hc.
Qed.

Lemma ready_intro i q x l fds :
  q = JSession <$> fds -> item_runs i l (it_new i) = Ok x ->
  worker_ready i (mkThread (Some q) TRunning x l) /\ pending_fds (mkThread (Some q) TRunning x l) = fds.
Proof.
  intros -> Hx. assert (E : pending_fds (mkThread (Some (JSession <$> fds)) TRunning x l) = fds) by apply pending_jobs.
  split; [|done]. by split; rewrite ?E.
Qed.

Lemma worker_step_cases i w :
  worker_ready i w ->
  (pending_fds w = [] /\ worker_step i w = Ok None) \/
  exists fd fds, pending_fds w = fd :: fds /\
    worker_step i w = (x ← it_accept i fd (w_item w); Ok (Some (mkThread (Some (JSession <$> fds)) TRunning x (w_done w ++ [inl fd])))).
Proof.
  intros [Ht Hc _]. unfold worker_step. rewrite Ht, Hc. destruct (pending_fds w) as [|fd fds]; [by left|]. right. by exists fd, fds.
Qed.

Lemma worker_step_ready i w w' :
  worker_ready i w -> worker_step i w = Ok w' -> worker_ready i (default w w') /\ connections (default w w') = connections w.
Proof.
  intros Hw H. destruct (worker_step_cases i w Hw) as [[Ep E]|(fd & fds & Ep & E)]; rewrite E in H; [by injection H as <-|].
  apply bind_Ok in H as (x & Hx & [= <-]).
  destruct (ready_intro i (JSession <$> fds) x (w_done w ++ [inl fd]) fds eq_refl) as [Hr Eq].
  { rewrite (item_runs_app i _ _ _ _ (wr_item _ _ Hw)). simpl. by rewrite Hx. }
  split; [exact Hr|]. unfold connections. simpl. rewrite Ep, served_app. etrans; [apply (f_equal (app _) Eq)|].
  by rewrite <- (assoc_L (++)).
Qed.

Lemma worker_run_ready i o w w' :
  worker_ready i w -> worker_run i o w = Ok w' -> worker_ready i w' /\ connections w' = connections w.
Proof.
  intros [Ht Hc Hi] H. unfold worker_run in H. rewrite Ht in H. apply bind_Ok in H as (x & Hx & [= <-]).
  split; [split; simpl; [done|done|]|].
  - rewrite (item_runs_app i _ _ _ _ Hi). simpl. by rewrite Hx.
  - unfold connections. simpl. rewrite served_app. simpl. by rewrite app_nil_r.
Qed.

Lemma post_ready i fd w :
  worker_ready i w -> exists w', post (JSession fd) w = Ok w' /\ worker_ready i w' /\ connections w' = connections w ++ [fd].
Proof.
  intros [Ht Hc Hi]. unfold post. rewrite Hc, Ht. simpl. eexists. split; [done|].
  destruct (ready_intro i ((JSession <$> pending_fds w) ++ [JSession fd]) (w_item w) (w_done w) (pending_fds w ++ [fd])) as [Hr Ep];
    [by rewrite fmap_app|done|].
  split; [exact Hr|]. unfold connections. by rewrite Ep, (assoc_L (++)).
Qed.

(** Changing one worker of the list. *)
Lemma ready_insert p i w w' b (extra : nat -> list Z) :
  pool_ready p -> workers p !! i = Some w -> worker_ready i w' -> connections w' = connections w ++ extra i ->
  (forall j, j <> i -> extra j = []) -> 0 <= b < Zlen (workers p) ->
  pool_ready (mkThreaded b true (<[i := w']> (workers p))) /\
  forall j x, workers p !! j = Some x -> exists x', <[i := w']> (workers p) !! j = Some x' /\ connections x' = connections x ++ extra j.
Proof.
  intros [_ _ Hw] Hi Hw' Hc Hx Hb. pose proof (lookup_lt_Some _ _ _ Hi) as Hlt. split.
  - split; simpl; [done|unfold Zlen in *; by rewrite length_insert|].
    intros j x. rewrite list_lookup_insert_Some. intros [(-> & -> & _)|[_ Hj]]; [done|by apply Hw].
  - intros j x Hj. destruct (decide (j = i)) as [->|Hne].
    + exists w'. assert (x = w) as -> by congruence. by rewrite list_lookup_insert_eq.
    + exists x. rewrite list_lookup_insert_ne by done. split; [done|]. by rewrite Hx, app_nil_r.
Qed.

Definition got (e : pool_event) (p : ThreadedPool) (i : nat) : list Z :=
  match e with MSession fd => if p_last p =? Z.of_nat i then [fd] else [] | _ => [] end.

Definition next_last (e : pool_event) (p : ThreadedPool) : Z :=
  match e with MSession _ => Z.rem (p_last p + 1) (Zlen (workers p)) | _ => p_last p end.

(** What a step does to the workers. *)
Record stepped (e : pool_event) (p p' : ThreadedPool) : Prop := {
  st_ready : pool_ready p';
  st_length : length (workers p') = length (workers p);
  st_last : p_last p' = next_last e p;
  st_got : forall i w, workers p !! i = Some w -> exists w', workers p' !! i = Some w' /\ connections w' = connections w ++ got e p i
}.

Lemma stepped_refl e p : pool_ready p -> (forall fd, e <> MSession fd) -> stepped e p p.
Proof.
  intros Hp He. split; try done; [by destruct e; [edestruct He| |]|]. intros i w Hi. exists w. split; [done|].
  destruct e; [by edestruct He| |]; by rewrite app_nil_r.
Qed.

Lemma stepped_put e p i w w' :
  pool_ready p -> (forall fd, e <> MSession fd) -> workers p !! i = Some w -> worker_ready i w' -> connections w' = connections w ->
  stepped e p (put_worker i w' p).
Proof.
  intros Hp He Hi Hw' Hc. destruct (ready_insert p i w w' (p_last p) (fun _ => []) Hp Hi Hw') as [H1 H2];
    [by rewrite app_nil_r|done|apply Hp|].
  unfold put_worker. rewrite (pr_running _ Hp). split; simpl; [done|by rewrite length_insert|by destruct e; [edestruct He| |]|].
  intros j x Hj. destruct (H2 j x Hj) as (x' & ? & ?). exists x'. split; [done|]. destruct e; [by edestruct He|done|done].
Qed.

(** A connection is handed over: that never fails. *)
Lemma NewSession_ready fd p : pool_ready p -> exists p', Threaded_NewSession fd p = Ok p' /\ stepped (MSession fd) p p'.
Proof.
  intros Hp. pose proof Hp as [Hr Hl Hw]. unfold Threaded_NewSession. rewrite Hr. simpl. rewrite (proj2 (Z.leb_le _ _)) by lia.
  destruct (workers p !! Z.to_nat (p_last p)) as [w|] eqn:E.
  2: { apply lookup_ge_None in E. unfold Zlen in Hl. lia. }
  destruct (post_ready (Z.to_nat (p_last p)) fd w) as (w' & Hpost & Hw' & Hc); [by apply Hw|].
  simpl. rewrite (wr_cycle _ _ (Hw _ _ E)). simpl. rewrite Hpost. simpl. eexists. split; [done|].
  destruct (ready_insert p (Z.to_nat (p_last p)) w w' (Z.rem (p_last p + 1) (Zlen (workers p))) (got (MSession fd) p)) as [H1 H2]; try done.
  - rewrite Hc. unfold got. by rewrite Z2Nat.id, Z.eqb_refl by lia.
  - intros j Hj. unfold got. rewrite (proj2 (Z.eqb_neq _ _)) by lia. done.
  - pose proof (Z.rem_bound_pos (p_last p + 1) (Zlen (workers p))). lia.
  - split; simpl; try done. by rewrite length_insert.
Qed.

Lemma pool_step_ready e p p' : pool_ready p -> pool_step e p = Ok p' -> stepped e p p'.
Proof.
  intros Hp H. destruct e as [fd|i|i o]; simpl in H.
  - destruct (NewSession_ready fd p Hp) as (p1 & E & Hs). rewrite E in H. by injection H as <-.
  - destruct (workers p !! i) as [w|] eqn:Ei; [|injection H as <-; by apply stepped_refl].
    apply bind_Ok in H as (w' & Hw' & [= <-]). destruct (worker_step_ready i w w' (pr_workers _ Hp i w Ei) Hw'). by apply (stepped_put _ p i w).
  - destruct (workers p !! i) as [w|] eqn:Ei; [|injection H as <-; by apply stepped_refl].
    apply bind_Ok in H as (w' & Hw' & [= <-]). destruct (worker_run_ready i o w w' (pr_workers _ Hp i w Ei) Hw'). by apply (stepped_put _ p i w).
Qed.

Lemma pool_run_ready l : forall p p',
  pool_ready p -> pool_run l p = Ok p' ->
  pool_ready p' /\ length (workers p') = length (workers p) /\
  forall i w, workers p !! i = Some w -> exists w', workers p' !! i = Some w' /\
    connections w' = connections w ++ assigned (Z.of_nat i) (p_last p) (Zlen (workers p)) (accepted_fds l).
Proof.
  induction l as [|e l IH]; intros p p' Hp H; simpl in H.
  - injection H as <-. split_and!; try done. intros i w Hi. exists w. by rewrite app_nil_r.
  - apply bind_Ok in H as (p1 & H1 & H2). destruct (pool_step_ready e p p1 Hp H1) as [Hp1 Hlen Hlast Hw1].
    destruct (IH p1 p' Hp1 H2) as (Hp2 & Hlen2 & Hw2). split_and!; [done|congruence|]. intros i w Hi.
    destruct (Hw1 i w Hi) as (w1 & Hi1 & Hc1). destruct (Hw2 i w1 Hi1) as (w2 & Hi2 & Hc2). exists w2. split; [done|].
    rewrite Hc2, Hc1, <- (assoc_L (++)). f_equal. rewrite Hlast.
    assert (Hz : Zlen (workers p1) = Zlen (workers p)) by (unfold Zlen; by rewrite Hlen). rewrite Hz. by destruct e.
Qed.

(** When all threads have made their cycles, a step fails only if the item's own code does. *)
Definition fails {A} (m : outcome A) : Prop := forall a, m <> Ok a.

Lemma pool_step_progress e p :
  pool_ready p ->
  (exists p', pool_step e p = Ok p') \/
  exists i w, workers p !! i = Some w /\
    ((e = WStep i /\ exists fd fds, pending_fds w = fd :: fds /\ fails (it_accept i fd (w_item w))) \/
     (exists o, e = WItem i o /\ fails (it_run i o (w_item w)))).
Proof.
  intros Hp. destruct e as [fd|i|i o]; simpl.
  - left. destruct (NewSession_ready fd p Hp) as (p' & E & _). eauto.
  - destruct (workers p !! i) as [w|] eqn:Ei; [|eauto].
    destruct (worker_step_cases i w (pr_workers _ Hp i w Ei)) as [[_ E]|(fd & fds & Ep & E)]; rewrite E; [left; eauto|].
    destruct (it_accept i fd (w_item w)) as [x| | | |] eqn:Ea; [left; simpl; eauto|..];
      (right; exists i, w; split; [done|]; left; split; [done|]; exists fd, fds; rewrite Ea; by split).
  - destruct (workers p !! i) as [w|] eqn:Ei; [|eauto]. unfold worker_run. rewrite (wr_thread _ _ (pr_workers _ Hp i w Ei)).
    destruct (it_run i o (w_item w)) as [x| | | |] eqn:Er; [left; simpl; eauto|..];
      (right; exists i, w; split; [done|]; right; exists o; rewrite Er; by split).
Qed.

(** Every worker makes one step, one after the other. *)
Lemma one_step_each last running ws ws' : forall d,
  length ws = length ws' ->
  (forall i w w', ws !! i = Some w -> ws' !! i = Some w' -> worker_step (length d + i) w = Ok (Some w')) ->
  pool_run (WStep <$> seq (length d) (length ws)) (mkThreaded last running (d ++ ws)) = Ok (mkThreaded last running (d ++ ws')).
Proof.
  revert ws'. induction ws as [|w ws IH]; intros [|w' ws'] d Hlen H; try done. simpl.
  rewrite lookup_app_r, Nat.sub_diag by done. simpl.
  pose proof (H 0%nat w w' eq_refl eq_refl) as Hs. rewrite Nat.add_0_r in Hs. rewrite Hs. simpl. unfold put_worker. simpl.
  rewrite insert_app_r_alt, Nat.sub_diag by done. simpl. injection Hlen as Hlen.
  specialize (IH ws' (d ++ [w']) Hlen). rewrite length_app, Nat.add_1_r, <- !(assoc_L (++)) in IH. apply IH.
  intros i x x' Hx Hx'. rewrite <- (H (S i) x x' Hx Hx'). f_equal. lia.
Qed.

Lemma Start_run n p : 0 < n -> Threaded_Start n pool_new = Ok (true, p) -> p = mkThreaded 0 true (starting <$> seq 0 (Z.to_nat n)).
Proof.
  intros Hn H. unfold Threaded_Start, pool_new in H. simpl in H.
  rewrite (proj2 (Z.eqb_neq _ _)), (proj2 (Z.ltb_ge _ _)) in H by lia. simpl in H. by injection H as <-.
Qed.

Lemma starting_ready n p :
  0 < n -> Threaded_Start n pool_new = Ok (true, p) ->
  exists p', pool_run (WStep <$> seq 0 (Z.to_nat n)) p = Ok p' /\ pool_ready p' /\ p_last p' = 0 /\
    workers p' = started_thread <$> seq 0 (Z.to_nat n).
Proof.
  intros Hn ->%Start_run; [|done]. exists (mkThreaded 0 true (started_thread <$> seq 0 (Z.to_nat n))). split_and!; [| |done|done].
  - pose proof (one_step_each 0 true (starting <$> seq 0 (Z.to_nat n)) (started_thread <$> seq 0 (Z.to_nat n)) []) as H.
    rewrite length_fmap, length_seq in H. apply H; [by rewrite length_fmap, length_seq|].
    intros i w w' Hw Hw'. apply list_lookup_fmap_Some in Hw as (x & -> & [-> _]%lookup_seq).
    apply list_lookup_fmap_Some in Hw' as (y & -> & [-> _]%lookup_seq). done.
  - split; simpl; [done|unfold Zlen; rewrite length_fmap, length_seq; lia|].
    intros i w Hw. apply list_lookup_fmap_Some in Hw as (x & -> & [-> _]%lookup_seq). done.
Qed.

(** [Start] has returned, no thread has run: neither a connection nor [Stop] is possible. *)
Lemma Start_early n p :
  0 < n -> Threaded_Start n pool_new = Ok (true, p) -> (forall fd, Threaded_NewSession fd p = Throw Exception) /\ Threaded_Stop p = UB.
Proof.
  intros Hn ->%Start_run; [|done]. destruct (Z.to_nat n) as [|m] eqn:Em; [lia|]. split; [|done].
  intros fd. by eapply NewSession_early.
Qed.

(** ** Stopping *)

Fixpoint worker_steps (n i : nat) (w : PoolThread) : outcome PoolThread :=
  match n with
  | 0%nat => Ok w
  | S n => w' ← worker_step i w; match w' with Some w' => worker_steps n i w' | None => Ok w end
  end.

Definition with_stop (w : PoolThread) : PoolThread :=
  mkThread (Some ((JSession <$> pending_fds w) ++ [JStop])) (w_thread w) (w_item w) (w_done w).

(** [Stop] reaches every worker. *)
Lemma post_all_ready l : (forall w, w ∈ l -> w_cycle w = Some (JSession <$> pending_fds w)) -> post_all JStop l = Ok (with_stop <$> l).
Proof.
  induction l as [|w l IH]; intros H; [done|]. simpl. unfold post, with_stop. rewrite (H w) by left. simpl.
  rewrite IH; [done|]. intros x Hx. apply H. by right.
Qed.

Lemma Stop_ready p : pool_ready p -> Threaded_Stop p = Ok (mkThreaded (p_last p) (p_running p) (with_stop <$> workers p)).
Proof.
  intros Hp. unfold Threaded_Stop. rewrite post_all_ready; [done|]. intros w [i Hi]%list_elem_of_lookup. apply (pr_workers _ Hp i w Hi).
Qed.
End pool.

(** ** The map of sessions as the item *)

(** [it_run]: a session of the item closes, and its destroy function takes it out of the
    map; [it_accept]: the lambda of [NewSession], with a callback set. *)
#[export] Instance SessionItem : ItemOps PoolItem Z := {|
  it_new := fun _ => mkItem ∅;
  it_accept := fun _ fd x =>
    _ ← hare_assert (bool_decide (sessions x !! fd = None));
    Ok (mkItem (<[fd := STATE_CONNECTED]> (sessions x)));
  it_run := fun _ fd x => Ok (mkItem (delete fd (sessions x)));
  it_stop := fun _ x => _ ← stop_item x; Ok (mkItem ∅)
|}.

Abbreviation SessionThread := (PoolThread PoolItem Z).
Abbreviation SessionPool := (ThreadedPool PoolItem Z).

(** [accept4] gives out no descriptor that is in use. *)
Definition uses (fd : Z) (w : SessionThread) : bool :=
  bool_decide (fd ∈ pending_fds w) || bool_decide (is_Some (sessions (w_item w) !! fd)).

Fixpoint fresh_fds (l : list (pool_event Z)) (p : SessionPool) : Prop :=
  match l with
  | [] => True
  | e :: l =>
    match e with MSession fd => existsb (uses fd) (workers p) = false | _ => True end /\
    forall p', pool_step e p = Ok p' -> fresh_fds l p'
  end.

(** What waits is new, and the sessions are connected. *)
Record worker_good (w : SessionThread) : Prop := {
  wg_nodup : NoDup (pending_fds w);
  wg_new : forall fd, fd ∈ pending_fds w -> sessions (w_item w) !! fd = None;
  wg_open : map_Forall (fun _ x => x = STATE_CONNECTED) (sessions (w_item w))
}.

(** Nothing waits and no session is there. *)
Definition idle (w : SessionThread) : Prop := pending_fds w = [] /\ sessions (w_item w) = ∅.

Lemma uses_false fd w : uses fd w = false -> (fd ∉ pending_fds w) /\ sessions (w_item w) !! fd = None.
Proof.
  unfold uses. intros [H1%bool_decide_eq_false H2%bool_decide_eq_false]%orb_false_iff.
  split; [done|]. by apply eq_None_not_Some.
Qed.

Lemma good_step i w w' :
  worker_ready i w -> worker_good w -> worker_step i w = Ok w' -> worker_good (default w w').
Proof.
  intros Hr Hg H. destruct (worker_step_cases i w Hr) as [[Ep E]|(fd & fds & Ep & E)]; rewrite E in H; [by injection H as <-|].
  destruct Hg as [Hn Hf Ho]. rewrite Ep in *. apply NoDup_cons in Hn as [Hfd Hn].
  simpl in H. rewrite bool_decide_true in H by (apply Hf; set_solver). simpl in H. injection H as <-.
  split; unfold pending_fds; simpl.
  - by rewrite pending_jobs.
  - rewrite pending_jobs. intros x Hx. rewrite lookup_insert_ne by set_solver. apply Hf. set_solver.
  - by apply map_Forall_insert_2.
Qed.

Lemma good_run i fd w w' : worker_good w -> worker_run i fd w = Ok w' -> worker_good w'.
Proof.
  intros [Hn Hf Ho] H. unfold worker_run in H. destruct (w_thread w); [by injection H as <-| |by injection H as <-].
  simpl in H. injection H as <-. split; simpl; [done| |by apply map_Forall_delete].
  intros x Hx. rewrite lookup_delete_None. right. by apply Hf.
Qed.

Lemma good_post fd w w' : worker_good w -> uses fd w = false -> post (JSession fd) w = Ok w' -> worker_good w'.
Proof.
  intros [Hn Hf Ho] [Hp Hs]%uses_false H. unfold post in H. unfold pending_fds in Hp, Hn, Hf. destruct (w_cycle w) as [q|]; [|done]. simpl in H. injection H as <-.
  split; unfold pending_fds; simpl in *; [| |done]; rewrite fmap_app, concat_app; simpl.
  - apply NoDup_app. split; [done|]. split; [set_solver|apply NoDup_singleton].
  - intros x [?| ->%list_elem_of_singleton]%elem_of_app; auto.
Qed.

Definition pool_good (p : SessionPool) : Prop := Forall worker_good (workers p).

(** With descriptors that are not in use no step fails. *)
Lemma good_progress e p :
  pool_ready p -> pool_good p -> match e with MSession fd => existsb (uses fd) (workers p) = false | _ => True end ->
  exists p', pool_step e p = Ok p' /\ pool_good p'.
Proof.
  intros Hp Hg Hfresh. destruct (pool_step_progress e p Hp) as [(p' & H)|(i & w & Hi & Hf)].
  2: { pose proof (Forall_lookup_1 _ _ _ _ Hg Hi) as [Hn Hnew Ho]. destruct Hf as [(-> & fd & fds & Hh & Hf)|(o & -> & Hf)]; simpl in Hf.
       - rewrite bool_decide_true in Hf; [by edestruct Hf|]. apply Hnew. rewrite Hh. set_solver.
       - by edestruct Hf. }
  exists p'. split; [done|]. destruct e as [fd|i|i o]; simpl in H.
  - unfold Threaded_NewSession in H. rewrite (pr_running _ Hp) in H. simpl in H. apply bind_Ok in H as (w & Hw & H). apply bind_Ok in H as (_ & _ & H).
    apply bind_Ok in H as (w' & Hw' & [= <-]). destruct (0 <=? p_last p); [|done].
    destruct (workers p !! Z.to_nat (p_last p)) as [w0|] eqn:E; [|done]. injection Hw as ->.
    apply Forall_insert; [done|]. eapply good_post; [by eapply Forall_lookup_1| |done].
    destruct (uses fd w) eqn:Eu; [|done]. rewrite <- Hfresh. symmetry. apply existsb_exists. exists w.
    split; [by apply list_elem_of_In, list_elem_of_lookup_2 with (Z.to_nat (p_last p))|done].
  - destruct (workers p !! i) as [w|] eqn:Ei; [|by injection H as <-]. apply bind_Ok in H as (w' & Hw' & [= <-]).
    apply Forall_insert; [done|]. eapply good_step; [by apply (pr_workers _ Hp)|by eapply Forall_lookup_1|done].
  - destruct (workers p !! i) as [w|] eqn:Ei; [|by injection H as <-]. apply bind_Ok in H as (w' & Hw' & [= <-]).
    apply Forall_insert; [done|]. eapply good_run; [by eapply Forall_lookup_1|done].
Qed.

Lemma good_runs l : forall p, pool_ready p -> pool_good p -> fresh_fds l p -> exists p', pool_run l p = Ok p' /\ pool_good p'.
Proof.
  induction l as [|e l IH]; intros p Hp Hg Hf; simpl; [eauto|]. destruct Hf as [He Hf].
  destruct (good_progress e p Hp Hg He) as (p1 & H1 & Hg1). rewrite H1. simpl.
  apply IH; [apply (pool_step_ready e p p1 Hp H1)|done|by apply Hf].
Qed.

Lemma started_good n : Forall worker_good (started_thread <$> seq 0 n).
Proof. apply Forall_fmap, Forall_true. intros i. split; [constructor| |done]. unfold pending_fds. simpl. set_solver. Qed.

Lemma idle_stops i w : w_thread w = TRunning -> idle w -> worker_step i (with_stop w) = Ok (Some (mkThread None TDone (mkItem ∅) (w_done w))).
Proof.
  intros Ht [Hp Hs]. unfold worker_step, with_stop. simpl. rewrite Ht, Hp. simpl. unfold stop_item. by rewrite Hs, map_to_list_empty.
Qed.

Lemma stop_item_open item fd : sessions item !! fd = Some STATE_CONNECTED -> stop_item item = UB.
Proof.
  intros H. unfold stop_item. by rewrite (stop_loop_open _ fd STATE_CONNECTED) by (done || by apply elem_of_map_to_list).
Qed.

(** A session that is still there when [Stop] comes makes the loop of [Stop] step on an
    element that it has erased. *)
Lemma busy_breaks i fds : forall (w : SessionThread) fd,
  w_thread w = TRunning -> w_cycle w = Some ((JSession <$> fds) ++ [JStop]) -> NoDup fds ->
  (forall x, x ∈ fds -> sessions (w_item w) !! x = None) ->
  sessions (w_item w) !! fd = Some STATE_CONNECTED \/ fd ∈ fds -> worker_steps (S (length fds)) i w = UB.
Proof.
  induction fds as [|x fds IH]; intros w fd Ht Hc Hn Hf Hfd.
  - destruct Hfd as [Hfd|Hfd]; [|set_solver]. simpl. unfold worker_step. rewrite Ht, Hc. simpl. by rewrite (stop_item_open _ fd).
  - change (worker_steps (S (length (x :: fds))) i w) with
      (w' ← worker_step i w; match w' with Some w' => worker_steps (S (length fds)) i w' | None => Ok w end).
    apply NoDup_cons in Hn as [Hx Hn].
    unfold worker_step at 1. rewrite Ht, Hc. cbn [fmap list_fmap app it_accept SessionItem]. rewrite bool_decide_true by (apply Hf; set_solver).
    cbn -[worker_steps].
    apply (IH _ fd); cbn [w_thread w_cycle w_item sessions]; [done|done|done| |].
    + intros y Hy. rewrite lookup_insert_ne by set_solver. apply Hf. set_solver.
    + destruct (decide (fd = x)) as [->|Hne]; [left; apply lookup_insert_eq|].
      rewrite lookup_insert_ne by done. set_solver.
Qed.

Lemma busy_stop i w : worker_ready i w -> worker_good w -> ~ idle w -> exists n, worker_steps n i (with_stop w) = UB.
Proof.
  intros Hr [Hn Hf Ho] Hi. exists (S (length (pending_fds w))).
  assert (exists fd, sessions (w_item w) !! fd = Some STATE_CONNECTED \/ fd ∈ pending_fds w) as [fd Hfd].
  { destruct (pending_fds w) as [|fd fds] eqn:E; [|exists fd; set_solver].
    destruct (map_choose (sessions (w_item w))) as (fd & x & Hx); [by intros ?; apply Hi|].
    exists fd. left. by rewrite Hx, (Ho fd x Hx). }
  apply (busy_breaks _ _ _ fd); try done. apply (wr_thread _ _ Hr).
Qed.

(** When all workers are idle, [Stop] ends them all and returns. *)
Lemma idle_pool_stops p :
  pool_ready p -> Forall idle (workers p) ->
  exists p3 p4, Threaded_Stop p = Ok p3 /\ pool_run (WStep <$> seq 0 (length (workers p))) p3 = Ok p4 /\
    Threaded_join p4 = Some (mkThreaded (p_last p) false []).
Proof.
  intros Hp Hi. set (ended := (fun w : SessionThread => mkThread None TDone (mkItem ∅) (w_done w)) <$> workers p).
  eexists _, (mkThreaded (p_last p) (p_running p) ended). split; [by apply Stop_ready|]. split.
  - pose proof (one_step_each (p_last p) (p_running p) (with_stop <$> workers p) ended []) as H. rewrite length_fmap in H. apply H.
    + unfold ended. by rewrite length_fmap.
    + intros i w w' Hw Hw'. apply list_lookup_fmap_Some in Hw as (x & -> & Hx). apply list_lookup_fmap_Some in Hw' as (y & -> & Hy).
      assert (y = x) as -> by congruence. apply idle_stops; [apply (wr_thread _ _ (pr_workers _ Hp i x Hx))|by eapply Forall_lookup_1].
  - unfold Threaded_join. simpl. rewrite (proj2 (forallb_forall _ _)); [done|].
    intros w Hin%list_elem_of_In. apply list_elem_of_fmap in Hin as (x & -> & _). by apply bool_decide_eq_true.
Qed.
