(* ===== verification/EchoPool.v ===== *)
(** * The echo server on a pool of threads.

    Sources: hare/net/io_pool.h, hare/net/tcp/serve.cc, samples/echo/echo_serve.cc.  The pool
    of PoolStart.v whose items are those of EchoServe.v: every thread has its own cycle, its
    own sessions and tasks; the main thread deals out the connections.  The lambda of [Stop]
    goes through the sessions of the item. *)

From S2P Require Import Prelude Cache EventLoop EventLoopSpec NetError Session Server PoolStart SessionSpec.
From S2P Require Import Echo EchoServe EchoServeSpec.

(** What happens in the thread of an item beside new connections. *)
Inductive member_op := MemCall (k : positive) (c : call) | MemTask.

Definition hub_op_of (x : Z + member_op) : hub_op :=
  match x with inl fd => HubAccept fd | inr (MemCall k c) => HubCall k c | inr MemTask => HubTask end.

Section stop.
Context {B H : Type} (bufs : positive -> BufferOps B H).

(** The states of the sessions in the order of the map. *)
Fixpoint session_states (l : list (Z * positive)) (hub : Hub B H) : outcome (list (Z * SessionState)) :=
  match l with
  | [] => Ok []
  | (fd, k) :: l => c ← deref (conns hub !! k); r ← session_states l hub; Ok ((fd, state (c_sess c)) :: r)
  end.

Fixpoint release_all (ks : list positive) (hub : Hub B H) : outcome (Hub B H) :=
  match ks with [] => Ok hub | k :: ks => hub ← release bufs k hub; release_all ks hub end.

(** The lambda of [Stop]: [ForceClose] of an open session erases the element the loop stands
    on ([stop_loop] of Server.v); then the map is cleared. *)
Definition hub_stop (hub : Hub B H) : outcome (Hub B H) :=
  l ← session_states (map_to_list (sessions hub)) hub;
  _ ← stop_loop l;
  release_all (map_to_list (sessions hub)).*2
    (mkHub (hub_loop hub) ∅ (conns hub) (hub_tasks hub) (hub_store hub) (hub_next hub)).
End stop.

Section pool.
(** Every item has its own cycle and system calls; [began i] is its loop when it runs. *)
Context {B H : Type} (bufs : nat -> positive -> BufferOps B H) (began : nat -> World) (store0 : nat -> H).
Context (this : nat -> positive) (user_task : positive -> L unit) `{Hbe : !ReactorOps}.
Context (sys_readv : nat -> positive -> nat -> Z * list cell) (sys_writev : nat -> positive -> nat -> list cell -> Z)
        (sys_shutdown errno : nat -> positive -> nat -> Z).

Definition member_step (i : nat) (o : hub_op) : Hub B H -> outcome (Hub B H) :=
  hub_step (bufs i) (this i) user_task (sys_readv i) (sys_writev i) (sys_shutdown i) (errno i) o.

Definition HubItem : ItemOps (Hub B H) member_op := {|
  it_new := fun i => hub_new (began i) (store0 i);
  it_accept := fun i fd => member_step i (HubAccept fd);
  it_run := fun i o => member_step i (hub_op_of (inr o));
  it_stop := fun i => hub_stop (bufs i)
|}.

(** What an item has been through is a run of EchoServe.v. *)
Lemma item_runs_hub i l : forall hub,
  item_runs (Hops := HubItem) i l hub =
    hub_steps (bufs i) (this i) user_task (sys_readv i) (sys_writev i) (sys_shutdown i) (errno i) (hub_op_of <$> l) hub.
Proof.
  induction l as [|[fd|o] l IH]; intros hub; [done| |]; simpl; unfold member_step;
    match goal with |- (x ← ?m; _) = _ => destruct m as [hub1| | | |]; simpl; [apply IH|done..] end.
Qed.
End pool.

(** ** Which session is whose *)

Section named.
Context (this : positive) (user_task : positive -> L unit) `{Hbe : !ReactorOps}.
Context (sys_readv : positive -> nat -> Z * list cell) (sys_writev : positive -> nat -> list cell -> Z)
        (sys_shutdown errno : positive -> nat -> Z).
Abbreviation hub_step := (hub_step byte_bufs this user_task sys_readv sys_writev sys_shutdown errno).
Abbreviation hub_steps := (hub_steps byte_bufs this user_task sys_readv sys_writev sys_shutdown errno).

(** The sessions are numbered in the order of their connections, [fds]. *)
Record hub_named (fds : list Z) (hub : ByteHub) : Prop := {
  hn_next : Pos.to_nat (hub_next hub) = S (length fds);
  hn_socket : forall k c, conns hub !! k = Some c -> fds !! pred (Pos.to_nat k) = Some (socket (c_sess c))
}.

Lemma on_named fds x k m c s a hub hub' :
  hub_wf x hub -> x = None \/ x = Some k -> conns hub !! k = Some c -> respects lives m ->
  m (env_of k c hub) = Ok (a, s) -> on byte_bufs k m hub = Ok hub' -> hub_named fds hub -> hub_named fds hub'.
Proof.
  intros Hwf Hx Hc Hm Hr Hon [Hn Hs]. destruct (on_spec x k m c s a hub Hwf Hx Hc Hm Hr) as (hub1 & E & _ & Hn1 & He).
  assert (hub1 = hub') as -> by congruence. split; [congruence|]. intros j y Hj. specialize (He j y Hj). case_decide as Hjk.
  - subst j. rewrite (Hs k c Hc). f_equal. pose proof (lv_socket _ _ (Hm _ _ _ Hr)) as Hso. rewrite <- He in Hso. symmetry. exact Hso.
  - destruct He as [Hj' _]. by apply Hs.
Qed.

Definition op_fds (o : hub_op) : list Z := match o with HubAccept fd => [fd] | _ => [] end.

Lemma hub_step_named fds o hub hub' :
  hub_wf None hub -> hub_step o hub = Ok hub' -> hub_named fds hub -> hub_named (fds ++ op_fds o) hub'.
Proof.
  intros Hwf Hrun Hnm. destruct o as [fd|k c|]; simpl op_fds; rewrite ?app_nil_r.
  - destruct (accept_inv _ _ _ _ _ _ _ _ _ Hrun) as (w & ses & Hfd & Hso & Hst & _ & _ & _ & H). set (k := hub_next hub) in *.
    pose proof (wf_accepted hub fd ses w (hub_store hub) Hwf Hfd Hso Hst) as Hwf1. fold k in Hwf1. fold (accepted w fd ses hub) in Hwf1.
    assert (Hk : conns (accepted w fd ses hub) !! k = Some (mkConn ses 0 [] [])) by apply lookup_insert_eq.
    destruct (on_inv _ _ _ _ _ H Hk) as ([] & s & Hr). destruct Hnm as [Hn Hs].
    refine (on_named (fds ++ [fd]) None k _ _ s tt _ hub' Hwf1 ltac:(by left) Hk (lives_op _ _ _ _ _ _ _ _) Hr H _); [done|].
    split; [cbn; rewrite length_app; simpl; unfold k; lia|]. intros j y Hj. cbn in Hj. apply lookup_insert_Some in Hj as [[<- <-]|[Hne Hj]].
    + unfold k. rewrite Hn. simpl. rewrite Hso, lookup_app_r, Nat.sub_diag by done. done.
    + apply lookup_app_l_Some. by apply Hs.
  - simpl in Hrun. destruct (conns hub !! k) as [x|] eqn:Hk.
    2: { unfold on in Hrun. rewrite Hk in Hrun. by injection Hrun as <-. }
    destruct (on_inv _ _ _ _ _ Hrun Hk) as ([] & s & Hr).
    refine (on_named fds None k _ _ s tt _ hub' Hwf ltac:(by left) Hk (lives_op _ _ _ _ _ _ _ _) Hr Hrun Hnm). by destruct c.
  - simpl in Hrun. destruct (hub_tasks hub) as [|[k t] l] eqn:El; [by injection Hrun as <-|].
    pose proof (wf_popped hub k t l Hwf El) as Hwf1. destruct (hw_tasks _ _ Hwf k t) as [x Hk]; [rewrite El; by left|].
    destruct (on_inv _ _ x _ _ Hrun Hk) as ([] & s & Hr).
    refine (on_named fds (Some k) k _ _ s tt _ hub' Hwf1 ltac:(by right) Hk (lives_task _ _ _ _ _) Hr Hrun _).
    destruct Hnm as [Hn Hs]. by split.
Qed.

Lemma hub_steps_named l : forall fds hub hub' got,
  hub_wf None hub -> hub_bytes got hub -> hub_steps l hub = Ok hub' -> hub_named fds hub ->
  hub_named (fds ++ concat (op_fds <$> l)) hub'.
Proof.
  induction l as [|o l IH]; intros fds hub hub' got Hwf Hb H Hn; simpl in *.
  - injection H as <-. by rewrite app_nil_r.
  - apply bind_Ok in H as (hub1 & H1 & H2).
    destruct (hub_step_spec this user_task sys_readv sys_writev sys_shutdown errno o hub hub1 got Hwf Hb H1) as [Hwf1 Hb1].
    rewrite (assoc_L (++)). exact (IH _ hub1 hub' _ Hwf1 Hb1 H2 (hub_step_named fds o hub hub1 Hwf H1 Hn)).
Qed.

Lemma hub_new_named w : hub_named [] (hub_new w tt).
Proof. split; [done|]. intros k c. cbn. by rewrite lookup_empty. Qed.
End named.

(** ** Stopping an item *)

Lemma session_states_spec (hub : ByteHub) l :
  (forall fd k, (fd, k) ∈ l -> is_Some (conns hub !! k)) ->
  exists r, session_states l hub = Ok r /\
    forall fd k c, (fd, k) ∈ l -> conns hub !! k = Some c -> (fd, state (c_sess c)) ∈ r.
Proof.
  induction l as [|[fd k] l IH]; intros H; simpl; [exists []; split; [done|]; set_solver|].
  destruct (H fd k) as [c Hc]; [by left|]. destruct IH as (r & Er & Hr); [intros f j Hj; apply (H f j); by right|].
  rewrite Hc. simpl. rewrite Er. simpl. eexists. split; [done|].
  intros f j c' [[= -> ->]|Hj]%elem_of_cons Hc'; [simplify_eq; left|right; by eapply Hr].
Qed.

(** An item without sessions stops; any session that is left is open, and the loop of
    [Stop] then steps on an erased element. *)
Lemma hub_stop_spec hub got :
  hub_wf None hub -> hub_bytes got hub ->
  hub_stop byte_bufs hub =
    if decide (sessions hub = ∅) then Ok (mkHub (hub_loop hub) ∅ (conns hub) (hub_tasks hub) (hub_store hub) (hub_next hub)) else UB.
Proof.
  intros Hwf [Hb _]. unfold hub_stop. case_decide as Hs; [by rewrite Hs, map_to_list_empty|].
  destruct (map_choose _ Hs) as (fd & k & Hk). destruct (hw_map _ _ Hwf _ _ Hk) as (c & Hc & _ & Ho).
  destruct (session_states_spec hub (map_to_list (sessions hub))) as (r & -> & Hr).
  { intros f j Hj%elem_of_map_to_list. destruct (hw_map _ _ Hwf _ _ Hj) as (x & Hx & _). eauto. }
  simpl. rewrite (stop_loop_open r fd (state (c_sess c))); [done|by eapply Hr, Hc; apply elem_of_map_to_list|].
  destruct (Hb k c Hc) as [_ (Hcg & _)]. cbn in Hcg. by destruct (state (c_sess c)).
Qed.

(** ** The items of a running pool *)

Section running.
Context (began : nat -> World) (this : nat -> positive) (user_task : positive -> L unit) `{Hbe : !ReactorOps}.
Context (sys_readv : nat -> positive -> nat -> Z * list cell) (sys_writev : nat -> positive -> nat -> list cell -> Z)
        (sys_shutdown errno : nat -> positive -> nat -> Z).
#[local] Instance byte_item : ItemOps ByteHub member_op :=
  HubItem (fun _ => byte_bufs) began (fun _ => tt) this user_task sys_readv sys_writev sys_shutdown errno.
Abbreviation Member := (PoolThread ByteHub member_op).

(** The bytes session [k] of item [i] has read. *)
Definition member_received (i : nat) (w : Member) (k : positive) : list cell :=
  hub_received (this i) user_task (sys_readv i) (sys_writev i) (sys_shutdown i) (errno i) k (hub_op_of <$> w_done w) (hub_new (began i) tt).

Record item_echoes (i : nat) (w : Member) : Prop := {
  ie_socket : forall k c, conns (w_item w) !! k = Some c -> served (w_done w) !! pred (Pos.to_nat k) = Some (socket (c_sess c));
  ie_bytes : forall k c, conns (w_item w) !! k = Some c -> let s := env_of k c (w_item w) in
    stream s ++ in_buffer (sess s) = member_received i w k /\ wire s `prefix_of` member_received i w k /\
    (state (sess s) = STATE_CONNECTED -> stream s = member_received i w k);
  ie_stop : (exists x, it_stop i (w_item w) = Ok x) <-> sessions (w_item w) = ∅
}.

Lemma served_ops (l : list (Z + member_op)) : concat (op_fds <$> (hub_op_of <$> l)) = served l.
Proof. induction l as [|[fd|[k c|]] l IH]; [done|exact (f_equal (cons fd) IH)|exact IH|exact IH]. Qed.

Lemma ready_echoes i w : worker_ready i w -> item_echoes i w.
Proof.
  intros [_ _ Hrun]. unfold byte_item in Hrun. rewrite item_runs_hub in Hrun. destruct (hub_new_spec (began i)) as [Hwf0 Hb0].
  destruct (hub_steps_spec _ _ _ _ _ _ _ _ _ _ Hwf0 Hb0 Hrun) as [Hwf Hb].
  pose proof (hub_steps_named _ _ _ _ _ _ _ [] _ _ _ Hwf0 Hb0 Hrun (hub_new_named _)) as [_ Hs]. rewrite served_ops in Hs.
  split; [done| |].
  - intros k c Hk. exact (hub_echoes _ _ _ _ _ _ _ _ _ k c Hrun Hk).
  - simpl. rewrite (hub_stop_spec _ _ Hwf Hb). case_decide; [by split; eauto|]. split; [by intros [x ?]|done].
Qed.

(** ** [Stop] of the pool *)

(** An item without sessions, in whose cycle no connection waits. *)
Definition idle_member (w : Member) : Prop := pending_fds w = [] /\ sessions (w_item w) = ∅.

Lemma ready_wf i w : worker_ready i w -> hub_wf None (w_item w) /\ exists got, hub_bytes got (w_item w).
Proof.
  intros [_ _ Hrun]. unfold byte_item in Hrun. rewrite item_runs_hub in Hrun. destruct (hub_new_spec (began i)) as [Hwf0 Hb0].
  destruct (hub_steps_spec _ _ _ _ _ _ _ _ _ _ Hwf0 Hb0 Hrun) as [Hwf Hb]. by split; [|eexists].
Qed.

Lemma idle_member_stops i w :
  worker_ready i w -> idle_member w -> exists x, worker_step i (with_stop w) = Ok (Some (mkThread None TDone x (w_done w))).
Proof.
  intros Hr [Hp Hs]. destruct (ready_wf i w Hr) as (Hwf & got & Hb). eexists. unfold worker_step, with_stop. simpl.
  rewrite (wr_thread _ _ Hr), Hp. simpl. rewrite (hub_stop_spec _ _ Hwf Hb), decide_True by done. done.
Qed.

(** When all items are idle, one step of each thread ends it, and [Stop] returns. *)
Lemma idle_members_stop (p : ThreadedPool ByteHub member_op) :
  pool_ready p -> (forall i w, workers p !! i = Some w -> idle_member w) ->
  exists p3 p4, Threaded_Stop p = Ok p3 /\ pool_run (WStep <$> seq 0 (length (workers p))) p3 = Ok p4 /\
    Threaded_join p4 = Some (mkThreaded (p_last p) false []).
Proof.
  intros Hp Hi.
  assert (exists ws : list Member, length (with_stop <$> workers p) = length ws /\
    (forall i w w', (with_stop <$> workers p) !! i = Some w -> ws !! i = Some w' -> worker_step i w = Ok (Some w')) /\
    Forall (fun w => w_thread w = TDone) ws) as (ws & Hlen & Hstep & Hdone).
  { set (end_of := fun i w => match worker_step i (with_stop w) with Ok (Some w') => w' | _ => w end).
    assert (He : forall i w, workers p !! i = Some w ->
      worker_step i (with_stop w) = Ok (Some (end_of i w)) /\ w_thread (end_of i w) = TDone).
    { intros i w Hw. destruct (idle_member_stops i w (pr_workers _ Hp i w Hw) (Hi i w Hw)) as (x & Hx).
      unfold end_of. by rewrite Hx. }
    exists (imap end_of (workers p)). split_and!; [by rewrite length_fmap, length_imap| |].
    - intros i w w' Hw Hw'. apply list_lookup_fmap_Some in Hw as (x & -> & Hx). rewrite list_lookup_imap, Hx in Hw'.
      injection Hw' as <-. by apply He.
    - apply Forall_lookup_2. intros i w Hw. rewrite list_lookup_imap in Hw. apply fmap_Some in Hw as (x & Hx & ->). by apply He. }
  eexists _, (mkThreaded (p_last p) (p_running p) ws). split; [by apply Stop_ready|]. split.
  - pose proof (one_step_each (p_last p) (p_running p) (with_stop <$> workers p) ws [] Hlen Hstep) as H.
    by rewrite length_fmap in H.
  - unfold Threaded_join. cbn [workers p_last]. rewrite (proj2 (forallb_forall _ _)); [done|].
    intros w Hin%list_elem_of_In. apply bool_decide_eq_true. rewrite Forall_forall in Hdone. by apply Hdone.
Qed.

(** A thread that is to stop and has, or will have, a session when it comes to it. *)
Record doomed (w : Member) : Prop := {
  dm_thread : w_thread w = TRunning;
  dm_cycle : exists fds, w_cycle w = Some ((JSession <$> fds) ++ [JStop]) /\ (fds <> [] \/ sessions (w_item w) <> ∅);
  dm_wf : hub_wf None (w_item w);
  dm_bytes : exists got, hub_bytes got (w_item w)
}.

Lemma busy_doomed i w : worker_ready i w -> ~ idle_member w -> doomed (with_stop w).
Proof.
  intros Hr Hi. destruct (ready_wf i w Hr) as [Hwf Hb]. split; try done; [apply (wr_thread _ _ Hr)|].
  exists (pending_fds w). split; [done|]. destruct (decide (pending_fds w = [])) as [Hp|]; [right|by left].
  intros Hs. by apply Hi.
Qed.

(** Its steps never end it. *)
Lemma doomed_step i w w' : doomed w -> worker_step i w = Ok w' -> exists w1, w' = Some w1 /\ doomed w1.
Proof.
  intros [Ht ([|fd fds] & Hc & Hne) Hwf [got Hb]] H; unfold worker_step in H; rewrite Ht, Hc in H; cbn [fmap list_fmap app it_stop it_accept byte_item HubItem] in H.
  - destruct Hne as [|Hs]; [done|]. rewrite (hub_stop_spec _ _ Hwf Hb), decide_False in H by done. done.
  - apply bind_Ok in H as (x & Hx & [= <-]). eexists. split; [done|].
    pose proof (accept_opens _ _ _ _ _ _ _ _ _ Hwf Hx) as [k Hk].
    destruct (hub_step_spec _ _ _ _ _ _ _ _ _ _ Hwf Hb Hx) as [Hwf' Hb'].
    split; [done| |done|by eexists]. exists fds. split; [done|]. right. intros E. cbn in E. by rewrite E in Hk.
Qed.

Lemma doomed_stays evs : forall (p p' : ThreadedPool ByteHub member_op) i w,
  workers p !! i = Some w -> doomed w -> pool_run (WStep <$> evs) p = Ok p' ->
  exists w', workers p' !! i = Some w' /\ doomed w'.
Proof.
  induction evs as [|j evs IH]; intros p p' i w Hw Hd H; simpl in H; [injection H as <-; eauto|].
  destruct (workers p !! j) as [wj|] eqn:Hj; [|by apply (IH p p' i w)].
  apply bind_Ok in H as (p1 & H1 & H). apply bind_Ok in H1 as (w1 & H1 & [= <-]).
  destruct (decide (j = i)) as [->|Hne].
  - assert (wj = w) as -> by congruence. destruct (doomed_step i w w1 Hd H1) as (w2 & -> & Hd2).
    refine (IH _ p' i w2 _ Hd2 H). cbn. apply list_lookup_insert_eq. by eapply lookup_lt_Some.
  - refine (IH _ p' i w _ Hd H). cbn. by rewrite list_lookup_insert_ne.
Qed.

(** With a session left, or one about to be made, [Stop] does not come to its end, whatever
    the order in which the threads run; and a thread that has one when it gets to the lambda
    of [Stop] runs into undefined behaviour. *)
Lemma busy_members_stop (p : ThreadedPool ByteHub member_op) i w :
  pool_ready p -> workers p !! i = Some w -> ~ idle_member w ->
  exists p3, Threaded_Stop p = Ok p3 /\
    (forall evs p4, pool_run (WStep <$> evs) p3 = Ok p4 -> Threaded_join p4 = None) /\
    (pending_fds w = [] -> pool_run [WStep i] p3 = UB).
Proof.
  intros Hp Hw Hi. eexists. split; [by apply Stop_ready|].
  pose proof (pr_workers _ Hp i w Hw) as Hr. pose proof (busy_doomed i w Hr Hi) as Hd.
  assert (Hw3 : (with_stop <$> workers p) !! i = Some (with_stop w)) by (by rewrite list_lookup_fmap, Hw). split.
  - intros evs p4 H. destruct (doomed_stays evs (mkThreaded _ _ (with_stop <$> workers p)) p4 i (with_stop w) Hw3 Hd H) as (w' & Hw' & [Ht _ _ _]).
    unfold Threaded_join. destruct (forallb _ _) eqn:E; [|done]. exfalso. rewrite forallb_forall in E.
    specialize (E w' ltac:(apply list_elem_of_In; by eapply list_elem_of_lookup_2)). apply bool_decide_eq_true in E. congruence.
  - intros Hpe. cbn [pool_run pool_step workers]. rewrite Hw3. cbn [mbind].
    destruct (ready_wf i w Hr) as (Hwf & got & Hb). unfold worker_step, with_stop. simpl. rewrite (wr_thread _ _ Hr), Hpe. simpl.
    rewrite (hub_stop_spec _ _ Hwf Hb), decide_False; [done|]. intros Hs. by apply Hi.
Qed.
End running.
