(* ===== verification/Client.v ===== *)
(** * The client in its cycle.

    Source: hare/net/tcp/client.cc ([ConnectTo] and the lambda it queues) with the timers of
    hare/base/io/cycle.cc.  Server.v has the client with timers of its own; here a retry is a
    timer of the event loop, as the code makes it. *)

From S2P Require Import Prelude EventLoop EventLoopSpec EventLoopFacts NetError Session Server.

Section connect.
Context (this : positive) (user_task : positive -> L unit) `{Hbe : !ReactorOps}.
(** The name of the function that calls [ConnectTo] again. *)
Context (retry_task : positive).

(** The lambda of [ConnectTo], in the thread of the cycle; [fd]: the new socket,
    [saved_errno]: what [connect] gave. *)
Definition connect_in_cycle (fd saved_errno : Z) (retry : bool) (times delay : Z) (c : TcpClient) : L TcpClient :=
  match connect_switch saved_errno retry times with
  | Retry _ =>
    i ← RunAfter this user_task true retry_task delay;
    mret (mkClient (c_session c) (connect_cb c) i (c_tasks c) (c_timers c) (c_closed c ++ [fd]) (next_id c))
  | _ => lift (connect_task fd saved_errno retry times delay c)
  end.
End connect.

(** The errors after which [ConnectTo] tries again. *)
Definition refused (errno : Z) : Prop := errno ∈ [EAGAIN; EADDRINUSE; EADDRNOTAVAIL; ECONNREFUSED; ENETUNREACH].

(** A refused attempt closes its socket and sets a timer; when the timer is due it leaves the
    reactor, no function has been called or queued, whatever the function is. *)
Lemma retry_is_lost `{Hbe : !ReactorOps} this retry_task fd errno times delay c w t n :
  refused errno -> 0 < times ->
  is_running w = true -> 0 <= event_id w -> events_ (reactor w) !! event_id w = None ->
  ptimer_ (reactor w) = [] -> now w + delay <= t ->
  exists c1 w1 w2,
    (forall user_task, connect_in_cycle this user_task retry_task fd errno true times delay c w = Ok (c1, w1)) /\
    c_closed c1 = c_closed c ++ [fd] /\ c_session c1 = c_session c /\ c_tasks c1 = c_tasks c /\ retry_id c1 = event_id w /\
    (forall user_cb user_task fuel, NotifyTimer this user_cb user_task (S (S fuel)) n (set_time t n w1) = Ok (tt, w2)) /\
    events_ (reactor w2) = events_ (reactor w) /\ ptimer_ (reactor w2) = [] /\ pending_functions w2 = pending_functions w.
Proof.
  intros He Ht Hr Hid Hn Hp Hdue. destruct (timer_expires this retry_task delay w t n Hid Hn Hp Hdue) as (w2 & Hrun & H1 & _ & H2 & H3).
  exists (mkClient (c_session c) (connect_cb c) (event_id w) (c_tasks c) (c_timers c) (c_closed c ++ [fd]) (next_id c)),
    (timer_set this retry_task delay w), w2. split_and!; try done.
  intros user_task. unfold connect_in_cycle. rewrite connect_switch_refused by done. rewrite Z.gtb_ltb, (proj2 (Z.ltb_lt _ _)) by done.
  by rewrite (ST_bind_run _ _ _ _ _ (RunAfter_sets this user_task retry_task delay w Hr Hn)).
Qed.

(** [ConnectTo] is refused only while a session is connected, and its lambda runs later: of
    two calls in a row the second one lets go of the session of the first, whose destructor
    fails its assertion. *)
Lemma ConnectTo_twice running c retry times delay fd1 fd2 :
  c_session c = None -> c_tasks c = [] -> connect_cb c = true ->
  let c2 := ConnectTo running retry times delay (ConnectTo running retry times delay c) in
  exists c3, run_client_task fd1 0 c2 = Ok c3 /\ c_session c3 = Some STATE_CONNECTED /\ run_client_task fd2 0 c3 = Abort.
Proof.
  intros Hs Ht Hcb c2.
  assert (E : c2 = mkClient None true (retry_id c) [CtConnect retry times delay; CtConnect retry times delay] (c_timers c) (c_closed c) (next_id c)).
  { unfold c2. destruct c; simpl in *; subst. unfold ConnectTo, Connected. simpl. rewrite andb_false_r. simpl. by rewrite andb_false_r. }
  rewrite E. eexists. split; [reflexivity|]. by split.
Qed.
