(* ===== verification/Listen.v ===== *)
(** * The acceptor in the event loop.

    Sources: hare/net/tcp/acceptor.cc (constructor, destructor, [Listen]) and
    hare/net/tcp/serve.cc ([AddAcceptor]).

    An acceptor is an event; what happens to connections it accepts is in Server.v.  What
    [socket], [open], [bind] and [listen] return are arguments.  [AddAcceptor] is modelled in
    the thread of the cycle; another thread hands the same task over and waits for it. *)

From S2P Require Import Prelude EventLoop EventLoopSpec EventLoopFacts LoopLife NetError Sockets Session Server.

(** The event and [idle_fd_]. *)
Definition Acceptor_ctor (cb : positive) (socket_ret open_ret : Z) : outcome (EventImpl * Z) :=
  fd ← CreateNonblockingOrDie socket_ret;
  _ ← hare_assert (open_ret >? 0);
  Ok (Event_ctor fd (CbUser cb) EVENT_PERSIST 0, open_ret).

Section acceptor_loop.
Context (this : positive) (user_task : positive -> L unit).
Context `{!ReactorOps}.

(** [Listen]: on success the acceptor is tied to itself and watches for reading. *)
Definition Listen (in_thread : bool) (e : eptr) (bind_ret listen_ret : Z) : L Z :=
  o ← obj e;
  let code := Acceptor_Listen (bool_decide (cycle o <> None)) bind_ret listen_ret in
  if code =? ERROR_SUCCESS then
    _ ← set_obj e (Event_Tie o (Some (OwnEvent e)));
    _ ← EnableRead this user_task in_thread e;
    mret code
  else mret code.

(** The task of [AddAcceptor]: the value of [added]. *)
Definition AddAcceptor (e : eptr) (bind_ret listen_ret : Z) : L bool :=
  _ ← EventUpdate this user_task true e;
  code ← Listen true e bind_ret listen_ret;
  mret (code =? ERROR_SUCCESS).

(** [TiedObject().expired()] in the destructor of [e]: nobody holds [e] any more. *)
Definition tie_expired (w : World) (e : eptr) (o : EventImpl) : bool :=
  match tie_object o with
  | Some (OwnEvent f) => bool_decide (f = e)
  | Some (OwnUser p) => negb (owner_alive w p)
  | None => true
  end.

Definition Acceptor_dtor (in_thread : bool) (e : eptr) : L unit :=
  o ← obj e;
  w ← gets (fun w => w);
  _ ← (if negb (tie_expired w e o) then
         _ ← set_obj e (Event_Tie o None);
         Deactivate this user_task in_thread e
       else mret tt);
  o ← obj e;
  lift (Event_dtor o).
End acceptor_loop.

Section facts.
Context (this : positive) (epoll_ctl : Z -> Z -> Z -> bool) (user_task : positive -> L unit).
Abbreviation be := (EpollBackend epoll_ctl).
Abbreviation Listen := (Listen this user_task (H := be)).
Abbreviation AddAcceptor := (AddAcceptor this user_task (H := be)).

(** The event of a new acceptor. *)
Definition acceptor_event (o : EventImpl) : Prop := exists f cb, o = Event_ctor f (CbUser cb) EVENT_PERSIST 0.

Lemma Listen_failed w e o bind_ret listen_ret :
  io_event this w e o -> (Acceptor_Listen true bind_ret listen_ret =? ERROR_SUCCESS) = false ->
  Listen true e bind_ret listen_ret w = Ok (Acceptor_Listen true bind_ret listen_ret, w).
Proof.
  intros [_ (Ho & _ & Hc) _ _] E. unfold Listen.Listen. erewrite ST_bind_run by (unfold obj; by rewrite Ho).
  rewrite bool_decide_true by congruence. by rewrite E.
Qed.

Lemma read_change : rw_change (fun v => SET_EVENT v EVENT_READ).
Proof. exists EVENT_READ. by split; left. Qed.

Lemma Listen_listens w e o bind_ret listen_ret :
  io_event this w e o -> (Acceptor_Listen true bind_ret listen_ret =? ERROR_SUCCESS) = true ->
  let o2 := Event_Tie o (Some (OwnEvent e)) in
  Listen true e bind_ret listen_ret w =
    Ok (Acceptor_Listen true bind_ret listen_ret,
        with_flags e o2 (fun v => SET_EVENT v EVENT_READ) (set_objs (<[e := o2]> (objs w)) w)).
Proof.
  intros Hio E o2. pose proof Hio as [_ (Ho & _ & Hc) _ _]. unfold Listen.Listen. erewrite ST_bind_run by (unfold obj; by rewrite Ho).
  rewrite bool_decide_true by congruence. rewrite E. erewrite ST_bind_run by done.
  by rewrite (ST_bind_run _ _ _ _ _ (Event_change_active this epoll_ctl user_task _ _ _ _ read_change
    (io_event_tie this w e o (Some (OwnEvent e)) Hio))).
Qed.

(** After [AddAcceptor] with a successful [listen] the acceptor is in the reactor, tied,
    and watches for connections; when [bind] or [listen] fails the caller is told so, and
    the acceptor stays in the reactor without watching. *)
Lemma AddAcceptor_spec w e o bind_ret listen_ret :
  fresh_event this epoll_ctl w e o -> acceptor_event o ->
  let ok := Acceptor_Listen true bind_ret listen_ret =? ERROR_SUCCESS in
  exists w' o', AddAcceptor e bind_ret listen_ret w = Ok (ok, w') /\ io_event this w' e o' /\ added e o w w' /\
    Event_Reading o' = ok /\ tied o' = ok /\ tie_object o' = (if ok then Some (OwnEvent e) else None).
Proof.
  intros Hf (f & cb & Eo) ok. destruct (register_new this epoll_ctl user_task w e o Hf) as (Hrun & Hio & Had).
  set (w1 := registered this e o w) in *. set (o1 := Event_Active o this (event_id w)) in *.
  unfold Listen.AddAcceptor. rewrite (ST_bind_run _ _ _ _ _ Hrun).
  destruct ok eqn:Eok.
  - set (o2 := Event_Tie o1 (Some (OwnEvent e))). set (w2 := set_objs (<[e := o2]> (objs w1)) w1).
    exists (with_flags e o2 (fun v => SET_EVENT v EVENT_READ) w2), (Event_set_events o2 (SET_EVENT (events o2) EVENT_READ)).
    split_and!.
    + rewrite (ST_bind_run _ _ _ _ _ (Listen_listens w1 e o1 bind_ret listen_ret Hio Eok)).
      unfold mret, ST_ret. fold ok. by rewrite Eok.
    + apply io_event_flags; [apply read_change|by apply io_event_tie].
    + apply added_set. by apply added_set.
    + unfold Event_Reading. simpl. change EVENT_READ with (2 ^ 1). rewrite check_set by lia. apply orb_true_r.
    + done.
    + done.
  - exists w1, o1. rewrite (ST_bind_run _ _ _ _ _ (Listen_failed w1 e o1 bind_ret listen_ret Hio Eok)).
    unfold mret, ST_ret. fold ok. rewrite Eok. subst o o1. by split_and!.
Qed.

(** An acceptor may die once it has left its cycle; tied to itself it does not leave it
    by dying. *)
Lemma Acceptor_dtor_spec w e o in_thread :
  objs w !! e = Some o -> tie_object o = Some (OwnEvent e) ->
  Acceptor_dtor this user_task (H := be) in_thread e w = if decide (cycle o = None) then Ok (tt, w) else Abort.
Proof.
  intros Ho Ht. unfold Acceptor_dtor. erewrite ST_bind_run by (unfold obj; by rewrite Ho).
  erewrite ST_bind_run by done. unfold tie_expired. rewrite Ht, bool_decide_true by done.
  erewrite ST_bind_run by done. erewrite ST_bind_run by (unfold obj; by rewrite Ho).
  unfold lift, Event_dtor, hare_assert. case_decide as Hc.
  - by rewrite bool_decide_true.
  - by rewrite bool_decide_false.
Qed.
End facts.
