(* ===== verification/EchoMain.v ===== *)
(** * The main program of the echo server.

    Sources: samples/echo/echo_serve.cc ([main]) from the arguments to the call of [Exec], and
    from its return to the end; hare/net/tcp/serve.cc ([Exec] after the loop of the main cycle
    has ended).  What the system calls return are arguments; the pool and the sessions that
    run while [Exec] does are in PoolStart.v, EchoServe.v and EchoPool.v. *)

From S2P Require Import Prelude LogFile Log.
From S2P Require Import Util System EventLoop EventLoopSpec EventLoopFacts LoopLife Console NetError Sockets Session.
From S2P Require Import Server Listen PoolStart EchoServe EchoPool.

(** [std::stoi] *)
Definition stoi (s : list Z) : outcome Z :=
  let s := drop_space s in
  let neg := match s with b :: _ => b =? 45 | [] => false end in
  let s := match s with b :: r => if (b =? 45) || (b =? 43) then r else s | [] => [] end in
  match s with
  | b :: _ =>
    if is_digit b then
      let v := if neg then - digits s 0 else digits s 0 in
      if (- 2 ^ 31 <=? v) && (v <? 2 ^ 31) then Ok v else Throw OutOfRange
    else Throw InvalidArgument
  | [] => Throw InvalidArgument
  end.

(** [std::uint16_t(std::stoi(std::string(argv[2])))] *)
Definition echo_port (argv2 : list Z) : outcome Z := v ← stoi argv2; Ok (v mod 2 ^ 16).

(** ** The logger *)

Definition file_backend : positive := 1.
Definition std_backend : positive := 2.

(** [backends], with the file backend that its constructor (LogFile.v) has made. *)
Definition echo_backends (fb : FileBackend) : gmap positive Backend :=
  <[file_backend := Backend_set_level (Backend_new (FileBackendOf fb)) LEVEL_TRACE]>
  {[ std_backend := Backend_set_level (Backend_new STDBackend) LEVEL_INFO ]}.

(** [server_logger], created in the registry. *)
Definition echo_logger (r : Registry) (loggers : gmap positive Logger) :
    outcome (positive * Registry * gmap positive Logger) :=
  x ← Registry_Create r loggers "echo_serve" [file_backend; std_backend];
  let '(p, r, loggers) := x in
  Ok (p, r, alter (set_level LEVEL_TRACE) p loggers).

Definition TRACE_MSG : Z := 0.
Definition ERROR_MSG : Z := 1.

(** [HandleMsg]: the level at which a message of the library is logged. *)
Definition echo_HandleMsg (msg_type : Z) : Z := if msg_type =? TRACE_MSG then LEVEL_TRACE else LEVEL_ERROR.

(** The backends of a logger that take a message of this level. *)
Definition takers (backs : gmap positive Backend) (l : Logger) (level : Z) : list positive :=
  filter (fun p => (match backs !! p with Some b => Backend_Check b level | None => false end) = true)
    (if Logger_Check l level then backends_ l else []).

(** Traces of the library go to the file only, its errors to the file and the terminal. *)
Lemma echo_log_spec fb :
  exists p r loggers l, echo_logger ∅ ∅ = Ok (p, r, loggers) /\ Registry_Get r "echo_serve" = Some p /\ loggers !! p = Some l /\
    takers (echo_backends fb) l (echo_HandleMsg TRACE_MSG) = [file_backend] /\
    forall t, t <> TRACE_MSG -> takers (echo_backends fb) l (echo_HandleMsg t) = [file_backend; std_backend].
Proof.
  eexists _, _, _, _. split; [reflexivity|]. split_and!; [reflexivity|reflexivity|reflexivity|].
  intros t Ht. unfold echo_HandleMsg. rewrite (proj2 (Z.eqb_neq _ _)) by done. reflexivity.
Qed.

(** ** The objects *)

(** The names of the callbacks of the acceptor and of the console, and of the task that is
    registered for the line [quit]. *)
Definition acceptor_cb : positive := 1.
Definition console_cb : positive := 2.
Definition quit_task : positive := 1.
Definition QUIT : list Z := [113; 117; 105; 116].

(** [[&] { main_cycle.Exit(); }], which the console runs in the thread of the cycle. *)
Definition echo_task (k : positive) : L unit := if decide (k = quit_task) then Exit true else mret tt.

(** What the console calls. *)
Definition run_call (c : ConsoleCall) : L unit := match c with CallTask t => echo_task t | _ => mret tt end.

(** What the system calls return. *)
Record EchoCalls := mkCalls {
  socket_ret : Z; open_ret : Z; eventfd_ret : Z; epoll_create_ret : Z; start_time : Z; bind_ret : Z; listen_ret : Z
}.

Record EchoSystem := mkEcho {
  em_port : Z; em_acceptor : eptr; em_idle_fd : Z; em_console : ConsoleImpl; em_serve : TcpServe; em_listens : bool
}.

Section main.
Context (this : positive) (asserts : bool) (GlobalConsoleHandle : positive).
Context `{!ReactorOps}.

(** The objects in the world of the main cycle; [em_listens] is the result of [AddAcceptor],
    which [main] does not look at. *)
Definition echo_wire (port : Z) (acc : EventImpl * Z) (bind_ret listen_ret : Z) : L EchoSystem :=
  a ← new_obj (fst acc);
  added ← AddAcceptor this echo_task a bind_ret listen_ret;
  c ← Console_ctor asserts GlobalConsoleHandle console_cb;
  c ← lift (RegisterHandle c QUIT quit_task);
  c ← Console_Attach this echo_task c true true;
  mret (mkEcho port a (snd acc) (snd c) (Serve_ctor true) added).

(** Up to [Exec]; [None]: the usage is printed and the program ends. *)
Definition echo_setup (argc : Z) (argv2 : list Z) (r : EchoCalls) : outcome (option (EchoSystem * World)) :=
  if argc <? 3 then Ok None
  else
    port ← echo_port argv2;
    acc ← Acceptor_ctor acceptor_cb (socket_ret r) (open_ret r);
    x ← Cycle_new this REACTOR_TYPE_EPOLL (eventfd_ret r) (epoll_create_ret r) (start_time r) None;
    y ← echo_wire port acc (bind_ret r) (listen_ret r) (fst x);
    Ok (Some y).

(** [TcpServe::Exec] after the loop of the main cycle: the pool is stopped, [evs] is what its
    threads do while [Stop] joins them, and the pool goes away.  [NoFuel]: a thread has not
    come to its end in [evs], and [Stop] waits for it. *)
Definition Exec_rest {I O : Type} {Hops : ItemOps I O} (evs : list (pool_event O)) (serve : TcpServe) (p : ThreadedPool I O) :
    outcome (Z * TcpServe) :=
  p ← Threaded_Stop p;
  p ← pool_run evs p;
  match Threaded_join p with
  | Some _ => Ok (ERROR_SUCCESS, mkServe None (session_id serve) false (new_session_set serve) (posted serve))
  | None => NoFuel
  end.

(** [main] from the end of the loop of its cycle: [Exec] returns, the acceptor is let go of,
    then the objects on the stack die.  The console lives on. *)
Definition echo_finish {I O : Type} {Hops : ItemOps I O} (evs : list (pool_event O)) (s : EchoSystem) (serve : TcpServe)
    (p : ThreadedPool I O) (last_ref : eptr -> bool) (w : World) : outcome Z :=
  r ← Exec_rest evs serve p;
  x ← Acceptor_dtor this echo_task true (em_acceptor s) w;
  _ ← Serve_dtor (snd r);
  _ ← Cycle_dtor true last_ref (snd x);
  Ok (if fst r =? ERROR_SUCCESS then 0 else -1).
End main.

(** ** Facts *)

Section facts.
Context (this : positive) (asserts : bool) (G : positive) (epoll_ctl : Z -> Z -> Z -> bool).
Abbreviation be := (EpollBackend epoll_ctl).

Lemma Hook_Store_default : Hook_Store asserts (Hook_ctor G) G = Ok (Hook_ctor G).
Proof. unfold Hook_Store, DoStore. simpl. rewrite bool_decide_true by done. simpl. by rewrite andb_false_r. Qed.

(** A new object is fresh for the reactor if its descriptor is. *)
Lemma new_fresh w o :
  Inv this w -> flags_ok o -> id o = -1 -> 0 <= fd o -> CHECK_EVENT (events o) EVENT_TIMEOUT = false ->
  inverse_map_ (reactor w) !! fd o = None -> events_ (reactor w) !! event_id w = None ->
  epoll_ctl EPOLL_CTL_ADD (fd o) (DecodeEpoll (events o)) = true ->
  exists w', new_obj o w = Ok (next_obj w, w') /\ fresh_event this epoll_ctl w' (next_obj w) o /\
    event_id w' = event_id w /\ reactor w' = reactor w /\ next_obj w' = Pos.succ (next_obj w) /\ notify_event w' = notify_event w /\
    is_running w' = is_running w /\ forall x, x <> next_obj w -> objs w' !! x = objs w !! x.
Proof.
  intros Hi Hfl Hid Hfd Hto Hinv Hev Hctl. eexists. split; [done|].
  destruct (inv_new_obj this w o (next_obj w) _ Hi Hfl Hid eq_refl) as (Hi' & _ & Ho).
  split; [by split|]. split_and!; try done. intros x Hx. simpl. by rewrite lookup_insert_ne.
Qed.

(** Attaching the console registers its event, which is tied and reads. *)
Lemma Attach_fresh w c o :
  fresh_event this epoll_ctl w (console_event c) o ->
  exists w', Console_Attach this echo_task (Hbe := be) c true true w =
      Ok (true, mkConsole (console_event c) (handlers c) (default_handle c) true, w') /\
    io_event this w' (console_event c) (Event_Tie (Event_Active o this (event_id w)) (Some (OwnEvent (console_event c)))) /\
    added (console_event c) o w w'.
Proof.
  intros Hf. destruct (register_new this epoll_ctl echo_task w _ o Hf) as (Hrun & Hio & Had).
  eexists. split_and!; [|by apply io_event_tie|by apply added_set].
  unfold Console_Attach. simpl. erewrite ST_bind_run by done. rewrite orb_true_r. rewrite (ST_bind_run _ _ _ _ _ Hrun).
  erewrite ST_bind_run by (unfold obj; simpl; by rewrite lookup_insert_eq). by erewrite ST_bind_run by done.
Qed.

(** Registering an event leaves the others as they are. *)
Lemma io_event_others w w' x ox e o : io_event this w x ox -> Inv this w' -> added e o w w' -> x <> e -> io_event this w' x ox.
Proof. intros [_ (Ho & Hr) Hf Ht] Hi Had Hne. split; [done| |done|done]. split; [|done]. by rewrite (ad_others _ _ _ _ Had). Qed.

(** [Exec] may begin: the notifier is registered and tied. *)
Lemma Exec_begin_fresh w o :
  fresh_event this epoll_ctl w (notify_event w) o -> is_running w = false ->
  exists w' on, Exec_begin this echo_task (H := be) w = Ok (tt, w') /\ io_event this w' (notify_event w') on /\ fd on = fd o /\
    added (notify_event w) o (set_quit false (set_running true w)) w'.
Proof.
  intros [Hi Ho Hid Hfd Hto Hinv Hev Hctl] Hrun. set (w1 := set_quit false (set_running true w)).
  assert (Hf : fresh_event this epoll_ctl w1 (notify_event w) o).
  { split; try done. refine (proj1 (keeps_neutral this (fun w => set_quit false (set_running true w)) _ w tt w1 Hi eq_refl)). by intros x; split_and!. }
  destruct (register_new this epoll_ctl echo_task w1 _ o Hf) as (Hup & Hio & Had).
  exists (set_objs (<[notify_event w := Event_Tie (Event_Active o this (event_id w1)) (Some (OwnEvent (notify_event w)))]>
    (objs (registered this (notify_event w) o w1))) (registered this (notify_event w) o w1)).
  eexists. split_and!; [|by apply io_event_tie|done|by apply added_set].
  unfold Exec_begin. erewrite ST_bind_run by done. rewrite Hrun. do 3 (erewrite ST_bind_run by done).
  rewrite (ST_bind_run _ _ _ _ _ Hup). by erewrite ST_bind_run by (unfold obj; simpl; by rewrite lookup_insert_eq).
Qed.

(** What [main] has made when it calls [Exec]. *)
Record echo_ready (r : EchoCalls) (s : EchoSystem) (w : World) : Prop := {
  er_acceptor : exists o, io_event this w (em_acceptor s) o /\ Event_Reading o = em_listens s /\ tied o = em_listens s;
  er_console : exists o, io_event this w (console_event (em_console s)) o /\ fd o = STDIN_FILENO /\
    Event_Reading o = true /\ tied o = true;
  er_attached : attached (em_console s) = true;
  er_quit : handlers (em_console s) !! QUIT = Some quit_task;
  er_notify : fresh_event this epoll_ctl w (notify_event w) (EventNotify_ctor (eventfd_ret r));
  er_idle : is_running w = false;
  er_apart : em_acceptor s <> notify_event w /\ console_event (em_console s) <> notify_event w
}.

Record calls_succeed (r : EchoCalls) : Prop := {
  cs_socket : 0 < socket_ret r;
  cs_open : 0 < open_ret r;
  cs_eventfd : 0 < eventfd_ret r;
  cs_epoll : 0 <= epoll_create_ret r;
  cs_apart : socket_ret r <> eventfd_ret r;
  cs_ctl : forall fd ev, epoll_ctl EPOLL_CTL_ADD fd ev = true
}.

Lemma echo_wire_spec r port :
  calls_succeed r ->
  exists s w, echo_wire this asserts G (H := be) port (Event_ctor (socket_ret r) (CbUser acceptor_cb) EVENT_PERSIST 0, open_ret r)
      (bind_ret r) (listen_ret r) (Cycle_ctor (eventfd_ret r) (start_time r)) = Ok (s, w) /\ echo_ready r s w /\
    em_port s = port /\ em_idle_fd s = open_ret r /\ em_serve s = Serve_ctor true /\
    em_listens s = (Acceptor_Listen true (bind_ret r) (listen_ret r) =? ERROR_SUCCESS).
Proof.
  intros [Hs Ho He Hp Hne Hctl]. unfold echo_wire.
  set (w0 := Cycle_ctor _ _). set (oa := Event_ctor (socket_ret r) _ _ _).
  destruct (new_fresh w0 oa) as (w1 & R1 & F1 & I1 & Re1 & N1 & No1 & Ru1 & O1);
    [apply Cycle_ctor_Inv|apply Event_ctor_flags|done|simpl; lia|done|done|done|by apply Hctl|].
  rewrite (ST_bind_run _ _ _ _ _ R1).
  destruct (AddAcceptor_spec this epoll_ctl echo_task w1 _ oa (bind_ret r) (listen_ret r) F1) as
    (w2 & o2 & R2 & Io2 & A2 & Rd2 & Ti2 & _); [by eexists _, _|]. rewrite (ST_bind_run _ _ _ _ _ R2).
  set (oc := Event_ctor STDIN_FILENO (CbUser console_cb) (Z.lor (Z.lor EVENT_READ EVENT_PERSIST) EVENT_ET) 0).
  destruct A2 as [Aid Aev Ainv Anx Ano Aru Aot].
  destruct (new_fresh w2 oc) as (w3 & R3 & F3 & I3 & Re3 & N3 & No3 & Ru3 & O3);
    [apply Io2|apply Event_ctor_flags|done|done|done| | |by apply Hctl|].
  { rewrite Ainv, Re1, I1. simpl. rewrite lookup_insert_ne by (unfold STDIN_FILENO; lia). done. }
  { rewrite Aev, Re1, Aid, I1. done. }
  rewrite (ST_bind_run _ _ w2 (mkConsole (next_obj w2) ∅ (Hook_ctor G) false) w3).
  2: { unfold Console_ctor. rewrite (ST_bind_run _ _ _ _ _ R3). rewrite Hook_Store_default. done. }
  unfold RegisterHandle. erewrite ST_bind_run by done. cbn [console_event handlers attached default_handle].
  destruct (Attach_fresh w3 (mkConsole (next_obj w2) (<[QUIT := quit_task]> ∅) (Hook_ctor G) false) oc F3) as (w4 & R4 & Io4 & A4).
  simpl in Io4, A4. rewrite (ST_bind_run _ _ _ _ _ R4). eexists _, w4. split; [done|].
  assert (Hn1 : next_obj w2 = 3%positive) by (by rewrite Anx, N1).
  assert (Hn2 : notify_event w4 = 1%positive) by (by rewrite (ad_notify _ _ _ _ A4), No3, Ano, No1).
  split; [|done]. split; simpl.
  - exists o2. split; [|done]. apply (io_event_others w3 w4 _ _ (next_obj w2) oc); [|apply Io4|done|by rewrite Hn1].
    destruct Io2 as [_ (Hob & Hr) Hf Ht]. split; [apply F3| |done|done]. split; [|done]. rewrite O3; [done|by rewrite Hn1].
  - eexists. by split; [exact Io4|].
  - done.
  - apply lookup_insert_eq.
  - rewrite Hn2. split; [apply Io4| |done|simpl; lia|done| | |by apply Hctl].
    + rewrite (ad_others _ _ _ _ A4), O3, Aot, O1 by (by rewrite ?Hn1). done.
    + rewrite (ad_inverse _ _ _ _ A4), Re3, Ainv, Re1. simpl. rewrite lookup_insert_ne by (unfold STDIN_FILENO; lia).
      by rewrite lookup_insert_ne.
    + rewrite (ad_events _ _ _ _ A4), (ad_id _ _ _ _ A4), Re3, I3, Aid, I1, Aev, Re1, I1. done.
  - by rewrite (ad_running _ _ _ _ A4), Ru3, Aru, Ru1.
  - by rewrite Hn1, Hn2.
Qed.

Lemma echo_setup_spec argc argv2 v r :
  3 <= argc -> stoi argv2 = Ok v -> calls_succeed r ->
  exists s w, echo_setup this asserts G (H := be) argc argv2 r = Ok (Some (s, w)) /\ echo_ready r s w /\
    em_port s = v mod 2 ^ 16 /\ em_serve s = Serve_ctor true /\
    em_listens s = (Acceptor_Listen true (bind_ret r) (listen_ret r) =? ERROR_SUCCESS).
Proof.
  intros Ha Hv Hr. destruct (echo_wire_spec r (v mod 2 ^ 16) Hr) as (s & w & Hw & Hrd & Hp & _ & Hsv & Hl).
  exists s, w. split; [|done]. destruct Hr as [H1 H2 H3 H4 _ _]. unfold echo_setup, echo_port, Acceptor_ctor, CreateNonblockingOrDie.
  rewrite (proj2 (Z.ltb_ge _ _)), Hv by lia. simpl.
  rewrite !(proj2 (Z.ltb_ge (socket_ret r) _)) by lia. simpl. unfold hare_assert. rewrite (proj2 (Z.gtb_gt _ _)) by lia. simpl.
  unfold Cycle_new, CreateNotifier, CreateByType, ReactorEpoll_ctor.
  rewrite (proj2 (Z.ltb_ge (eventfd_ret r) _)), (proj2 (Z.ltb_ge (epoll_create_ret r) _)) by lia.
  exact (f_equal (fun m => y ← m; Ok (Some y)) Hw).
Qed.

(** An acceptor that is in no cycle may die, whatever it is tied to. *)
Lemma Acceptor_dtor_reset w e o :
  objs w !! e = Some o -> cycle o = None ->
  exists w', Acceptor_dtor this echo_task (H := be) true e w = Ok (tt, w') /\ reactor w' = reactor w /\ notify_event w' = notify_event w /\
    forall x ox, objs w !! x = Some ox -> cycle ox = None -> exists ox', objs w' !! x = Some ox' /\ cycle ox' = None.
Proof.
  intros Ho Hc. unfold Acceptor_dtor. erewrite ST_bind_run by (unfold obj; by rewrite Ho). erewrite ST_bind_run by done.
  assert (Hd : lift (S := World) (Event_dtor o) = mret tt) by (unfold Event_dtor; by rewrite bool_decide_true).
  destruct (tie_expired w e o); simpl.
  - exists w. erewrite ST_bind_run by done. erewrite ST_bind_run by (unfold obj; by rewrite Ho). rewrite Hd. split_and!; eauto.
  - eexists. split.
    + erewrite ST_bind_run.
      2: { erewrite ST_bind_run by done. unfold Deactivate. erewrite ST_bind_run by (unfold obj; simpl; by rewrite lookup_insert_eq).
           simpl. by rewrite Hc. }
      erewrite ST_bind_run by (unfold obj; simpl; by rewrite lookup_insert_eq). unfold Event_dtor. simpl. by rewrite bool_decide_true.
    + simpl. split_and!; try done. intros x ox Hx Hcx. destruct (decide (x = e)) as [->|Hne].
      * rewrite lookup_insert_eq. by eexists.
      * rewrite lookup_insert_ne by done. eauto.
Qed.

Section exec_rest.
Context {I O : Type} {Hops : ItemOps I O}.
Implicit Types (p : ThreadedPool I O) (evs : list (pool_event O)).

Lemma Exec_rest_ends evs serve p p3 p4 x :
  Threaded_Stop p = Ok p3 -> pool_run evs p3 = Ok p4 -> Threaded_join p4 = Some x -> exists r, Exec_rest evs serve p = Ok r.
Proof. intros H3 H4 Hj. unfold Exec_rest. rewrite H3. cbn. rewrite H4. cbn. rewrite Hj. by eexists. Qed.

Lemma Exec_rest_waits evs serve p p3 :
  Threaded_Stop p = Ok p3 -> (forall p4, pool_run evs p3 = Ok p4 -> Threaded_join p4 = None) ->
  forall r, Exec_rest evs serve p <> Ok r.
Proof.
  intros H3 Hj r. unfold Exec_rest. rewrite H3. cbn. destruct (pool_run evs p3) as [p4| | | |]; cbn; try done. by rewrite (Hj p4).
Qed.

Lemma Exec_rest_UB evs serve p p3 : Threaded_Stop p = Ok p3 -> pool_run evs p3 = UB -> Exec_rest evs serve p = UB.
Proof. intros H3 H4. unfold Exec_rest. rewrite H3. cbn. by rewrite H4. Qed.
End exec_rest.

(** However the loop went, after its end [main] does what [Stop] lets it do, and then comes to
    its end. *)
Lemma echo_finish_spec {I O : Type} {Hops : ItemOps I O} w on oa s serve last_ref :
  Inv this w -> active this w (notify_event w) on -> 0 <= fd on -> active this w (em_acceptor s) oa ->
  exists w', Exec_end this echo_task (H := be) w = Ok (tt, w') /\
    forall (evs : list (pool_event O)) (p : ThreadedPool I O), echo_finish this (H := be) evs s serve p last_ref w' =
      match Exec_rest evs serve p with Ok _ => Ok 0 | Abort => Abort | Throw e => Throw e | UB => UB | NoFuel => NoFuel end.
Proof.
  intros Hi Hn Hfd Ha. destruct (Exec_end_spec this epoll_ctl echo_task w on Hi Hn Hfd) as (w' & He & Hev & _ & _ & Hnt & _ & Hobj).
  exists w'. split; [done|]. intros evs p. destruct (Hobj _ _ Ha) as (o1 & Ho1 & _ & _ & Hc1). destruct (Hobj _ _ Hn) as (o2 & Ho2 & _ & _ & Hc2).
  destruct (Acceptor_dtor_reset w' _ o1 Ho1 Hc1) as (w2 & Hd & Hre & Hno & Hk). rewrite <- Hnt, <- Hno in Ho2.
  destruct (Hk _ _ Ho2 Hc2) as (o3 & Ho3 & Hc3). unfold echo_finish.
  assert (Hrest : forall r, Exec_rest evs serve p = Ok r -> fst r = ERROR_SUCCESS /\ started (snd r) = false).
  { intros r (p1 & _ & (p2 & _ & H)%bind_Ok)%bind_Ok. destruct (Threaded_join p2); [|done]. by injection H as <-. }
  destruct (Exec_rest evs serve p) as [r| | | |]; simpl; try done. destruct (Hrest r eq_refl) as [-> Hs].
  rewrite Hd. simpl. unfold Serve_dtor. rewrite Hs. simpl.
  unfold Cycle_dtor. simpl. rewrite Ho3. simpl. unfold Event_dtor. rewrite bool_decide_true by done. simpl.
  by rewrite Hre, Hev, map_to_list_empty.
Qed.

(** The line [quit] ends the loop. *)
Lemma quit_line c events w :
  handlers c !! QUIT = Some quit_task -> CHECK_EVENT events EVENT_READ = true ->
  exists call w', Console_Process c (console_event c) events 5 (QUIT ++ [NEWLINE]) = Ok call /\ run_call call w = Ok (tt, w') /\ quit w' = true.
Proof.
  intros Hq Hr. exists (CallTask quit_task), (set_quit true w). split_and!; [|done|done].
  etrans; [exact (Console_Process_spec c events [113; 117; 105] 116 1 [] Hr ltac:(done))|].
  change ([113; 117; 105] ++ [116]) with QUIT. by rewrite Hq.
Qed.

(** The events [main] has registered are in the reactor, and stay there when [Exec] begins. *)
Record echo_watched (s : EchoSystem) (w : World) : Prop := {
  ew_notify : exists o, io_event this w (notify_event w) o;
  ew_acceptor : exists o, io_event this w (em_acceptor s) o /\ Event_Reading o = em_listens s /\ tied o = em_listens s;
  ew_console : exists o, io_event this w (console_event (em_console s)) o /\ fd o = STDIN_FILENO /\
    Event_Reading o = true /\ tied o = true
}.

Lemma echo_begins r s w :
  echo_ready r s w -> exists w1, Exec_begin this echo_task (H := be) w = Ok (tt, w1) /\ echo_watched s w1.
Proof.
  intros [(oa & Ia & Ha) (oc & Ic & Hc) _ _ Hn Hr [Na Nc]].
  destruct (Exec_begin_fresh w _ Hn Hr) as (w1 & on & Hb & Io & _ & Had). exists w1. split; [done|].
  assert (Hk : forall x ox, io_event this w x ox -> x <> notify_event w -> io_event this w1 x ox).
  { intros x ox [_ (Hx & Hi) Hf Ht] Hne. split; [apply Io| |done|done]. split; [|done]. by rewrite (ad_others _ _ _ _ Had). }
  split; [by exists on|exists oa|exists oc]; (split; [by apply Hk|done]).
Qed.
End facts.
