(* ===== verification/PropBuffer.v ===== *)
(** * Properties of [net::Buffer].

    The theorems of the byte queue, each with a concrete instance.  The instances run on one
    heap with two buffers: [bufA] holds the bytes 5 and 6 behind four drained ones, [bufB]
    the bytes 7, 8 and 9. *)

From S2P Require Import Prelude Cache CacheList CacheRing CacheListSpec CacheListMove CacheListGrow.
From S2P Require Import NetBuffer NetBufferSpec NetBufferLost NetBufferIO NetBufferFind.

(** ** The instance *)

Definition cacheA : Cache :=
  mkCache (mkUBuffer [Some 1; Some 2; Some 3; Some 4; Some 5; Some 6; None; None] 6 8) 4.
Definition cacheB : Cache := mkCache (mkUBuffer [Some 7; Some 8; Some 9; None] 3 4) 0.

Definition heapAB : Heap :=
  mkHeap {[ 2%positive := mkNode (Some cacheA) 2 2; 3%positive := mkNode (Some cacheB) 3 3 ]} 4.

Definition bufA : BufferImpl := mkBuffer (mkCacheList 2 2 2 1) 2 4096.
Definition bufB : BufferImpl := mkBuffer (mkCacheList 3 3 3 1) 3 4096.
Definition layA : layout := mkLayout [] 2 (Some cacheA) [].
Definition layB : layout := mkLayout [] 3 (Some cacheB) [].

Lemma heapAB_ok : heap_ok heapAB.
Proof.
  split; [done|]. intros p n. unfold heapAB. simpl. rewrite lookup_insert_Some, lookup_singleton_Some.
  intros [[<- _]|[_ [<- _]]]; done.
Qed.

Lemma ring_one m x c : m !! x = Some (mkNode c x x) -> ring m [(x, c)].
Proof.
  intros Hm. split; [apply NoDup_singleton|]. intros [|e l1] y d l2 E; simplify_eq/=; [done|].
  by destruct l1.
Qed.

Lemma single_ok h x c mx (Hc : Cache_ok c) :
  heap_ok h -> nodes h !! x = Some (mkNode (Some c) x x) -> Zlen (Cache_content c) <= MAX_SIZE ->
  Buffer_ok h (mkBuffer (mkCacheList x x x 1) (Zlen (Cache_content c)) mx) (mkLayout [] x (Some c) []).
Proof.
  intros Hh Hx Hlen. assert (Hb : bytes_of (mkLayout [] x (Some c) []) = Cache_content c).
  { unfold bytes_of, contents, entry_content. simpl. by rewrite app_nil_r. }
  split; [|by rewrite Hb|done|done]. split.
  - split; simpl; try done. by apply ring_one.
  - split; simpl; [done|]. by apply list_elem_of_here.
Qed.

Lemma bufA_ok : Buffer_ok heapAB bufA layA.
Proof. apply (single_ok heapAB 2 cacheA 4096); [by vm_compute|exact heapAB_ok|done|by vm_compute]. Qed.

Lemma bufB_ok : Buffer_ok heapAB bufB layB.
Proof. apply (single_ok heapAB 3 cacheB 4096); [by vm_compute|exact heapAB_ok|done|by vm_compute]. Qed.

(** ** Adding, moving and taking bytes *)

(** C10: [Buffer::Add] on a well-formed buffer whose write block does not have to be
    realigned, within the limit of the buffer, returns true; the buffer stays well-formed and
    holds the old bytes followed by the new ones, and memory of others is not touched. *)
Theorem add_appends h b L bytes fuel :
  Buffer_ok h b L -> total_len b + Zlen bytes <= MAX_SIZE -> add_safe L (Zlen bytes) ->
  exists b' h' L', Buffer_Add (S (S fuel)) b bytes h = Ok ((true, b'), h') /\ Buffer_ok h' b' L' /\
    bytes_of L' = bytes_of L ++ bytes /\ max_read b' = max_read b /\ owns L L' h h'.
Proof. apply Buffer_Add_spec. Qed.

Lemma add_appends_witness :
  exists b' h' L', Buffer_Add 2 bufA [Some 10; Some 11] heapAB = Ok ((true, b'), h') /\ Buffer_ok h' b' L' /\
    bytes_of L' = bytes_of layA ++ [Some 10; Some 11] /\ max_read b' = max_read bufA /\ owns layA L' heapAB h'.
Proof.
  apply (add_appends heapAB bufA layA [Some 10; Some 11] 0); [exact bufA_ok|by vm_compute|].
  intros c Hc. injection Hc as <-. reflexivity.
Defined.

(** C11: [Buffer::Write] offers [writev] a prefix of the bytes (all it was asked to write, as
    long as the chain fits into the vector), and takes exactly the bytes that the call
    reports out of the buffer; an error or an empty buffer takes none.  A chain of more than
    16 nodes must not have [head] behind the first block that holds bytes ([drain_safe]). *)
Theorem write_takes h b L writev howmuch fuel :
  Buffer_ok h b L -> 0 <= howmuch -> drain_safe b L -> (length (all L) < fuel)%nat ->
  (forall bss, writev bss <= Zlen (concat bss)) ->
  exists bss m n b' h' L', concat bss = take (Z.to_nat m) (bytes_of L) /\ 0 <= m <= write_amount b howmuch /\
    ((length (front L) < NUM_WRITE_IOVEC)%nat -> m = write_amount b howmuch) /\
    n = (if write_amount b howmuch =? 0 then 0 else Z.max 0 (writev bss)) /\
    Buffer_Write writev fuel b howmuch h = Ok ((n, b'), h') /\ Buffer_ok h' b' L' /\
    bytes_of L' = drop (Z.to_nat n) (bytes_of L) /\ owns L L' h h'.
Proof.
  intros Hb Hn Hs Hf Hw. destruct (Buffer_Write_spec h b L writev howmuch fuel Hb Hn Hs Hf Hw)
    as (bss & m & n & b' & h' & L' & ? & ? & ? & ? & ? & ? & ? & ? & _).
  exists bss, m, n, b', h', L'. by do 7 (split; [done|]).
Qed.

Lemma write_takes_witness :
  exists bss m n b' h' L', concat bss = take (Z.to_nat m) (bytes_of layB) /\ 0 <= m <= write_amount bufB 0 /\
    ((length (front layB) < NUM_WRITE_IOVEC)%nat -> m = write_amount bufB 0) /\
    n = (if write_amount bufB 0 =? 0 then 0 else Z.max 0 (Z.min 2 (Zlen (concat bss)))) /\
    Buffer_Write (fun bss => Z.min 2 (Zlen (concat bss))) 2 bufB 0 heapAB = Ok ((n, b'), h') /\ Buffer_ok h' b' L' /\
    bytes_of L' = drop (Z.to_nat n) (bytes_of layB) /\ owns layB L' heapAB h'.
Proof.
  apply (write_takes heapAB bufB layB (fun bss => Z.min 2 (Zlen (concat bss))) 0 2);
    [exact bufB_ok|lia|by left|simpl; lia|intros; lia].
Defined.

(** C12: [Buffer::Read], when the room the chain makes is enough for what is to be read,
    puts the bytes that [readv] delivered behind the bytes of the buffer and returns their
    number; the vectors it offers have room for what was asked. *)
Theorem read_appends h b L readable readv howmuch fuel :
  Buffer_ok h b L -> readv_ok readv ->
  let n := read_amount readable b howmuch in
  0 <= n <= MAX_SIZE -> n <= expand_room (wcache L) (spare L) n ->
  (forall lens, total_len b + fst (readv lens) <= MAX_SIZE) -> (1 + length (all L) < fuel)%nat ->
  exists lens r b' h' L', Buffer_Read readable readv fuel b howmuch h = Ok ((r, b'), h') /\ Buffer_ok h' b' L' /\
    r = Z.max 0 (fst (readv lens)) /\ n <= foldr Z.add 0 lens /\
    bytes_of L' = bytes_of L ++ snd (readv lens) /\ owns L L' h h'.
Proof.
  intros Hb Hr n Hn Hroom Hmax Hf. destruct (Buffer_Read_spec h b L readable readv howmuch fuel Hb Hr Hn Hroom Hmax Hf)
    as (lens & r & b' & h' & L' & ? & ? & ? & Hlen & ? & ? & _).
  exists lens, r, b', h', L'. split_and!; try done. rewrite Hlen. exact Hroom.
Qed.

(** Three bytes arrive, if there is room for them. *)
Definition readv3 (lens : list Z) : Z * list cell :=
  if 3 <=? foldr Z.add 0 lens then (3, [Some 1; Some 2; Some 3]) else (Z.min 0 (foldr Z.add 0 lens), []).

Lemma readv3_ok : readv_ok readv3.
Proof.
  intros lens. unfold readv3. destruct (Z.leb_spec 3 (foldr Z.add 0 lens)); simpl; (split; [lia|]); [done|].
  unfold Zlen. simpl. lia.
Qed.

Lemma read_appends_witness :
  exists lens r b' h' L', Buffer_Read 100 readv3 4 bufA 0 heapAB = Ok ((r, b'), h') /\ Buffer_ok h' b' L' /\
    r = Z.max 0 (fst (readv3 lens)) /\ 100 <= foldr Z.add 0 lens /\
    bytes_of L' = bytes_of layA ++ snd (readv3 lens) /\ owns layA L' heapAB h'.
Proof.
  apply (read_appends heapAB bufA layA 100 readv3 0 4);
    [exact bufA_ok|exact readv3_ok|by vm_compute|by vm_compute| |simpl; lia].
  intros lens. unfold readv3. destruct (3 <=? foldr Z.add 0 lens); unfold MAX_SIZE; simpl; lia.
Defined.

(** C13: [Buffer::Append] of another buffer, when the receiver is empty or has no spare
    (drained) blocks and both together stay below 4 GiB: the receiver holds its bytes followed
    by those of the other, the other is a well-formed empty buffer.  What happens with spare
    blocks is [append_loses_head]. *)
Theorem append_moves h b other L K fuel :
  Buffer_ok h b L -> Buffer_ok h other K -> (all L).*1 ## (all K).*1 ->
  total_len b + total_len other <= MAX_SIZE -> total_len b = 0 \/ spare L = [] -> (length (front K) < fuel)%nat ->
  exists r h', Buffer_Append fuel false b other h = Ok (r, h') /\ Buffer_Append_result h b other L K r h'.
Proof. apply Buffer_Append_spec. Qed.

Lemma append_moves_witness :
  exists r h', Buffer_Append 1 false bufA bufB heapAB = Ok (r, h') /\ Buffer_Append_result heapAB bufA bufB layA layB r h'.
Proof.
  apply (append_moves heapAB bufA bufB layA layB 1);
    [exact bufA_ok|exact bufB_ok| |by vm_compute|by right|simpl; lia].
  intros x H1 H2. simpl in H1, H2. apply list_elem_of_singleton in H1, H2. subst x. discriminate H2.
Defined.

(** [Buffer::Skip] drops exactly the first bytes, all of them if there are not more. *)
Theorem skip_drops h b L n fuel :
  Buffer_ok h b L -> 0 <= n < 2 ^ 64 -> drain_safe b L -> (length (all L) < fuel)%nat ->
  exists b' h' L', Buffer_Skip fuel b n h = Ok (b', h') /\ Buffer_ok h' b' L' /\
    bytes_of L' = drop (Z.to_nat n) (bytes_of L) /\ max_read b' = max_read b /\ owns L L' h h'.
Proof. apply Buffer_Skip_spec. Qed.

Lemma skip_drops_witness :
  exists b' h' L', Buffer_Skip 2 bufB 2 heapAB = Ok (b', h') /\ Buffer_ok h' b' L' /\
    bytes_of L' = drop 2 (bytes_of layB) /\ max_read b' = max_read bufB /\ owns layB L' heapAB h'.
Proof. apply (skip_drops heapAB bufB layB 2 2); [exact bufB_ok|lia|by left|simpl; lia]. Defined.

(** C15: the destructor of the chain frees every node of its ring and nothing else. *)
Theorem chain_freed h cl front w wc spare fuel :
  wf h cl front w wc spare -> (length (front ++ spare) < fuel)%nat ->
  exists h', CacheList_dtor fuel cl h = Ok (tt, h') /\ heap_ok h' /\
    (forall p, p ∈ (front ++ (w, wc) :: spare).*1 -> nodes h' !! p = None) /\
    frames (front ++ (w, wc) :: spare).*1 [] h h'.
Proof. apply CacheList_dtor_spec. Qed.

Lemma chain_freed_witness :
  exists h', CacheList_dtor 1 (cache_chain bufA) heapAB = Ok (tt, h') /\ heap_ok h' /\
    (forall p, p ∈ [2%positive] -> nodes h' !! p = None) /\ frames [2%positive] [] heapAB h'.
Proof.
  apply (chain_freed heapAB (cache_chain bufA) [] 2 (Some cacheA) [] 1); [|simpl; lia].
  exact (bo_wf _ _ _ bufA_ok).
Defined.

(** ** Where the buffer does not do what it means to *)

(** C17: [Buffer::Add] that has to realign the write block runs into undefined behaviour:
    [Realign] sets the capacity to the number of bytes kept instead of their end. *)
Theorem add_realigned h b L bytes fuel c :
  Buffer_ok h b L -> total_len b + Zlen bytes <= MAX_SIZE -> wcache L = Some c ->
  Cache_realigns c (Zlen bytes) = true -> Buffer_Add (S fuel) b bytes h = UB.
Proof. apply Buffer_Add_overflow. Qed.

Lemma add_realigned_witness : Buffer_Add 5 bufA [Some 10; Some 11; Some 12] heapAB = UB.
Proof.
  apply (add_realigned heapAB bufA layA [Some 10; Some 11; Some 12] 4 cacheA);
    [exact bufA_ok|by vm_compute|reflexivity|reflexivity].
Defined.


(** ** Appending behind drained blocks *)

(** What the buffers become when [bufB] is appended to [bufA], the two bytes of [bufA] are
    skipped and a byte is added to the (now empty) other buffer. *)
Definition cacheC : Cache := mkCache (mkUBuffer (Some 10 :: replicate 4095 None) 1 4096) 0.
Definition heapD : Heap :=
  mkHeap {[ 2%positive := mkNode (Some (Cache_Clear cacheA)) 3 3; 3%positive := mkNode (Some cacheB) 2 2;
            4%positive := mkNode (Some cacheC) 4 4 ]} 5.
Definition bufD : BufferImpl := mkBuffer (mkCacheList 2 3 3 2) 3 4096.
Definition bufC : BufferImpl := mkBuffer (mkCacheList 4 4 4 1) 1 4096.
Definition layD : layout := mkLayout [] 3 (Some cacheB) [(2%positive, Some (Cache_Clear cacheA))].
Definition layC : layout := mkLayout [] 4 (Some cacheC) [].

Lemma heapD_reached :
  (r ← Buffer_Append 2 false bufA bufB; a ← Buffer_Skip 3 (fst r) 2; c ← Buffer_Add 2 (snd r) [Some 10]; mret (a, snd c))
    heapAB = Ok ((bufD, bufC), heapD).
Proof. by vm_compute. Qed.

Lemma heapD_ok : heap_ok heapD.
Proof.
  split; [done|]. intros p n. unfold heapD. simpl. rewrite !lookup_insert_Some, lookup_singleton_Some.
  intros [[<- _]|[_ [[<- _]|[_ [<- _]]]]]; done.
Qed.

Lemma bufC_ok : Buffer_ok heapD bufC layC.
Proof. apply (single_ok heapD 4 cacheC 4096); [by vm_compute|exact heapD_ok|done|by vm_compute]. Qed.

Lemma bufD_ok : Buffer_ok heapD bufD layD.
Proof.
  split; [|by vm_compute|by vm_compute|done]. split.
  - split; simpl; try done; [exact heapD_ok| |].
    + split; [by apply (bool_decide_unpack _)|]. intros [|[x c] [|[y d] [|]]] z e l2 E; simplify_eq/=; done.
    + constructor; [|constructor]. eexists. split; [done|]. by vm_compute.
  - split; simpl; [done|]. apply elem_of_cons. right. apply list_elem_of_here.
Qed.

(** C16: once the first block of a buffer that is not empty has been drained, and the node
    [head] with it, appending another buffer cuts that node out of the ring: the buffer can
    no longer be destroyed or cleared, both of them delete the nodes of the ring until they
    write to one they have already deleted.  (Such a buffer is made by appending, taking out
    the bytes of the first block and appending again.) *)
Theorem append_loses_head h b other L K fuel :
  Buffer_ok h b L -> Buffer_ok h other K -> (all L).*1 ## (all K).*1 ->
  total_len b <> 0 -> total_len other <> 0 -> head (cache_chain b) ∈ (spare L).*1 -> (length (front K) < fuel)%nat ->
  exists r h', Buffer_Append fuel false b other h = Ok (r, h') /\
    forall fuel', (length (all L) + length (all K) < fuel')%nat ->
      Buffer_dtor fuel' (fst r) h' = UB /\ Buffer_ClearAll fuel' (fst r) h' = UB.
Proof. apply Buffer_Append_lost. Qed.

Lemma append_loses_head_witness :
  exists r h', Buffer_Append 1 false bufD bufC heapD = Ok (r, h') /\
    forall fuel', (2 + 1 < fuel')%nat -> Buffer_dtor fuel' (fst r) h' = UB /\ Buffer_ClearAll fuel' (fst r) h' = UB.
Proof.
  apply (append_loses_head heapD bufD bufC layD layC 1);
    [exact bufD_ok|exact bufC_ok| |discriminate|discriminate|apply list_elem_of_here|simpl; lia].
  intros x H1 H2. simpl in H1, H2. apply list_elem_of_singleton in H2. subst x.
  apply elem_of_cons in H1 as [H1|H1]; [discriminate H1|]. apply list_elem_of_singleton in H1. discriminate H1.
Defined.
