(* ===== verification/PropBase.v ===== *)
(** * Properties of the queues, the thread pool, the latch and the calendar. *)

From S2P Require Import Prelude Time Util System Stamps Queue.

(** ** Queues *)

(** A queue for three elements (two can be used), elements as numbers. *)
Definition q0 : CircularQueue Z := CQ_ctor 0 3.
Definition q1 : CircularQueue Z := mkCQ 3 0 0 1 [7; 0; 0].
Definition q2 : CircularQueue Z := mkCQ 3 0 1 1 [7; 0; 0].

Lemma q0_ok : CQ_ok q0 /\ items 0 q0 = [].
Proof. by apply (CQ_ctor_ok 0 3). Qed.

Lemma q1_ok : CQ_ok q1.
Proof. by split; simpl. Qed.

Lemma q0_enqueue : BQ_step 0 id q0 (EvEnqueue 7) q1.
Proof. by apply step_Enqueue. Qed.

Lemma q1_dequeue : BQ_step 0 id q1 (EvDequeue 7) q2.
Proof. by apply step_Dequeue. Qed.

(** C19: the operations of [BlockingQueue] against an abstract bounded queue that is first in,
    first out.  Enqueueing, with and without waiting, taking one element, with and without a
    time limit, and resetting the counter are steps of that queue on the sequence of the
    elements, and so is taking all of them when there is at most one; every operation keeps
    the ring well-formed.  Taking all of two or more delivers the newest and default values in
    place of the others. *)
Theorem queue_refines {T} (dflt : T) moved_from q e q' :
  CQ_ok q -> 0 < max_capacity_ q -> BQ_step dflt moved_from q e q' ->
  CQ_ok q' /\ max_capacity_ q' = max_capacity_ q /\
  (match e with EvDequeues _ => Zlen (items dflt q) <= 1 | _ => True end ->
   spec_step (max_capacity_ q) (items dflt q) e (items dflt q')) /\
  (match e with EvDequeues _ => 1 < Zlen (items dflt q) | _ => False end ->
   garbled dflt (items dflt q) e (items dflt q')).
Proof.
  intros Hok Hpos Hs. destruct (BQ_step_refines dflt moved_from q e q' Hok Hpos Hs) as (H1 & H2 & H).
  split; [done|]. split; [done|]. destruct H as [H|(older & x & Hne & El & -> & E')].
  - split; [done|]. destruct e as [| | | |l|]; try done. intros Hl. clear H.
    destruct (BQ_Dequeues_garbled dflt moved_from q l q' Hok Hpos Hs) as (_ & _ & older & x & E & -> & E').
    exists older, x. split_and!; try done. intros ->. rewrite E in Hl. by vm_compute in Hl.
  - split; [|by exists older, x]. intros Hl. rewrite El, Zlen_app in Hl. destruct older; [done|]. unfold Zlen in Hl. simpl in Hl. lia.
Qed.

Definition q_two : CircularQueue Z := mkCQ 3 0 0 2 [7; 8; 0].
Definition q_none : CircularQueue Z := mkCQ 3 0 2 2 [7; 8; 0].

Lemma queue_refines_witness :
  (CQ_ok q1 /\ spec_step 3 (items 0 q0) (EvEnqueue 7) (items 0 q1)) /\
  garbled 0 (items 0 q_two) (EvDequeues [8; 0]) (items 0 q_none).
Proof.
  split.
  - destruct (queue_refines 0 id q0 (EvEnqueue 7) q1) as (H1 & _ & H & _); [apply q0_ok|done|exact q0_enqueue|].
    split; [exact H1|exact (H I)].
  - destruct (queue_refines 0 id q_two (EvDequeues [8; 0]) q_none) as (_ & _ & _ & H); [by split; simpl|done| |by apply H].
    by apply (step_Dequeues 0 id q_two q_none [8; 0] 3).
Defined.

(** First in, first out, for any interleaving of blocking operations: what was in the
    queue and what was enqueued is what was dequeued and what is in the queue. *)
Theorem queue_fifo {T} (dflt : T) moved_from q tr q' :
  CQ_ok q -> 0 < max_capacity_ q -> forallb plain tr = true -> BQ_run dflt moved_from q tr q' ->
  items dflt q ++ enqueued tr = dequeued tr ++ items dflt q'.
Proof. apply BQ_run_fifo. Qed.

Lemma queue_fifo_witness :
  items 0 q0 ++ enqueued [EvEnqueue 7; EvDequeue 7] = dequeued [EvEnqueue 7; EvDequeue 7] ++ items 0 q2.
Proof.
  apply (queue_fifo 0 id q0 [EvEnqueue 7; EvDequeue 7] q2); [apply q0_ok|done|done|].
  eapply run_cons; [exact q0_enqueue|]. eapply run_cons; [exact q1_dequeue|]. apply run_nil.
Defined.




(** ** Calendar and time zones *)

(** C21: [JulianDayNumber] counts days as the Gregorian calendar does (365 days a year, leap
    years by the rule of 4, 100 and 400, the lengths of the months), from a fixed day on; it
    is strictly increasing in the date, and [GetYMD] inverts it: for every valid date of the
    years -4799 to 1,000,000. *)
Theorem calendar_counts y m d y' m' d' :
  valid_date y m d -> -4799 <= y <= MAX_YEAR -> valid_date y' m' d' -> -4799 <= y' <= MAX_YEAR ->
  exists n n', JulianDayNumber y m d = Ok n /\ JulianDayNumber y' m' d' = Ok n' /\
    n' - n = civil_day y' m' d' - civil_day y m d /\ (date_lt y m d y' m' d' -> n < n') /\
    GetYMD n = Ok (mkYMD y m d).
Proof.
  intros Hv Hy Hv' Hy'. pose proof (date_roundtrip y m d Hv Hy) as R. rewrite JulianDayNumber_civil in R by done.
  do 2 eexists. split; [by apply JulianDayNumber_civil|]. split; [by apply JulianDayNumber_civil|].
  split; [lia|]. split; [|exact R]. intros Hlt. pose proof (civil_day_lt _ _ _ _ _ _ Hv Hv' Hlt). lia.
Qed.

Lemma calendar_counts_witness :
  exists n n', JulianDayNumber 2000 2 29 = Ok n /\ JulianDayNumber 2024 3 1 = Ok n' /\
    n' - n = civil_day 2024 3 1 - civil_day 2000 2 29 /\ (date_lt 2000 2 29 2024 3 1 -> n < n') /\
    GetYMD n = Ok (mkYMD 2000 2 29).
Proof. apply (calendar_counts 2000 2 29 2024 3 1); unfold MAX_YEAR, valid_date; vm_compute; intuition discriminate. Defined.

(** C22: the text of a time stamp of the years 1970 to 9999 is the date and time that
    [ToUtcTime] gives for its seconds, followed by its microseconds; and texts, compared byte
    by byte, are ordered as the time stamps are.  Of fmt it is assumed that numbers that fit
    are padded to their width, of [gmtime_r] that it gives the valid date and time of the
    seconds. *)
Theorem stamps_sort pad gmtime t t' :
  pads pad -> (forall s, 0 <= s < MAX_STAMP -> breaks_down gmtime s) ->
  0 <= t < MAX_STAMP * MICROSECONDS_PER_SECOND -> 0 <= t' < MAX_STAMP * MICROSECONDS_PER_SECOND ->
  (exists dt, ToUtcTime (SecondsSinceEpoch t) = Ok dt /\ valid_time dt /\
     Timestamp_ToFmt pad gmtime true t =
       Ok (DateTime_ToFmt pad dt ++ [46] ++ pad 6%nat (t mod MICROSECONDS_PER_SECOND))) /\
  exists l l', Timestamp_ToFmt pad gmtime true t = Ok l /\ Timestamp_ToFmt pad gmtime true t' = Ok l' /\
    compare_all l l' = Z.compare t t'.
Proof.
  intros Hp Hg Ht Ht'. split; [|by apply Timestamp_ToFmt_compare].
  destruct (Timestamp_ToFmt_eq pad gmtime true t Ht) as (dt & E & [Hv _] & _ & H).
  - apply Hg. by apply SecondsSinceEpoch_range.
  - by exists dt.
Qed.

Lemma stamps_sort_witness :
  (exists dt, ToUtcTime 1000000000 = Ok dt /\ valid_time dt /\
     Timestamp_ToFmt pad_dec gmtime_cal true 1000000000000001 =
       Ok (DateTime_ToFmt pad_dec dt ++ [46] ++ pad_dec 6%nat 1)) /\
  exists l l', Timestamp_ToFmt pad_dec gmtime_cal true 1000000000000001 = Ok l /\
    Timestamp_ToFmt pad_dec gmtime_cal true 1700000000000000 = Ok l' /\
    compare_all l l' = Lt.
Proof.
  apply (stamps_sort pad_dec gmtime_cal 1000000000000001 1700000000000000);
    [exact pad_dec_pads|exact gmtime_cal_breaks|done|done].
Defined.

(** A valid date of the Gregorian calendar survives the way through its Julian day
    number, for every year from -4799 to 1,000,000. *)
Theorem date_survives y m d :
  valid_date y m d -> -4799 <= y <= MAX_YEAR -> (JulianDayNumber y m d ≫= fun n => GetYMD n) = Ok (mkYMD y m d).
Proof. apply date_roundtrip. Qed.

Lemma date_survives_witness : (JulianDayNumber 2000 2 29 ≫= fun n => GetYMD n) = Ok (mkYMD 2000 2 29).
Proof. apply (date_survives 2000 2 29); [split; vm_compute; split; discriminate|vm_compute; split; discriminate]. Defined.

(** C25: seconds since the epoch to a UTC date and time and back are the identity from
    1901-12-14 (24855 days before the epoch) up to 2038-01-19 03:14:07; before and after that
    [FromUtcTime] overflows an [int]. *)
Theorem utc_survives t :
  day_range (t / 86400) ->
  (ToUtcTime t ≫= fun dt => FromUtcTime dt) = if (-24855 * 86400 <=? t) && (t <? 2 ^ 31) then Ok t else UB.
Proof. apply utc_roundtrip. Qed.

Lemma utc_survives_witness : (ToUtcTime (2 ^ 31) ≫= fun dt => FromUtcTime dt) = UB.
Proof. apply (utc_survives (2 ^ 31)). unfold day_range. vm_compute. split; discriminate. Defined.

(** C26: the offset in force at a UTC time is that of the last transition not after it, and
    that of the first local time before all transitions. *)
Theorem local_time_found z utc :
  zone_ok z ->
  (forall i j t u, (i < j)%nat -> transitions z !! i = Some t -> transitions z !! j = Some u -> utc_time t < utc_time u) ->
  exists l, FindLocalTime_utc z utc = Ok l /\
    ((Forall (fun t => utc < utc_time t) (transitions z) /\ local_times z !! 0%nat = Some l) \/
     exists k t, transitions z !! k = Some t /\ utc_time t <= utc /\
       (forall j u, (k < j)%nat -> transitions z !! j = Some u -> utc < utc_time u) /\
       local_times z !! Z.to_nat (local_time_idx t) = Some l).
Proof. apply FindLocalTime_utc_spec. Qed.

(** A zone with summer time from second 1000 to second 2000. *)
Definition zone : TimezoneImpl :=
  mkTimezone [mkTransition 1000 4600 1; mkTransition 2000 2000 0] [mkLocalTime 0 false 0; mkLocalTime 3600 true 0]
    "" "" true.

Lemma local_time_found_witness :
  exists l, FindLocalTime_utc zone 1500 = Ok l /\
    ((Forall (fun t => 1500 < utc_time t) (transitions zone) /\ local_times zone !! 0%nat = Some l) \/
     exists k t, transitions zone !! k = Some t /\ utc_time t <= 1500 /\
       (forall j u, (k < j)%nat -> transitions zone !! j = Some u -> 1500 < utc_time u) /\
       local_times zone !! Z.to_nat (local_time_idx t) = Some l).
Proof.
  apply (local_time_found zone 1500).
  - split; [discriminate|]. repeat constructor; vm_compute; congruence.
  - intros [|[|i]] [|[|j]] t u Hij Ht Hu; simpl in *; try lia; try discriminate. injection Ht as <-. injection Hu as <-. done.
Defined.

(** In a zone with a fixed offset, local time and back is the identity as long as the
    local seconds fit an [int]. *)
Theorem fixed_zone_survives east name s post :
  day_range ((s + east) / 86400) -> -86400 <= east <= 86400 ->
  (ToLocal (Timezone_fixed east name) s ≫= fun r => FromLocal (Timezone_fixed east name) (fst r) post) =
    if (-24855 * 86400 <=? s + east) && (s + east <? 2 ^ 31) then Ok s else UB.
Proof. apply fixed_roundtrip. Qed.

Lemma fixed_zone_survives_witness :
  (ToLocal (Timezone_fixed 28800 "CST") 1000 ≫= fun r => FromLocal (Timezone_fixed 28800 "CST") (fst r) false) = Ok 1000.
Proof. apply (fixed_zone_survives 28800 "CST" 1000 false); [unfold day_range; vm_compute; split; discriminate|lia]. Defined.
