(* ===== verification/PropLoop.v ===== *)
(** * Properties of the event loop. *)

From S2P Require Import Prelude EventLoop EventLoopSpec EventLoopFacts PollTable.

(** ** Instances: a new cycle with the notifier on descriptor 5, all system calls succeed *)

Definition ctl_ok (op fd ev : Z) : bool := true.
Definition no_cb (k : positive) (e : eptr) (f t : Z) : L unit := mret tt.
Definition no_task (k : positive) : L unit := mret tt.

Definition w_new : World := Cycle_ctor 5 0.

Definition w_begun : World := begun 1 5 0.

Lemma w_begun_run : Exec_begin 1 no_task (H := EpollBackend ctl_ok) w_new = Ok (tt, w_begun).
Proof. by apply Exec_begin_run. Qed.

Lemma w_begun_Inv : Inv 1 w_begun.
Proof.
  refine (proj1 (keeps_Exec_begin 1 no_cb no_task (Hbe := EpollBackend ctl_ok) _ _ w_new tt w_begun _ w_begun_run)).
  - intros. apply keeps_ret.
  - intros. apply keeps_ret.
  - apply Cycle_ctor_Inv.
Qed.

(** The notifier is registered. *)
Definition notifier : EventImpl :=
  Event_Tie (Event_Active (EventNotify_ctor 5) 1 0) (Some (OwnEvent 1)).

Lemma notifier_active : active 1 w_begun 1 notifier.
Proof. by split_and!. Qed.

(** C2: from the start of [Exec] on, through every turn of the loop and every call other
    threads make in between, the two maps of the epoll reactor and the event objects agree:
    an event is in the map under its id exactly when it is active, a descriptor leads to
    the event that watches it, ids are fresh, and no event has both a timeout and
    persistence.  User code may be anything that keeps this agreement. *)
Theorem loop_invariant this epoll_ctl user_cb user_task w0 w :
  (forall k e f t, keeps this (user_cb k e f t)) -> (forall k, keeps this (user_task k)) -> Inv this w0 ->
  reach this user_cb user_task (Hbe := EpollBackend epoll_ctl) w0 w -> Inv this w.
Proof. intros Hcb Ht Hi Hr. exact (reach_Inv this user_cb user_task (Hlaws := EpollLaws epoll_ctl) Hcb Ht w0 w Hi Hr). Qed.

Lemma loop_invariant_witness : Inv 1 w_begun.
Proof.
  apply (loop_invariant 1 ctl_ok no_cb no_task w_new w_begun);
    [intros; apply keeps_ret|intros; apply keeps_ret|apply Cycle_ctor_Inv|].
  apply reach_begin. exact w_begun_run.
Defined.

(** C27: the epoll reactor finds every event the kernel reports: filling the list of active
    events does not fail and lists them in the order of the kernel, with the conditions of
    epoll translated. *)
Theorem reported_found this w l :
  Inv this w -> reported this w l ->
  Epoll_fill l w = Ok (tt, set_reactor (set_active (active_events_ (reactor w) ++
    ((fun ev => (fst ev, EncodeEpoll (snd ev))) <$> l)) (reactor w)) w).
Proof. intros. by eapply Epoll_fill_reported. Qed.

Lemma reported_found_witness :
  Epoll_fill [(1%positive, EPOLLIN)] w_begun = Ok (tt, set_reactor (set_active (active_events_ (reactor w_begun) ++
    [(1%positive, EVENT_READ)]) (reactor w_begun)) w_begun).
Proof.
  apply (reported_found 1 w_begun [(1%positive, EPOLLIN)]); [exact w_begun_Inv|].
  apply Forall_singleton. exists notifier. split; [exact notifier_active|]. simpl. lia.
Defined.

(** C28: [DoPendingFunctions] runs the tasks of the queue once each, in order; what they
    queue themselves stays for the next turn. *)
Theorem tasks_once this user_task {Hbe : ReactorOps} (eff : positive -> World -> World) (q : positive -> list Task) ks w :
  (forall k w, user_task k w = Ok (tt, eff k w)) ->
  (forall k w, pending_functions (eff k w) = pending_functions w ++ q k) ->
  pending_functions w = TUser <$> ks ->
  exists w', DoPendingFunctions this user_task w = Ok (tt, w') /\
    w' = set_calling false (foldl (fun w k => eff k w) (set_pending [] (set_calling true w)) ks) /\
    pending_functions w' = concat (q <$> ks).
Proof. apply DoPending_user. Qed.

(** A task that queues itself again. *)
Definition again (k : positive) (w : World) : World := set_pending (pending_functions w ++ [TUser k]) w.

Lemma tasks_once_witness :
  exists w', DoPendingFunctions 1 (fun k w => Ok (tt, again k w)) (H := EpollBackend ctl_ok)
               (set_pending [TUser 1; TUser 2] w_begun) = Ok (tt, w') /\
    w' = set_calling false (again 2 (again 1 (set_pending [] (set_calling true (set_pending [TUser 1; TUser 2] w_begun))))) /\
    pending_functions w' = [TUser 1; TUser 2].
Proof.
  apply (tasks_once 1 (fun k w => Ok (tt, again k w)) again (fun k => [TUser k]) [1%positive; 2%positive]
           (set_pending [TUser 1; TUser 2] w_begun)); done.
Defined.

(** Registering an event with the epoll reactor gives it a fresh id and an entry in
    both maps; removing it brings both maps back to what they were and resets the event. *)
Theorem register_remove this epoll_ctl e o w :
  objs w !! e = Some o -> id o = -1 -> 0 <= fd o -> CHECK_EVENT (events o) EVENT_TIMEOUT = false ->
  inverse_map_ (reactor w) !! fd o = None -> events_ (reactor w) !! event_id w = None ->
  epoll_ctl EPOLL_CTL_ADD (fd o) (DecodeEpoll (events o)) = true ->
  exists w1 w2, update_in_loop this (H := EpollBackend epoll_ctl) e w = Ok (tt, w1) /\
    events_ (reactor w1) !! event_id w = Some e /\ inverse_map_ (reactor w1) !! fd o = Some (event_id w) /\
    objs w1 !! e = Some (Event_Active o this (event_id w)) /\ event_id w1 = event_id w + 1 /\
    remove_in_loop (H := EpollBackend epoll_ctl) e w1 = Ok (tt, w2) /\
    events_ (reactor w2) = events_ (reactor w) /\ inverse_map_ (reactor w2) = inverse_map_ (reactor w) /\
    objs w2 !! e = Some (Event_Reset o).
Proof.
  intros Ho Hid Hfd Hto Hinv Hev Hctl. exists (registered this e o w).
  destruct (remove_unregisters this epoll_ctl e o w Ho Hfd Hinv Hev) as (w2 & Hr & H1 & H2 & H3). exists w2.
  split_and!; try done; [by apply update_registers|..]; simpl; by rewrite lookup_insert_eq.
Qed.

Lemma register_remove_witness :
  exists w1 w2, update_in_loop 1 (H := EpollBackend ctl_ok) 1 w_new = Ok (tt, w1) /\
    events_ (reactor w1) !! 0 = Some 1%positive /\ inverse_map_ (reactor w1) !! 5 = Some 0 /\
    objs w1 !! 1%positive = Some (Event_Active (EventNotify_ctor 5) 1 0) /\ event_id w1 = 1 /\
    remove_in_loop (H := EpollBackend ctl_ok) 1 w1 = Ok (tt, w2) /\
    events_ (reactor w2) = ∅ /\ inverse_map_ (reactor w2) = ∅ /\
    objs w2 !! 1%positive = Some (Event_Reset (EventNotify_ctor 5)).
Proof. apply (register_remove 1 ctl_ok 1 (EventNotify_ctor 5) w_new); (reflexivity || (simpl; lia)). Defined.

(** ** Where the loop does not do what it means to *)

(** A timer of [RunAfter] leaves the reactor when it is due, and its task is never run:
    whatever the task is, the loop ends in the same state.  ([HandleEvent] calls back only
    for events that are tied, and nothing ties a timer.) *)
Theorem timer_never_fires {Hbe : ReactorOps} this task delay w t n :
  is_running w = true -> 0 <= event_id w -> events_ (reactor w) !! event_id w = None ->
  ptimer_ (reactor w) = [] -> now w + delay <= t ->
  exists w1 w2, (forall user_task, RunAfter this user_task true task delay w = Ok (event_id w, w1)) /\
    events_ (reactor w1) !! event_id w = Some (next_obj w) /\
    (forall user_cb user_task fuel, NotifyTimer this user_cb user_task (S (S fuel)) n (set_time t n w1) = Ok (tt, w2)) /\
    events_ (reactor w2) = events_ (reactor w) /\ ptimer_ (reactor w2) = [] /\
    pending_functions w2 = pending_functions w.
Proof.
  intros Hr Hid Hn Hp Ht. exists (timer_set this task delay w).
  destruct (timer_expires this task delay w t n Hid Hn Hp Ht) as (w2 & Hrun & H1 & _ & H2 & H3). exists w2.
  split_and!; try done; [intros; by apply RunAfter_sets|]. simpl. by rewrite lookup_insert_eq.
Qed.

Lemma timer_never_fires_witness :
  exists w1 w2, (forall user_task, RunAfter 1 user_task true 7 100 (H := EpollBackend ctl_ok) w_begun = Ok (1, w1)) /\
    events_ (reactor w1) !! 1 = Some 2%positive /\
    (forall user_cb user_task fuel,
       NotifyTimer 1 user_cb user_task (H := EpollBackend ctl_ok) (S (S fuel)) 200 (set_time 200 200 w1) = Ok (tt, w2)) /\
    events_ (reactor w2) = events_ (reactor w_begun) /\ ptimer_ (reactor w2) = [] /\
    pending_functions w2 = pending_functions w_begun.
Proof.
  apply (timer_never_fires (Hbe := EpollBackend ctl_ok) 1 7 100 w_begun 200 200); (reflexivity || (vm_compute; congruence)).
Defined.

(** The running cycle with a second event, on descriptor 9, like that of a session. *)
Definition user_event : EventImpl :=
  Event_ctor 9 (CbUser 1) (Z.lor (Z.lor EVENT_READ EVENT_WRITE) EVENT_PERSIST) 0.

Definition w_object : World :=
  match new_obj user_event w_begun with Ok (_, w) => w | _ => w_begun end.

Definition w_added : World := registered 1 2 user_event w_object.

Lemma w_added_Inv : Inv 1 w_added.
Proof.
  destruct (inv_new_obj 1 w_begun user_event 2 w_object w_begun_Inv (Event_ctor_flags _ _ _ _) eq_refl eq_refl)
    as (Hi & _ & Ho).
  refine (proj1 (keeps_update_in_loop 1 (Hlaws := EpollLaws ctl_ok) 2 w_object tt w_added Hi _)).
  by apply update_registers.
Qed.

(** C3: the poll reactor keeps its array and its index of descriptors as a finite map: in a
    cycle in which the entries are what the active events ask for, an event that enters the
    cycle, changes its interest in its thread, or leaves, changes exactly the entry of its
    descriptor, no assertion fails, and afterwards the entries are again what the active
    events ask for. *)
Theorem poll_refines this user_task w :
  poll_world this w ->
  (forall e o, objs w !! e = Some o -> id o = -1 -> 0 <= fd o -> CHECK_EVENT (events o) EVENT_TIMEOUT = false ->
     inverse_map_ (reactor w) !! fd o = None -> events_ (reactor w) !! event_id w = None -> Zlen (poll_fds_ (reactor w)) + 1 < 2 ^ 31 ->
     exists w', EventUpdate this user_task (H := PollBackend) true e w = Ok (tt, w') /\ poll_world this w' /\
       interest (reactor w') = <[fd o := DecodePoll (events o)]> (interest (reactor w))) /\
  (forall e o f, active this w e o -> 0 <= fd o -> CHECK_EVENT (events o) EVENT_TIMEOUT = false -> rw_change f ->
     exists w', Event_change this user_task (H := PollBackend) true e f w = Ok (tt, w') /\ poll_world this w' /\
       interest (reactor w') = <[fd o := DecodePoll (f (events o))]> (interest (reactor w))) /\
  (forall e o, active this w e o -> 0 <= fd o ->
     exists w', Deactivate this user_task (H := PollBackend) true e w = Ok (tt, w') /\ poll_world this w' /\
       interest (reactor w') = delete (fd o) (interest (reactor w))).
Proof.
  intros Hw. split_and!.
  - intros e o H1 H2 H3 H4 H5 H6 H7. destruct (poll_enters this user_task w e o Hw H1 H2 H3 H4 H5 H6 H7) as (w' & ? & ? & _ & ?). eauto.
  - intros e o f H1 H2 H3 H4. destruct (poll_changes this user_task w e o f Hw H1 H2 H3 H4) as (w' & ? & ? & _ & ?). eauto.
  - intros e o H1 H2. destruct (poll_leaves this user_task w e o Hw H1 H2) as (w' & ? & ? & _ & ?). eauto.
Qed.

(** The notifier of a new cycle enters it. *)
Lemma poll_refines_witness :
  exists w', EventUpdate 1 no_task (H := PollBackend) true 1 w_new = Ok (tt, w') /\ poll_world 1 w' /\ interest (reactor w') = {[ 5 := POLLIN ]}.
Proof.
  destruct (poll_refines 1 no_task w_new (poll_world_new 1 5 0)) as (H & _ & _).
  destruct (H 1%positive (EventNotify_ctor 5)) as (w' & H1 & H2 & H3); [reflexivity|reflexivity|done|reflexivity|reflexivity|reflexivity|done|].
  exists w'. split; [exact H1|]. split; [exact H2|]. rewrite H3. reflexivity.
Defined.
