(* ===== verification/PropNet.v ===== *)
(** * Properties of sessions, server, client and addresses. *)

From S2P Require Import Prelude Cache EventLoop EventLoopSpec EventLoopFacts NetError Session SessionSpec Server.
From S2P Require Import PropLoop.

(** ** Instances *)

Definition cb_ret1 (k : positive) : SM unit := mret tt.
Definition cb_ret2 (k : positive) (x : Z) : SM unit := mret tt.

Lemma calm_ret : calm (mret tt).
Proof. intros s. exists []. rewrite app_nil_r. by destruct s. Qed.

Lemma ret_extends : respects extends (mret tt : SM unit).
Proof. apply (respects_ret extends). Qed.

Lemma ret_forward : respects forward (mret tt : SM unit).
Proof. apply (respects_ret forward). Qed.

(** A session in state [x] with two bytes to send, its event registered in the cycle of
    PropLoop.v. *)
Definition env (x : SessionState) : Env :=
  mkEnv w_added
    (mkSession 2 9 true x [Some 65; Some 66] [] 1024 (Some 1%positive) (Some 1%positive) (Some 1%positive)
       (Some 1%positive) (Some 1%positive)) [] 0 [] [] tt.

Lemma env_registered x : registered_session 1 (env x) (Event_Active user_event 1 1).
Proof. split; [exact w_added_Inv|by split_and!|simpl; lia|done]. Qed.

(** ** Sessions *)

(** C1: whatever is done with a session (events of its socket, tasks of its cycle, calls of
    the user, in any order), the bytes it accepted are never lost, repeated or reordered on
    their way: the bytes on the wire followed by those in the buffer and in the queue only
    grow at the end, and what is on the wire stays there.  Callbacks may do anything that
    respects this. *)
Theorem stream_kept this user_task {Hbe : ReactorOps} user_connect user_read user_write user_high_water user_destroy
    sys_readv sys_writev sys_shutdown errno l s s' :
  (forall k f, respects extends (user_connect k f)) -> (forall k t, respects extends (user_read k t)) ->
  (forall k, respects extends (user_write k)) -> (forall k, respects extends (user_high_water k)) ->
  (forall k, respects extends (user_destroy k)) ->
  run_ops this user_task user_connect user_read user_write user_high_water user_destroy
    sys_readv sys_writev sys_shutdown errno l s = Ok (tt, s') ->
  stream s `prefix_of` stream s' /\ wire s `prefix_of` wire s' /\ wire s' `prefix_of` stream s'.
Proof.
  intros H1 H2 H3 H4 H5 Hrun.
  destruct (extends_ops this user_task user_connect user_read user_write user_high_water user_destroy sys_readv sys_writev
    sys_shutdown errno l H1 H2 H3 H4 H5 s tt s' Hrun) as [Ha Hb].
  split_and!; [done|done|]. by apply prefix_app_r.
Qed.

Lemma stream_kept_witness :
  let s' := set_stasks [SAppend [Some 67]] (env STATE_CONNECTED) in
  stream (env STATE_CONNECTED) `prefix_of` stream s' /\ wire (env STATE_CONNECTED) `prefix_of` wire s' /\
  wire s' `prefix_of` stream s'.
Proof.
  apply (stream_kept 1 no_task (Hbe := EpollBackend ctl_ok) cb_ret2 cb_ret2 cb_ret1 cb_ret1 cb_ret1
    (fun _ => (0, [])) (fun _ _ => 0) (fun _ => 0) (fun _ => 0) [OpSend [Some 67]] (env STATE_CONNECTED));
    [intros; apply ret_extends|intros; apply ret_extends|intros; apply ret_extends|intros; apply ret_extends|
     intros; apply ret_extends|reflexivity].
Defined.

(** C29: the state of a session only moves forward, from connecting over connected and
    disconnecting to disconnected, whatever is done with it; a session that is disconnected
    stays so and refuses to send. *)
Theorem state_forward this user_task {Hbe : ReactorOps} user_connect user_read user_write user_high_water user_destroy
    sys_readv sys_writev sys_shutdown errno l s s' b :
  (forall k f, respects forward (user_connect k f)) -> (forall k t, respects forward (user_read k t)) ->
  (forall k, respects forward (user_write k)) -> (forall k, respects forward (user_high_water k)) ->
  (forall k, respects forward (user_destroy k)) ->
  run_ops this user_task user_connect user_read user_write user_high_water user_destroy
    sys_readv sys_writev sys_shutdown errno l s = Ok (tt, s') ->
  rank (state (sess s)) <= rank (state (sess s')) /\
  (state (sess s) = STATE_DISCONNECTED -> state (sess s') = STATE_DISCONNECTED /\ Send b s' = Ok (false, s')).
Proof.
  intros H1 H2 H3 H4 H5 Hrun.
  pose proof (forward_ops this user_task user_connect user_read user_write user_high_water user_destroy sys_readv sys_writev
    sys_shutdown errno l H1 H2 H3 H4 H5 s tt s' Hrun) as Hf. unfold forward in Hf.
  split; [done|]. intros Hs. rewrite Hs in Hf.
  assert (Hs' : state (sess s') = STATE_DISCONNECTED) by (destruct (state (sess s')); simpl in Hf; (done || lia)).
  split; [done|]. unfold Send. erewrite ST_bind_run by done. by rewrite Hs'.
Qed.

Lemma state_forward_witness :
  rank STATE_DISCONNECTED <= rank STATE_DISCONNECTED /\
  (STATE_DISCONNECTED = STATE_DISCONNECTED ->
   STATE_DISCONNECTED = STATE_DISCONNECTED /\ Send [Some 1] (env STATE_DISCONNECTED) = Ok (false, env STATE_DISCONNECTED)).
Proof.
  apply (state_forward 1 no_task (Hbe := EpollBackend ctl_ok) cb_ret2 cb_ret2 cb_ret1 cb_ret1 cb_ret1
    (fun _ => (0, [])) (fun _ _ => 0) (fun _ => 0) (fun _ => 0) [OpSend [Some 67]; OpShutdown; OpForceClose]
    (env STATE_DISCONNECTED) (env STATE_DISCONNECTED) [Some 1]);
    [intros; apply ret_forward|intros; apply ret_forward|intros; apply ret_forward|intros; apply ret_forward|
     intros; apply ret_forward|reflexivity].
Defined.

(** C30: at the end of the stream, or when [readv] fails, a session is closed exactly once,
    whatever mixture of conditions epoll reports it by (readable, a plain hang-up, an error,
    writable besides): it is disconnected, its event has left both maps of the reactor, the
    connect callback is told CLOSED and the destroy function is called, once each. *)
Theorem hup_closes_once this user_task epoll_ctl user_connect user_read user_destroy sys_readv sys_writev s o kc kd ev t :
  registered_session this s o -> state (sess s) = STATE_CONNECTED \/ state (sess s) = STATE_DISCONNECTING ->
  connect (sess s) = Some kc -> destroy (sess s) = Some kd -> calm (user_connect kc SESSION_CLOSED) ->
  calm (user_destroy kd) -> fst (sys_readv (calls s)) <= 0 -> end_reported ev ->
  exists s', HandleCallback this user_task (Hbe := EpollBackend epoll_ctl) user_connect user_read user_destroy sys_readv sys_writev
               (EncodeEpoll ev) t s = Ok (tt, s') /\ closed_from this s o s'.
Proof.
  intros H1 H2 H3 H4 H5 H6 H7 [H8 H9]%EncodeEpoll_end. by apply (HandleCallback_end this user_task epoll_ctl user_connect user_read user_destroy sys_readv sys_writev s o kc kd).
Qed.

(** A plain hang-up. *)
Lemma hup_closes_once_witness :
  exists s', HandleCallback 1 no_task (Hbe := EpollBackend ctl_ok) cb_ret2 cb_ret2 cb_ret1 (fun _ => (0, [])) (fun _ _ => 0)
               (EncodeEpoll EPOLLHUP) 0 (env STATE_CONNECTED) = Ok (tt, s') /\
    closed_from 1 (env STATE_CONNECTED) (Event_Active user_event 1 1) s'.
Proof.
  apply (hup_closes_once 1 no_task ctl_ok cb_ret2 cb_ret2 cb_ret1 (fun _ => (0, [])) (fun _ _ => 0)
    (env STATE_CONNECTED) (Event_Active user_event 1 1) 1 1 EPOLLHUP 0);
    [exact (env_registered _)|by left|reflexivity|reflexivity|exact calm_ret|exact calm_ret|simpl; lia|by right; split; [|left]].
Defined.

(** The write handler of a connected session puts exactly the bytes the socket takes on
    the wire, keeps the rest, and when nothing is left stops watching for writability and
    queues the write callback once. *)
Theorem write_handler_sends this user_task epoll_ctl user_connect user_destroy sys_writev s o :
  registered_session this s o -> Event_Writing o = true -> state (sess s) = STATE_CONNECTED ->
  out_buffer (sess s) <> [] -> 0 < sys_writev (calls s) (out_buffer (sess s)) <= Zlen (out_buffer (sess s)) ->
  let r := sys_writev (calls s) (out_buffer (sess s)) in
  exists s' o', HandleWrite this user_task (Hbe := EpollBackend epoll_ctl) user_connect user_destroy sys_writev s = Ok (tt, s') /\
    wire s' = wire s ++ take (Z.to_nat r) (out_buffer (sess s)) /\
    out_buffer (sess s') = drop (Z.to_nat r) (out_buffer (sess s)) /\ state (sess s') = STATE_CONNECTED /\
    registered_session this s' o' /\ Event_Writing o' = negb (r =? Zlen (out_buffer (sess s))) /\
    stasks s' = stasks s ++ (if r =? Zlen (out_buffer (sess s)) then [SWritten] else []).
Proof. apply HandleWrite_sends. Qed.

Lemma write_handler_sends_witness :
  exists s' o', HandleWrite 1 no_task (Hbe := EpollBackend ctl_ok) cb_ret2 cb_ret1 (fun _ _ => 1) (env STATE_CONNECTED) = Ok (tt, s') /\
    wire s' = [] ++ take 1 [Some 65; Some 66] /\ out_buffer (sess s') = drop 1 [Some 65; Some 66] /\
    state (sess s') = STATE_CONNECTED /\ registered_session 1 s' o' /\ Event_Writing o' = negb (1 =? 2) /\
    stasks s' = [] ++ (if 1 =? 2 then [SWritten] else []).
Proof.
  apply (write_handler_sends 1 no_task ctl_ok cb_ret2 cb_ret1 (fun _ _ => 1) (env STATE_CONNECTED) (Event_Active user_event 1 1));
    [exact (env_registered _)|reflexivity|reflexivity|discriminate|vm_compute; split; congruence].
Defined.

(** [Send] accepts all bytes on a connected session, behind those accepted before, and
    none on any other; the result says which. *)
Theorem send_accepts b s :
  Zlen b <= MAX_SIZE ->
  exists r s', Send b s = Ok (r, s') /\ r = bool_decide (state (sess s) = STATE_CONNECTED) /\
    stream s' = (if r then stream s ++ b else stream s).
Proof. apply Send_spec. Qed.

Lemma send_accepts_witness :
  exists r s', Send [Some 67] (env STATE_CONNECTED) = Ok (r, s') /\
    r = bool_decide (state (sess (env STATE_CONNECTED)) = STATE_CONNECTED) /\
    stream s' = (if r then stream (env STATE_CONNECTED) ++ [Some 67] else stream (env STATE_CONNECTED)).
Proof. apply (send_accepts [Some 67] (env STATE_CONNECTED)). vm_compute. discriminate. Defined.

(** A session that is being shut down loses the bytes that the socket does not take at
    once: the write handler closes it while they are still in the buffer. *)
Theorem shutdown_drops this user_task epoll_ctl user_connect user_destroy sys_writev s o kc kd :
  registered_session this s o -> Event_Writing o = true -> state (sess s) = STATE_DISCONNECTING ->
  connect (sess s) = Some kc -> destroy (sess s) = Some kd -> calm (user_connect kc SESSION_CLOSED) ->
  out_buffer (sess s) <> [] -> sys_writev (calls s) (out_buffer (sess s)) <= 0 ->
  exists s1, HandleWrite this user_task (Hbe := EpollBackend epoll_ctl) user_connect user_destroy sys_writev s = user_destroy kd s1 /\
    closed_from this s o s1 /\ out_buffer (sess s1) <> [].
Proof. apply HandleWrite_drops. Qed.

Lemma shutdown_drops_witness :
  exists s1, HandleWrite 1 no_task (Hbe := EpollBackend ctl_ok) cb_ret2 cb_ret1 (fun _ _ => -1) (env STATE_DISCONNECTING) = Ok (tt, s1) /\
    closed_from 1 (env STATE_DISCONNECTING) (Event_Active user_event 1 1) s1 /\ out_buffer (sess s1) <> [].
Proof.
  apply (shutdown_drops 1 no_task ctl_ok cb_ret2 cb_ret1 (fun _ _ => -1) (env STATE_DISCONNECTING) (Event_Active user_event 1 1) 1 1);
    [exact (env_registered _)|reflexivity|reflexivity|reflexivity|reflexivity|exact calm_ret|discriminate|simpl; lia].
Defined.

(** ** Server and client *)

(** The items of a pool of [n] cycles are handed out in turn: the [j]th call gives item
    [j mod n]. *)
Theorem round_robin n k :
  0 < n < 2 ^ 31 ->
  exists p p', IOPool_Start IOPool_ctor n = Ok (true, p) /\
    next_items k p = Ok ((fun j => Z.to_nat (Z.of_nat j mod n)) <$> seq 0 k, p').
Proof.
  intros Hn. destruct (Start_ok n Hn) as (p & Hp & Hok & H0 & Hnb).
  destruct (next_items_round_robin k p Hok) as (p' & Hrun & _). exists p, p'. split; [done|].
  rewrite Hrun, H0, Hnb. done.
Qed.

Lemma round_robin_witness :
  exists p p', IOPool_Start IOPool_ctor 3 = Ok (true, p) /\ next_items 5 p = Ok ([0; 1; 2; 0; 1]%nat, p').
Proof. apply (round_robin 3 5). lia. Defined.

(** A new connection of a running server gets an id of its own and the next item in
    turn; the task it posts puts the session into the map of that item, and when the session
    is destroyed the maps are what they were before. *)
Theorem connection_routed s p fd addr item :
  started s = true -> io_pool s = Some p -> pool_ok p -> fd <> -1 -> 0 <= session_id s < 2 ^ 64 - 1 ->
  posted s = [] -> new_session_set s = true ->
  items_ p !! Z.to_nat (last_ p) = Some item -> sessions item !! fd = None ->
  exists a s1 s2 s3 p2, Serve_NewSession fd addr s = Ok (a, s1) /\ session_id s1 = session_id s + 1 /\
    run_posted s1 = Ok (tt, s2) /\ posted s2 = [] /\ io_pool s2 = Some p2 /\
    items_ p2 !! Z.to_nat (last_ p) = Some (mkItem (<[fd := STATE_CONNECTED]> (sessions item))) /\
    last_ p2 = (last_ p + 1) mod thread_nbr_ p /\
    Serve_destroy (Z.to_nat (last_ p)) fd s2 = Ok (tt, s3) /\ (items_ <$> io_pool s3) = Some (items_ p).
Proof.
  intros Hs Hp Hok Hfd Hid Hpost Hcb Hitem Hfree.
  destruct (NewSession_spec s p fd addr Hs Hp Hok Hfd Hid) as (p1 & Hget & Hnew).
  destruct (GetNextItem_ok p Hok) as (p1' & Hget' & _ & Hn & Hitems & Hlast).
  rewrite Hget in Hget'. injection Hget' as <-. rewrite Hpost in Hnew. simpl in Hnew.
  set (s1 := mkServe _ _ _ _ _) in Hnew.
  destruct (run_posted_spec s1 p1 (mkPosted (Z.to_nat (last_ p)) fd (session_id s)) [] item eq_refl eq_refl) as
    (s2 & Hrun & Hp2 & s3 & Hd & Hp3); [by rewrite Hitems|done|done|].
  exists (mkAddress None), s1, s2, s3, (mkPool (last_ p1) (thread_nbr_ p1) (is_running_ p1)
    (<[Z.to_nat (last_ p) := mkItem (<[fd := STATE_CONNECTED]> (sessions item))]> (items_ p1))).
  assert (Hio : io_pool s2 = Some (mkPool (last_ p1) (thread_nbr_ p1) (is_running_ p1)
    (<[Z.to_nat (last_ p) := mkItem (<[fd := STATE_CONNECTED]> (sessions item))]> (items_ p1)))).
  { unfold run_posted in Hrun. simpl in Hrun. rewrite Hitems, Hitem in Hrun. simpl in Hrun. rewrite Hfree, Hcb in Hrun.
    simpl in Hrun. rewrite <- Hitems in Hrun. by injection Hrun as <-. }
  split_and!; try done.
  - simpl. rewrite Hitems. apply list_lookup_insert_eq. by eapply lookup_lt_Some.
  - rewrite Hp3. simpl. by rewrite Hitems.
Qed.

Definition pool2 : IOPool := mkPool 0 2 true [mkItem ∅; mkItem ∅].
Definition server2 : TcpServe := mkServe (Some pool2) 0 true true [].

Lemma pool2_ok : pool_ok pool2.
Proof. split_and!; (reflexivity || (vm_compute; congruence)). Qed.

Lemma connection_routed_witness :
  exists a s1 s2 s3 p2, Serve_NewSession 4 (mkAddress None) server2 = Ok (a, s1) /\ session_id s1 = 1 /\
    run_posted s1 = Ok (tt, s2) /\ posted s2 = [] /\ io_pool s2 = Some p2 /\
    items_ p2 !! 0%nat = Some (mkItem (<[4 := STATE_CONNECTED]> ∅)) /\ last_ p2 = 1 mod 2 /\
    Serve_destroy 0 4 s2 = Ok (tt, s3) /\ (items_ <$> io_pool s3) = Some (items_ pool2).
Proof.
  apply (connection_routed server2 pool2 4 (mkAddress None) (mkItem ∅));
    [reflexivity|reflexivity|exact pool2_ok|discriminate|simpl; lia|reflexivity|reflexivity|reflexivity|reflexivity].
Defined.

(** Against a peer that keeps refusing, [ConnectTo] with [n] retries makes exactly
    [n + 1] attempts. *)
Theorem retries_bounded n fuel errno :
  errno ∈ [EAGAIN; EADDRINUSE; EADDRNOTAVAIL; ECONNREFUSED; ENETUNREACH] -> (n < fuel)%nat ->
  length (attempts fuel errno true (Z.of_nat n)) = S n.
Proof. intros. by apply attempts_refused. Qed.

Lemma retries_bounded_witness : length (attempts 10 ECONNREFUSED true 3) = 4%nat.
Proof. apply (retries_bounded 3 10 ECONNREFUSED); [set_solver|lia]. Defined.

(** The conversions between host and network order are inverse to each other at every
    width, and a port survives the way into an address and back. *)
Theorem byte_order x lo v6 :
  0 <= x < 2 ^ 64 ->
  NetworkToHost64 (HostToNetwork64 x) = x /\
  (x < 2 ^ 32 -> NetworkToHost32 (HostToNetwork32 x) = x) /\
  (x < 2 ^ 16 -> NetworkToHost16 (HostToNetwork16 x) = x /\ Port (HostAddress_port x lo v6) = Ok x).
Proof.
  intros Hx. split_and!; [by apply bswap64_invol|intros; apply bswap32_invol; lia|].
  intros H16. split; [apply bswap16_invol; lia|apply Port_roundtrip; lia].
Qed.

Lemma byte_order_witness :
  NetworkToHost64 (HostToNetwork64 8080) = 8080 /\
  (8080 < 2 ^ 32 -> NetworkToHost32 (HostToNetwork32 8080) = 8080) /\
  (8080 < 2 ^ 16 -> NetworkToHost16 (HostToNetwork16 8080) = 8080 /\ Port (HostAddress_port 8080 false true) = Ok 8080).
Proof. apply (byte_order 8080 false true). lia. Defined.

(** C37: a server that finds two connections waiting at one wake-up aborts: the address
    object of the acceptor was moved into the session of the first, and accepting the second
    asserts that it is not null. *)
Theorem second_connection_aborts close_fd a pa b pb rest s p idle spare :
  started s = true -> io_pool s = Some p -> pool_ok p -> a <> -1 -> 0 <= session_id s < 2 ^ 64 - 1 ->
  Acceptor_EventCallback (Some Serve_NewSession) close_fd EVENT_READ idle (AcFd a pa :: AcFd b pb :: rest) spare s = Abort.
Proof.
  intros Hs Hp Hok Ha Hid. destruct (NewSession_spec s p a (mkAddress (Some pa)) Hs Hp Hok Ha Hid) as (p' & _ & Hnew).
  unfold Acceptor_EventCallback. simpl (negb _).
  pose proof (accept_second close_fd a pa b pb rest s _ _ Hnew) as Hacc. unfold mbind at 1, ST_bind at 1.
  cbv iota. by rewrite Hacc.
Qed.

Lemma second_connection_aborts_witness :
  Acceptor_EventCallback (Some Serve_NewSession) (fun _ => mret tt) EVENT_READ 3
    [AcFd 4 zero_sockaddr; AcFd 6 zero_sockaddr] (AcErr EAGAIN, 3) server2 = Abort.
Proof.
  apply (second_connection_aborts (fun _ => mret tt) 4 zero_sockaddr 6 zero_sockaddr [] server2 pool2 3 (AcErr EAGAIN, 3));
    [reflexivity|reflexivity|exact pool2_ok|discriminate|simpl; lia].
Defined.

