(* ===== verification/PropEcho.v ===== *)
(** * Properties of the echo server: session, event loop and callbacks together. *)

From S2P Require Import Prelude Cache EventLoop EventLoopSpec EventLoopFacts NetError Session SessionSpec Echo.
From S2P Require Import PropLoop PropNet.

(** A connected session of the echo server, its event registered in the cycle of
    PropLoop.v, a peer that sends two bytes at a time, and a socket that takes one. *)
Definition echo_env : Env :=
  mkEnv w_added
    (Echo_NewSession (SetDestroy 1 (mkSession 2 9 true STATE_CONNECTED [] [] 1024 None None None None None))) [] 0 [] [] tt.
Definition two_bytes (_ : nat) : Z * list cell := (2, [Some 65; Some 66]).
Definition takes_one (_ : nat) (b : list cell) : Z := Z.min 1 (Zlen b).
Definition zero_ret (_ : nat) : Z := 0.

Lemma echo_idle : idle 1 echo_env.
Proof.
  split_and!; try done. exists (Event_Active user_event 1 1).
  split; [exact w_added_Inv|by split_and!|simpl; lia|done].
Qed.

Lemma ret_carries : respects carries (mret tt : SM unit).
Proof. apply (respects_ret carries). Qed.

Lemma takes_one_ok n b : b <> [] -> 0 < takes_one n b <= Zlen b.
Proof. intros Hb. unfold takes_one. destruct b; [done|]. unfold Zlen. simpl. lia. Qed.

(** One wake-up for reading, the task it queues, one more wake-up for writing. *)
Definition echo_run : list (op (list cell)) := [OpCallback EVENT_READ 0; OpTask; OpCallback EVENT_READ 0; OpCallback EVENT_WRITE 0].
Definition echo_end : Env :=
  match echo_ops 1 no_task (Hbe := EpollBackend ctl_ok) cb_ret1 two_bytes takes_one zero_ret zero_ret echo_run echo_env with
  | Ok (_, s) => s
  | _ => echo_env
  end.

(** The echo server sends back what it has received, all of it, once and in order: for
    a connected session with the callbacks of the server and any sequence of wake-ups and
    tasks (and calls that close the session or stop its reading), the bytes on the wire, in
    the out-buffer, in the queue and, once the session is being closed, in the in-buffer are
    exactly the bytes read from the socket; so what is on the wire is a prefix of them, and
    a session that is still connected holds nothing back. *)
Theorem echo_exact this user_task {Hbe : ReactorOps} user_destroy sys_readv sys_writev sys_shutdown errno l s s' :
  (forall k, respects carries (user_destroy k)) -> Forall no_send l ->
  stream s = [] -> in_buffer (sess s) = [] -> state (sess s) = STATE_CONNECTED -> is_Some (read (sess s)) ->
  echo_ops this user_task user_destroy sys_readv sys_writev sys_shutdown errno l s = Ok (tt, s') ->
  let got := received this user_task user_destroy sys_readv sys_writev sys_shutdown errno l s in
  stream s' ++ in_buffer (sess s') = got /\ wire s' `prefix_of` got /\
  (state (sess s') = STATE_CONNECTED -> stream s' = got).
Proof.
  intros Hd Hl Hs Hi Hst Hr Hrun got.
  destruct (echo_ops_spec this user_task user_destroy sys_readv sys_writev sys_shutdown errno Hd l s s' Hl Hrun) as [Ht Hrdy].
  unfold total in Ht. rewrite Hs, Hi in Ht. simpl in Ht.
  destruct Hrdy as (_ & _ & Hin); [unfold ready; rewrite Hst; by split_and!|]. split_and!; [exact Ht| |].
  - unfold got. rewrite <- Ht. unfold stream. rewrite <- !(assoc_L (++)). by apply prefix_app_r.
  - intros Hc. unfold got. rewrite <- Ht, (Hin Hc). by rewrite app_nil_r.
Qed.

Lemma echo_exact_witness :
  stream echo_end ++ [] = [Some 65; Some 66; Some 65; Some 66] /\
  [Some 65; Some 66] `prefix_of` [Some 65; Some 66; Some 65; Some 66] /\
  (STATE_CONNECTED = STATE_CONNECTED -> stream echo_end = [Some 65; Some 66; Some 65; Some 66]).
Proof.
  apply (echo_exact 1 no_task (Hbe := EpollBackend ctl_ok) cb_ret1 two_bytes takes_one zero_ret zero_ret echo_run echo_env echo_end);
    [intros k; apply ret_carries|repeat constructor|reflexivity|reflexivity|reflexivity|by eexists|by vm_compute].
Defined.
