(* ===== verification/PropHeap.v ===== *)
(** * Main theorems: the echo server on the buffers of the program. *)

From S2P Require Import Prelude Cache CacheList CacheRing CacheListSpec CacheListMove NetBuffer NetBufferSpec NetBufferIO.
From S2P Require Import BufferSep EventLoop EventLoopSpec NetError Session SessionSpec Echo SessionHeap SessionHeapSpec.
From S2P Require Import PropBuffer PropLoop PropNet PropEcho.

(** A connected session of the echo server with two new buffers, its event registered in the
    cycle of PropLoop.v. *)
Definition heap0 : Heap := mkHeap (<[2%positive := mkNode None 2 2]> (<[3%positive := mkNode None 3 3]> ∅)) 4.
Definition new_buffer (p : ptr) : BufferImpl := mkBuffer (mkCacheList p p p 1) 0 HARE_MAX_READ_DEFAULT.
Definition new_layout (p : ptr) : layout := mkLayout [] p None [].
Definition heap_env : PEnv :=
  mkEnv w_added
    (Echo_NewSession (SetDestroy 1 (mkSession 2 9 true STATE_CONNECTED (new_buffer 2, new_layout 2) (new_buffer 3, new_layout 3)
       1024 None None None None None))) [] 0 [] [] heap0.

Lemma heap0_ok : heap_ok heap0.
Proof. split; [done|]. intros p n. simpl. intros [[<- _]|[_ [[<- _]|[_ ?]]%lookup_insert_Some]]%lookup_insert_Some; [lia..|done]. Qed.

Lemma new_buffer_ok p : p = 2%positive \/ p = 3%positive -> Buffer_ok heap0 (new_buffer p) (new_layout p).
Proof.
  intros Hp. split; [|done|done|done]. split; split; try done; simpl; try set_solver.
  - exact heap0_ok.
  - by destruct Hp as [-> | ->]; apply ring_one.
Qed.

Lemma heap_env_ok : open_ok [] heap_env.
Proof.
  split; [|done].
  assert (Hh : holds heap0 [(new_buffer 2, new_layout 2); (new_buffer 3, new_layout 3)]);
    [|split; [exact Hh|by left|simpl; unfold NUM_WRITE_IOVEC; lia|constructor|done|by eexists]].
  split; [exact heap0_ok| | |].
  - simpl. rewrite Forall_cons, Forall_singleton. split; apply new_buffer_ok; auto.
  - by vm_compute; repeat constructor; set_solver.
  - intros p [n Hn]. simpl in Hn. apply lookup_insert_Some in Hn as [[<- _]|[_ [[<- _]|[_ ?]]%lookup_insert_Some]]; [set_solver..|done].
Qed.

(** C9: the echo server does on its own buffers, blocks in a heap that is allocated and freed,
    what it does on byte sequences, under these conditions: [FIONREAD] tells at most 64 KiB,
    [readv] delivers no more than the block it is offered holds, [writev] takes no more than
    it is offered; and the sequence of wake-ups, tasks and calls other than [Send] is orderly:
    a closed session is not woken up to read, buffers stay below 4 GiB, and a task finds an
    out-buffer that is empty, or has no drained blocks and fits the vectors of [writev].  Then
    the run on the heap returns in the state that corresponds to the one the run on byte
    sequences returns in, with all its buffers well-formed and apart; and a session that has
    been closed can be destroyed, which frees the chains of both its buffers.  Outside of the
    conditions it does not hold: see [heap_hangs] and [echo_corrupts]. *)
Theorem heap_echo this user_task {Hbe : ReactorOps} sys_readable extra destroy_h destroy_b sys_readv sys_writev sys_shutdown errno l g s' :
  (forall local k, sim (closed_ok local) (closed_ok local) (destroy_h k) (destroy_b k)) ->
  (forall n b, sys_writev n b <= Zlen b) ->
  (forall k, 0 <= sys_readable k <= MAX_TO_ALLOC) ->
  (forall k, Zlen (snd (sys_readv k)) = Z.max 0 (fst (sys_readv k)) /\
             fst (sys_readv k) <= read_room (to_read sys_readable k)) ->
  open_ok [] g -> Forall no_send l ->
  orderly_run this user_task sys_readable extra destroy_h sys_readv sys_writev sys_shutdown errno (map_op fst <$> l) (heap_view g) ->
  echo_ops this user_task destroy_b sys_readv sys_writev sys_shutdown errno
    (map_op (fun x => bytes_of (snd x)) <$> l) (bytes_view g) = Ok (tt, s') ->
  exists g', echo_ops (Hbuf := HeapBuffers sys_readable extra) this user_task destroy_h sys_readv sys_writev sys_shutdown errno
      (map_op fst <$> l) (heap_view g) = Ok (tt, heap_view g') /\
    s' = bytes_view g' /\ open_ok [] g' /\
    (state (sess g') = STATE_DISCONNECTED ->
     exists h', TcpSession_dtor (Hbuf := HeapBuffers sys_readable extra) (heap_view g') = Ok (tt, set_store h' (heap_view g')) /\
       holds h' (task_buffers (stasks g'))).
Proof.
  intros Hd Hw Hr Hv Hg Hl Ho Hrun.
  destruct (heap_refines this user_task sys_readable extra destroy_h destroy_b Hd sys_readv sys_writev sys_shutdown errno
              Hw Hr Hv [] l g s' Hg Hl Ho Hrun) as (g' & H1 & H2 & H3).
  exists g'. split; [done|]. split; [done|]. split; [done|]. intros Hs.
  destruct (heap_dtor sys_readable extra [] g' (conj (proj1 H3) Hs)) as (h' & Hrun' & Hh'). exists h'. rewrite app_nil_r in Hh'. done.
Qed.

(** Two messages, of which the first is sent in two pieces; then the peer closes. *)
Definition heap_run : list (op placed_buffer) :=
  [OpCallback EVENT_READ 0; OpTask; OpCallback EVENT_READ 0; OpTask; OpCallback EVENT_WRITE 0; OpForceClose].
Definition takes_first (n : nat) (b : list cell) : Z := if decide (n = 1%nat) then Z.min 1 (Zlen b) else Zlen b.
Definition two_readable (_ : nat) : Z := 2.
Definition heap_ret (_ : positive) : ST HEnv unit := mret tt.
Definition heap_end : Env :=
  match echo_ops 1 no_task (Hbe := EpollBackend ctl_ok) cb_ret1 two_bytes takes_first zero_ret zero_ret
          (map_op (fun x => bytes_of (snd x)) <$> heap_run) (bytes_view heap_env) with
  | Ok (_, s) => s
  | _ => bytes_view heap_env
  end.

Lemma takes_first_ok n b : takes_first n b <= Zlen b.
Proof. unfold takes_first. case_decide; lia. Qed.

Lemma heap_echo_witness :
  exists g', echo_ops (Hbuf := HeapBuffers two_readable 0) 1 no_task (Hbe := EpollBackend ctl_ok) heap_ret two_bytes takes_first
      zero_ret zero_ret (map_op fst <$> heap_run) (heap_view heap_env) = Ok (tt, heap_view g') /\
    heap_end = bytes_view g' /\ open_ok [] g' /\
    (state (sess g') = STATE_DISCONNECTED ->
     exists h', TcpSession_dtor (Hbuf := HeapBuffers two_readable 0) (heap_view g') = Ok (tt, set_store h' (heap_view g')) /\
       holds h' (task_buffers (stasks g'))).
Proof.
  apply (heap_echo 1 no_task (Hbe := EpollBackend ctl_ok) two_readable 0 heap_ret cb_ret1 two_bytes takes_first zero_ret zero_ret
           heap_run heap_env heap_end).
  - intros local k. apply sim_ret.
  - exact takes_first_ok.
  - intros k. unfold two_readable, MAX_TO_ALLOC. lia.
  - intros k. split; [reflexivity|by vm_compute].
  - exact heap_env_ok.
  - repeat constructor.
  - vm_compute. repeat split; try congruence; try tauto.
  - by vm_compute.
Defined.

(** C8: the answer gets out, on the buffers of the program: an idle session of the echo server
    becomes readable with the bytes [b], no more than the block [readv] is offered holds (so
    at most 64 KiB are waiting, which [FIONREAD] tells), and the socket takes at least one
    byte whenever it is offered some.  Then the read handler, the task it has queued and fewer
    than [length b] wake-ups for writing all return; [b] is on the wire, the session is idle
    again, and its buffers are well-formed. *)
Theorem heap_answers this user_task epoll_ctl sys_readable extra destroy_h destroy_b sys_readv sys_writev sys_shutdown errno g t b :
  (forall local k, sim (closed_ok local) (closed_ok local) (destroy_h k) (destroy_b k)) ->
  (forall k, respects carries (destroy_b k)) ->
  (forall n c, sys_writev n c <= Zlen c) -> (forall n c, c <> [] -> 0 < sys_writev n c) ->
  (forall k, 0 <= sys_readable k <= MAX_TO_ALLOC) ->
  (forall k, Zlen (snd (sys_readv k)) = Z.max 0 (fst (sys_readv k)) /\
             fst (sys_readv k) <= read_room (to_read sys_readable k)) ->
  open_ok [] g -> idle this (bytes_view g) -> sys_readv (calls g) = (Zlen b, b) -> b <> [] ->
  exists n g', (n < length b)%nat /\
    echo_ops (Hbuf := HeapBuffers sys_readable extra) this user_task (Hbe := EpollBackend epoll_ctl)
      destroy_h sys_readv sys_writev sys_shutdown errno
      ([OpCallback EVENT_READ t; OpTask] ++ replicate n (OpCallback EVENT_WRITE t) ++ [OpTask]) (heap_view g) =
      Ok (tt, heap_view g') /\
    wire g' = wire g ++ b /\ idle this (bytes_view g') /\ open_ok [] g'.
Proof.
  intros Hd Hc Hw Hp Hr Hv Hg Hi Hb Hne.
  destruct (echo_round this user_task epoll_ctl destroy_b sys_readv sys_writev sys_shutdown errno) with (s := bytes_view g) (t := t) (b := b)
    as (n & s' & Hn & Hrun & Hwire & Hidle & Hcalm); try done. { intros m c Hm. split; [by apply Hp|apply Hw]. }
  assert (Hlen : Zlen b <= MAX_SIZE).
  { destruct (Hv (calls g)) as [_ Hfit]. rewrite Hb in Hfit. cbn in Hfit. unfold read_room, MAX_TO_ALLOC, MAX_SIZE in *.
    destruct (round_up _); lia. }
  set (l := [OpCallback EVENT_READ t; OpTask] ++ replicate n (OpCallback EVENT_WRITE t) ++ [OpTask] : list (op placed_buffer)).
  assert (Hl : forall C (f : placed_buffer -> C), map_op f <$> l =
    [OpCallback EVENT_READ t; OpTask] ++ replicate n (OpCallback EVENT_WRITE t) ++ [OpTask]).
  { intros C f. unfold l. by rewrite !fmap_app, fmap_replicate. }
  destruct (calm_refines this user_task epoll_ctl sys_readable extra destroy_h destroy_b sys_readv sys_writev sys_shutdown errno
    [] l Hd Hw Hr Hv) with (g := g) (s' := s') as (g' & H & -> & Hg').
  - unfold l. rewrite !Forall_app. split_and!; [by repeat constructor|by apply Forall_replicate|by repeat constructor].
  - done.
  - rewrite Hl. by apply Hcalm.
  - by rewrite Hl.
  - exists n, g'. rewrite Hl in H. by split_and!.
Qed.

Lemma heap_idle : idle 1 (bytes_view heap_env).
Proof.
  split_and!; try done. exists (Event_Active user_event 1 1).
  split; [exact w_added_Inv|by split_and!|simpl; lia|done].
Qed.

Lemma heap_answers_witness :
  exists n g', (n < 2)%nat /\
    echo_ops (Hbuf := HeapBuffers two_readable 0) 1 no_task (Hbe := EpollBackend ctl_ok) heap_ret two_bytes takes_one zero_ret zero_ret
      ([OpCallback EVENT_READ 0; OpTask] ++ replicate n (OpCallback EVENT_WRITE 0) ++ [OpTask]) (heap_view heap_env) =
      Ok (tt, heap_view g') /\
    wire g' = [Some 65; Some 66] /\ idle 1 (bytes_view g') /\ open_ok [] g'.
Proof.
  apply (heap_answers 1 no_task ctl_ok two_readable 0 heap_ret cb_ret1 two_bytes takes_one zero_ret zero_ret heap_env 0 [Some 65; Some 66]).
  - intros local k. apply sim_ret.
  - intros k. apply ret_carries.
  - intros n c. unfold takes_one. lia.
  - intros n c Hc. by apply takes_one_ok.
  - intros k. unfold two_readable, MAX_TO_ALLOC. lia.
  - intros k. split; [reflexivity|by vm_compute].
  - exact heap_env_ok.
  - exact heap_idle.
  - reflexivity.
  - discriminate.
Defined.

(** C18: when more bytes are waiting than the largest block holds (64 KiB), the read handler of
    a connected session of the echo server never returns: for any fuel it runs out. *)
Theorem heap_hangs this user_task {Hbe : ReactorOps} sys_readable extra uc ur ud sys_readv local t g :
  open_ok local g -> state (sess g) = STATE_CONNECTED ->
  MAX_TO_ALLOC < sys_readable (calls g) <= MAX_SIZE ->
  HandleRead (Hbuf := HeapBuffers sys_readable extra) this user_task uc ur ud sys_readv t (heap_view g) = NoFuel.
Proof. apply heap_read_spins. Qed.

Lemma heap_hangs_witness :
  HandleRead (Hbuf := HeapBuffers (fun _ => 65537) 100) 1 no_task (Hbe := EpollBackend ctl_ok) echo_connect
    (echo_read (Hbuf := HeapBuffers (fun _ => 65537) 100)) heap_ret two_bytes 0 (heap_view heap_env) = NoFuel.
Proof.
  apply (heap_hangs 1 no_task (Hbe := EpollBackend ctl_ok) (fun _ => 65537) 100 echo_connect _ heap_ret two_bytes [] 0 heap_env);
    [exact heap_env_ok|reflexivity|by vm_compute].
Defined.

(** Four messages of two bytes, for a peer that reads slowly: the socket takes one byte of the
    first, then two of the three that are left of the first and the second, then all. *)
Definition slow_run {B} : list (op B) :=
  [OpCallback EVENT_READ 0; OpTask; OpCallback EVENT_READ 0; OpTask; OpCallback EVENT_WRITE 0;
   OpCallback EVENT_READ 0; OpTask; OpCallback EVENT_WRITE 0; OpCallback EVENT_READ 0; OpTask; OpTask].
Definition slow_takes (n : nat) (b : list cell) : Z :=
  match n with 1%nat => Z.min 1 (Zlen b) | 3%nat => Z.min 2 (Zlen b) | _ => Zlen b end.

(** An ordinary exchange corrupts the memory of the echo server.  A peer sends four
    messages and reads slowly; the third is appended to the out-buffer when its first block,
    the [head] of the chain, has been drained, and the fourth replaces that chain, whose
    destruction uses nodes that it has already deleted.  The same run of the session on byte
    sequences answers all four. *)
Theorem echo_corrupts :
  echo_ops (Hbuf := HeapBuffers two_readable 0) 1 no_task (Hbe := EpollBackend ctl_ok) heap_ret two_bytes slow_takes zero_ret zero_ret
    slow_run (heap_view heap_env) = UB /\
  (exists s, echo_ops (Hbuf := HeapBuffers two_readable 0) 1 no_task (Hbe := EpollBackend ctl_ok) heap_ret two_bytes slow_takes
      zero_ret zero_ret (take 10 slow_run) (heap_view heap_env) = Ok (tt, s)) /\
  exists s, echo_ops 1 no_task (Hbe := EpollBackend ctl_ok) cb_ret1 two_bytes slow_takes zero_ret zero_ret
      slow_run (bytes_view heap_env) = Ok (tt, s) /\
    wire s = concat (replicate 4 [Some 65; Some 66]).
Proof. split; [by vm_compute|]. split; eexists; [by vm_compute|]. split; by vm_compute. Qed.
