(* ===== verification/PropServe.v ===== *)
(** * Main theorems: the echo server with any number of sessions. *)

From S2P Require Import Prelude Cache CacheList CacheRing CacheListSpec NetBuffer NetBufferSpec NetBufferIO BufferSep.
From S2P Require Import EventLoop EventLoopSpec NetError Session Server SessionSpec Echo SessionHeap SessionHeapSpec.
From S2P Require Import EchoServe EchoServeSpec EchoServeHeap PoolStart EchoPool Client.
From S2P Require Import Util System LoopLife Console Listen EchoMain.
From S2P Require Import PropLoop PropNet PropEcho.

(** Two clients: the first sends two bytes at a time, the second one byte; the sockets take
    one byte, or all. *)
Definition client_sends (k : positive) (_ : nat) : Z * list cell :=
  if decide (k = 1%positive) then (2, [Some 65; Some 66]) else (1, [Some 67]).
Definition client_takes (k : positive) (n : nat) (b : list cell) : Z := if decide (n = 1%nat) then Z.min 1 (Zlen b) else Zlen b.
Definition client_zero (_ : positive) (_ : nat) : Z := 0.
Definition serve_run : list hub_op :=
  [HubAccept 7; HubAccept 8; HubCall 1 (CallWake EVENT_READ 0); HubCall 2 (CallWake EVENT_READ 0); HubTask; HubTask;
   HubCall 1 (CallWake EVENT_READ 0); HubCall 1 (CallWake EVENT_WRITE 0); HubCall 2 CallForceClose; HubTask].
Definition serve0 : ByteHub := hub_new w_begun tt.
Definition serve_end : ByteHub :=
  match hub_steps byte_bufs 1 no_task (Hbe := EpollBackend ctl_ok) client_sends client_takes client_zero client_zero serve_run serve0 with
  | Ok hub => hub
  | _ => serve0
  end.

(** C4: any number of clients of the echo server, in one cycle: whatever the order in which
    connections are accepted, sessions woken up or closed, and tasks run, every session has
    on its wire, in its buffers and in its tasks exactly the bytes read from its own socket,
    in order; what its client has got is a prefix of what that client sent, and a session
    that is still connected holds nothing back. *)
Theorem server_echo this user_task {Hbe : ReactorOps} sys_readv sys_writev sys_shutdown errno w l hub k c :
  hub_steps byte_bufs this user_task sys_readv sys_writev sys_shutdown errno l (hub_new w tt) = Ok hub ->
  conns hub !! k = Some c ->
  let s := env_of k c hub in
  let got := hub_received this user_task sys_readv sys_writev sys_shutdown errno k l (hub_new w tt) in
  stream s ++ in_buffer (sess s) = got /\ wire s `prefix_of` got /\ (state (sess s) = STATE_CONNECTED -> stream s = got).
Proof. by apply hub_echoes. Qed.

Definition client_one : Conn (list cell) :=
  match conns serve_end !! 1%positive with Some c => c | None => mkConn (c_sess (mkConn (sess echo_env) 0 [] [])) 0 [] [] end.

Lemma server_echo_witness :
  let s := env_of 1 client_one serve_end in
  stream s ++ in_buffer (sess s) = [Some 65; Some 66; Some 65; Some 66] /\
  wire s `prefix_of` [Some 65; Some 66; Some 65; Some 66] /\
  (state (sess s) = STATE_CONNECTED -> stream s = [Some 65; Some 66; Some 65; Some 66]).
Proof.
  exact (server_echo 1 no_task (Hbe := EpollBackend ctl_ok) client_sends client_takes client_zero client_zero w_begun serve_run
           serve_end 1 client_one ltac:(by vm_compute) ltac:(by vm_compute)).
Defined.

(** C14: sessions live exactly as long as they should.  Whatever has happened, an open session
    is in the map of its cycle under its own descriptor and everything in the map is open; a
    queued task belongs to a session that exists; and a session exists just as long as the
    map or a task refers to it.  The next step, whether a connection is accepted (under a
    descriptor that no session has), a session called or a task run, fails only if the code
    of the session it is for fails on that session itself: neither the assertions of the map
    nor the one in the destructor of a session can fail. *)
Theorem server_lifetimes this user_task {Hbe : ReactorOps} sys_readv sys_writev sys_shutdown errno w l hub :
  hub_steps byte_bufs this user_task sys_readv sys_writev sys_shutdown errno l (hub_new w tt) = Ok hub ->
  (forall fd k, sessions hub !! fd = Some k <->
     exists c, conns hub !! k = Some c /\ socket (c_sess c) = fd /\ state (c_sess c) <> STATE_DISCONNECTED) /\
  (forall k, is_Some (conns hub !! k) <->
     (exists fd, sessions hub !! fd = Some k) \/ (exists t, (k, t) ∈ hub_tasks hub)) /\
  (forall o, fd_unused o hub ->
     (exists hub', hub_step byte_bufs this user_task sys_readv sys_writev sys_shutdown errno o hub = Ok hub') \/
     exists k m hub1 c, session_code this user_task sys_readv sys_writev sys_shutdown errno o hub = Some (k, m, hub1) /\
       conns hub1 !! k = Some c /\ forall r, m (env_of k c hub1) <> Ok r).
Proof.
  intros Hrun. destruct (hub_new_spec w) as [Hwf0 Hb0].
  destruct (hub_steps_spec this user_task sys_readv sys_writev sys_shutdown errno l _ _ _ Hwf0 Hb0 Hrun) as [Hwf _]. split_and!.
  - intros fd k. split; [apply (hw_map _ _ Hwf)|]. intros (c & Hc & <- & Ho). by apply (hw_open _ _ Hwf).
  - intros k. rewrite <- referenced_spec. split; [intros [c Hc]; by apply (hw_refs _ _ Hwf _ _ Hc)|].
    intros [[fd Hfd]|[t Ht]]%referenced_spec; [|by apply (hw_tasks _ _ Hwf _ t)].
    destruct (hw_map _ _ Hwf _ _ Hfd) as (c & Hc & _). by eexists.
  - intros o Ho. by apply hub_step_progress.
Qed.

(** The second client has gone: only a task of its session is left, and when that has run the
    session is destroyed. *)
Definition serve_left : ByteHub :=
  match hub_steps byte_bufs 1 no_task (Hbe := EpollBackend ctl_ok) client_sends client_takes client_zero client_zero
          [HubAccept 8; HubCall 1 (CallWake EVENT_READ 0); HubCall 1 CallForceClose] serve0 with
  | Ok hub => hub
  | _ => serve0
  end.

Definition code_runs (x : option (positive * ST Env unit * ByteHub)) : bool :=
  match x with
  | Some (k, m, hub) =>
    match conns hub !! k with
    | Some c => match m (env_of k c hub) with Ok _ => true | _ => false end
    | None => false
    end
  | None => false
  end.

Lemma code_runs_ok x k m hub c :
  code_runs x = true -> x = Some (k, m, hub) -> conns hub !! k = Some c -> ~ forall r, m (env_of k c hub) <> Ok r.
Proof. intros H -> Hc Hf. cbn in H. rewrite Hc in H. destruct (m (env_of k c hub)) as [r| | | |]; try discriminate. by apply (Hf r). Qed.

Definition destroys (o : outcome ByteHub) (k : positive) : bool :=
  match o with Ok hub => bool_decide (conns hub !! k = None) | _ => false end.

Lemma destroys_ok o k hub : destroys o k = true -> o = Ok hub -> conns hub !! k = None.
Proof. intros H ->. by apply bool_decide_eq_true in H. Qed.

Lemma server_lifetimes_witness :
  sessions serve_left !! 8 = None /\ is_Some (conns serve_left !! 1%positive) /\
  exists hub', hub_step byte_bufs 1 no_task (Hbe := EpollBackend ctl_ok) client_sends client_takes client_zero client_zero HubTask
    serve_left = Ok hub' /\ conns hub' !! 1%positive = None.
Proof.
  destruct (server_lifetimes 1 no_task (Hbe := EpollBackend ctl_ok) client_sends client_takes client_zero client_zero
    w_begun [HubAccept 8; HubCall 1 (CallWake EVENT_READ 0); HubCall 1 CallForceClose] serve_left) as (_ & H & Hstep); [by vm_compute|].
  split; [by vm_compute|]. split.
  - apply H. right. eexists. vm_compute. left.
  - destruct (Hstep HubTask I) as [[hub' Hh]|(k & m & hub1 & c & E & Hc & Hf)].
    + exists hub'. split; [exact Hh|]. refine (destroys_ok _ _ _ _ Hh). vm_compute. reflexivity.
    + exfalso. refine (code_runs_ok _ _ _ _ _ _ E Hc Hf). vm_compute. reflexivity.
Defined.

(** C7: the echo server with any number of clients on its own buffers: all blocks of all
    sessions and tasks live in one heap, and what the server does on byte sequences it does
    there, for any order of connections, wake-ups and tasks; afterwards every buffer is
    well-formed and every node belongs to exactly one of them: sessions that have gone have
    given their nodes back.  The conditions are those of a single session ([orderly_steps]:
    no task meets an out-buffer that is partly sent and has drained blocks, no closed session
    is woken up to read, buffers stay below 4 GiB; [FIONREAD] tells at most 64 KiB; [readv]
    delivers no more than the block it is offered holds; [writev] takes no more than it is
    offered); without them the buffers can break, see [heap_hangs] and [echo_corrupts]. *)
Theorem server_heap this user_task {Hbe : ReactorOps} sys_readable extra sys_readv sys_writev sys_shutdown errno w h l hubb :
  (forall k n b, sys_writev k n b <= Zlen b) ->
  (forall k n, 0 <= sys_readable k n <= MAX_TO_ALLOC) ->
  (forall k n, Zlen (snd (sys_readv k n)) = Z.max 0 (fst (sys_readv k n)) /\
               fst (sys_readv k n) <= read_room (to_read (sys_readable k) n)) ->
  heap_ok h -> nodes h = ∅ ->
  orderly_steps this user_task sys_readable extra sys_readv sys_writev sys_shutdown errno l (hub_new w h) ->
  hub_steps byte_bufs this user_task sys_readv sys_writev sys_shutdown errno l (hub_new w tt) = Ok hubb ->
  exists hub', hub_steps (heap_bufs sys_readable extra) this user_task sys_readv sys_writev sys_shutdown errno l (hub_new w h) =
      Ok (heap_hub hub') /\ hubb = byte_hub hub' /\ holds (hub_store hub') (all_buffers hub').
Proof.
  intros Hw Hr Hv Hh He Ho Hrun. destruct (hub_new_spec w) as [Hwf0 Hb0].
  assert (Hgood : hub_good (hub_new w h)) by (split; [split; [done|constructor|constructor|]|done]; cbn; rewrite He; intros p; rewrite lookup_empty; by intros []).
  destruct (hub_steps_refine this user_task sys_readable extra sys_readv sys_writev sys_shutdown errno Hw Hr Hv l (fun _ => [])
    (hub_new w h) hubb Hwf0 Hb0 Hgood Ho Hrun) as (hub' & H & -> & []). by exists hub'.
Qed.

Definition client_readable (_ : positive) (_ : nat) : Z := 2.
Definition no_nodes : Heap := mkHeap ∅ 2.

Lemma server_heap_witness :
  exists hub', hub_steps (heap_bufs client_readable 0) 1 no_task (Hbe := EpollBackend ctl_ok) client_sends client_takes client_zero
      client_zero serve_run (hub_new w_begun no_nodes) = Ok (heap_hub hub') /\
    serve_end = byte_hub hub' /\ holds (hub_store hub') (all_buffers hub').
Proof.
  apply (server_heap 1 no_task (Hbe := EpollBackend ctl_ok) client_readable 0 client_sends client_takes client_zero client_zero
    w_begun no_nodes serve_run serve_end).
  - intros k n b. unfold client_takes. case_decide; lia.
  - intros k n. unfold client_readable, MAX_TO_ALLOC. lia.
  - intros k n. unfold client_sends. destruct (decide (k = 1%positive)); by vm_compute.
  - split; [done|]. intros p x. cbn. by rewrite lookup_empty.
  - done.
  - vm_compute. repeat split; try congruence; try tauto.
  - by vm_compute.
Defined.

(** ** The threads of the pool *)

(** C32: the threads of the pool.  [Start] returns before they have run: a connection
    that comes then ends in the exception of [CHECK_NULL], and [Stop] uses a null pointer.
    When each thread has made its cycle, any interleaving of new connections (with descriptors that are not in use), of sessions that
    close and of steps of the threads is free of failures: the connections are dealt out in
    turn, and each thread takes its own, in order.  [Stop] then ends all threads if no
    session is left; a thread that has one runs into undefined behaviour. *)
Theorem pool_start thread_nbr (p : SessionPool) :
  0 < thread_nbr -> Threaded_Start thread_nbr pool_new = Ok (true, p) ->
  (forall fd, Threaded_NewSession fd p = Throw Exception) /\ Threaded_Stop p = UB /\
  exists p1, pool_run (WStep <$> seq 0 (Z.to_nat thread_nbr)) p = Ok p1 /\
    forall l, fresh_fds l p1 -> exists p2 p3, pool_run l p1 = Ok p2 /\ Threaded_Stop p2 = Ok p3 /\
      (forall i, (i < Z.to_nat thread_nbr)%nat -> exists w, workers p2 !! i = Some w /\
         connections w = assigned (Z.of_nat i) 0 thread_nbr (accepted_fds l)) /\
      (Forall idle (workers p2) ->
         exists p4, pool_run (WStep <$> seq 0 (Z.to_nat thread_nbr)) p3 = Ok p4 /\
           Threaded_join p4 = Some (mkThreaded (p_last p2) false [])) /\
      (forall i w, workers p2 !! i = Some w -> ~ idle w ->
         exists w3 n, workers p3 !! i = Some w3 /\ worker_steps n i w3 = UB).
Proof.
  intros Hn H. destruct (starting_ready thread_nbr p Hn H) as (p1 & H1 & Hr1 & Hl1 & Hw1).
  destruct (Start_early thread_nbr p Hn H) as [He Hs]. split_and!; [done|done|]. exists p1. split; [done|]. intros l Hf.
  destruct (good_runs l p1 Hr1 ltac:(unfold pool_good; rewrite Hw1; apply started_good) Hf) as (p2 & H2 & Hg2).
  destruct (pool_run_ready l p1 p2 Hr1 H2) as (Hr2 & Hlen & Hc2).
  assert (Hln : length (workers p1) = Z.to_nat thread_nbr) by (by rewrite Hw1, length_fmap, length_seq).
  eexists p2, _. split_and!; [done|by apply Stop_ready| | |].
  - intros i Hi. destruct (Hc2 i (started_thread i)) as (w & Hw & Hc); [by rewrite Hw1, list_lookup_fmap, lookup_seq_lt|].
    exists w. split; [done|]. rewrite Hc, Hl1. unfold Zlen. by rewrite Hln, Z2Nat.id by lia.
  - intros Hi. destruct (idle_pool_stops p2 Hr2 Hi) as (p3 & p4 & H3 & H4 & Hj). rewrite (Stop_ready _ Hr2) in H3. injection H3 as <-.
    rewrite Hlen, Hln in H4. by exists p4.
  - intros i w Hw Hi. destruct (busy_stop i w (pr_workers _ Hr2 i w Hw)) as (n & Hb); [by eapply Forall_lookup_1|done|].
    exists (with_stop w), n. split; [|done]. simpl. by rewrite list_lookup_fmap, Hw.
Qed.

(** Two threads; three connections, of which the second closes. *)
Lemma pool_start_witness :
  match Threaded_Start (Hops := SessionItem) 2 pool_new with
  | Ok (true, p) => (forall fd, Threaded_NewSession fd p = Throw Exception) /\ Threaded_Stop p = UB /\
    exists p1, pool_run [WStep 0; WStep 1] p = Ok p1 /\
      exists p2 p3, pool_run [MSession 7; MSession 8; WStep 1; MSession 9; WItem 1 8; WStep 0] p1 = Ok p2 /\ Threaded_Stop p2 = Ok p3 /\
        (forall i, (i < 2)%nat -> exists w, workers p2 !! i = Some w /\
           connections w = assigned (Z.of_nat i) 0 2 [7; 8; 9])
  | _ => False
  end.
Proof.
  destruct (pool_start 2 (mkThreaded 0 true [starting 0; starting 1])) as (H1 & H2 & p1 & Hr & H); [lia|reflexivity|].
  cbn -[Threaded_NewSession Threaded_Stop pool_run]. split; [exact H1|]. split; [exact H2|]. exists p1. split; [exact Hr|].
  destruct (H [MSession 7; MSession 8; WStep 1; MSession 9; WItem 1 8; WStep 0]) as (p2 & p3 & Ha & Hb & Hc & _).
  { cbn in Hr. injection Hr as <-.
    repeat match goal with
    | |- fresh_fds [] _ => exact I
    | |- fresh_fds (_ :: _) _ => split; [vm_compute; done|let p := fresh "p" in intros p Hp; vm_compute in Hp; injection Hp as <-]
    end. }
  exists p2, p3. split; [exact Ha|]. split; [exact Hb|exact Hc].
Defined.

(** C5: the echo server on its pool of threads.  Once the threads have made their cycles, and
    whatever the order in which connections arrive, threads take them, sessions are woken up
    or closed and tasks run: the connections are dealt out to the items in turn; session [k]
    of an item is the one of its [k]-th connection; every session has on its wire, in its
    buffers and tasks exactly the bytes read from its own socket, in order; a further step
    fails only if the code of a session does, and an item can be stopped exactly if it has no
    session left. *)
Theorem pool_echo began this user_task {Hbe : ReactorOps} sys_readv sys_writev sys_shutdown errno n (p : ThreadedPool ByteHub member_op) :
  let Hops := byte_item began this user_task sys_readv sys_writev sys_shutdown errno in
  0 < n -> Threaded_Start n pool_new = Ok (true, p) ->
  exists p1, pool_run (WStep <$> seq 0 (Z.to_nat n)) p = Ok p1 /\
    forall l p2, pool_run l p1 = Ok p2 ->
      (forall i, (i < Z.to_nat n)%nat -> exists w, workers p2 !! i = Some w /\
         connections w = assigned (Z.of_nat i) 0 n (accepted_fds l) /\
         item_echoes began this user_task sys_readv sys_writev sys_shutdown errno i w) /\
      (forall e, (exists p3, pool_step e p2 = Ok p3) \/ exists i w, workers p2 !! i = Some w /\
         ((e = WStep i /\ exists fd fds, pending_fds w = fd :: fds /\ fails (it_accept i fd (w_item w))) \/
          (exists o, e = WItem i o /\ fails (it_run i o (w_item w))))).
Proof.
  intros Hops Hn H. destruct (starting_ready n p Hn H) as (p1 & H1 & Hr1 & Hl1 & Hw1). exists p1. split; [done|]. intros l p2 H2.
  destruct (pool_run_ready l p1 p2 Hr1 H2) as (Hr2 & Hlen & Hc2).
  assert (Hln : length (workers p1) = Z.to_nat n) by (by rewrite Hw1, length_fmap, length_seq). split.
  - intros i Hi. destruct (Hc2 i (started_thread i)) as (w & Hw & Hc); [by rewrite Hw1, list_lookup_fmap, lookup_seq_lt|].
    exists w. split; [done|]. split; [|by apply ready_echoes, (pr_workers _ Hr2)]. rewrite Hc, Hl1. unfold Zlen. by rewrite Hln, Z2Nat.id by lia.
  - intros e. by apply pool_step_progress.
Qed.

(** Two threads, three clients; the first one is answered. *)
Definition pool_item : ItemOps ByteHub member_op :=
  byte_item (Hbe := EpollBackend ctl_ok) (fun _ => w_begun) (fun _ => 1%positive) no_task (fun _ => client_sends) (fun _ => client_takes)
    (fun _ => client_zero) (fun _ => client_zero).
Definition pool_events : list (pool_event member_op) :=
  [MSession 7; MSession 8; WStep 0; MSession 9; WItem 0 (MemCall 1 (CallWake EVENT_READ 0)); WStep 1; WItem 0 MemTask; WStep 0].
Definition pool_up : ThreadedPool ByteHub member_op :=
  mkThreaded 0 true [started_thread (Hops := pool_item) 0; started_thread (Hops := pool_item) 1].
Definition pool_end : ThreadedPool ByteHub member_op :=
  match pool_run (Hops := pool_item) pool_events pool_up with Ok p => p | _ => pool_up end.

Lemma pool_echo_witness :
  exists w, workers pool_end !! 0%nat = Some w /\ connections w = [7; 9] /\
    item_echoes (Hbe := EpollBackend ctl_ok) (fun _ => w_begun) (fun _ => 1%positive) no_task (fun _ => client_sends) (fun _ => client_takes)
      (fun _ => client_zero) (fun _ => client_zero) 0 w.
Proof.
  destruct (pool_echo (Hbe := EpollBackend ctl_ok) (fun _ => w_begun) (fun _ => 1%positive) no_task (fun _ => client_sends) (fun _ => client_takes)
    (fun _ => client_zero) (fun _ => client_zero) 2
    (mkThreaded 0 true [starting (Hops := pool_item) 0; starting (Hops := pool_item) 1])) as (p1 & H1 & H); [lia|reflexivity|].
  cbn in H1. injection H1 as <-.
  destruct (H pool_events pool_end) as [H2 _]; [by vm_compute|]. exact (H2 0%nat ltac:(lia)).
Defined.





(** C6: a round trip through the echo server.  A client session with any well-behaved
    callbacks, a server with any number of sessions, and a network that delivers in each
    direction a prefix of what the other side has put on its wire: what the client gets back
    is a prefix of what it was given to send; and when everything has been delivered and the
    server's session has nothing left to send, it is all that the client has put on its
    wire. *)
Theorem client_answered this user_task {Hbe : ReactorOps} sys_readv sys_writev sys_shutdown errno w l hub k c
    that client_task {Hbe' : ReactorOps} user_connect user_read user_write user_high_water user_destroy
    readv writev shutdown errno' ops s s' back :
  hub_steps byte_bufs this user_task sys_readv sys_writev sys_shutdown errno l (hub_new w tt) = Ok hub -> conns hub !! k = Some c ->
  (forall k f, respects extends (user_connect k f)) -> (forall k t, respects extends (user_read k t)) ->
  (forall k, respects extends (user_write k)) -> (forall k, respects extends (user_high_water k)) ->
  (forall k, respects extends (user_destroy k)) ->
  run_ops that client_task (Hbe := Hbe') user_connect user_read user_write user_high_water user_destroy readv writev shutdown errno' ops s =
    Ok (tt, s') ->
  let got := hub_received this user_task sys_readv sys_writev sys_shutdown errno k l (hub_new w tt) in
  got `prefix_of` wire s' -> back `prefix_of` c_wire c ->
  back `prefix_of` stream s' /\ stream s `prefix_of` stream s' /\
  (got = wire s' -> back = c_wire c -> state (c_sess c) = STATE_CONNECTED -> out_buffer (c_sess c) = [] ->
   tasks_of k (hub_tasks hub) = [] -> back = wire s').
Proof.
  intros Hrun Hk H1 H2 H3 H4 H5 Hops got Hup Hdown.
  destruct (extends_ops that client_task user_connect user_read user_write user_high_water user_destroy readv writev
    shutdown errno' ops H1 H2 H3 H4 H5 s tt s' Hops) as [Hgrow _].
  destruct (hub_echoes this user_task sys_readv sys_writev sys_shutdown errno w l hub k c Hrun Hk) as (_ & Hpre & Hall).
  fold got in Hpre, Hall. split_and!; [|done|].
  - trans (c_wire c); [done|]. trans got; [exact Hpre|]. trans (wire s'); [done|]. by apply prefix_app_r.
  - intros Eg -> Hc Ho Ht. rewrite <- Eg, <- (Hall Hc). unfold stream. simpl. by rewrite Ho, Ht, !app_nil_r.
Qed.

(** The client sends two bytes; its session at the server has sent back the first. *)
Definition client_env : Env := env STATE_CONNECTED.
Definition client_end : Env := set_wire [Some 65; Some 66; Some 65; Some 66] client_env.

Lemma client_answered_witness :
  [Some 65] `prefix_of` stream client_end /\ stream client_end `prefix_of` stream client_end.
Proof.
  destruct (client_answered (Hbe := EpollBackend ctl_ok) 1 no_task client_sends client_takes client_zero client_zero w_begun serve_run
    serve_end 1 client_one 1 no_task (Hbe' := EpollBackend ctl_ok) cb_ret2 cb_ret2 cb_ret1 cb_ret1 cb_ret1
    (fun _ => (0, [])) (fun _ _ => 0) (fun _ => 0) (fun _ => 0) [] client_end client_end [Some 65]) as (Ha & Hb & _);
    [by vm_compute|by vm_compute|intros; apply ret_extends|intros; apply ret_extends|intros; apply ret_extends|intros; apply ret_extends|
     intros; apply ret_extends|reflexivity|by vm_compute; exists []|vm_compute; by eexists|by split].
Defined.

(** C38: [ConnectTo] never tries again.  After a refused attempt with retries left the client
    has closed the socket, kept the id of a timer and queued nothing; when the timer is due
    it leaves the reactor and the function that would call [ConnectTo] again is not called,
    whatever it is. *)
Theorem never_retries {Hbe : ReactorOps} this retry_task fd errno times delay c w t n :
  refused errno -> 0 < times ->
  is_running w = true -> 0 <= event_id w -> events_ (reactor w) !! event_id w = None ->
  ptimer_ (reactor w) = [] -> now w + delay <= t ->
  exists c1 w1 w2,
    (forall user_task, connect_in_cycle this user_task retry_task fd errno true times delay c w = Ok (c1, w1)) /\
    c_closed c1 = c_closed c ++ [fd] /\ c_session c1 = c_session c /\ c_tasks c1 = c_tasks c /\ retry_id c1 = event_id w /\
    (forall user_cb user_task fuel, NotifyTimer this user_cb user_task (S (S fuel)) n (set_time t n w1) = Ok (tt, w2)) /\
    events_ (reactor w2) = events_ (reactor w) /\ ptimer_ (reactor w2) = [] /\ pending_functions w2 = pending_functions w.
Proof. apply retry_is_lost. Qed.

Lemma never_retries_witness :
  exists c1 w1 w2,
    (forall user_task, connect_in_cycle 1 user_task (Hbe := EpollBackend ctl_ok) 7 9 ECONNREFUSED true 3 100 (Client_ctor true) w_begun = Ok (c1, w1)) /\
    c_closed c1 = [9] /\ c_session c1 = None /\ c_tasks c1 = [] /\ retry_id c1 = 1 /\
    (forall user_cb user_task fuel, NotifyTimer 1 user_cb user_task (H := EpollBackend ctl_ok) (S (S fuel)) 200 (set_time 200 200 w1) = Ok (tt, w2)) /\
    events_ (reactor w2) = events_ (reactor w_begun) /\ ptimer_ (reactor w2) = [] /\ pending_functions w2 = pending_functions w_begun.
Proof.
  apply (never_retries (Hbe := EpollBackend ctl_ok) 1 7 9 ECONNREFUSED 3 100 (Client_ctor true) w_begun 200 200);
    [unfold refused; set_solver|lia|reflexivity|vm_compute; congruence|reflexivity|reflexivity|vm_compute; congruence].
Defined.
