(* ===== verification/PropLog.v ===== *)
(** * Properties of the log, the console, hooks and sockets. *)

From Stdlib Require Import Ascii.
From stdpp Require Import pretty.
From S2P Require Import Prelude Queue Time Util LogFile LogFileSpec Log LogSpec AsyncLog AsyncLogSpec.
From S2P Require Import EventLoop Console NetError Sockets.

(** ** Names of log files *)

(** The text [fmt::format("{}.{}.log", ...)] makes. *)
Definition dotted_name (base : string) (i : Z) : string := base +:+ "." +:+ pretty i +:+ ".log".

Lemma string_app_inv_r (a b c : string) : a +:+ c = b +:+ c -> a = b.
Proof.
  assert (Hl : forall s t, String.length (s +:+ t) = (String.length s + String.length t)%nat).
  { intros s t. induction s as [|x s IH]; [done|]. simpl. by rewrite IH. }
  revert b. induction a as [|x a IH]; intros [|y b] H; try done.
  - apply (f_equal String.length) in H. rewrite !Hl in H. simpl in H. lia.
  - apply (f_equal String.length) in H. rewrite !Hl in H. simpl in H. lia.
  - injection H as -> H. by rewrite (IH b H).
Qed.

Lemma dotted_name_inj base i j : dotted_name base i = dotted_name base j -> i = j.
Proof.
  unfold dotted_name. intros H. apply (inj (String.app base)), (inj (String.app ".")), string_app_inv_r in H.
  by apply (inj pretty).
Qed.

Definition all_ok (_ : nat) : bool := true.
Definition takes_all (_ : nat) (n : Z) : Z := n.
(** A string that was moved from and kept its text. *)
Definition as_is (s : string) : string := s.
Definition disk0 : Disk := mkDisk ∅ ∅ 0.

Lemma disk0_ok base max : disk_ok dotted_name base max 0 [] disk0.
Proof. split; simpl; try done. intros k [i Hi]. by rewrite lookup_empty in Hi. Qed.

(** ** Log files *)

(** C23: a file backend loses no byte except by rotation, provided that every call to the
    library succeeds, no log file of its name exists at the start, the limit is not one file
    (see [single_file_lost]) and it gets fewer than 2^31 messages and 2^64 bytes: what
    was logged is what rotation dropped followed by the contents of the log files in their
    order; there are no other log files; without a limit nothing is dropped; with the limit
    [max] there are at most [max - 1] files, files are dropped only when there are that
    many, and every file but the current one has reached [MaxSize]. *)
Theorem log_kept fopen_ok remove_ok fstat_ok fwrite_n fmt_name moved_from MaxSize base max d msgs :
  (forall k, fopen_ok k = true) -> (forall k, remove_ok k = true) -> (forall k, fstat_ok k = true) ->
  (forall k n, fwrite_n k n = n) -> (forall b i j, fmt_name b i = fmt_name b j -> i = j) ->
  max <= 0 \/ 2 <= max < 2 ^ 31 -> disk_ok fmt_name base max 0 [] d ->
  Zlen (concat msgs) < 2 ^ 64 -> Z.of_nat (length msgs) + 2 < 2 ^ 31 ->
  exists b' d' lo pre cur gone,
    (_ ← FileBackend_ctor fopen_ok fstat_ok fmt_name;
     sink_all fopen_ok remove_ok fstat_ok fwrite_n fmt_name moved_from MaxSize msgs) (FileBackend_new base max, d) =
      (Ok tt, (b', d')) /\
    concat msgs = gone ++ concat (pre ++ [cur]) /\
    (forall j c, (pre ++ [cur]) !! j = Some c -> content d' (log_name fmt_name base max (lo + j)) = Some c) /\
    (forall k, is_Some (dir d' !! log_name fmt_name base max k) ->
       exists j, (j < length (pre ++ [cur]))%nat /\ log_name fmt_name base max k = log_name fmt_name base max (lo + j)) /\
    (max <= 0 -> gone = []) /\ (0 < max -> Zlen pre + 1 <= max - 1) /\
    (gone <> [] -> Zlen pre + 1 = max - 1) /\ (forall j c, pre !! j = Some c -> MaxSize <= Zlen c).
Proof.
  intros H1 H2 H3 H4 H5 H6 Hd Hl Hn.
  destruct (retention fopen_ok remove_ok fstat_ok fwrite_n fmt_name moved_from MaxSize base max H1 H2 H3 H4 H5 H6 d msgs Hd Hl Hn)
    as (lo & pre & cur & gone & b' & d' & Hrun & [Hdisk _ _ _ _ Hh Hf] & Hall & Hg0 & Hg1 & _).
  exists b', d', lo, pre, cur, gone. split_and!; [done|done|apply Hdisk|apply Hdisk| | | |done].
  - intros Hm. apply Hg0. destruct (decide (lo = 0%nat)) as [|Hlo]; [done|]. apply Hg1 in Hlo. lia.
  - intros Hm. by apply Hh.
  - intros Hg. apply Hg1. intros Hlo. by apply Hg, Hg0.
Qed.

Lemma log_kept_witness :
  exists b' d' lo pre cur gone,
    (_ ← FileBackend_ctor all_ok all_ok dotted_name;
     sink_all all_ok all_ok all_ok takes_all dotted_name as_is 2 [[1; 2]; [3]; [4; 5]; [6]]) (FileBackend_new "app" 3, disk0) =
      (Ok tt, (b', d')) /\
    [1; 2; 3; 4; 5; 6] = gone ++ concat (pre ++ [cur]) /\
    (forall j c, (pre ++ [cur]) !! j = Some c -> content d' (log_name dotted_name "app" 3 (lo + j)) = Some c) /\
    (forall k, is_Some (dir d' !! log_name dotted_name "app" 3 k) ->
       exists j, (j < length (pre ++ [cur]))%nat /\ log_name dotted_name "app" 3 k = log_name dotted_name "app" 3 (lo + j)) /\
    (3 <= 0 -> gone = []) /\ (0 < 3 -> Zlen pre + 1 <= 3 - 1) /\
    (gone <> [] -> Zlen pre + 1 = 3 - 1) /\ (forall j c, pre !! j = Some c -> 2 <= Zlen c).
Proof.
  apply (log_kept all_ok all_ok all_ok takes_all dotted_name as_is 2 "app" 3 disk0 [[1; 2]; [3]; [4; 5]; [6]]);
    [done|done|done|done|exact dotted_name_inj|lia|apply disk0_ok|by vm_compute|by vm_compute].
Defined.

(** With a limit of one file the log is gone for good as soon as one message fills the
    file: rotation removes the file it has just opened, and whatever is logged afterwards is
    in no file of the directory. *)
Theorem single_file_lost fopen_ok remove_ok fstat_ok fwrite_n fmt_name moved_from MaxSize base m msgs d :
  (forall k, fopen_ok k = true) -> (forall k, remove_ok k = true) -> (forall k n, fwrite_n k n = n) ->
  dir d !! fmt_name base 0 = None -> MaxSize <= Zlen m < 2 ^ 64 ->
  exists b' d',
    (_ ← FileBackend_ctor fopen_ok fstat_ok fmt_name;
     sink_all fopen_ok remove_ok fstat_ok fwrite_n fmt_name moved_from MaxSize (m :: msgs)) (FileBackend_new base 1, d) =
      (Ok tt, (b', d')) /\
    content d' (fmt_name base 0) = None.
Proof. intros. by apply single_lost. Qed.

Lemma single_file_lost_witness :
  exists b' d',
    (_ ← FileBackend_ctor all_ok all_ok dotted_name;
     sink_all all_ok all_ok all_ok takes_all dotted_name as_is 2 [[1; 2]; [3]; [4]]) (FileBackend_new "app" 1, disk0) =
      (Ok tt, (b', d')) /\
    content d' (dotted_name "app" 0) = None.
Proof.
  apply (single_file_lost all_ok all_ok all_ok takes_all dotted_name as_is 2 "app" [1; 2] [[3]; [4]] disk0);
    [done|done|done|apply lookup_empty|by vm_compute].
Defined.

(** ** Loggers *)

(** One backend of the user, at level [LEVEL_INFO], whose calls succeed. *)
Definition log_nothing (_ : positive) (_ : list Z) (_ : Z) : EM unit unit := mret tt.
Definition flush_nothing (_ : positive) : EM unit unit := mret tt.
Definition no_date (_ : DateTime) : string := "".
(** A line of the log: the text of the message. *)
Definition bare_record (_ : string) (_ : Z) (_ : string) (_ : Z) (raw : list Z) (_ : string) (_ : Z) (_ : string) : list Z := raw.
Definition cap256 (n : Z) : Z := Z.max 256 n.
Definition here : SourceLoc := SourceLoc_ctor "src/main.cc" 7 "main".
Definition log_world : LogWorld unit :=
  mkLogWorld disk0 {[1%positive := Backend_new (UserBackend 1)]} [] [] ∅ tt [].
Definition app_logger : Logger := Logger_ctor "app" [1%positive].

(** C24: a message at or above the level of the logger is delivered: it is formatted once,
    gets the next number, goes in order to exactly the backends whose level it reaches, and
    these calls are followed by a flush of all the backends if it reaches the flush level.
    If something throws on the way, the calls up to there are made and the error handler is
    called once. *)
Theorem log_delivers {U} fopen_ok remove_ok fstat_ok fwrite_n fmt_name moved_from MaxSize
    (user_log : positive -> list Z -> Z -> EM U unit) user_flush fmt_datetime fmt_record fmt_capacity
    tid stamp loc level text l w l' w' :
  level_ l <= level ->
  Logger_Log fopen_ok remove_ok fstat_ok fwrite_n fmt_name moved_from MaxSize user_log user_flush fmt_datetime fmt_record
    fmt_capacity tid stamp loc level text (l, w) = (Ok tt, (l', w')) ->
  exists raw f tr, obs w' = obs w ++ tr /\
    let m := Msg_ctor fmt_capacity level tid stamp raw loc in
    let full := ((fun p => ObsLog p f level) <$> filter (fun p => wants w level p = true) (backends_ l)) ++
                (if ShouldFlushOn l m then ObsFlush <$> backends_ l else []) in
    (text = Ok raw /\ (exists t, text_of fmt_datetime fmt_record tid m l w = Ok (f, t)) /\
     msg_id_ l' = u64 (msg_id_ l + 1) /\ tr = full) \/
    (exists n e, tr = take n full ++ [ObsError e]).
Proof. apply Logger_Log_effect. Qed.

Lemma log_delivers_witness :
  exists raw f tr, [ObsLog 1 [72; 105] LEVEL_WARNING; ObsFlush 1] = [] ++ tr /\
    let m := Msg_ctor cap256 LEVEL_WARNING 9 1000000 raw here in
    let full := ((fun p => ObsLog p f LEVEL_WARNING) <$> filter (fun p => wants log_world LEVEL_WARNING p = true) [1%positive]) ++
                (if ShouldFlushOn app_logger m then ObsFlush <$> [1%positive] else []) in
    (Ok [72; 105] = Ok raw /\ (exists t, text_of no_date bare_record 9 m app_logger log_world = Ok (f, t)) /\
     1 = u64 (0 + 1) /\ tr = full) \/
    (exists n e, tr = take n full ++ [ObsError e]).
Proof.
  refine (log_delivers all_ok all_ok all_ok takes_all dotted_name as_is 2 log_nothing flush_nothing no_date bare_record cap256
    9 1000000 here LEVEL_WARNING (Ok [72; 105]) app_logger log_world
    (set_msg_id 1 app_logger)
    (mkLogWorld disk0 {[1%positive := Backend_new (UserBackend 1)]} [] [] {[9 := mkTls 1 ""]} tt
       [ObsLog 1 [72; 105] LEVEL_WARNING; ObsFlush 1]) _ _); [by vm_compute|by vm_compute].
Defined.

(** Whatever the backends of the user do and whatever fails, no exception leaves [Log];
    a message below the level of the logger changes nothing at all. *)
Theorem log_contained {U} fopen_ok remove_ok fstat_ok fwrite_n fmt_name moved_from MaxSize
    (user_log : positive -> list Z -> Z -> EM U unit) user_flush fmt_datetime fmt_record fmt_capacity
    tid stamp loc level text l w :
  let run := Logger_Log fopen_ok remove_ok fstat_ok fwrite_n fmt_name moved_from MaxSize user_log user_flush fmt_datetime
    fmt_record fmt_capacity tid stamp loc level text (l, w) in
  (~ exists e, fst run = Throw e) /\ (level < level_ l -> run = (Ok tt, (l, w))).
Proof.
  split; [intros [e He]; by apply Logger_Log_contained in He|apply Logger_Log_below].
Qed.

Lemma log_contained_witness :
  let run := Logger_Log all_ok all_ok all_ok takes_all dotted_name as_is 2 log_nothing flush_nothing no_date bare_record cap256
    9 1000000 here LEVEL_DEBUG (Ok [72; 105]) (set_level LEVEL_ERROR app_logger, log_world) in
  (~ exists e, fst run = Throw e) /\ (LEVEL_DEBUG < LEVEL_ERROR -> run = (Ok tt, (set_level LEVEL_ERROR app_logger, log_world))).
Proof.
  exact (log_contained all_ok all_ok all_ok takes_all dotted_name as_is 2 log_nothing flush_nothing no_date bare_record cap256
    9 1000000 here LEVEL_DEBUG (Ok [72; 105]) (set_level LEVEL_ERROR app_logger) log_world).
Defined.

(** The same logger with one file backend, and a file system on which writing fails. *)
Definition open_file : FileBackend :=
  mkFileBackend (mkRotate 1 3) "app" (mkFile (Some 1%positive) 0 0 "app.0.log") 3 (CQ_ctor "" 3).
Definition full_disk : Disk := mkDisk {["app.0.log" := 1%positive]} {[1%positive := []]} 0.
Definition takes_none (_ : nat) (_ : Z) : Z := 0.
Definition file_world : LogWorld unit :=
  mkLogWorld full_disk {[1%positive := mkBackend LEVEL_INFO (FileBackendOf open_file)]} [] [] ∅ tt [].

(** C40: a logger whose file backend cannot write a message catches the [hare::Exception] of
    the file and reports it once; the end of the catch block then destroys the exception,
    which deletes an object that was not made by [new]: the run is undefined. *)
Theorem failed_write_undefined {U} fopen_ok remove_ok fstat_ok fwrite_n fmt_name moved_from MaxSize
    (user_log : positive -> list Z -> Z -> EM U unit) user_flush fmt_datetime fmt_record fmt_capacity
    tid stamp loc level raw l w p ps blevel fb i f t :
  level_ l <= level -> backends_ l = p :: ps -> backs w !! p = Some (mkBackend blevel (FileBackendOf fb)) -> blevel <= level ->
  fp_ (file_ fb) = Some i ->
  text_of fmt_datetime fmt_record tid (Msg_ctor fmt_capacity level tid stamp raw loc) l w = Ok (f, t) ->
  fwrite_n (lib_calls (disk w)) (Zlen f) <> Zlen f ->
  exists w', Logger_Log fopen_ok remove_ok fstat_ok fwrite_n fmt_name moved_from MaxSize user_log user_flush fmt_datetime
      fmt_record fmt_capacity tid stamp loc level (Ok raw) (l, w) = (UB, (set_msg_id (u64 (msg_id_ l + 1)) l, w')) /\
    obs w' = obs w ++ [ObsLog p f level; ObsError Exception].
Proof.
  intros Hlv Hp Hb Hbl Hf Ht Hn.
  edestruct (Backend_Log_short fopen_ok remove_ok fstat_ok fwrite_n fmt_name moved_from MaxSize user_log p f level
    (set_tls tid t w) blevel fb i) as (w1 & E & Ho); [exact Hb|exact Hf|exact Hn|].
  exists (add_obs (ObsError Exception) w1). split.
  - eapply (Logger_Log_throws _ _ _ _ _ _ _ _ _ _ _ _ _ _ _ _ _ _ _ Exception); [done|].
    eapply SinkIt_throws; try done. unfold Backend_Check. simpl. rewrite Z.geb_leb. by apply Z.leb_le.
  - simpl. rewrite Ho, <- (assoc_L (++)). done.
Qed.

Lemma failed_write_undefined_witness :
  exists w', Logger_Log all_ok all_ok all_ok takes_none dotted_name as_is 2 log_nothing flush_nothing no_date bare_record cap256
      9 1000000 here LEVEL_INFO (Ok [72; 105]) (app_logger, file_world) = (UB, (set_msg_id 1 app_logger, w')) /\
    obs w' = [ObsLog 1 [72; 105] LEVEL_INFO; ObsError Exception].
Proof.
  refine (failed_write_undefined all_ok all_ok all_ok takes_none dotted_name as_is 2 log_nothing flush_nothing no_date
    bare_record cap256 9 1000000 here LEVEL_INFO [72; 105] app_logger file_world 1 [] LEVEL_INFO open_file 1 [72; 105]
    (mkTls 1 "") _ _ _ _ _ _ _); by vm_compute.
Defined.

(** ** The asynchronous logger *)

Definition moved_msg (m : AsyncMsg) : AsyncMsg := m.
Definition worker_tid (i : nat) : Z := Z.of_nat i + 9.
Definition empty_msg : Msg := Msg_default 0 256.
Definition info_msg : Msg := Msg_ctor cap256 LEVEL_INFO 5 1000000 [72; 105] here.
Definition error_msg : Msg := Msg_ctor cap256 LEVEL_ERROR 5 1000000 [72; 105] here.

#[local] Abbreviation step0 :=
  (async_step all_ok all_ok all_ok takes_all dotted_name as_is 2 log_nothing flush_nothing no_date bare_record
     empty_msg moved_msg worker_tid).
#[local] Abbreviation run0 :=
  (async_run all_ok all_ok all_ok takes_all dotted_name as_is 2 log_nothing flush_nothing no_date bare_record
     empty_msg moved_msg worker_tid).

(** A logger with one worker and a queue with room for one message. *)
Definition async0 : AsyncLogger :=
  mkAsyncLogger (app_logger, log_world) (CQ_ctor (AsyncMsg_of empty_msg LOG) 2) [Waiting] BLOCK_RETRY false.
Definition queue_of (h t : Z) (s : list AsyncMsg) : CircularQueue AsyncMsg := mkCQ 2 0 h t s.
Definition async1 (m : Msg) : AsyncLogger := set_queue (queue_of 0 1 [to_log m; to_log empty_msg]) async0.
(** What a message leaves behind when the worker has handled it. *)
Definition world1 (level : Z) : LogWorld unit :=
  mkLogWorld disk0 {[1%positive := Backend_new (UserBackend 1)]} [] [] {[9 := mkTls 1 ""]} tt [ObsLog 1 [72; 105] level].
Definition async2 (m : Msg) (w : Worker) : AsyncLogger :=
  mkAsyncLogger (set_msg_id 1 app_logger, world1 (msg_level m)) (queue_of 1 1 [to_log m; to_log empty_msg]) [w] BLOCK_RETRY false.

Lemma sink_step m : step0 async0 (EvSink m) (async1 m).
Proof. exact (astep_sink _ _ _ _ _ _ _ _ _ _ _ _ _ _ async0 m _ eq_refl eq_refl). Qed.

Lemma handle_info : step0 (async1 info_msg) (EvHandle 0 (to_log info_msg)) (async2 info_msg Waiting).
Proof.
  apply (astep_handle _ _ _ _ _ _ _ _ _ _ _ _ _ _ (async1 info_msg) 0 (to_log info_msg) _ Continue); [done|done|done|].
  by vm_compute.
Qed.

Lemma handle_error : step0 (async1 error_msg) (EvHandle 0 (to_log error_msg)) (async2 error_msg Posting).
Proof.
  apply (astep_handle _ _ _ _ _ _ _ _ _ _ _ _ _ _ (async1 error_msg) 0 (to_log error_msg) _ PostFlush); [done|done|done|].
  by vm_compute.
Qed.

(** C33: an asynchronous logger with one worker is the synchronous logger, a bit later: for
    messages below WARNING (so below the flush level), no call of [Flush] nor the destructor
    meanwhile, no backend that throws, and any interleaving of the threads that log with the
    worker, the messages handled so far are those posted first, in order, the others are
    still in the queue, and logger, backends and world are in the very state in which the
    synchronous logger, run on the worker's thread, would have left them. *)
Theorem async_is_sync {U} fopen_ok remove_ok fstat_ok fwrite_n fmt_name moved_from MaxSize
    (user_log : positive -> list Z -> Z -> EM U unit) user_flush fmt_datetime fmt_record msg_default msg_moved tid_of
    name backends max_msg w a tr a' :
  2 <= max_msg < 2 ^ 63 -> AsyncLogger_ctor msg_default name backends max_msg 1 w = Ok a ->
  Forall (logging LEVEL_WARNING) tr ->
  async_run fopen_ok remove_ok fstat_ok fwrite_n fmt_name moved_from MaxSize user_log user_flush fmt_datetime fmt_record
    msg_default msg_moved tid_of a tr a' ->
  exists finished waiting, sunk tr = finished ++ waiting /\ handled_msgs tr = to_log <$> finished /\
    items (to_log msg_default) (pool_queue a') = to_log <$> waiting /\
    sync_run fopen_ok remove_ok fstat_ok fwrite_n fmt_name moved_from MaxSize user_log user_flush fmt_datetime fmt_record
      (tid_of 0%nat) finished (Logger_ctor name backends, w) = (Ok tt, core a').
Proof.
  intros Hm Hctor Hall Hrun. injection Hctor as <-.
  destruct (CQ_ctor_ok (to_log msg_default) max_msg ltac:(lia)) as [Hok Hit].
  eapply one_worker_run with (ms := []) in Hrun as (dn & rest & Heq & Hh & Hone & Hs); [| |exact Hall].
  - exists dn, rest. split_and!; [exact Heq|done|apply Hone|exact Hs].
  - split; try done. simpl. lia.
Qed.

Lemma async_is_sync_witness :
  exists finished waiting, [info_msg] = finished ++ waiting /\ [to_log info_msg] = to_log <$> finished /\
    items (to_log empty_msg) (pool_queue (async2 info_msg Waiting)) = to_log <$> waiting /\
    sync_run all_ok all_ok all_ok takes_all dotted_name as_is 2 log_nothing flush_nothing no_date bare_record
      9 finished (app_logger, log_world) = (Ok tt, core (async2 info_msg Waiting)).
Proof.
  apply (async_is_sync all_ok all_ok all_ok takes_all dotted_name as_is 2 log_nothing flush_nothing no_date bare_record
    empty_msg moved_msg worker_tid "app" [1%positive] 2 log_world async0
    [EvSink info_msg; EvHandle 0 (to_log info_msg)] (async2 info_msg Waiting)); [done|done| |].
  - repeat constructor.
  - eapply arun_cons; [apply sink_step|]. eapply arun_cons; [apply handle_info|]. apply arun_nil.
Defined.

(** A worker that has to flush while the queue is full. *)
Definition async3 : AsyncLogger :=
  set_queue (queue_of 1 0 [to_log error_msg; to_log error_msg]) (async2 error_msg Posting).

Lemma async3_reached : run0 async0 [EvSink error_msg; EvHandle 0 (to_log error_msg); EvSink error_msg] async3.
Proof.
  eapply arun_cons; [apply sink_step|]. eapply arun_cons; [apply handle_error|]. eapply arun_cons; [|apply arun_nil].
  exact (astep_sink _ _ _ _ _ _ _ _ _ _ _ _ _ _ (async2 error_msg Posting) error_msg _ eq_refl eq_refl).
Qed.

Lemma async3_stuck : stuck async3.
Proof. split; [by split|done|done|]. intros [|[|i]]; done. Qed.

(** C39: when every worker of an asynchronous logger waits for room to post its request to
    flush and the queue is full, the logger is dead: no message is ever handled again, no
    worker moves, and under the blocking policy nothing can happen any more, so that every
    call of [Log], [Flush] and the destructor waits forever.  (The state is reached with one
    worker by two messages at the flush level.) *)
Theorem async_stuck {U} fopen_ok remove_ok fstat_ok fwrite_n fmt_name moved_from MaxSize
    (user_log : positive -> list Z -> Z -> EM U unit) user_flush fmt_datetime fmt_record msg_default msg_moved tid_of a tr a' :
  stuck a ->
  async_run fopen_ok remove_ok fstat_ok fwrite_n fmt_name moved_from MaxSize user_log user_flush fmt_datetime fmt_record
    msg_default msg_moved tid_of a tr a' ->
  stuck a' /\ workers a' = workers a /\ core a' = core a /\ handled_msgs tr = [] /\
  (msg_policy_ a = BLOCK_RETRY -> tr = []).
Proof. apply stuck_run. Qed.

Lemma async_stuck_witness :
  run0 async0 [EvSink error_msg; EvHandle 0 (to_log error_msg); EvSink error_msg] async3 /\
  stuck async3 /\ workers async3 = workers async3 /\ core async3 = core async3 /\ handled_msgs [] = [] /\
  (msg_policy_ async3 = BLOCK_RETRY -> @nil async_event = []).
Proof.
  split; [exact async3_reached|].
  apply (async_stuck all_ok all_ok all_ok takes_all dotted_name as_is 2 log_nothing flush_nothing no_date bare_record
    empty_msg moved_msg worker_tid async3 [] async3); [exact async3_stuck|apply arun_nil].
Defined.

(** ** Type-erased values, console, sockets *)

(** C34: [AnyCast] reads an object only as what it is, provided that the tags of the types,
    addresses of static variables, are distinct: the comparison of tags before the
    [static_cast] lets through exactly the objects of the type asked for.  The reference form
    then gives their value and otherwise throws, the pointer form gives null, for an empty
    object and a null pointer too, and nothing is undefined.  With two types that share a
    tag, an object of the one read as the other is undefined. *)
Theorem any_type_safe {Ty} `{EqDecision Ty} (value : Ty -> Type) (dummy_var : option Ty -> Z) (t : Ty) :
  (Inj (=) (=) dummy_var -> forall a : Any value,
     (held value a = Some t -> exists v, a = Any_of value t v /\
        AnyCast value dummy_var t a = Ok v /\ AnyCast_ptr value dummy_var t (Some a) = Ok (Some v)) /\
     (held value a <> Some t ->
        AnyCast value dummy_var t a = Throw Exception /\ AnyCast_ptr value dummy_var t (Some a) = Ok None)) /\
  AnyCast_ptr value dummy_var t None = Ok None /\
  (forall t' v, t <> t' -> dummy_var (Some t) = dummy_var (Some t') ->
     AnyCast value dummy_var t' (Any_of value t v) = UB).
Proof.
  split_and!; [|done|intros t' v; apply AnyCast_collision]. intros Hinj a. unfold AnyCast.
  destruct (AnyCast_ptr_spec value dummy_var t a Hinj) as [[Hh E]|(v & -> & E)]; rewrite E; ored; split; intros Ht; try done.
  by exists v.
Qed.

(** Two types, and the addresses of three variables. *)
Definition two_types (b : bool) : Type := if b then Z else string.
Definition tags (t : option bool) : Z := match t with None => 4096 | Some true => 4097 | Some false => 4098 end.

Lemma tags_inj : Inj (=) (=) tags.
Proof. by intros [[]|] [[]|]. Qed.

Lemma any_type_safe_witness :
  AnyCast two_types tags true (Any_of two_types true 7) = Ok 7 /\
  AnyCast two_types tags true (Any_of two_types false "text") = Throw Exception /\
  AnyCast two_types (fun _ => 0) true (Any_of two_types false "text") = UB.
Proof.
  destruct (any_type_safe two_types tags true) as [H _]. split; [|split].
  - destruct (proj1 (H tags_inj (Any_of two_types true 7)) eq_refl) as (v & E & -> & _).
    apply (f_equal (static_value two_types true)) in E. by injection E as <-.
  - apply (proj2 (H tags_inj (Any_of two_types false "text")) ltac:(done)).
  - destruct (any_type_safe two_types (fun _ => 0) false) as (_ & _ & Hc). by apply Hc.
Defined.

(** A line that is read from the console goes, without the newlines at its end, to the
    handler registered for it, and to the default handler if there is none. *)
Theorem console_dispatch c events text b k bytes :
  CHECK_EVENT events EVENT_READ = true -> b <> NEWLINE ->
  Console_Process c (console_event c) events (Zlen (text ++ [b] ++ replicate k NEWLINE))
      (text ++ [b] ++ replicate k NEWLINE ++ bytes) =
    Ok (match handlers c !! (text ++ [b]) with
        | Some t => CallTask t
        | None => CallDefault (Hook_call (default_handle c)) (text ++ [b])
        end).
Proof. apply Console_Process_spec. Qed.

Definition console0 : ConsoleImpl := mkConsole 1 {[ [113; 117; 105; 116] := 5%positive ]} (Hook_ctor 8%positive) true.

Lemma console_dispatch_witness :
  Console_Process console0 1 EVENT_READ 5 ([113; 117; 105] ++ [116] ++ replicate 1 NEWLINE ++ []) = Ok (CallTask 5).
Proof.
  exact (console_dispatch console0 EVENT_READ [113; 117; 105] 116 1 [] eq_refl ltac:(done)).
Defined.

(** C36: [CreatePair] leaks no descriptor.  Whatever the system calls return, with descriptors
    that are new when they are handed out, it closes only what is open; when it fails the
    descriptors that are open are those that were open before, and when it succeeds they are
    those and the two of the pair. *)
Theorem pair_closed c family type protocol given s :
  new_fds c s ->
  exists r s', CreatePair c family type protocol given s = Ok (r, s') /\ bad_closes s' = bad_closes s /\
    ((ret r = -1 /\ fds r = None /\ open_fds s' = open_fds s) \/
     (ret r = 0 /\ fds r = Some (c_connector c, c_acceptor c) /\ c_connector c <> c_acceptor c /\
      open_fds s' = {[c_connector c; c_acceptor c]} ∪ open_fds s)).
Proof. apply CreatePair_no_leak. Qed.

(** The second [getsockname] fails: three sockets are closed.  0, 1 and 2 stay open. *)
Definition std_fds : FdTable := mkFds {[0; 1; 2]} [].
Definition pair_calls : PairCalls :=
  mkPairCalls 3 (-1) 0 4 0 16 (-1) 5 16 (mkSockaddr AF_INET 80 1 [] 0) (-1) 16 (mkSockaddr AF_INET 80 1 [] 0) 22.

Lemma pair_closed_witness :
  exists r s', CreatePair pair_calls AF_INET 1 0 true std_fds = Ok (r, s') /\ bad_closes s' = [] /\ ret r = -1 /\
    open_fds s' = {[0; 1; 2]}.
Proof.
  destruct (pair_closed pair_calls AF_INET 1 0 true std_fds) as (r & s' & Hr & Hb & H).
  { split; vm_compute; repeat split; try discriminate; intros; discriminate. }
  exists r, s'. split; [exact Hr|]. split; [exact Hb|]. destruct H as [(H1 & _ & H2)|(H1 & _)]; [by split|].
  vm_compute in Hr. injection Hr as <- _. discriminate.
Defined.

(** C35: the text of an address with its port always fits the buffer it is written to: for
    both families nothing is cut off and no assertion fails, given that [inet_ntop] keeps to
    the lengths it documents and a port has at most five digits. *)
Theorem address_fits inet_ntop4 inet_ntop6 decimal s :
  (forall a, Zlen (inet_ntop4 a) < INET_ADDRSTRLEN) -> (forall a, Zlen (inet_ntop6 a) < INET6_ADDRSTRLEN) ->
  (forall p, 0 <= p < 2 ^ 16 -> Zlen (decimal p) <= 5) -> 0 <= NetworkToHost16 (sin_port s) < 2 ^ 16 ->
  let port := decimal (NetworkToHost16 (sin_port s)) in
  (sin_family s = AF_INET ->
     ToIpPort inet_ntop4 inet_ntop6 decimal (mkAddress (Some s)) = Ok (inet_ntop4 (s_addr s) ++ 58 :: port)) /\
  (sin_family s = AF_INET6 ->
     ToIpPort inet_ntop4 inet_ntop6 decimal (mkAddress (Some s)) =
       Ok (91 :: inet_ntop6 (sin6_addr s) ++ 93 :: 58 :: port)).
Proof. apply ToIpPort_spec. Qed.

(** One address as text, and the last digit of a port. *)
Definition some_text4 (_ : Z) : list Z := [49; 46; 50; 46; 51; 46; 52].
Definition some_text6 (_ : list Z) : list Z := [58; 58; 49].
Definition last_digit (p : Z) : list Z := [48 + p mod 10].
Definition addr6 : sockaddr := mkSockaddr AF_INET6 (HostToNetwork16 80) 0 in6addr_loopback 0.

Lemma address_fits_witness :
  ToIpPort some_text4 some_text6 last_digit (mkAddress (Some addr6)) = Ok [91; 58; 58; 49; 93; 58; 48].
Proof.
  destruct (address_fits some_text4 some_text6 last_digit addr6) as [_ H]; [done|done|done|by vm_compute|].
  exact (H eq_refl).
Defined.
